(* ===== verification/_CoqProject ===== *)
-Q . S2P
Prelude.v
PyText.v
Binary64.v
PyValue.v
JsonDumps.v
JsonLoads.v
JsonRoundTrip.v
JsonLoadsFacts.v
JsonAscii.v
Sha256.v
Timestamp.v
RecordFormat.v
EventSpec.v
RecordFacts.v
CanonicalBytes.v
RecordLaws.v
FloatCanonical.v
ChainStore.v
ChainSpec.v
ChainLogger.v
ChainCheck.v
LoggerFacts.v
CheckFacts.v
Samples.v
FormatTheorems.v
FloatTheorems.v
ChainTheorems.v
Calendar.v
FloatOps.v
FloatCheck.v
FloatCheckTheorems.v
Anchor.v
AnchorStore.v
AnchorWorker.v
BackoffFacts.v
AnchorStoreFacts.v
WorkerFacts.v
JobSpec.v
RunFacts.v
RunProgress.v
AnchorFacts.v
ChainSharing.v
ChainSharingFacts.v
SharingTheorems.v
AnchorNetwork.v
NetworkTheorems.v
WorkerTheorems.v
AnchorBackend.v
WorkerCommand.v
WorkerSharing.v
WorkerSharingFacts.v
WorkerAlone.v
WorkerRace.v
WorkerRecovery.v
WorkerSharingTheorems.v
AnchoredHistory.v
CollectorModels.v
CollectorTls.v
CollectorServer.v
CollectorFacts.v
CollectorSteps.v
CollectorTheorems.v
CollectorLog.v
LogTheorems.v
OcsfMapper.v
OcsfOutput.v
OcsfFacts.v
OcsfTheorems.v
OcsfCommand.v
CollectorConfig.v
ConfigTheorems.v
CollectorMain.v
MainTheorems.v
RevocationTheorems.v
EndToEnd.v
AnchoredEvents.v
Keys.v
KeysTheorems.v
