(* ===== verification/Prelude.v ===== *)
(** * Vestrix: a verification library for the Python parts of the system

    Vestrix is a physical intrusion sensor system.  Sensor nodes send channel
    state events to the collector over mutually authenticated TLS; the collector
    hands each accepted event to the forensic logger, which appends it to a
    hash chain of signed records; the anchor worker has OpenTimestamps certify
    the tip of the chain; and the mapper turns alerts into the two formats of a
    security operations center.  This library models these programs as pure
    functions and step relations, and proves what they promise.

    ** Parts

    - Python and its standard library, as far as the programs use them.
      [PyText] (code points, UTF-8, hexadecimal, blanks), [Binary64] and
      [FloatOps] (floats: reading and printing decimals, products, sums,
      comparisons and rounding), [PyValue] (JSON values and dicts),
      [JsonDumps] and [JsonLoads] ([json.dumps], [json.loads]) with their laws in
      [JsonRoundTrip] and [JsonLoadsFacts], [JsonAscii] ([ensure_ascii], with its
      own round trip), [Sha256], [Timestamp] (the timestamp
      expression and [datetime.fromisoformat]) and [Calendar] (instants as
      microseconds, the proleptic calendar, [isoformat]).
    - [forensics/_format.py]: [RecordFormat], one definition per function.
      [EventSpec] says what an event and a stored record are, [RecordFacts] that
      the checks decide exactly that; [CanonicalBytes] and [RecordLaws] give the
      laws of the canonical encoding; [FormatTheorems] the properties.
    - [forensics/float_canonical.py] and [check_float_canonicalization.py]:
      [FloatCanonical], [FloatTheorems]; the whole check, with [cargo] as a
      function, is [FloatCheck], [FloatCheckTheorems].
    - [forensics/_store.py], [logger.py], [chain_check.py]: [ChainStore] (the
      reader as a fold whose body may raise, the tip), [ChainLogger] ([log_event]
      as a function of the file and of what the lock, the directory and the write
      do), [ChainCheck].  [ChainSpec] is the abstract chain: which octets are a
      valid file, with which records.  [LoggerFacts], [CheckFacts] and
      [ChainTheorems] relate the two; [Samples] holds concrete events.
      [ChainSharing] lets any number of writers, verifiers and anchor reads take
      turns on one file, step by step, each under the lock; [ChainSharingFacts]
      and [SharingTheorems] show that they act as the sequential functions do.
    - [forensics/anchor.py]: [Anchor].  The OpenTimestamps library is the class
      [OpenTimestamps], its documented laws the class [OpenTimestampsLaws] of
      [AnchorFacts], with an instance that shows they can hold.  The two default
      network functions are [AnchorNetwork], with the tree of a timestamp as the
      class [TimestampNodes] and the calendars as a function of the requests;
      [NetworkTheorems].
    - [forensics/anchor_worker.py]: [AnchorStore] (the table and each
      transaction), [AnchorWorker] (backoff, one job, one run).  [BackoffFacts],
      [AnchorStoreFacts], [WorkerFacts], [RunFacts], [RunProgress] carry the
      lemmas, [JobSpec] what one job may do, [WorkerTheorems] the properties.  [AnchorBackend] puts the backend
      of [anchor.py] under the worker.  [WorkerSharing] cuts a run into its
      transactions and file system calls, and lets any number of runs interleave
      and die between two of them; [WorkerSharingFacts] has the invariants,
      [WorkerAlone] that a run alone is [run_once], [WorkerRace] an interleaving
      that loses an upgraded proof, [WorkerRecovery] what killed runs leave behind, [WorkerSharingTheorems] the properties, and
      [AnchoredHistory] ties the proofs on disk to the chain.  [WorkerCommand]:
      the paths of [logger.py] and the command line.
    - [collector/vestrix_collector]: [CollectorModels] ([models.py] and the
      adapter [forensics.py]), [CollectorTls] (the TLS context; OpenSSL is the
      class [TlsLibrary]), [CollectorServer] ([server.py]: one connection as
      a list of effects and a new state), [CollectorSteps] (start, accept,
      reload and close, with handlers that interleave and share the log file), [CollectorFacts],
      [CollectorTheorems]; [CollectorConfig] and [ConfigTheorems] ([config.py]);
      [CollectorLog] and [LogTheorems] ([logging.py]: what the log and the peer
      see of a connection); [CollectorMain] and [MainTheorems] ([__main__.py]: the
      process, its signal handler, the reload task and the shut-down);
      [RevocationTheorems] puts the process, the server and the context together,
      [EndToEnd] the connections and the chain, [AnchoredEvents] these and the
      proofs of the worker.
    - [soc-integration/ocsf/mapper.py]: [OcsfMapper] (validation), [OcsfOutput]
      (the Wazuh object and the OCSF finding), [OcsfFacts], [OcsfTheorems];
      [OcsfCommand] (the command, from the alert file to the printed text).
    - [forensics/keys.py]: [Keys], [KeysTheorems]; the [cryptography] package is
      the class [KeyLibrary] with the laws [KeyLaws].

    ** How state and failures are modelled

    A call is a function to [res], a value or the exception.  A chain file is
    [None] or its octets; proof and key files are finite maps.  What the world
    does during a call is an argument: the step at which an [OSError] comes, how
    many octets were written, whether the lock was acquired, the signature, the
    random sample, what other processes do.  The table of the anchor worker is a
    list of rows, and each transaction a function on it; the threads of the
    collector and the workers on one database are step relations whose
    invariants hold in every interleaving.  Integers are Python's, unbounded;
    where the code bounds them the bound is written out, and conversions to
    floats may overflow.

    ** What the theorems show

    - Chain: [log_event] appends one record to a valid file or leaves an invalid
      one alone; the reader accepts exactly the abstract chains and names the
      first bad line; the verifier accepts exactly the chains whose signatures
      the key verifies; a torn write is detected; the tip hash commits to the
      whole history, unless SHA-256 collides (the statements exhibit the
      collision).  Calls of several processes that share the file take effect one
      at a time, in the order in which they release the lock, and return what the
      sequential functions return; without write faults their file verifies.
    - Encoding: the canonical bytes of a record and the canonical text of a float
      read back; [json.loads] always ends; the interoperability vector of
      CHAIN_FORMAT.md is reproduced; the vector check passes exactly when both
      implementations give the expected texts.
    - Anchoring: the lifecycle table keeps its invariant under every interleaving
      of transactions; what a run does to each due job, its row and its file, is
      the inductive specification of [JobSpec], exception by exception: an
      integrity error is final, a configuration error stops the run before the
      next job, every other one is retried within 15 minutes to 30 hours; a valid
      proof stays on disk for every pending or upgraded row; proofs appear whole.
      Runs that overlap and runs that are killed leave a whole proof of its tip
      for every pending or upgraded row; after kills without overlap the next run
      takes up a proof that was published without its transaction and leaves no
      job due; a proof that is accepted for a record of a later store
      fixes the whole history before it, and with it every event that a collector
      accepted; a row gets from the queue to a Bitcoin
      attestation when the calendars answer;
      the default upgrader asks the whitelisted calendars of the first attested
      nodes, each once, and its result is that of merging their answers in order.
    - Collector: frames and packets are accepted exactly when they fit; each
      connection gets one decision; no sequence number is handed off twice; an
      accepted event is a record of the chain, and the records that a collector
      adds are exactly its accepted events, on a chain that verifies; handlers
      see one security state as it was published; closing ends with every handler finished; the log has one
      line of JSON per decision, with its reason, and the peer gets that reason;
      reloads never put an old state back, a request to an idle process is
      served, and an interrupted process can always end; once a certificate is
      withdrawn and that is loaded, no later connection with it is recorded.
    - Mapper: validation accepts exactly the alerts of an explicit schema, wider
      than SCHEMA.md in two named points; outputs are
      total on them; severity, score and time are what they should be; the
      command prints one line that reads back as the output.
    - Keys and configuration: files of others are never lost, a saved pair loads
      back; a configuration is returned exactly for the files that fit.

    ** Bounds and fuel

    The JSON scanner takes the length of the text plus one as fuel, the loop of
    [_read_json_line] the limit plus two; both are proved never to run out
    ([json_loads_total], [read_json_line_exact]).  The walk over the tree of a
    timestamp takes its depth plus one, which reaches every node.  The search for the shortest
    decimal of a float tries up to 17 digits, which always suffice.

    ** Not modelled

    The TLS handshake (its outcome is a function of the context) and sockets; a
    start of the server while its close is waiting; a loss of power (a killed
    process loses no write that returned); the SQL text, the inside
    of [argparse], the registration of handlers in [logging] and [asyncio], the
    text of the diff of the vector check and the interpreter's recursion limit:
    calls of libraries and of the operating system without decisions of their
    own.  The Rust verifier, the firmware, the scripts and the configuration
    files are other languages; the tests are not part of the program. *)

From Stdlib Require Export ZArith Lia Bool.
From stdpp Require Export base numbers list.
From stdpp Require Import relations.
#[global] Open Scope Z_scope.
#[global] Set Default Goal Selector "1".

(** ** Results: a Python call either returns or raises *)

(** [Ok a] is a normal return of [a], [Err e] the exception [e]. *)
Inductive res (E A : Type) : Type :=
| Ok (a : A)
| Err (e : E).
Arguments Ok {E A} a.
Arguments Err {E A} e.

#[global] Instance res_eq_dec `{EqDecision E, EqDecision A} : EqDecision (res E A).
Proof. solve_decision. Defined.

#[global] Instance res_ret {E} : MRet (res E) := fun A a => Ok a.
#[global] Instance res_bind {E} : MBind (res E) := fun A B f m =>
  match m with Ok a => f a | Err e => Err e end.
#[global] Instance res_fmap {E} : FMap (res E) := fun A B f m =>
  match m with Ok a => Ok (f a) | Err e => Err e end.

(** [if not b: raise e]. *)
Definition ensure {E} (b : bool) (e : E) : res E unit :=
  if b then Ok tt else Err e.

(** [except e: raise f(e)]. *)
Definition map_err {E F A} (f : E -> F) (m : res E A) : res F A :=
  match m with Ok a => Ok a | Err e => Err (f e) end.

Definition is_ok {E A} (m : res E A) : bool :=
  match m with Ok _ => true | Err _ => false end.

(** A [for] loop whose body may raise: the first exception stops it. *)
Fixpoint for_each {E A} (f : A -> res E unit) (l : list A) : res E unit :=
  match l with
  | [] => Ok tt
  | x :: l => f x ≫= fun _ => for_each f l
  end.

Section res_lemmas.
Context {E A B : Type}.

Lemma bind_Ok (f : A -> res E B) (m : res E A) (b : B) :
  m ≫= f = Ok b <-> exists a, m = Ok a /\ f a = Ok b.
Proof. destruct m; cbn; naive_solver. Qed.

Lemma bind_Err (f : A -> res E B) (m : res E A) (e : E) :
  m ≫= f = Err e <-> m = Err e \/ exists a, m = Ok a /\ f a = Err e.
Proof. destruct m; cbn; naive_solver. Qed.

Lemma ensure_Ok (b : bool) (e : E) x : ensure b e = Ok x <-> b = true.
Proof. destruct b, x; cbn; naive_solver. Qed.

Lemma ensure_Err (b : bool) (e e' : E) : ensure b e = Err e' <-> b = false /\ e' = e.
Proof. destruct b; cbn; naive_solver. Qed.

Lemma map_err_Ok {F} (f : E -> F) (m : res E A) a : map_err f m = Ok a <-> m = Ok a.
Proof. destruct m; cbn; naive_solver. Qed.

Lemma map_err_Err {F} (f : E -> F) (m : res E A) e :
  map_err f m = Err e <-> exists e', m = Err e' /\ e = f e'.
Proof. destruct m; cbn; naive_solver. Qed.

Lemma is_ok_true (m : res E A) : is_ok m = true <-> exists a, m = Ok a.
Proof. destruct m; cbn; naive_solver. Qed.

Lemma for_each_Ok (f : A -> res E unit) (l : list A) x :
  for_each f l = Ok x <-> Forall (fun y => f y = Ok tt) l.
Proof.
  destruct x. induction l as [|y l IH]; cbn; [naive_solver|].
  rewrite Forall_cons. destruct (f y) as [[]|e] eqn:Ey; cbn; naive_solver.
Qed.
Lemma Ok_bind (a : A) (f : A -> res E B) : Ok a ≫= f = f a.
Proof. done. Qed.

Lemma then_Ok (m : res E unit) (k : res E B) b : (_ ← m; k) = Ok b <-> m = Ok tt /\ k = Ok b.
Proof. destruct m as [[]|]; cbn; naive_solver. Qed.
End res_lemmas.

Create HintDb py discriminated.
#[export] Hint Rewrite @bind_Ok @bind_Err @ensure_Ok @ensure_Err @map_err_Ok
  @map_err_Err @for_each_Ok : py.

(** [inv_ok] takes apart a hypothesis saying that a chain of binds returned. *)
Ltac inv_ok :=
  repeat match goal with
  | H : (_ ≫= _) = Ok _ |- _ => apply bind_Ok in H as (? & ? & H)
  | H : ensure _ _ = Ok _ |- _ => apply ensure_Ok in H
  | H : map_err _ _ = Ok _ |- _ => apply map_err_Ok in H
  | H : Ok _ = Ok _ |- _ => injection H as H
  | H : mret _ = Ok _ |- _ => injection H as H
  | H : Err _ = Ok _ |- _ => discriminate H
  | H : Ok _ = Err _ |- _ => discriminate H
  | H : andb _ _ = true |- _ => apply andb_true_iff in H as [? H]
  | x : unit |- _ => destruct x
  end.

(** Boolean comparisons on [Z] as propositions. *)
Ltac zbool :=
  repeat progress (rewrite ?orb_true_iff, ?orb_false_iff, ?andb_true_iff, ?andb_false_iff,
    ?negb_true_iff, ?negb_false_iff in * );
  rewrite ?Z.leb_le, ?Z.ltb_lt, ?Z.eqb_eq, ?Z.leb_gt, ?Z.ltb_ge, ?Z.eqb_neq in *.

(** Lengths of concatenations. *)
Ltac len := repeat progress (rewrite ?length_app in *; cbn [length] in * ); lia.

(** ** Lists *)

Lemma elem_of_lfilter {A} (p : A -> bool) x l : x ∈ List.filter p l <-> x ∈ l /\ p x = true.
Proof. by rewrite !list_elem_of_In, filter_In. Qed.

Lemma lfilter_all {A} (p : A -> bool) l : Forall (fun x => p x = true) l -> List.filter p l = l.
Proof. induction 1 as [|x l Hx _ IH]; cbn; [done|]. by rewrite Hx, IH. Qed.

(** ** Integer lemmas shared by the components *)

Lemma Z_to_nat_S (z : Z) : 0 <= z -> Z.to_nat (z + 1) = S (Z.to_nat z).
Proof. lia. Qed.

(** Rounding of [num / den] to the nearest integer, ties to the even one. *)
Definition round_half_even (num den : Z) : Z :=
  let q := num / den in
  let r := num mod den in
  match Z.compare (2 * r) den with
  | Lt => q
  | Gt => q + 1
  | Eq => if Z.even q then q else q + 1
  end.

Lemma round_half_even_scale (c num den : Z) :
  0 < c -> 0 < den -> round_half_even (num * c) (den * c) = round_half_even num den.
Proof.
  intros Hc Hd. unfold round_half_even.
  rewrite Z.div_mul_cancel_r by lia. rewrite Z.mul_mod_distr_r by lia.
  replace (2 * (num mod den * c)) with ((2 * (num mod den)) * c) by lia.
  rewrite <- (Zmult_compare_compat_r (2 * (num mod den)) den c) by lia. done.
Qed.

Lemma round_half_even_exact (q den : Z) : 0 < den -> round_half_even (q * den) den = q.
Proof.
  intros Hd. unfold round_half_even. rewrite Z.div_mul, Z.mod_mul by lia.
  destruct (Z.compare_spec (2 * 0) den); lia.
Qed.

Lemma round_half_even_bounds (num den : Z) :
  0 < den -> 2 * num - den <= 2 * den * round_half_even num den <= 2 * num + den.
Proof.
  intros Hd. unfold round_half_even.
  pose proof (Z.div_mod num den ltac:(lia)). pose proof (Z.mod_pos_bound num den Hd).
  destruct (Z.compare_spec (2 * (num mod den)) den); [destruct (Z.even _)|..]; nia.
Qed.

(** ** Step relations *)

(** One element changes: the rest of what a list maps to stays. *)
Lemma flat_map_update {A B} (f : A -> list B) (l : list A) i x y :
  l !! i = Some x -> exists rest, flat_map f l ≡ₚ f x ++ rest /\ flat_map f (<[i := y]> l) ≡ₚ f y ++ rest.
Proof.
  intros Hi. exists (flat_map f (take i l) ++ flat_map f (drop (S i) l)).
  pose proof (lookup_lt_Some _ _ _ Hi) as Hlt.
  rewrite insert_take_drop by done. rewrite <- (take_drop_middle l i x Hi) at 1.
  rewrite !flat_map_app. cbn [flat_map]. split; solve_Permutation.
Qed.

(** A property that every step keeps holds wherever the steps lead. *)
Lemma rtc_invariant {A} (R : relation A) (P : A -> Prop) x y :
  (forall a b, P a -> R a b -> P b) -> rtc R x y -> P x -> P y.
Proof. intros HR. induction 1 as [|a b c Hab _ IH]; eauto. Qed.
