(* ===== verification/PyText.v ===== *)
(** Text and bytes.

    A Python [str] is modelled by its sequence of code points (so that lone
    surrogates, which [_format.py] rejects, exist in the model), a [bytes]
    object by its sequence of octets.  The file holds the code-point order
    [sort_keys=True] uses, hexadecimal and decimal renderings, and the codecs
    of the standard library that the sources call: UTF-8 (strict and
    [surrogatepass]), UTF-16 and UTF-32 decoding as [json.loads] selects them. *)

From S2P Require Import Prelude.
From Stdlib Require Strings.String Strings.Ascii.
From Stdlib Require Import Wf_nat.
Export Stdlib.Strings.String.StringSyntax.

(** ** Representation *)

Notation pystr := (list Z) (only parsing).
Notation bytes := (list Z) (only parsing).

(** [u "text"] is the Python literal "text" (ASCII literals only). *)
Definition u (s : String.string) : pystr :=
  map (fun a => Z.of_N (Ascii.N_of_ascii a)) (String.list_ascii_of_string s).
Arguments u s%_string_scope : simpl never.

(** A Unicode code point, and the surrogates among them. *)
Definition is_codepoint (c : Z) : bool := (0 <=? c) && (c <=? 0x10FFFF).
Definition is_surrogate (c : Z) : bool := (0xD800 <=? c) && (c <=? 0xDFFF).
Definition is_scalar (c : Z) : bool := is_codepoint c && negb (is_surrogate c).
Definition is_byte (b : Z) : bool := (0 <=? b) && (b <? 256).
(** Every value of type [str], of type [bytes]. *)
Definition str_ok (s : pystr) : Prop := Forall (fun c => is_codepoint c = true) s.
Definition bytes_ok (s : bytes) : Prop := Forall (fun c => is_byte c = true) s.

Definition is_digit (c : Z) : bool := (48 <=? c) && (c <=? 57).
Definition is_lower_hex (c : Z) : bool := is_digit c || ((97 <=? c) && (c <=? 102)).
Definition LF : Z := 10.

(** ** The order of strings: lexicographic on code points *)

Fixpoint str_leb (a b : pystr) : bool :=
  match a, b with
  | [], _ => true
  | _ :: _, [] => false
  | x :: a, y :: b => (x <? y) || ((x =? y) && str_leb a b)
  end.

Lemma str_leb_refl a : str_leb a a = true.
Proof. induction a as [|x a IH]; cbn; [done|]. rewrite Z.ltb_irrefl, Z.eqb_refl. done. Qed.

Lemma str_leb_antisym a b : str_leb a b = true -> str_leb b a = true -> a = b.
Proof.
  revert b; induction a as [|x a IH]; intros [|y b]; cbn; try done.
  intros H1 H2. zbool. destruct H1 as [?|[-> H1]], H2 as [?|[? H2]]; try lia.
  f_equal; auto.
Qed.

Lemma str_leb_trans a b c : str_leb a b = true -> str_leb b c = true -> str_leb a c = true.
Proof.
  revert b c; induction a as [|x a IH]; intros [|y b] [|z c]; cbn; try done.
  intros H1 H2. zbool.
  destruct H1 as [?|[-> H1]], H2 as [?|[-> H2]]; try (left; lia). right; eauto.
Qed.

Lemma str_leb_total a b : str_leb a b = true \/ str_leb b a = true.
Proof.
  revert b; induction a as [|x a IH]; intros [|y b]; cbn; auto.
  destruct (Z.lt_trichotomy x y) as [?|[->|?]].
  - left. zbool. auto.
  - destruct (IH b); [left|right]; zbool; auto.
  - right. zbool. auto.
Qed.

#[export] Hint Resolve str_leb_refl : py.

(** ** Decimal *)

(** The decimal digits of [n >= 0], most significant first, with enough fuel. *)
Fixpoint digits_fuel (fuel : nat) (n : Z) : list Z :=
  match fuel with
  | O => []
  | S fuel => if n <? 10 then [n] else digits_fuel fuel (n / 10) ++ [n mod 10]
  end.

(** [n < 2 ^ (log2 n + 1)], and each digit removes more than one bit. *)
Definition digits (n : Z) : list Z := digits_fuel (S (Z.to_nat (Z.log2 n))) n.

Definition of_digits (ds : list Z) : Z := fold_left (fun acc d => 10 * acc + d) ds 0.

(** [int.__repr__], [str(n)]. *)
Definition dec_nat (n : Z) : pystr := map (fun d => 48 + d) (digits n).
Definition dec (n : Z) : pystr := if n <? 0 then 45 :: dec_nat (- n) else dec_nat n.

(** The value of a run of ASCII digits. *)
Definition dec_value (s : pystr) : Z := of_digits (map (fun c => c - 48) s).

Arguments digits : simpl never.
Arguments dec_nat : simpl never.
Arguments dec : simpl never.
Arguments dec_value : simpl never.

Definition is_dig (d : Z) : Prop := 0 <= d <= 9.

Lemma of_digits_snoc ds d : of_digits (ds ++ [d]) = 10 * of_digits ds + d.
Proof. unfold of_digits. by rewrite fold_left_app. Qed.

Lemma of_digits_app ds ds' :
  of_digits (ds ++ ds') = of_digits ds * 10 ^ Z.of_nat (length ds') + of_digits ds'.
Proof.
  induction ds' as [|d ds' IH] using rev_ind.
  - rewrite app_nil_r. cbn [length]. change (of_digits []) with 0.
    rewrite Z.mul_1_r. lia.
  - rewrite app_assoc, !of_digits_snoc, IH, length_app, Nat2Z.inj_add. cbn [length].
    rewrite Z.pow_add_r by lia. change (10 ^ Z.of_nat 1) with 10. lia.
Qed.

Lemma of_digits_zeros n : of_digits (repeat 0 n) = 0.
Proof.
  induction n as [|n IH]; [done|].
  change (repeat 0 (S n)) with ([0] ++ repeat 0 n). rewrite of_digits_app, IH. cbn. lia.
Qed.

Lemma digits_fuel_spec fuel n :
  0 <= n < 2 ^ Z.of_nat fuel -> (0 < fuel)%nat ->
  of_digits (digits_fuel fuel n) = n /\ Forall is_dig (digits_fuel fuel n) /\
  digits_fuel fuel n <> [] /\ (0 < n -> hd 0 (digits_fuel fuel n) <> 0).
Proof.
  revert n; induction fuel as [|fuel IH]; intros n Hn Hf; [lia|].
  cbn [digits_fuel]. destruct (Z.ltb_spec n 10).
  - unfold of_digits, is_dig. cbn. repeat split; try done; [repeat constructor|]; lia.
  - rewrite Nat2Z.inj_succ, Z.pow_succ_r in Hn by lia.
    destruct fuel as [|fuel]; [cbn in Hn; lia|].
    destruct (IH (n / 10)) as (Hv & Hd & Hne & Hh); [|lia|].
    { split; [apply Z.div_pos; lia|]. apply Z.div_lt_upper_bound; lia. }
    rewrite of_digits_snoc, Hv. pose proof (Z.mod_pos_bound n 10).
    repeat split.
    + rewrite (Z.div_mod n 10) at 3; lia.
    + apply Forall_app; split; [done|]. repeat constructor; unfold is_dig in *; lia.
    + by destruct (digits_fuel _ _).
    + intros _. destruct (digits_fuel _ _) as [|d ds]; [done|]. cbn in *.
      apply Hh. apply Z.div_str_pos. lia.
Qed.

Lemma digits_spec n : 0 <= n ->
  of_digits (digits n) = n /\ Forall is_dig (digits n) /\
  digits n <> [] /\ (0 < n -> hd 0 (digits n) <> 0).
Proof.
  intros Hn. apply digits_fuel_spec; [|lia].
  rewrite Nat2Z.inj_succ, Z2Nat.id by apply Z.log2_nonneg.
  destruct (Z.eq_dec n 0) as [->|]; [done|].
  split; [lia|]. apply Z.log2_spec. lia.
Qed.

Lemma digits_0 : digits 0 = [0].
Proof. done. Qed.

Lemma dec_nat_value n : 0 <= n -> dec_value (dec_nat n) = n.
Proof.
  intros Hn. unfold dec_value, dec_nat. rewrite map_map.
  rewrite map_ext with (g := fun x => x) by (intros; lia).
  rewrite map_id. by apply digits_spec.
Qed.

Lemma dec_nat_digits n : 0 <= n -> Forall (fun c => is_digit c = true) (dec_nat n).
Proof.
  intros Hn. unfold dec_nat. apply Forall_map.
  eapply Forall_impl; [apply (proj1 (proj2 (digits_spec n Hn)))|].
  intros d Hd. unfold is_digit, is_dig in *. zbool. lia.
Qed.

Lemma dec_nat_ne n : 0 <= n -> dec_nat n <> [].
Proof.
  intros Hn. unfold dec_nat. pose proof (digits_spec n Hn) as (_ & _ & ? & _).
  by destruct (digits n).
Qed.

(** No leading zero: the head digit of a positive number is 1 to 9. *)
Lemma dec_nat_head n : 0 < n -> exists c s, dec_nat n = c :: s /\ 49 <= c <= 57.
Proof.
  intros Hn. unfold dec_nat. destruct (digits_spec n) as (_ & Hd & ? & Hh); [lia|].
  destruct (digits n) as [|d ds]; [done|]. inversion_clear Hd as [|? ? Hd0 Hds].
  specialize (Hh Hn). exists (48 + d), (map (fun d => 48 + d) ds).
  unfold is_dig in *. cbn in *. split; [done|]. lia.
Qed.

Lemma of_digits_nonneg ds : Forall is_dig ds -> 0 <= of_digits ds.
Proof.
  induction ds as [|d ds IH] using rev_ind; [done|]. intros [H1 H2]%Forall_app.
  rewrite of_digits_snoc. apply Forall_cons in H2 as [[??] _]. specialize (IH H1). lia.
Qed.

Lemma digits_length_bound n k : 0 < n < 10 ^ Z.of_nat k -> (length (digits n) <= k)%nat.
Proof.
  intros [Hn Hk]. destruct (digits_spec n) as (Hv & Hd & _ & Hh); [lia|].
  destruct (digits n) as [|d ds]; [cbn; lia|]. specialize (Hh Hn). cbn in Hh.
  change (d :: ds) with ([d] ++ ds) in Hv. rewrite of_digits_app in Hv.
  apply Forall_cons in Hd as [[??] Hds]. apply of_digits_nonneg in Hds.
  change (of_digits [d]) with d in Hv.
  destruct (decide (length (d :: ds) <= k)%nat) as [?|Hlt]; [done|]. cbn in Hlt.
  assert (10 ^ Z.of_nat k <= 10 ^ Z.of_nat (length ds)) by (apply Z.pow_le_mono_r; lia). nia.
Qed.

Lemma of_digits_bound ds : Forall is_dig ds -> of_digits ds < 10 ^ Z.of_nat (length ds).
Proof.
  induction ds as [|d ds IH] using rev_ind; [done|]. intros [H1 H2]%Forall_app.
  rewrite of_digits_snoc, length_app. apply Forall_cons in H2 as [[??] _]. specialize (IH H1). cbn [length].
  rewrite Nat2Z.inj_add, Z.pow_add_r by lia. change (10 ^ Z.of_nat 1) with 10. lia.
Qed.

(** A number has no more digits than any text of it. *)
Lemma dec_nat_shorter s : s <> [] -> Forall (fun c => is_digit c = true) s -> (length (dec_nat (dec_value s)) <= length s)%nat.
Proof.
  intros Hne Hs. assert (Hd : Forall is_dig (map (fun c => c - 48) s)).
  { apply Forall_map. eapply Forall_impl; [exact Hs|]. intros c Hc. unfold is_digit, is_dig in *. cbn. 
    apply andb_true_iff in Hc as [H1%Z.leb_le H2%Z.leb_le]. lia. }
  unfold dec_nat, dec_value. rewrite length_map. pose proof (of_digits_nonneg _ Hd) as H0.
  pose proof (of_digits_bound _ Hd) as Hb. rewrite length_map in Hb.
  destruct (Z.eq_dec (of_digits (map (fun c => c - 48) s)) 0) as [->|]; [rewrite digits_0; destruct s; [done|cbn; lia]|].
  apply digits_length_bound. lia.
Qed.

(** ** Hexadecimal: [bytes.hex] and [bytes.fromhex] *)

Definition hex_digit (n : Z) : Z := if n <? 10 then 48 + n else 87 + n.
Definition hex_value (c : Z) : option Z :=
  if is_digit c then Some (c - 48)
  else if (97 <=? c) && (c <=? 102) then Some (c - 87)
  else if (65 <=? c) && (c <=? 70) then Some (c - 55)
  else None.

Definition bytes_hex (b : bytes) : pystr :=
  flat_map (fun x => [hex_digit (x / 16); hex_digit (x mod 16)]) b.

(** ASCII white space, which [bytes.fromhex] skips between octets. *)
Definition is_space (c : Z) : bool := (c =? 32) || ((9 <=? c) && (c <=? 13)).

Fixpoint bytes_fromhex (s : pystr) : option bytes :=
  match s with
  | [] => Some []
  | h :: s' =>
      if is_space h then bytes_fromhex s'
      else match s' with
           | [] => None
           | l :: s'' =>
               hv ← hex_value h; lv ← hex_value l; rest ← bytes_fromhex s'';
               Some (16 * hv + lv :: rest)
           end
  end.

(** [[0-9a-f]{64}] *)
Definition is_lower_hex_n (n : nat) (s : pystr) : bool :=
  Nat.eqb (length s) n && forallb is_lower_hex s.

Lemma hex_digit_lower n : 0 <= n < 16 -> is_lower_hex (hex_digit n) = true.
Proof.
  intros Hn. unfold is_lower_hex, is_digit, hex_digit.
  destruct (Z.ltb_spec n 10); zbool; lia.
Qed.

Lemma hex_value_digit n : 0 <= n < 16 -> hex_value (hex_digit n) = Some n.
Proof.
  intros Hn. unfold hex_value, is_digit, hex_digit.
  destruct (Z.ltb_spec n 10).
  - destruct (_ && _) eqn:E; [f_equal; lia|zbool; lia].
  - destruct (_ && _) eqn:E; [zbool; lia|].
    destruct (_ && _) eqn:E' in |- *; [f_equal; lia|zbool; lia].
Qed.

Lemma hex_digit_not_space n : 0 <= n < 16 -> is_space (hex_digit n) = false.
Proof.
  intros Hn. unfold is_space, hex_digit. destruct (Z.ltb_spec n 10); zbool; lia.
Qed.

Lemma bytes_fromhex_hex b : bytes_ok b -> bytes_fromhex (bytes_hex b) = Some b.
Proof.
  induction 1 as [|x b Hx _ IH]; [done|]. unfold is_byte in Hx; zbool.
  assert (0 <= x / 16 < 16) by (split; [apply Z.div_pos|apply Z.div_lt_upper_bound]; lia).
  pose proof (Z.mod_pos_bound x 16 ltac:(lia)).
  change (bytes_hex (x :: b)) with (hex_digit (x / 16) :: hex_digit (x mod 16) :: bytes_hex b).
  cbn [bytes_fromhex]. rewrite hex_digit_not_space, !hex_value_digit, IH by lia.
  cbn. do 2 f_equal. pose proof (Z.div_mod x 16). lia.
Qed.

Lemma bytes_hex_length b : length (bytes_hex b) = (2 * length b)%nat.
Proof. unfold bytes_hex. induction b as [|x b IH]; cbn; [done|]. rewrite IH. lia. Qed.

Lemma bytes_hex_lower b : bytes_ok b -> forallb is_lower_hex (bytes_hex b) = true.
Proof.
  induction 1 as [|x b Hx _ IH]; [done|]. unfold is_byte in Hx; zbool.
  unfold bytes_hex in *. cbn. rewrite !hex_digit_lower; [done| |].
  - apply Z.mod_pos_bound; lia.
  - split; [apply Z.div_pos|apply Z.div_lt_upper_bound]; lia.
Qed.

(** ** UTF-8 *)

(** The octets of one code point. *)
Definition utf8_char (c : Z) : bytes :=
  if c <? 0x80 then [c]
  else if c <? 0x800 then [0xC0 + c / 64; 0x80 + c mod 64]
  else if c <? 0x10000 then
    [0xE0 + c / 4096; 0x80 + c / 64 mod 64; 0x80 + c mod 64]
  else
    [0xF0 + c / 262144; 0x80 + c / 4096 mod 64; 0x80 + c / 64 mod 64; 0x80 + c mod 64].

(** [s.encode("utf-8")]: a surrogate raises [UnicodeEncodeError] ([None]). *)
Definition utf8_encode (s : pystr) : option bytes :=
  if existsb is_surrogate s then None else Some (flat_map utf8_char s).

Definition is_cont (b : Z) : bool := (0x80 <=? b) && (b <=? 0xBF).

(** [b.decode("utf-8")]; with [sp] the error handler is ["surrogatepass"], which
    lets three-octet surrogates through.  [None] is [UnicodeDecodeError]. *)
Fixpoint utf8_decode (sp : bool) (b : bytes) : option pystr :=
  match b with
  | [] => Some []
  | b0 :: r0 =>
      if b0 <? 0x80 then cons b0 <$> utf8_decode sp r0
      else match r0 with
      | [] => None
      | b1 :: r1 =>
          if (0xC2 <=? b0) && (b0 <=? 0xDF) then
            if is_cont b1
            then cons ((b0 - 0xC0) * 64 + (b1 - 0x80)) <$> utf8_decode sp r1
            else None
          else match r1 with
          | [] => None
          | b2 :: r2 =>
              if (0xE0 <=? b0) && (b0 <=? 0xEF) then
                let c := (b0 - 0xE0) * 4096 + (b1 - 0x80) * 64 + (b2 - 0x80) in
                if is_cont b1 && is_cont b2 && (0x800 <=? c) && (sp || negb (is_surrogate c))
                then cons c <$> utf8_decode sp r2 else None
              else match r2 with
              | [] => None
              | b3 :: r3 =>
                  let c := (b0 - 0xF0) * 262144 + (b1 - 0x80) * 4096
                           + (b2 - 0x80) * 64 + (b3 - 0x80) in
                  if (0xF0 <=? b0) && is_cont b1 && is_cont b2 && is_cont b3
                     && (0x10000 <=? c) && (c <=? 0x10FFFF)
                  then cons c <$> utf8_decode sp r3 else None
              end
          end
      end
  end.

(** Decoding one encoded scalar gives it back. *)
Lemma utf8_decode_char sp c rest :
  is_scalar c = true -> utf8_decode sp (utf8_char c ++ rest) = cons c <$> utf8_decode sp rest.
Proof.
  unfold is_scalar, is_codepoint, utf8_char. intros Hc.
  apply andb_true_iff in Hc as [Hc Hs]. apply andb_true_iff in Hc as [??].
  zbool.
  destruct (Z.ltb_spec c 0x80) as [?|?]; [cbn; destruct (Z.ltb_spec c 0x80); [done|lia]|].
  pose proof (Z.div_mod c 64 ltac:(lia)). pose proof (Z.mod_pos_bound c 64 ltac:(lia)).
  assert (Hcont : forall z, 0 <= z < 64 -> is_cont (0x80 + z) = true)
    by (intros; unfold is_cont; zbool; lia).
  destruct (Z.ltb_spec c 0x800).
  { cbn [app utf8_decode]. destruct (Z.ltb_spec (0xC0 + c / 64) 0x80); [lia|].
    destruct (_ && _) eqn:E; [|zbool; lia]. rewrite Hcont by lia. do 2 f_equal. lia. }
  assert (c / 64 / 64 = c / 4096) as E2 by (rewrite Z.div_div by lia; done).
  pose proof (Z.div_mod (c / 64) 64 ltac:(lia)) as E1. rewrite E2 in E1.
  pose proof (Z.mod_pos_bound (c / 64) 64 ltac:(lia)).
  destruct (Z.ltb_spec c 0x10000).
  { cbn [app utf8_decode]. destruct (Z.ltb_spec (0xE0 + c / 4096) 0x80); [lia|].
    destruct (_ && _) eqn:E; [zbool; lia|clear E].
    destruct (_ && _) eqn:E; [clear E|zbool; lia].
    replace ((0xE0 + c / 4096 - 0xE0) * 4096 + (0x80 + c / 64 mod 64 - 0x80) * 64
             + (0x80 + c mod 64 - 0x80)) with c by lia.
    rewrite !Hcont, Hs, orb_true_r by lia. destruct (Z.leb_spec 0x800 c); [done|lia]. }
  assert (c / 4096 / 64 = c / 262144) as E3 by (rewrite Z.div_div by lia; done).
  pose proof (Z.div_mod (c / 4096) 64 ltac:(lia)) as E4. rewrite E3 in E4.
  pose proof (Z.mod_pos_bound (c / 4096) 64 ltac:(lia)).
  cbn [app utf8_decode]. destruct (Z.ltb_spec (0xF0 + c / 262144) 0x80); [lia|].
  destruct (_ && _) eqn:E; [zbool; lia|clear E].
  destruct (_ && _) eqn:E; [zbool; lia|clear E].
  replace ((0xF0 + c / 262144 - 0xF0) * 262144 + (0x80 + c / 4096 mod 64 - 0x80) * 4096
     + (0x80 + c / 64 mod 64 - 0x80) * 64 + (0x80 + c mod 64 - 0x80)) with c by lia.
  rewrite !Hcont by lia.
  destruct (Z.leb_spec 0x10000 c), (Z.leb_spec c 0x10FFFF),
    (Z.leb_spec 0xF0 (0xF0 + c / 262144)); done || lia.
Qed.

Lemma utf8_decode_encode sp s b :
  str_ok s -> utf8_encode s = Some b -> utf8_decode sp b = Some s.
Proof.
  unfold utf8_encode. intros Hs. destruct (existsb _ _) eqn:E; [done|]. intros [= <-].
  induction Hs as [|c s Hc _ IH]; [done|]. cbn in *. apply orb_false_iff in E as [Ec E].
  rewrite utf8_decode_char by (unfold is_scalar; by rewrite Hc, Ec).
  by rewrite IH.
Qed.

Lemma utf8_encode_inj s s' b :
  str_ok s -> str_ok s' -> utf8_encode s = Some b -> utf8_encode s' = Some b -> s = s'.
Proof.
  intros Hs Hs' H H'. apply (utf8_decode_encode false) in H, H'; congruence.
Qed.

Lemma utf8_encode_app s s' b b' :
  utf8_encode s = Some b -> utf8_encode s' = Some b' ->
  utf8_encode (s ++ s') = Some (b ++ b').
Proof.
  unfold utf8_encode. rewrite existsb_app, flat_map_app.
  destruct (existsb _ s), (existsb _ s'); naive_solver.
Qed.

(** Octets below 128 come from the same ASCII character. *)
Lemma utf8_char_ascii c b : is_codepoint c = true -> In b (utf8_char c) -> b < 0x80 -> b = c.
Proof.
  unfold is_codepoint, utf8_char. intros Hc Hb Hlt. zbool.
  assert (forall z k, 0 <= z -> 0 < k -> 0 <= z / k) by (intros; by apply Z.div_pos).
  assert (forall z, 0 <= z mod 64) by (intros; apply Z.mod_pos_bound; lia).
  destruct (Z.ltb_spec c 0x80); [|destruct (Z.ltb_spec c 0x800); [|destruct (Z.ltb_spec c 0x10000)]];
    cbn [In] in Hb; destruct_or?; subst; try done;
    match goal with
    | H : ?x + ?y < _ |- _ => assert (0 <= y) by auto with lia; lia
    end.
Qed.

Lemma utf8_char_bytes c : is_codepoint c = true -> bytes_ok (utf8_char c).
Proof.
  unfold is_codepoint, utf8_char, bytes_ok, is_byte. intros Hc. zbool.
  pose proof (fun z => Z.mod_pos_bound z 64 ltac:(lia)) as Hm.
  destruct (Z.ltb_spec c 0x80); [repeat constructor; zbool; lia|].
  assert (0 <= c / 64 < 32 \/ 0x800 <= c) by
    (destruct (Z.ltb_spec c 0x800); [left; split; [apply Z.div_pos|apply Z.div_lt_upper_bound]|]; lia).
  assert (0 <= c / 4096 < 16 \/ 0x10000 <= c) by
    (destruct (Z.ltb_spec c 0x10000); [left; split; [apply Z.div_pos|apply Z.div_lt_upper_bound]|]; lia).
  assert (0 <= c / 262144 < 8) by (split; [apply Z.div_pos|apply Z.div_lt_upper_bound]; lia).
  destruct (Z.ltb_spec c 0x800); [|destruct (Z.ltb_spec c 0x10000)];
    repeat apply Forall_cons_2; try apply Forall_nil_2; zbool;
    pose proof (Hm c); pose proof (Hm (c / 64)); pose proof (Hm (c / 4096)); lia.
Qed.

(** ** UTF-16 and UTF-32 with [surrogatepass], as [json.loads] decodes them *)

(** The 16-bit units of an octet string; [le] selects little endian. *)
Fixpoint utf16_units (le : bool) (b : bytes) : option (list Z) :=
  match b with
  | [] => Some []
  | [_] => None
  | x :: y :: b => cons (if le then x + 256 * y else 256 * x + y) <$> utf16_units le b
  end.

Definition is_high_surrogate (c : Z) : bool := (0xD800 <=? c) && (c <=? 0xDBFF).
Definition is_low_surrogate (c : Z) : bool := (0xDC00 <=? c) && (c <=? 0xDFFF).
Definition join_surrogates (hi lo : Z) : Z := 0x10000 + (hi - 0xD800) * 1024 + (lo - 0xDC00).

(** A high unit followed by a low one is a supplementary character; a lone
    surrogate passes. *)
Fixpoint utf16_join (us : list Z) : pystr :=
  match us with
  | [] => []
  | h :: us' =>
      match us' with
      | l :: us'' =>
          if is_high_surrogate h && is_low_surrogate l
          then join_surrogates h l :: utf16_join us''
          else h :: utf16_join us'
      | [] => [h]
      end
  end.

Definition utf16_decode (le : bool) (b : bytes) : option pystr := utf16_join <$> utf16_units le b.

Fixpoint utf32_decode (le : bool) (b : bytes) : option pystr :=
  match b with
  | [] => Some []
  | x :: y :: z :: w :: b =>
      let c := if le then x + 256 * y + 65536 * z + 16777216 * w
               else 16777216 * x + 65536 * y + 256 * z + w in
      if c <=? 0x10FFFF then cons c <$> utf32_decode le b else None
  | _ => None
  end.

(** ** Decoded text is in range *)

Lemma str_ok_cons c s : is_codepoint c = true -> str_ok s -> str_ok (c :: s).
Proof. by constructor. Qed.

Lemma fmap_cons_Some (c : Z) (m : option pystr) s :
  cons c <$> m = Some s -> exists s', m = Some s' /\ s = c :: s'.
Proof. destruct m; cbn; naive_solver. Qed.

Lemma utf8_decode_ok sp b s : bytes_ok b -> utf8_decode sp b = Some s -> str_ok s.
Proof.
  revert s. induction b as [b IH] using (induction_ltof1 _ (@length Z)). unfold ltof in IH.
  intros s Hb H. destruct b as [|b0 r0]; [injection H as <-; constructor|].
  apply Forall_cons in Hb as [H0 Hb]. cbn [utf8_decode] in H.
  unfold is_byte in H0. zbool.
  destruct (Z.ltb_spec b0 0x80).
  { apply fmap_cons_Some in H as (s' & H & ->). apply IH in H; [|cbn; lia|done].
    apply str_ok_cons; [|done]. unfold is_codepoint. zbool. lia. }
  destruct r0 as [|b1 r1]; [done|]. apply Forall_cons in Hb as [_ Hb].
  destruct ((0xC2 <=? b0) && (b0 <=? 0xDF)) eqn:E2.
  { destruct (is_cont b1) eqn:C1; [|done].
    apply fmap_cons_Some in H as (s' & H & ->). apply IH in H; [|cbn; lia|done].
    apply str_ok_cons; [|done]. unfold is_codepoint, is_cont in *. zbool. lia. }
  destruct r1 as [|b2 r2]; [done|]. apply Forall_cons in Hb as [_ Hb].
  destruct ((0xE0 <=? b0) && (b0 <=? 0xEF)) eqn:E3.
  { destruct (_ && (sp || _)) eqn:C in H; [|done].
    apply fmap_cons_Some in H as (s' & H & ->). apply IH in H; [|cbn; lia|done].
    apply str_ok_cons; [|done]. apply andb_true_iff in C as [C _].
    unfold is_codepoint, is_cont in *. zbool. lia. }
  destruct r2 as [|b3 r3]; [done|]. apply Forall_cons in Hb as [_ Hb].
  destruct (_ && (_ <=? 0x10FFFF)) eqn:C in H; [|done].
  apply fmap_cons_Some in H as (s' & H & ->). apply IH in H; [|cbn; lia|done].
  apply str_ok_cons; [|done]. unfold is_codepoint, is_cont in *. zbool. lia.
Qed.

Lemma utf16_units_ok le b us :
  bytes_ok b -> utf16_units le b = Some us -> Forall (fun c => 0 <= c < 65536) us.
Proof.
  revert us. induction b as [b IH] using (induction_ltof1 _ (@length Z)). unfold ltof in IH.
  intros us Hb H. destruct b as [|x [|y b]]; [injection H as <-; constructor|done|].
  apply Forall_cons in Hb as [Hx Hb]. apply Forall_cons in Hb as [Hy Hb].
  cbn in H. apply fmap_cons_Some in H as (us' & H & ->).
  unfold is_byte in *. zbool. constructor; [destruct le; lia|]. eapply IH; [|done..]. cbn. lia.
Qed.

Lemma utf16_join_ok us : Forall (fun c => 0 <= c < 65536) us -> str_ok (utf16_join us).
Proof.
  induction us as [us IH] using (induction_ltof1 _ (@length Z)). unfold ltof in IH.
  intros Hus. destruct us as [|h us']; [constructor|]. apply Forall_cons in Hus as [Hh Hus].
  assert (is_codepoint h = true) by (unfold is_codepoint; zbool; lia).
  cbn [utf16_join]. destruct us' as [|l us'']; [by repeat constructor|].
  destruct (_ && _) eqn:E.
  - apply str_ok_cons; [|apply IH; [cbn; lia|by inversion Hus]].
    unfold is_high_surrogate, is_low_surrogate, join_surrogates, is_codepoint in *. zbool. lia.
  - apply str_ok_cons; [done|]. apply IH; [cbn; lia|done].
Qed.

Lemma utf16_decode_ok le b s : bytes_ok b -> utf16_decode le b = Some s -> str_ok s.
Proof.
  unfold utf16_decode. destruct (utf16_units le b) as [us|] eqn:E; [|done]. cbn.
  intros Hb [= <-]. by eapply utf16_join_ok, utf16_units_ok.
Qed.

Lemma utf32_decode_ok le b s : bytes_ok b -> utf32_decode le b = Some s -> str_ok s.
Proof.
  revert s. induction b as [b IH] using (induction_ltof1 _ (@length Z)). unfold ltof in IH.
  intros s Hb H. destruct b as [|x [|y [|z [|w b]]]]; try done; [injection H as <-; constructor|].
  do 4 (apply Forall_cons in Hb as [? Hb]). cbn [utf32_decode] in H.
  destruct (_ <=? 0x10FFFF) eqn:E in H; [|done].
  apply fmap_cons_Some in H as (s' & H & ->). apply str_ok_cons.
  - unfold is_byte, is_codepoint in *. zbool. destruct le; lia.
  - eapply IH; [|done..]. cbn. lia.
Qed.

(** The octets of printable text are not below 32. *)
Lemma utf8_encode_ge32 s b :
  Forall (fun c => 32 <= c /\ is_codepoint c = true) s -> utf8_encode s = Some b ->
  Forall (fun x => 32 <= x) b /\ bytes_ok b.
Proof.
  unfold utf8_encode. destruct (existsb _ _); [done|]. intros Hs [= <-].
  induction Hs as [|c s [Hc Hc'] _ [IH1 IH2]]; [split; constructor|].
  cbn. split; apply Forall_app_2; try done; [|by apply utf8_char_bytes].
  rewrite Forall_forall. intros x Hx%list_elem_of_In.
  destruct (Z.lt_ge_cases x 0x80); [|lia]. apply utf8_char_ascii in Hx; [lia|done..].
Qed.

(** ** Blanks *)

(** [str.isspace] of one character. *)
Definition is_str_space (c : Z) : bool :=
  existsb (fun r => (r.1 <=? c) && (c <=? r.2))
    [(9, 13); (28, 32); (133, 133); (160, 160); (5760, 5760); (8192, 8202); (8232, 8233);
     (8239, 8239); (8287, 8287); (12288, 12288)].

(** [value.strip()] is not empty. *)
Definition has_text (s : pystr) : bool := negb (forallb is_str_space s).
