(* ===== verification/Binary64.v ===== *)
(** Binary64 floats of Python: exact decimal conversion in both directions.

    A Python [float] is a [spec_float] of the Standard Library's float
    specification (NaN payloads are not distinguished, as Python's [==] and
    [json] do not distinguish them).  [round_ratio] is IEEE 754 round to
    nearest, ties to even, of a positive rational; [dec_to_float] is
    [float("...")]; [float_repr] is [float.__repr__], the shortest decimal that
    reads back as the same float, laid out as [CHAIN_FORMAT.md] "Float
    Canonicalization" prescribes and [forensics/float_canonical.py] relies on. *)

From S2P Require Import Prelude.
From S2P Require Import PyText.
From Stdlib Require Export SpecFloat.

(** Exponent of the least significant bit of subnormals, of the largest floats. *)
Definition e_min : Z := -1074.
Definition e_max : Z := 971.

(** Every value of type [float] is a canonical binary64. *)
Definition valid_float (x : spec_float) : bool := valid_binary 53 1024 x.

Definition is_finite (x : spec_float) : bool :=
  match x with S754_zero _ | S754_finite _ _ _ => true | _ => false end.

#[global] Instance spec_float_eq_dec : EqDecision spec_float.
Proof. solve_decision. Defined.

(** ** Rounding a positive rational *)

(** The ratio [num / den * 2 ^ k], [num / den * 10 ^ k]: one of the two powers is 1. *)
Definition scale2 (num den k : Z) : Z * Z :=
  (num * 2 ^ Z.max 0 k, den * 2 ^ Z.max 0 (- k)).
Definition scale10 (num den k : Z) : Z * Z :=
  (num * 10 ^ Z.max 0 k, den * 10 ^ Z.max 0 (- k)).

(** [floor (log2 (num / den))]: the first guess is right or one too large. *)
Definition log2_ratio (num den : Z) : Z :=
  let l := Z.log2 num - Z.log2 den in
  let '(n, d) := scale2 num den (- l) in
  if n <? d then l - 1 else l.

(** The float with significand [m] and exponent [e], [m] already rounded. *)
Definition mk_float (s : bool) (m e : Z) : spec_float :=
  let '(m, e) := if m =? 2 ^ 53 then (2 ^ 52, e + 1) else (m, e) in
  match m with
  | Zpos p => if e <=? e_max then S754_finite s p e else S754_infinity s
  | _ => S754_zero s
  end.

Definition round_ratio (s : bool) (num den : Z) : spec_float :=
  let e := Z.max (log2_ratio num den - 52) e_min in
  let '(n, d) := scale2 num den (- e) in
  mk_float s (round_half_even n d) e.

(** [float("[-]<d>e<p>")] for [d >= 0]. *)
Definition dec_to_float (s : bool) (d p : Z) : spec_float :=
  if d =? 0 then S754_zero s
  else let '(n, dn) := scale10 d 1 p in round_ratio s n dn.

(** ** The shortest decimal that reads back *)

(** [floor (log10 (num / den))]. *)
Definition log10_ratio (num den : Z) : Z :=
  let k := Z.of_nat (length (digits num)) - Z.of_nat (length (digits den)) in
  let '(n, d) := scale10 num den (- k) in
  if n <? d then k - 1 else k.

(** The exact decimal expansion of [m * 2 ^ e]. *)
Definition exact_decimal (m e : Z) : Z * Z :=
  if 0 <=? e then (m * 2 ^ e, 0) else (m * 5 ^ (- e), e).

(** The two [n]-digit decimals around [m * 2 ^ e] that read back as that float:
    the nearer one, or the even one of two equally near; none at this length. *)
Definition candidate (m : positive) (e k : Z) (n : nat) : option (Z * Z) :=
  let p := k - Z.of_nat n + 1 in
  let '(vn, vd) := scale2 (Zpos m) 1 e in
  let '(cn, cd) := scale10 vn vd (- p) in
  let lo := cn / cd in
  let ok d := bool_decide (dec_to_float false d p = S754_finite false m e) in
  match ok lo, ok (lo + 1) with
  | true, true =>
      let hi_nearer := match Z.compare (2 * (cn mod cd)) cd with
                       | Lt => false | Gt => true | Eq => Z.odd lo end in
      Some (if hi_nearer then lo + 1 else lo, p)
  | true, false => Some (lo, p)
  | false, true => Some (lo + 1, p)
  | false, false => None
  end.

(** The least number of digits for which a candidate exists, from [n] on.  17
    digits always suffice for binary64; past them the exact expansion is used. *)
Fixpoint shortest_from (fuel : nat) (m : positive) (e k : Z) (n : nat) : Z * Z :=
  match fuel with
  | O => exact_decimal (Zpos m) e
  | S fuel =>
      match candidate m e k n with
      | Some dp => dp
      | None => shortest_from fuel m e k (S n)
      end
  end.

(** Remove the trailing zeros of the significand. *)
Fixpoint strip_zeros (fuel : nat) (d p : Z) : Z * Z :=
  match fuel with
  | O => (d, p)
  | S fuel => if d mod 10 =? 0 then strip_zeros fuel (d / 10) (p + 1) else (d, p)
  end.

Definition shortest_decimal (m : positive) (e : Z) : Z * Z :=
  let '(vn, vd) := scale2 (Zpos m) 1 e in
  let '(d, p) := shortest_from 17 m e (log10_ratio vn vd) 1 in
  strip_zeros (length (digits d)) d p.

(** ** [float.__repr__] *)

Definition zeros (n : Z) : pystr := repeat 48 (Z.to_nat n).

(** The exponent field: a sign and at least two digits. *)
Definition exp_text (k : Z) : pystr :=
  u "e" ++ (if k <? 0 then u "-" else u "+")
  ++ (if Z.abs k <? 10 then u "0" else []) ++ dec_nat (Z.abs k).

(** Layout of the digits [d] with decimal exponent [p]. *)
Definition layout_decimal (d p : Z) : pystr :=
  let ds := dec_nat d in
  let nd := Z.of_nat (length ds) in
  let decpt := nd + p in
  if (-4 <? decpt) && (decpt <=? 16) then
    if decpt <=? 0 then u "0." ++ zeros (- decpt) ++ ds
    else if nd <=? decpt then ds ++ zeros (decpt - nd) ++ u ".0"
    else take (Z.to_nat decpt) ds ++ u "." ++ drop (Z.to_nat decpt) ds
  else
    take 1 ds ++ (if nd =? 1 then [] else u "." ++ drop 1 ds) ++ exp_text (decpt - 1).

(** [float.__repr__] of a finite float ([json.dumps] writes finite floats with it). *)
Definition float_repr (x : spec_float) : pystr :=
  match x with
  | S754_zero s => (if s then u "-" else []) ++ u "0.0"
  | S754_finite s m e =>
      let '(d, p) := shortest_decimal m e in
      (if s then u "-" else []) ++ layout_decimal d p
  | S754_infinity s => (if s then u "-" else []) ++ u "inf"
  | S754_nan => u "nan"
  end.

Arguments round_ratio : simpl never.
Arguments dec_to_float : simpl never.
Arguments shortest_decimal : simpl never.
Arguments candidate : simpl never.
Arguments layout_decimal : simpl never.

(** ** Rounding depends only on the ratio *)

Section scaling.
Implicit Types num den k l c : Z.

(** [2 ^ l <= num / den < 2 ^ (l + 1)], cross-multiplied. *)
Definition log2_spec num den l : Prop :=
  let '(n, d) := scale2 num den (- l) in d <= n < 2 * d.

Lemma pow2_pos k : 0 < 2 ^ k \/ k < 0.
Proof. destruct (Z.lt_ge_cases k 0); [by right|left; apply Z.pow_pos_nonneg; lia]. Qed.

Lemma pow2_max_pos k : 0 < 2 ^ Z.max 0 k.
Proof. apply Z.pow_pos_nonneg; lia. Qed.

Lemma pow10_max_pos k : 0 < 10 ^ Z.max 0 k.
Proof. apply Z.pow_pos_nonneg; lia. Qed.

Lemma log2_ratio_spec num den : 0 < num -> 0 < den -> log2_spec num den (log2_ratio num den).
Proof.
  intros Hn Hd. unfold log2_ratio, log2_spec, scale2.
  pose proof (Z.log2_spec num Hn) as Ha. pose proof (Z.log2_spec den Hd) as Hb.
  pose proof (Z.log2_nonneg num). pose proof (Z.log2_nonneg den).
  set (a := Z.log2 num) in *. set (b := Z.log2 den) in *.
  rewrite !Z.opp_involutive.
  rewrite Z.pow_succ_r in Ha, Hb by done.
  destruct (Z.le_ge_cases b a) as [Hba|Hba].
  - replace (Z.max 0 (- (a - b))) with 0 by lia.
    replace (Z.max 0 (a - b)) with (a - b) by lia.
    assert (E : 2 ^ a = 2 ^ b * 2 ^ (a - b)) by (rewrite <- Z.pow_add_r by lia; f_equal; lia).
    pose proof (Z.pow_pos_nonneg 2 (a - b) ltac:(lia) ltac:(lia)).
    destruct (Z.ltb_spec (num * 2 ^ 0) (den * 2 ^ (a - b))) as [Hlt|Hge].
    + destruct (Z.eq_dec a b) as [Eab|Nab].
      * replace (Z.max 0 (a - b - 1)) with 0 by lia.
        replace (Z.max 0 (- (a - b - 1))) with 1 by lia.
        replace (a - b) with 0 in Hlt by lia. rewrite <- Eab in Hb. lia.
      * replace (Z.max 0 (- (a - b - 1))) with 0 by lia.
        replace (Z.max 0 (a - b - 1)) with (a - b - 1) by lia.
        assert (E2 : 2 ^ (a - b) = 2 * 2 ^ (a - b - 1))
          by (rewrite <- Z.pow_succ_r by lia; f_equal; lia). nia.
    + replace (Z.max 0 (- (a - b))) with 0 by lia.
      replace (Z.max 0 (a - b)) with (a - b) by lia. nia.
  - replace (Z.max 0 (- (a - b))) with (b - a) by lia.
    replace (Z.max 0 (a - b)) with 0 by lia.
    assert (E : 2 ^ b = 2 ^ a * 2 ^ (b - a)) by (rewrite <- Z.pow_add_r by lia; f_equal; lia).
    pose proof (Z.pow_pos_nonneg 2 (b - a) ltac:(lia) ltac:(lia)).
    destruct (Z.ltb_spec (num * 2 ^ (b - a)) (den * 2 ^ 0)) as [Hlt|Hge].
    + replace (Z.max 0 (- (a - b - 1))) with (b - a + 1) by lia.
      replace (Z.max 0 (a - b - 1)) with 0 by lia.
      rewrite Z.pow_add_r by lia. nia.
    + replace (Z.max 0 (- (a - b))) with (b - a) by lia.
      replace (Z.max 0 (a - b)) with 0 by lia. nia.
Qed.

Lemma log2_spec_le num den l l' :
  0 < den -> log2_spec num den l -> log2_spec num den l' -> l <= l'.
Proof.
  unfold log2_spec, scale2. rewrite !Z.opp_involutive. intros Hd [H1 _] [_ H2].
  destruct (Z.le_gt_cases l l') as [|Hlt]; [done|exfalso].
  set (A := Z.max 0 l) in *. set (B := Z.max 0 (- l)) in *.
  set (A' := Z.max 0 l') in *. set (B' := Z.max 0 (- l')) in *.
  assert (HA : 0 < 2 ^ B /\ 0 < 2 ^ B') by (split; apply pow2_max_pos).
  assert (Hp : 2 * 2 ^ (A' + B) <= 2 ^ (A + B')).
  { rewrite <- Z.pow_succ_r by lia. apply Z.pow_le_mono_r; lia. }
  rewrite !Z.pow_add_r in Hp by lia. nia.
Qed.

Lemma log2_ratio_unique num den l :
  0 < num -> 0 < den -> log2_spec num den l -> log2_ratio num den = l.
Proof.
  intros Hn Hd Hl. pose proof (log2_ratio_spec num den Hn Hd).
  apply Z.le_antisymm; by eapply log2_spec_le.
Qed.

Lemma log2_ratio_scale c num den :
  0 < c -> 0 < num -> 0 < den -> log2_ratio (num * c) (den * c) = log2_ratio num den.
Proof.
  intros Hc Hn Hd. apply log2_ratio_unique; [nia..|].
  pose proof (log2_ratio_spec num den Hn Hd) as Hs. revert Hs.
  unfold log2_spec, scale2. generalize (Z.max 0 (- - log2_ratio num den)) as B.
  generalize (Z.max 0 (- log2_ratio num den)) as A. intros A B. nia.
Qed.

Lemma round_ratio_scale s c num den :
  0 < c -> 0 < num -> 0 < den -> round_ratio s (num * c) (den * c) = round_ratio s num den.
Proof.
  intros Hc Hn Hd. unfold round_ratio, scale2. rewrite log2_ratio_scale by done.
  set (e := Z.max (log2_ratio num den - 52) e_min). f_equal.
  replace (num * c * 2 ^ Z.max 0 (- e)) with (num * 2 ^ Z.max 0 (- e) * c) by ring.
  replace (den * c * 2 ^ Z.max 0 (- - e)) with (den * 2 ^ Z.max 0 (- - e) * c) by ring.
  apply round_half_even_scale; [done|]. pose proof (pow2_max_pos (- - e)). nia.
Qed.

(** Equal ratios round to the same float. *)
Lemma round_ratio_proper s num den num' den' :
  0 < num -> 0 < den -> 0 < num' -> 0 < den' ->
  num * den' = num' * den -> round_ratio s num den = round_ratio s num' den'.
Proof.
  intros. rewrite <- (round_ratio_scale s den' num den) by done.
  rewrite <- (round_ratio_scale s den num' den') by done. f_equal; lia.
Qed.
End scaling.

(** ** A float is the rounding of its own value *)

Lemma digits2_pos_log2 m : Zpos (digits2_pos m) = Z.log2 (Zpos m) + 1.
Proof.
  induction m as [m IH|m IH|]; cbn [digits2_pos]; [| |done]; rewrite Pos2Z.inj_succ, IH.
  - rewrite (Pos2Z.inj_xI m), Z.log2_succ_double; lia.
  - rewrite (Pos2Z.inj_xO m), Z.log2_double; lia.
Qed.

(** The canonical form of a finite float. *)
Lemma bounded_spec m e :
  bounded 53 1024 m e = true <->
  Z.max (Z.log2 (Zpos m) + e - 52) e_min = e /\ e <= e_max.
Proof.
  unfold bounded, canonical_mantissa, fexp, emin, e_min, e_max.
  rewrite digits2_pos_log2, andb_true_iff, Z.eqb_eq, Z.leb_le. lia.
Qed.

Lemma round_ratio_float s m e :
  bounded 53 1024 m e = true ->
  let '(n, d) := scale2 (Zpos m) 1 e in round_ratio s n d = S754_finite s m e.
Proof.
  intros [He Hm]%bounded_spec. unfold scale2.
  assert (Hl : log2_ratio (Zpos m * 2 ^ Z.max 0 e) (1 * 2 ^ Z.max 0 (- e)) = Z.log2 (Zpos m) + e).
  { pose proof (pow2_max_pos e). pose proof (pow2_max_pos (- e)).
    apply log2_ratio_unique; [nia..|]. unfold log2_spec, scale2.
    set (l := Z.log2 (Zpos m) + e). rewrite Z.opp_involutive.
    pose proof (Z.log2_spec (Zpos m) ltac:(done)) as Hb.
    pose proof (Z.log2_nonneg (Zpos m)).
    rewrite Z.mul_1_l, <- Z.mul_assoc, <- !Z.pow_add_r by lia.
    replace (Z.max 0 (- e) + Z.max 0 l)
      with (Z.log2 (Zpos m) + (Z.max 0 e + Z.max 0 (- l))) by lia.
    rewrite Z.pow_add_r by lia.
    pose proof (Z.pow_pos_nonneg 2 (Z.max 0 e + Z.max 0 (- l)) ltac:(lia) ltac:(lia)).
    rewrite Z.pow_succ_r in Hb by lia. nia. }
  unfold round_ratio, scale2. rewrite Hl.
  replace (Z.max (Z.log2 (Zpos m) + e - 52) e_min) with e by lia.
  rewrite Z.opp_involutive, Z.mul_1_l, <- Z.mul_assoc, (Z.mul_comm (2 ^ Z.max 0 (- e))).
  pose proof (pow2_max_pos e). pose proof (pow2_max_pos (- e)).
  rewrite round_half_even_exact by nia. unfold mk_float.
  destruct (Z.eqb_spec (Zpos m) (2 ^ 53)) as [E|_].
  { rewrite E, Z.log2_pow2 in He by lia. unfold e_min in *. lia. }
  destruct (Z.leb_spec e e_max); [done|lia].
Qed.

(** Cross-multiplied comparisons of two scalings of one ratio. *)
Lemma cross_lt num den al bl ae be k :
  0 < bl -> 0 < be -> 0 < den ->
  num * bl < 2 * (den * al) -> 2 * (al * be) <= k * ae * bl -> num * be < k * (den * ae).
Proof.
  intros Hbl Hbe Hden H1 H2. apply (Z.mul_lt_mono_pos_r bl); [done|].
  apply (Z.mul_lt_mono_pos_r be) in H1; [|done].
  apply (Z.mul_le_mono_nonneg_l _ _ den) in H2; [|lia].
  replace (num * be * bl) with (num * bl * be) by ring.
  replace (k * (den * ae) * bl) with (den * (k * ae * bl)) by ring. lia.
Qed.

Lemma cross_le num den al bl ae be k :
  0 < bl -> 0 < be -> 0 < den ->
  den * al <= num * bl -> k * ae * bl = al * be -> k * (den * ae) <= num * be.
Proof.
  intros Hbl Hbe Hden H1 H2. apply (Z.mul_le_mono_pos_r _ _ bl); [done|].
  apply (Z.mul_le_mono_pos_r _ _ be) in H1; [|done].
  replace (num * be * bl) with (num * bl * be) by ring.
  replace (k * (den * ae) * bl) with (den * (k * ae * bl)) by ring.
  rewrite H2. lia.
Qed.

(** The scaled ratio that is rounded: below [2 ^ 53], and at least [2 ^ 52]
    unless the result is subnormal. *)
Lemma round_frame num den :
  0 < num -> 0 < den ->
  let e := Z.max (log2_ratio num den - 52) e_min in
  let n := num * 2 ^ Z.max 0 (- e) in let d := den * 2 ^ Z.max 0 (- - e) in
  0 < n /\ 0 < d /\ n < 2 ^ 53 * d /\ (e_min < e -> 2 ^ 52 * d <= n).
Proof.
  intros Hn Hd. pose proof (log2_ratio_spec num den Hn Hd) as Hl. unfold log2_spec, scale2 in Hl.
  set (l := log2_ratio num den) in *. cbv zeta. set (e := Z.max (l - 52) e_min).
  pose proof (pow2_max_pos (- e)) as P1. pose proof (pow2_max_pos (- - e)) as P2.
  set (n := num * 2 ^ Z.max 0 (- e)). set (d := den * 2 ^ Z.max 0 (- - e)).
  split; [unfold n; nia|]. split; [unfold d; nia|]. split.
  - assert (Hp : 2 * 2 ^ (Z.max 0 l + Z.max 0 (- e)) <= 2 ^ (53 + Z.max 0 e + Z.max 0 (- l))).
    { rewrite <- Z.pow_succ_r by lia. apply Z.pow_le_mono_r; lia. }
    rewrite !Z.pow_add_r in Hp by lia. unfold n, d. rewrite !Z.opp_involutive in *.
    eapply cross_lt; [apply pow2_max_pos|apply pow2_max_pos|done|apply Hl|exact Hp].
  - intros Hgt. assert (e = l - 52) as -> by lia.
    assert (Hp : 2 ^ (52 + Z.max 0 (l - 52) + Z.max 0 (- l)) = 2 ^ (Z.max 0 l + Z.max 0 (- (l - 52))))
      by (f_equal; lia).
    rewrite !Z.pow_add_r in Hp by lia. unfold n, d. rewrite !Z.opp_involutive in *.
    eapply cross_le; [apply pow2_max_pos|apply pow2_max_pos|done|apply Hl|exact Hp].
Qed.

(** Rounding always yields a canonical float. *)
Lemma round_ratio_valid s num den : 0 < num -> 0 < den -> valid_float (round_ratio s num den) = true.
Proof.
  intros Hn Hd. unfold round_ratio, scale2.
  pose proof (round_frame num den Hn Hd) as (Hn0 & Hd' & Hup & Hlow). cbv zeta in *.
  set (l := log2_ratio num den) in *. set (e := Z.max (l - 52) e_min) in *.
  set (n := num * 2 ^ Z.max 0 (- e)) in *. set (d := den * 2 ^ Z.max 0 (- - e)) in *.
  pose proof (round_half_even_bounds n d Hd') as Hr. set (m := round_half_even n d) in *.
  assert (Hm : m <= 2 ^ 53) by nia.
  assert (Hm' : e_min < e -> 2 ^ 52 <= m) by (intros ?%Hlow; nia).
  assert (Hm0 : 0 <= m) by nia.
  assert (He0 : e_min <= e) by (unfold e; lia). clearbody e m.
  unfold mk_float. destruct (Z.eqb_spec m (2 ^ 53)) as [E|NE].
  - destruct (Z.leb_spec (e + 1) e_max) as [He|He]; [|done].
    unfold valid_float, valid_binary. apply bounded_spec. split; [|done].
    change (Z.log2 _) with 52. lia.
  - destruct m as [|m'|]; [done| |lia].
    destruct (Z.leb_spec e e_max) as [He|He]; [|done].
    unfold valid_float, valid_binary. apply bounded_spec. split; [|done].
    assert (Z.log2 (Zpos m') < 53) by (apply Z.log2_lt_pow2; lia).
    destruct (Z.lt_ge_cases e_min e) as [Hgt|Hle]; [|lia].
    assert (52 <= Z.log2 (Zpos m')) by (apply Z.log2_le_pow2; [done|auto]). lia.
Qed.

(** ** Decimal to float *)

Definition with_sign (s : bool) (x : spec_float) : spec_float :=
  match x with
  | S754_zero _ => S754_zero s
  | S754_infinity _ => S754_infinity s
  | S754_nan => S754_nan
  | S754_finite _ m e => S754_finite s m e
  end.

Lemma round_ratio_sign s num den : round_ratio s num den = with_sign s (round_ratio false num den).
Proof.
  unfold round_ratio, mk_float. destruct (scale2 _ _ _) as [n d].
  repeat case_match; simplify_eq; done.
Qed.

Lemma dec_to_float_sign s d p : dec_to_float s d p = with_sign s (dec_to_float false d p).
Proof.
  unfold dec_to_float. destruct (d =? 0); [done|]. destruct (scale10 d 1 p). apply round_ratio_sign.
Qed.

Lemma dec_to_float_valid s d p : 0 <= d -> valid_float (dec_to_float s d p) = true.
Proof.
  intros Hd. unfold dec_to_float. destruct (Z.eqb_spec d 0); [done|]. unfold scale10.
  pose proof (pow10_max_pos p). pose proof (pow10_max_pos (- p)).
  apply round_ratio_valid; nia.
Qed.

(** Moving zeros between the significand and the exponent. *)
Lemma dec_to_float_shift s d p j :
  0 < d -> 0 <= j -> dec_to_float s (d * 10 ^ j) p = dec_to_float s d (p + j).
Proof.
  intros Hd Hj. unfold dec_to_float, scale10. pose proof (Z.pow_pos_nonneg 10 j).
  destruct (Z.eqb_spec (d * 10 ^ j) 0), (Z.eqb_spec d 0); try nia.
  pose proof (pow10_max_pos p). pose proof (pow10_max_pos (- p)).
  pose proof (pow10_max_pos (p + j)). pose proof (pow10_max_pos (- (p + j))).
  apply round_ratio_proper; [nia..|].
  rewrite <- !Z.mul_assoc, !Z.mul_1_l, <- !Z.pow_add_r by lia. do 2 f_equal. lia.
Qed.

(** A decimal equal to the float reads as the float. *)
Lemma dec_to_float_exact s m e d p :
  bounded 53 1024 m e = true -> 0 < d ->
  d * 10 ^ Z.max 0 p * 2 ^ Z.max 0 (- e) = Zpos m * 2 ^ Z.max 0 e * 10 ^ Z.max 0 (- p) ->
  dec_to_float s d p = S754_finite s m e.
Proof.
  intros Hb Hd Heq. pose proof (round_ratio_float s m e Hb) as Hr.
  unfold dec_to_float, scale10, scale2 in *. destruct (Z.eqb_spec d 0); [lia|].
  rewrite <- Hr. pose proof (pow10_max_pos p). pose proof (pow10_max_pos (- p)).
  pose proof (pow2_max_pos e). pose proof (pow2_max_pos (- e)).
  apply round_ratio_proper; nia.
Qed.

(** [(d, p)] is a positive decimal that reads back as [m * 2 ^ e]. *)
Definition reads_as (m : positive) (e : Z) (dp : Z * Z) : Prop :=
  0 < dp.1 /\ forall s, dec_to_float s dp.1 dp.2 = S754_finite s m e.

Lemma reads_as_intro m e d p :
  0 <= d -> dec_to_float false d p = S754_finite false m e -> reads_as m e (d, p).
Proof.
  intros Hd H. split; cbn.
  - destruct (Z.eq_dec d 0) as [->|]; [done|lia].
  - intros s. by rewrite dec_to_float_sign, H.
Qed.

Lemma exact_decimal_reads m e :
  bounded 53 1024 m e = true -> reads_as m e (exact_decimal (Zpos m) e).
Proof.
  intros Hb. unfold exact_decimal. destruct (Z.leb_spec 0 e) as [He|He].
  - pose proof (Z.pow_pos_nonneg 2 e). split; cbn; [nia|]. intros s.
    apply dec_to_float_exact; [done|nia|].
    replace (Z.max 0 e) with e by lia. replace (Z.max 0 (- e)) with 0 by lia.
    change (10 ^ Z.max 0 0) with 1. change (10 ^ Z.max 0 (- 0)) with 1. lia.
  - pose proof (Z.pow_pos_nonneg 5 (- e)). split; cbn; [nia|]. intros s.
    apply dec_to_float_exact; [done|nia|].
    replace (Z.max 0 e) with 0 by lia. replace (Z.max 0 (- e)) with (- e) by lia.
    change (10 ^ (- e)) with ((5 * 2) ^ (- e)). rewrite Z.pow_mul_l.
    change (10 ^ 0) with 1. change (2 ^ 0) with 1. ring.
Qed.

Lemma candidate_reads m e k n dp : candidate m e k n = Some dp -> reads_as m e dp.
Proof.
  unfold candidate. destruct (scale2 _ _ _) as [vn vd] eqn:Ev.
  destruct (scale10 _ _ _) as [cn cd] eqn:Ec. intros H.
  assert (0 <= cn / cd) as Hlo.
  { unfold scale2, scale10 in *. simplify_eq.
    pose proof (pow2_max_pos e). pose proof (pow2_max_pos (- e)).
    pose proof (pow10_max_pos (- (k - Z.of_nat n + 1))).
    pose proof (pow10_max_pos (- - (k - Z.of_nat n + 1))).
    apply Z.div_pos; nia. }
  repeat case_bool_decide; simplify_eq; repeat case_match; (apply reads_as_intro; [lia|done]).
Qed.

Lemma shortest_from_reads fuel m e k n :
  bounded 53 1024 m e = true -> reads_as m e (shortest_from fuel m e k n).
Proof.
  intros Hb. revert n; induction fuel as [|fuel IH]; intros n; cbn [shortest_from].
  - by apply exact_decimal_reads.
  - destruct (candidate m e k n) eqn:E; [exact (candidate_reads _ _ _ _ _ E)|apply IH].
Qed.

Lemma strip_zeros_reads fuel m e d p :
  reads_as m e (d, p) -> reads_as m e (strip_zeros fuel d p).
Proof.
  revert d p; induction fuel as [|fuel IH]; intros d p H; cbn; [done|].
  destruct (Z.eqb_spec (d mod 10) 0) as [E|]; [|done].
  apply IH. destruct H as [Hd H]. cbn in *.
  pose proof (Z.div_mod d 10 ltac:(lia)). split; cbn; [lia|].
  intros s. rewrite <- H, <- dec_to_float_shift by lia. f_equal. change (10 ^ 1) with 10. lia.
Qed.

Lemma shortest_decimal_reads m e :
  bounded 53 1024 m e = true -> reads_as m e (shortest_decimal m e).
Proof.
  intros Hb. unfold shortest_decimal. destruct (scale2 (Zpos m) 1 e) as [vn vd].
  pose proof (shortest_from_reads 17 m e (log10_ratio vn vd) 1 Hb) as H.
  destruct (shortest_from 17 m e (log10_ratio vn vd) 1) as [d p]. by apply strip_zeros_reads.
Qed.
