(* ===== verification/PyValue.v ===== *)
(** Python objects that flow through the sources: the JSON-like values, and
    dictionaries with insertion order. *)

From S2P Require Import Prelude.
From S2P Require Import PyText.
From S2P Require Import Binary64.
From stdpp Require Import sorting.

(** ** Values *)

(** A dictionary key: a [str], or another hashable object, which no operation
    of the sources distinguishes further and which [json.dumps] refuses. *)
Inductive pykey : Type :=
| KStr (s : pystr)
| KOther (id : Z).

(** [PBool] is kept apart from [PInt] because the sources test
    [isinstance(x, bool)] before [isinstance(x, int)].  [POther] is any object
    that is none of the JSON types; it carries [type(x).__name__]. *)
Inductive pyval : Type :=
| PNone
| PBool (b : bool)
| PInt (z : Z)
| PFloat (f : spec_float)
| PStr (s : pystr)
| PList (l : list pyval)
| PDict (d : list (pykey * pyval))
| POther (type_name : pystr).

#[global] Instance pykey_eq_dec : EqDecision pykey.
Proof. solve_decision. Defined.

(** Induction through the nested lists. *)
Section pyval_ind'.
Variable P : pyval -> Prop.
Hypothesis HNone : P PNone.
Hypothesis HBool : forall b, P (PBool b).
Hypothesis HInt : forall z, P (PInt z).
Hypothesis HFloat : forall f, P (PFloat f).
Hypothesis HStr : forall s, P (PStr s).
Hypothesis HList : forall l, Forall P l -> P (PList l).
Hypothesis HDict : forall d, Forall (fun kv => P kv.2) d -> P (PDict d).
Hypothesis HOther : forall t, P (POther t).

Fixpoint pyval_ind' (v : pyval) : P v :=
  match v with
  | PNone => HNone
  | PBool b => HBool b
  | PInt z => HInt z
  | PFloat f => HFloat f
  | PStr s => HStr s
  | PList l =>
      HList l ((fix go l : Forall P l :=
        match l with
        | [] => Forall_nil_2 P
        | x :: l => Forall_cons_2 P x l (pyval_ind' x) (go l)
        end) l)
  | PDict d =>
      HDict d ((fix go d : Forall (fun kv => P kv.2) d :=
        match d with
        | [] => Forall_nil_2 _
        | kv :: d => Forall_cons_2 _ kv d (pyval_ind' kv.2) (go d)
        end) d)
  | POther t => HOther t
  end.
End pyval_ind'.

(** ** Dictionaries whose keys are all strings *)

(** The [str]-keyed view of a dictionary, in insertion order. *)
Notation pydict := (list (pystr * pyval)) (only parsing).

(** [all(isinstance(key, str) for key in d)], with the view it licenses. *)
Fixpoint str_keys {A} (d : list (pykey * A)) : option (list (pystr * A)) :=
  match d with
  | [] => Some []
  | (KStr k, v) :: d => cons (k, v) <$> str_keys d
  | (KOther _, _) :: _ => None
  end.

Definition to_dict (d : pydict) : pyval := PDict (map (fun kv => (KStr kv.1, kv.2)) d).

(** [d.get(k)]; [d[k]] where the key is known to be present. *)
Fixpoint dget (k : pystr) (d : pydict) : option pyval :=
  match d with
  | [] => None
  | (k', v) :: d => if bool_decide (k = k') then Some v else dget k d
  end.

Definition has_key (k : pystr) (d : pydict) : bool :=
  match dget k d with Some _ => true | None => false end.

(** [d[k] = v]: in place when the key exists, else at the end. *)
Fixpoint dset (k : pystr) (v : pyval) (d : pydict) : pydict :=
  match d with
  | [] => [(k, v)]
  | (k', v') :: d => if bool_decide (k = k') then (k', v) :: d else (k', v') :: dset k v d
  end.

(** [{key: value for key, value in d.items() if p(key)}]. *)
Definition dfilter (p : pystr -> bool) (d : pydict) : pydict :=
  List.filter (fun kv => p kv.1) d.

Definition keys (d : pydict) : list pystr := map fst d.

(** Membership and difference of the field sets of the sources. *)
Definition mem (k : pystr) (s : list pystr) : bool := bool_decide (k ∈ s).
Definition set_diff (a b : list pystr) : list pystr := List.filter (fun k => negb (mem k b)) a.

(** ** Sorting by key: [sorted(...)], [sort_keys=True] *)

Section sort.
Context {A : Type} (key : A -> pystr).

Fixpoint insert_by (x : A) (l : list A) : list A :=
  match l with
  | [] => [x]
  | y :: l' => if str_leb (key x) (key y) then x :: l else y :: insert_by x l'
  end.

Definition sort_by (l : list A) : list A := fold_right insert_by [] l.

Definition key_le (x y : A) : Prop := str_leb (key x) (key y) = true.

#[export] Instance key_le_trans : Transitive key_le.
Proof. intros x y z. unfold key_le. apply str_leb_trans. Qed.

Lemma insert_by_perm x l : insert_by x l ≡ₚ x :: l.
Proof.
  induction l as [|y l IH]; cbn; [done|]. destruct (str_leb _ _); [done|].
  rewrite IH. apply Permutation_swap.
Qed.

Lemma sort_by_perm l : sort_by l ≡ₚ l.
Proof.
  unfold sort_by. induction l as [|x l IH]; cbn; [done|]. by rewrite insert_by_perm, IH.
Qed.

Lemma insert_by_sorted x l : StronglySorted key_le l -> StronglySorted key_le (insert_by x l).
Proof.
  induction 1 as [|y l Hs IH Hf]; cbn; [repeat constructor|].
  destruct (str_leb (key x) (key y)) eqn:E.
  - constructor; [by constructor|]. constructor; [done|].
    eapply Forall_impl; [exact Hf|]. intros z Hz. by etrans; [exact E|].
  - constructor; [done|]. rewrite insert_by_perm. constructor; [|done].
    destruct (str_leb_total (key x) (key y)); [congruence|done].
Qed.

Lemma sort_by_sorted l : StronglySorted key_le (sort_by l).
Proof. induction l; cbn; [constructor|by apply insert_by_sorted]. Qed.

Lemma sort_by_id l : StronglySorted key_le l -> sort_by l = l.
Proof.
  unfold sort_by. induction 1 as [|x l Hs IH Hf]; cbn; [done|]. rewrite IH. destruct Hf as [|y l Hy]; [done|].
  cbn. by rewrite Hy.
Qed.

Lemma sort_by_idemp l : sort_by (sort_by l) = sort_by l.
Proof. apply sort_by_id, sort_by_sorted. Qed.

(** A sorted list with distinct keys is determined by its elements. *)
Lemma sorted_perm_eq l l' :
  NoDup (map key l) -> l ≡ₚ l' ->
  StronglySorted key_le l -> StronglySorted key_le l' -> l = l'.
Proof.
  revert l'; induction l as [|x l IH]; intros l' Hnd Hp Hs Hs'.
  { by apply Permutation_nil_l in Hp. }
  destruct l' as [|y l']; [by apply Permutation_nil_r in Hp|].
  inversion_clear Hs as [|? ? Hs1 Hf]. inversion_clear Hs' as [|? ? Hs1' Hf'].
  cbn in Hnd. apply NoDup_cons in Hnd as [Hni Hnd].
  assert (x = y) as <-.
  { assert (Hx : x ∈ y :: l') by (rewrite <- Hp; left).
    assert (Hy : y ∈ x :: l) by (rewrite Hp; left).
    apply elem_of_cons in Hx as [?|Hx]; [done|].
    apply elem_of_cons in Hy as [?|Hy]; [done|].
    exfalso. apply Hni. rewrite Forall_forall in Hf, Hf'.
    rewrite (str_leb_antisym (key x) (key y)); [|by apply Hf|by apply Hf'].
    by apply list_elem_of_fmap_2. }
  f_equal. apply IH; [done| |done..]. by apply Permutation_cons_inv in Hp.
Qed.

Lemma sort_by_proper l l' : NoDup (map key l) -> l ≡ₚ l' -> sort_by l = sort_by l'.
Proof.
  intros Hnd Hp. apply sorted_perm_eq; [|by rewrite !sort_by_perm|apply sort_by_sorted..].
  rewrite (Permutation_map key (sort_by_perm l)). done.
Qed.
End sort.

(** Sorting by key commutes with a change of the values. *)
Definition map_snd {K A B} (f : A -> B) (l : list (K * A)) : list (K * B) :=
  map (fun kv => (kv.1, f kv.2)) l.

Lemma sort_by_map_snd {A B} (f : A -> B) (l : list (pystr * A)) :
  sort_by fst (map_snd f l) = map_snd f (sort_by fst l).
Proof.
  unfold sort_by, map_snd. induction l as [|[k a] l IH]; cbn; [done|]. rewrite IH.
  generalize (fold_right (insert_by fst) [] l) as l'. clear.
  induction l' as [|[k' a'] l' IH]; cbn; [done|].
  destruct (str_leb k k'); cbn; [done|]. by rewrite IH.
Qed.

Lemma map_snd_fst {K A B} (f : A -> B) (l : list (K * A)) : map fst (map_snd f l) = map fst l.
Proof. unfold map_snd. by rewrite map_map. Qed.

Lemma str_keys_map_snd {A B} (f : A -> B) (d : list (pykey * A)) :
  str_keys (map_snd f d) = map_snd f <$> str_keys d.
Proof.
  unfold map_snd. induction d as [|[[k|i] a] d IH]; cbn; [done| |done].
  rewrite IH. by destruct (str_keys d).
Qed.

Definition of_str_keys {A} (d : list (pystr * A)) : list (pykey * A) :=
  map (fun kv => (KStr kv.1, kv.2)) d.

Lemma str_keys_Some {A} (d : list (pykey * A)) d' : str_keys d = Some d' <-> d = of_str_keys d'.
Proof.
  split.
  - revert d'; induction d as [|[[k|i] a] d IH]; intros d'; cbn; [by intros [= <-]| |done].
    destruct (str_keys d) as [d0|]; cbn; [|done]. intros [= <-]. cbn. f_equal. by apply IH.
  - intros ->. induction d' as [|[k a] d' IH]; cbn; [done|]. unfold of_str_keys in IH. by rewrite IH.
Qed.

Lemma of_str_keys_inj {A} (d d' : list (pystr * A)) : of_str_keys d = of_str_keys d' -> d = d'.
Proof.
  intros H. apply str_keys_Some in H. rewrite (proj2 (str_keys_Some _ d) eq_refl) in H.
  by injection H.
Qed.

Lemma to_dict_inj (d d' : pydict) : to_dict d = to_dict d' -> d = d'.
Proof. intros [= H]. by apply of_str_keys_inj. Qed.

Lemma str_keys_to_dict {A} (d : list (pystr * A)) : str_keys (map (fun kv => (KStr kv.1, kv.2)) d) = Some d.
Proof. by apply str_keys_Some. Qed.

(** ** Lookup laws *)

Section dict_laws.
Implicit Types (d : pydict) (k : pystr) (v : pyval).

Lemma dget_Some_elem k v d : dget k d = Some v -> (k, v) ∈ d.
Proof.
  induction d as [|[k' v'] d IH]; cbn; [done|]. case_bool_decide; subst.
  - intros [= ->]. left.
  - right. auto.
Qed.

Lemma dget_None k d : dget k d = None <-> k ∉ keys d.
Proof.
  induction d as [|[k' v'] d IH]; cbn; [split; [intros _; apply not_elem_of_nil|done]|].
  rewrite not_elem_of_cons. case_bool_decide; naive_solver.
Qed.

Lemma elem_dget k v d : NoDup (keys d) -> (k, v) ∈ d -> dget k d = Some v.
Proof.
  induction d as [|[k' v'] d IH]; cbn; [by intros _ ?%not_elem_of_nil|].
  intros [Hni Hnd]%NoDup_cons [[= -> ->]|Hin]%elem_of_cons.
  - by rewrite bool_decide_eq_true_2.
  - rewrite bool_decide_eq_false_2; [auto|]. intros ->. apply Hni.
    by apply (list_elem_of_fmap_2 fst) in Hin.
Qed.

Lemma dget_perm k d d' : NoDup (keys d) -> d ≡ₚ d' -> dget k d = dget k d'.
Proof.
  intros Hnd Hp. assert (Hnd' : NoDup (keys d')) by (unfold keys in *; by rewrite <- Hp).
  destruct (dget k d) as [v|] eqn:E; symmetry.
  - apply elem_dget; [done|]. rewrite <- Hp. by apply dget_Some_elem.
  - apply dget_None. apply dget_None in E. unfold keys in *. by rewrite <- Hp.
Qed.

Lemma dget_dfilter p k d : dget k (dfilter p d) = if p k then dget k d else None.
Proof.
  unfold dfilter. induction d as [|[k' v'] d IH]; cbn; [by destruct (p k)|].
  destruct (p k') eqn:Ek'; cbn; [case_bool_decide; subst|].
  - by rewrite Ek'.
  - done.
  - rewrite IH. case_bool_decide; subst; [by rewrite Ek'|done].
Qed.

Lemma keys_dfilter p d : keys (dfilter p d) = List.filter p (keys d).
Proof.
  unfold keys, dfilter. induction d as [|[k' v'] d IH]; cbn; [done|].
  destruct (p k'); cbn; by rewrite IH.
Qed.

Lemma dget_dset k k' v d : dget k (dset k' v d) = if bool_decide (k = k') then Some v else dget k d.
Proof.
  induction d as [|[k0 v0] d IH]; cbn.
  - by repeat case_bool_decide.
  - destruct (decide (k' = k0)) as [->|Hne].
    + rewrite (bool_decide_eq_true_2 (k0 = k0)) by done. cbn. by repeat case_bool_decide.
    + rewrite (bool_decide_eq_false_2 (k' = k0)) by done. cbn. rewrite IH.
      repeat case_bool_decide; congruence.
Qed.

Lemma keys_dset k v d : keys (dset k v d) = if has_key k d then keys d else keys d ++ [k].
Proof.
  unfold has_key, keys. induction d as [|[k0 v0] d IH]; cbn; [done|].
  case_bool_decide; cbn; [done|]. rewrite IH. by destruct (dget k d).
Qed.

Lemma dset_new k v d : has_key k d = false -> dset k v d = d ++ [(k, v)].
Proof.
  unfold has_key. induction d as [|[k0 v0] d IH]; cbn; [done|].
  case_bool_decide; cbn; [done|]. intros ?. by rewrite IH.
Qed.

Lemma has_key_false k d : has_key k d = false <-> k ∉ keys d.
Proof. rewrite <- dget_None. unfold has_key. by destruct (dget k d). Qed.

Lemma dset_nodup k v d : NoDup (keys d) -> NoDup (keys (dset k v d)).
Proof.
  intros Hnd. rewrite keys_dset. destruct (has_key k d) eqn:E; [done|].
  apply has_key_false in E. apply NoDup_app. split; [done|].
  split; [|apply NoDup_singleton]. intros x Hx ->%list_elem_of_singleton. done.
Qed.

Lemma filter_nodup (p : pystr * pyval -> bool) d : NoDup (keys d) -> NoDup (keys (List.filter p d)).
Proof.
  unfold keys. induction d as [|kv d IH]; cbn; [constructor|]. rewrite NoDup_cons. intros [Hni Hnd].
  destruct (p kv); cbn; [|auto]. apply NoDup_cons. split; [|auto]. intros Hin. apply Hni.
  apply list_elem_of_fmap in Hin as (kv' & -> & Hin). apply list_elem_of_In, filter_In in Hin as [Hin _].
  by apply list_elem_of_In, in_map.
Qed.

Lemma dfilter_nodup p d : NoDup (keys d) -> NoDup (keys (dfilter p d)).
Proof. apply filter_nodup. Qed.

Lemma mem_spec k (l : list pystr) : mem k l = true <-> k ∈ l.
Proof. unfold mem. by rewrite bool_decide_eq_true. Qed.

Lemma mem_false k (l : list pystr) : mem k l = false <-> k ∉ l.
Proof. rewrite <- not_true_iff_false. by rewrite mem_spec. Qed.

Lemma set_diff_nil (a b : list pystr) : set_diff a b = [] <-> (forall k, k ∈ a -> k ∈ b).
Proof.
  unfold set_diff. induction a as [|x a IH]; cbn.
  - split; [|done]. by intros _ k ?%not_elem_of_nil.
  - destruct (mem x b) eqn:E; cbn.
    + apply mem_spec in E. rewrite IH. split; [|by intros H k ?; apply H; right].
      intros H k [->|?]%elem_of_cons; auto.
    + split; [done|]. intros H. assert (mem x b = true) by (apply mem_spec, H; left). congruence.
Qed.
End dict_laws.
