(* ===== verification/JsonDumps.v ===== *)
(** [json.dumps(value, sort_keys=True, separators=(",", ":"),
    ensure_ascii=False, allow_nan=False)] of CPython 3.11: the canonical text
    of [forensics/_format.py], [canonical_json_bytes].  The interpreter's
    recursion limit is not modelled. *)

From S2P Require Import Prelude.
From S2P Require Import PyText.
From S2P Require Import Binary64.
From S2P Require Import PyValue.

Inductive dumps_error := DumpsTypeError | DumpsValueError.

(** [sys.get_int_max_str_digits()], the default of CPython 3.11. *)
Definition max_str_digits : nat := 4300.

Definition dumps_int (z : Z) : res dumps_error pystr :=
  if Nat.leb (length (dec_nat (Z.abs z))) max_str_digits then Ok (dec z) else Err DumpsValueError.

(** One character of a JSON string with [ensure_ascii=False]. *)
Definition esc_char (c : Z) : pystr :=
  if c =? 34 then [92; 34]
  else if c =? 92 then [92; 92]
  else if c =? 10 then [92; 110]
  else if c =? 13 then [92; 114]
  else if c =? 9 then [92; 116]
  else if c =? 8 then [92; 98]
  else if c =? 12 then [92; 102]
  else if c <? 32 then [92; 117; 48; 48; hex_digit (c / 16); hex_digit (c mod 16)]
  else [c].

Definition quote (s : pystr) : pystr := 34 :: flat_map esc_char s ++ [34].

(** [",".join(...)]. *)
Fixpoint join_comma (l : list pystr) : pystr :=
  match l with
  | [] => []
  | [t] => t
  | t :: l => t ++ 44 :: join_comma l
  end.

(** The first exception of a list of renderings, or all the texts. *)
Fixpoint sequence {E A} (l : list (res E A)) : res E (list A) :=
  match l with
  | [] => Ok []
  | m :: l => a ← m; rest ← sequence l; Ok (a :: rest)
  end.

(** One [key:value] member whose value text is given. *)
Definition member_text (kt : pystr * res dumps_error pystr) : res dumps_error pystr :=
  t ← kt.2; Ok (quote kt.1 ++ 58 :: t).

(** A non-string key makes the sort or the key conversion raise [TypeError]. *)
Fixpoint dumps (v : pyval) : res dumps_error pystr :=
  match v with
  | PNone => Ok (u "null")
  | PBool b => Ok (if b then u "true" else u "false")
  | PInt z => dumps_int z
  | PFloat f => if is_finite f then Ok (float_repr f) else Err DumpsValueError
  | PStr s => Ok (quote s)
  | PList l =>
      ts ← sequence (map dumps l);
      Ok (91 :: join_comma ts ++ [93])
  | PDict d =>
      match str_keys (map (fun kv => (kv.1, dumps kv.2)) d) with
      | None => Err DumpsTypeError
      | Some items =>
          ts ← sequence (map member_text (sort_by fst items));
          Ok (123 :: join_comma ts ++ [125])
      end
  | POther _ => Err DumpsTypeError
  end.

(** ** Well-formed values: what a Python object of these types can be *)

Definition str_okb (s : pystr) : bool := forallb is_codepoint s.
Definition key_okb (k : pykey) : bool := match k with KStr s => str_okb s | KOther _ => true end.

(** Floats are binary64, code points are in range, dictionary keys are distinct. *)
Fixpoint wf_val (v : pyval) : bool :=
  match v with
  | PFloat f => valid_float f
  | PStr s => str_okb s
  | PList l => forallb wf_val l
  | PDict d => bool_decide (NoDup (map fst d)) && forallb (fun kv => key_okb kv.1 && wf_val kv.2) d
  | _ => true
  end.

(** The values that have a text: no integer above the limit of [str], keys that
    are texts.  [text_ok] is what every text is asked. *)
Section writable.
Variable text_ok : pystr -> bool.

Fixpoint writable (v : pyval) : bool :=
  match v with
  | PInt z => Nat.leb (length (dec_nat (Z.abs z))) max_str_digits
  | PFloat f => valid_float f
  | PStr s => text_ok s
  | PList l => forallb writable l
  | PDict d => bool_decide (NoDup (map fst d))
      && forallb (fun kv => match kv.1 with KStr k => text_ok k | KOther _ => false end && writable kv.2) d
  | POther _ => false
  | _ => true
  end.
End writable.

(** The value with every dictionary in key order: the representative of the
    class of values that compare equal up to insertion order. *)
Definition key_text (k : pykey) : pystr := match k with KStr s => s | KOther _ => [] end.

Fixpoint norm (v : pyval) : pyval :=
  match v with
  | PList l => PList (map norm l)
  | PDict d => PDict (sort_by (fun kv => key_text kv.1) (map (fun kv => (kv.1, norm kv.2)) d))
  | v => v
  end.

Lemma str_okb_spec s : str_okb s = true <-> str_ok s.
Proof. unfold str_okb, str_ok. rewrite forallb_forall, Forall_forall.
  setoid_rewrite list_elem_of_In. done. Qed.

(** ** Equations *)

Section sequence.
Context {E A : Type}.
Implicit Types l : list (res E A).

Lemma sequence_Ok l ts : sequence l = Ok ts <-> Forall2 (fun m t => m = Ok t) l ts.
Proof.
  revert ts; induction l as [|m l IH]; intros ts; cbn.
  - split; [intros [= <-]; constructor|]. by inversion 1.
  - split.
    + intros H. inv_ok. subst. constructor; [done|]. by apply IH.
    + inversion 1; subst. apply bind_Ok. eexists; split; [done|].
      apply bind_Ok. eexists; split; [by apply IH|done].
Qed.
End sequence.

Lemma sort_by_of_str_keys {A} (d : list (pystr * A)) :
  sort_by (fun kv => key_text kv.1) (of_str_keys d) = of_str_keys (sort_by fst d).
Proof.
  unfold sort_by, of_str_keys. induction d as [|[k a] d IH]; cbn; [done|]. rewrite IH.
  generalize (fold_right (insert_by fst) [] d) as l. clear.
  induction l as [|[k' a'] l IH]; cbn; [done|]. destruct (str_leb k k'); cbn; [done|]. by rewrite IH.
Qed.

Lemma norm_dict (d : pydict) : norm (PDict (of_str_keys d)) = PDict (of_str_keys (map_snd norm (sort_by fst d))).
Proof.
  cbn. rewrite <- sort_by_map_snd, <- sort_by_of_str_keys. do 2 f_equal.
  unfold of_str_keys, map_snd. by rewrite !map_map.
Qed.

Lemma dumps_dict (d : list (pykey * pyval)) :
  dumps (PDict d) =
  match str_keys d with
  | None => Err DumpsTypeError
  | Some sd =>
      ts ← sequence (map (fun kv => member_text (kv.1, dumps kv.2)) (sort_by fst sd));
      Ok (123 :: join_comma ts ++ [125])
  end.
Proof.
  cbn. change (map _ d) with (map_snd dumps d). rewrite str_keys_map_snd.
  destruct (str_keys d) as [sd|]; cbn; [|done].
  rewrite sort_by_map_snd. unfold map_snd. by rewrite map_map.
Qed.

Lemma wf_val_dict (d : pydict) :
  wf_val (PDict (of_str_keys d)) = true <->
  NoDup (keys d) /\ Forall (fun kv => str_ok kv.1 /\ wf_val kv.2 = true) d.
Proof.
  cbn. rewrite andb_true_iff, bool_decide_eq_true, forallb_forall.
  assert (Hk : map fst (of_str_keys d) = map KStr (map fst d))
    by (unfold of_str_keys; by rewrite !map_map).
  unfold keys. rewrite Hk. unfold of_str_keys.
  rewrite Forall_forall. setoid_rewrite in_map_iff. setoid_rewrite list_elem_of_In.
  split; intros [Hnd Hf]; split.
  - by apply NoDup_fmap_1 in Hnd.
  - intros kv Hin. specialize (Hf (KStr kv.1, kv.2)). cbn in Hf.
    rewrite andb_true_iff, str_okb_spec in Hf. apply Hf. by eexists.
  - apply NoDup_fmap_2; [|done]. by intros ?? [= ->].
  - intros ? (kv & <- & Hin). cbn. rewrite andb_true_iff, str_okb_spec. by apply Hf.
Qed.

Lemma writable_dict text_ok (d : list (pykey * pyval)) :
  writable text_ok (PDict d) = true <->
  exists sd, d = of_str_keys sd /\ NoDup (keys sd) /\
    Forall (fun kv => text_ok kv.1 = true /\ writable text_ok kv.2 = true) sd.
Proof.
  cbn. rewrite andb_true_iff, bool_decide_eq_true, forallb_forall. split.
  - intros [Hnd Hf]. assert (exists sd, d = of_str_keys sd) as [sd ->].
    { clear Hnd. induction d as [|[[k|] v] d IH]; [by exists []| |].
      - destruct IH as [sd ->]; [intros x Hx; apply Hf; by right|]. by exists ((k, v) :: sd).
      - specialize (Hf (KOther id, v) (or_introl eq_refl)). done. }
    exists sd. split; [done|]. split.
    + apply (NoDup_fmap_1 KStr). unfold keys. unfold of_str_keys in Hnd. rewrite map_map in Hnd.
      change (NoDup (map KStr (map fst sd))). by rewrite map_map.
    + apply Forall_forall. intros [k v] Hin%list_elem_of_In. specialize (Hf (KStr k, v)). cbn in Hf.
      apply andb_true_iff, Hf. unfold of_str_keys. apply in_map_iff. by exists (k, v).
  - intros (sd & -> & Hnd & Hf). rewrite Forall_forall in Hf. split.
    + assert (map fst (of_str_keys sd) = map KStr (keys sd)) as -> by (unfold of_str_keys, keys; by rewrite !map_map).
      apply NoDup_fmap_2; [by intros ?? [= ->]|done].
    + intros ? ([k v] & <- & Hin)%in_map_iff. apply andb_true_iff. apply (Hf (k, v)). by apply list_elem_of_In.
Qed.

(** Over a dictionary known to be keyed by texts. *)
Lemma writable_members text_ok (sd : pydict) :
  writable text_ok (PDict (of_str_keys sd)) = true <->
  NoDup (keys sd) /\ Forall (fun kv => text_ok kv.1 = true /\ writable text_ok kv.2 = true) sd.
Proof.
  rewrite writable_dict. split.
  - intros (sd' & E & H1 & H2). assert (sd = sd') as ->; [|done].
    apply (f_equal str_keys) in E. rewrite !(proj2 (str_keys_Some _ _) eq_refl) in E. by injection E.
  - intros [H1 H2]. by exists sd.
Qed.

(** Such values are well formed. *)
Lemma writable_wf v : writable str_okb v = true -> wf_val v = true.
Proof.
  induction v as [|c|z|f|s|l IH|d IH|ty] using pyval_ind'; try done.
  - cbn. rewrite !forallb_forall. rewrite Forall_forall in IH. setoid_rewrite <- list_elem_of_In. auto.
  - intros (sd & -> & Hnd & Hf)%writable_dict. apply wf_val_dict. split; [done|].
    unfold of_str_keys in IH. apply Forall_map in IH. rewrite Forall_forall in *. intros kv Hkv.
    destruct (Hf kv Hkv) as [Hk Hv]. split; [by apply str_okb_spec|]. by apply (IH kv Hkv).
Qed.

(** The text depends only on the normal form. *)
Lemma sort_by_keys_perm {A} (d d' : list (pystr * A)) :
  NoDup (map fst d) -> d ≡ₚ d' -> sort_by fst d = sort_by fst d'.
Proof. apply sort_by_proper. Qed.
