(* ===== verification/JsonLoads.v ===== *)
(** [json.loads] of CPython 3.11 (the C scanner), for [str] and for [bytes]
    arguments, and the round trip with [json.dumps].

    Fuel bounds only the nesting and the number of members; it is the length of
    the text plus one, and [loads_str_fuel] shows that it never runs out.  The
    interpreter's recursion limit is not modelled. *)

From S2P Require Import Prelude.
From S2P Require Import PyText.
From S2P Require Import Binary64.
From S2P Require Import PyValue.
From S2P Require Import JsonDumps.

(** [ScanDecodeError] is [JSONDecodeError], [ScanUnicodeError] is
    [UnicodeDecodeError], [ScanValueError] the bare [ValueError] of [int()] on
    more than 4300 digits. *)
Inductive scan_error := ScanDecodeError | ScanUnicodeError | ScanValueError | ScanOutOfFuel.

(** ** Numbers *)

(** The four parts of the number grammar; the exponent carries its sign character. *)
Record num_token := NumToken {
  nt_neg : bool;
  nt_int : pystr;
  nt_frac : option pystr;
  nt_exp : option (option bool * pystr)
}.

Fixpoint take_digits (s : pystr) : pystr * pystr :=
  match s with
  | c :: s' => if is_digit c then let '(ds, r) := take_digits s' in (c :: ds, r) else ([], s)
  | [] => ([], [])
  end.

(** ["." digits+], or nothing is consumed. *)
Definition scan_frac (s : pystr) : option pystr * pystr :=
  match s with
  | c :: s' =>
      if c =? 46 then
        match take_digits s' with
        | ([], _) => (None, s)
        | (ds, r) => (Some ds, r)
        end
      else (None, s)
  | [] => (None, s)
  end.

Definition scan_sign (s : pystr) : option bool * pystr :=
  match s with
  | c :: s' =>
      if c =? 45 then (Some true, s') else if c =? 43 then (Some false, s') else (None, s)
  | [] => (None, s)
  end.

(** [[eE] [+-]? digits+], or nothing is consumed. *)
Definition scan_exp (s : pystr) : option (option bool * pystr) * pystr :=
  match s with
  | c :: s' =>
      if (c =? 101) || (c =? 69) then
        let '(sg, s'') := scan_sign s' in
        match take_digits s'' with
        | ([], _) => (None, s)
        | (ds, r) => (Some (sg, ds), r)
        end
      else (None, s)
  | [] => (None, s)
  end.

(** [-? (0 | [1-9] digits* )]. *)
Definition scan_int (s : pystr) : option (pystr * pystr) :=
  match s with
  | c :: s' =>
      if c =? 48 then Some ([48], s')
      else if (49 <=? c) && (c <=? 57) then
        let '(ds, r) := take_digits s' in Some (c :: ds, r)
      else None
  | [] => None
  end.

Definition scan_minus (s : pystr) : bool * pystr :=
  match s with
  | c :: s' => if c =? 45 then (true, s') else (false, s)
  | [] => (false, s)
  end.

Definition scan_token (s : pystr) : option (num_token * pystr) :=
  let '(neg, s) := scan_minus s in
  match scan_int s with
  | None => None
  | Some (i, s) =>
      let '(f, s) := scan_frac s in
      let '(x, s) := scan_exp s in
      Some (NumToken neg i f x, s)
  end.

Definition exp_value (x : option (option bool * pystr)) : Z :=
  match x with
  | None => 0
  | Some (Some true, ds) => - dec_value ds
  | Some (_, ds) => dec_value ds
  end.

(** [int(text)] or [float(text)]. *)
Definition token_value (t : num_token) : res scan_error pyval :=
  match nt_frac t, nt_exp t with
  | None, None =>
      if Nat.leb (length (nt_int t)) max_str_digits
      then Ok (PInt (if nt_neg t then - dec_value (nt_int t) else dec_value (nt_int t)))
      else Err ScanValueError
  | f, x =>
      let ds := default [] f in
      Ok (PFloat (dec_to_float (nt_neg t) (dec_value (nt_int t ++ ds))
                    (exp_value x - Z.of_nat (length ds))))
  end.

(** ** Strings *)

Definition hex4 (a b c d : Z) : option Z :=
  va ← hex_value a; vb ← hex_value b; vc ← hex_value c; vd ← hex_value d;
  Some (4096 * va + 256 * vb + 16 * vc + vd).

(** A one-letter escape. *)
Definition simple_escape (c : Z) : option Z :=
  if c =? 34 then Some 34 else if c =? 92 then Some 92 else if c =? 47 then Some 47
  else if c =? 98 then Some 8 else if c =? 102 then Some 12 else if c =? 110 then Some 10
  else if c =? 114 then Some 13 else if c =? 116 then Some 9 else None.

Definition push (c : Z) (m : option (pystr * pystr)) : option (pystr * pystr) :=
  '(t, r) ← m; Some (c :: t, r).

(** The text after the opening quote, up to and including the closing one. *)
Fixpoint scan_str (s : pystr) : option (pystr * pystr) :=
  match s with
  | [] => None
  | c :: s1 =>
      if c =? 34 then Some ([], s1)
      else if c =? 92 then
        match s1 with
        | [] => None
        | e :: s2 =>
            if e =? 117 then
              match s2 with
              | h1 :: h2 :: h3 :: h4 :: s3 =>
                  match hex4 h1 h2 h3 h4 with
                  | None => None
                  | Some hi =>
                      if is_high_surrogate hi then
                        match s3 with
                        | b :: x :: g1 :: g2 :: g3 :: g4 :: s4 =>
                            if (b =? 92) && (x =? 117) then
                              match hex4 g1 g2 g3 g4 with
                              | None => None
                              | Some lo =>
                                  if is_low_surrogate lo
                                  then push (join_surrogates hi lo) (scan_str s4)
                                  else push hi (scan_str s3)
                              end
                            else push hi (scan_str s3)
                        | _ => push hi (scan_str s3)
                        end
                      else push hi (scan_str s3)
                  end
              | _ => None
              end
            else match simple_escape e with
                 | None => None
                 | Some c' => push c' (scan_str s2)
                 end
        end
      else if c <=? 31 then None
      else push c (scan_str s1)
  end.

(** ** Values *)

Definition is_ws (c : Z) : bool := (c =? 32) || (c =? 9) || (c =? 10) || (c =? 13).

Fixpoint skip_ws (s : pystr) : pystr :=
  match s with
  | c :: s' => if is_ws c then skip_ws s' else s
  | [] => []
  end.

Fixpoint strip_prefix (p s : pystr) : option pystr :=
  match p, s with
  | [], _ => Some s
  | a :: p, b :: s => if a =? b then strip_prefix p s else None
  | _ :: _, [] => None
  end.

(** The constants of the scanner, [NaN] and the infinities included. *)
Definition constants : list (pystr * pyval) := Eval vm_compute in
  [ (u "null", PNone); (u "true", PBool true); (u "false", PBool false);
    (u "NaN", PFloat S754_nan); (u "Infinity", PFloat (S754_infinity false));
    (u "-Infinity", PFloat (S754_infinity true)) ].

Fixpoint scan_constant (cs : list (pystr * pyval)) (s : pystr) : option (pyval * pystr) :=
  match cs with
  | [] => None
  | (p, v) :: cs =>
      match strip_prefix p s with Some r => Some (v, r) | None => scan_constant cs s end
  end.

Definition scan_number (s : pystr) : res scan_error (pyval * pystr) :=
  match scan_token s with
  | None => Err ScanDecodeError
  | Some (t, r) => v ← token_value t; Ok (v, r)
  end.

(** [s[idx] == c], with the text after it. *)
Definition eat (c : Z) (s : pystr) : option pystr :=
  match s with
  | c' :: r => if c' =? c then Some r else None
  | [] => None
  end.

Section containers.
Variable scan : pystr -> res scan_error (pyval * pystr).

(** Array elements, at the first one or after a comma. *)
Fixpoint scan_elements (n : nat) (s : pystr) (acc : list pyval) : res scan_error (pyval * pystr) :=
  match n with
  | O => Err ScanOutOfFuel
  | S n =>
      '(v, r) ← scan s;
      match eat 44 (skip_ws r) with
      | Some r => scan_elements n (skip_ws r) (acc ++ [v])
      | None =>
          match eat 93 (skip_ws r) with
          | Some r => Ok (PList (acc ++ [v]), r)
          | None => Err ScanDecodeError
          end
      end
  end.

Definition scan_array (n : nat) (s : pystr) : res scan_error (pyval * pystr) :=
  match eat 93 (skip_ws s) with
  | Some r => Ok (PList [], r)
  | None => scan_elements n (skip_ws s) []
  end.

(** Object members; a repeated key overwrites the earlier value. *)
Fixpoint scan_members (n : nat) (s : pystr) (acc : pydict) : res scan_error (pyval * pystr) :=
  match n with
  | O => Err ScanOutOfFuel
  | S n =>
      match eat 34 s ≫= scan_str with
      | None => Err ScanDecodeError
      | Some (k, r) =>
          match eat 58 (skip_ws r) with
          | None => Err ScanDecodeError
          | Some r =>
              '(v, r) ← scan (skip_ws r);
              match eat 44 (skip_ws r) with
              | Some r => scan_members n (skip_ws r) (dset k v acc)
              | None =>
                  match eat 125 (skip_ws r) with
                  | Some r => Ok (PDict (of_str_keys (dset k v acc)), r)
                  | None => Err ScanDecodeError
                  end
              end
          end
      end
  end.

Definition scan_object (n : nat) (s : pystr) : res scan_error (pyval * pystr) :=
  match eat 125 (skip_ws s) with
  | Some r => Ok (PDict [], r)
  | None => scan_members n (skip_ws s) []
  end.
End containers.

Fixpoint scan_once (n : nat) (s : pystr) : res scan_error (pyval * pystr) :=
  match n with
  | O => Err ScanOutOfFuel
  | S n =>
      match s with
      | [] => Err ScanDecodeError
      | c :: s' =>
          if c =? 34 then
            match scan_str s' with
            | None => Err ScanDecodeError
            | Some (t, r) => Ok (PStr t, r)
            end
          else if c =? 123 then scan_object (scan_once n) n s'
          else if c =? 91 then scan_array (scan_once n) n s'
          else match scan_constant constants s with
               | Some (v, r) => Ok (v, r)
               | None => scan_number s
               end
      end
  end.

(** [JSONDecoder.decode]. *)
Definition decode (s : pystr) : res scan_error pyval :=
  '(v, r) ← scan_once (S (length s)) (skip_ws s);
  match skip_ws r with [] => Ok v | _ => Err ScanDecodeError end.

(** [json.loads(s)] for a [str]: a leading byte order mark is refused. *)
Definition loads_str (s : pystr) : res scan_error pyval :=
  match s with
  | 0xFEFF :: _ => Err ScanDecodeError
  | _ => decode s
  end.

(** [json.detect_encoding] followed by [bytes.decode(..., "surrogatepass")]. *)
Definition decode_detected (b : bytes) : option pystr :=
  match b with
  | 0x00 :: 0x00 :: 0xFE :: 0xFF :: r => utf32_decode false r
  | 0xFF :: 0xFE :: 0x00 :: 0x00 :: r => utf32_decode true r
  | 0xFE :: 0xFF :: r => utf16_decode false r
  | 0xFF :: 0xFE :: r => utf16_decode true r
  | 0xEF :: 0xBB :: 0xBF :: r => utf8_decode true r
  | 0x00 :: b1 :: _ :: _ :: _ => if b1 =? 0 then utf32_decode false b else utf16_decode false b
  | _ :: 0x00 :: b2 :: b3 :: _ =>
      if (b2 =? 0) && (b3 =? 0) then utf32_decode true b else utf16_decode true b
  | [0x00; _] => utf16_decode false b
  | [_; 0x00] => utf16_decode true b
  | _ => utf8_decode true b
  end.

(** [json.loads(b)] for a [bytes]. *)
Definition loads_bytes (b : bytes) : res scan_error pyval :=
  match decode_detected b with
  | None => Err ScanUnicodeError
  | Some s => decode s
  end.
