(* ===== verification/JsonRoundTrip.v ===== *)
(** The round trip of [json.dumps] and [json.loads]: the canonical text of a
    value reads back as that value with its dictionaries in key order. *)

From S2P Require Import Prelude.
From S2P Require Import PyText.
From S2P Require Import Binary64.
From S2P Require Import PyValue.
From S2P Require Import JsonDumps.
From S2P Require Import JsonLoads.

(** ** Numbers *)

Definition sign_text (sg : option bool) : pystr :=
  match sg with None => [] | Some true => [45] | Some false => [43] end.

Definition token_text (t : num_token) : pystr :=
  (if nt_neg t then [45] else []) ++ nt_int t
  ++ match nt_frac t with None => [] | Some f => 46 :: f end
  ++ match nt_exp t with None => [] | Some (sg, ds) => 101 :: sign_text sg ++ ds end.

Definition all_digits (s : pystr) : Prop := Forall (fun c => is_digit c = true) s.

Definition int_ok (s : pystr) : Prop :=
  s = [48] \/ exists c ds, s = c :: ds /\ 49 <= c <= 57 /\ all_digits ds.

Definition token_ok (t : num_token) : Prop :=
  int_ok (nt_int t) /\
  (forall f, nt_frac t = Some f -> f <> [] /\ all_digits f) /\
  (forall sg ds, nt_exp t = Some (sg, ds) -> ds <> [] /\ all_digits ds).

(** What may follow a value inside a canonical text. *)
Definition delim (r : pystr) : Prop :=
  match r with [] => True | c :: _ => c = 44 \/ c = 93 \/ c = 125 end.

Definition no_digit_head (r : pystr) : Prop :=
  match r with [] => True | c :: _ => is_digit c = false end.

Lemma take_digits_app ds r : all_digits ds -> no_digit_head r -> take_digits (ds ++ r) = (ds, r).
Proof.
  intros Hds Hr. induction Hds as [|c ds Hc _ IH]; cbn.
  - destruct r as [|c r]; cbn in *; [done|by rewrite Hr].
  - by rewrite Hc, IH.
Qed.

Lemma delim_no_digit r : delim r -> no_digit_head r.
Proof. destruct r as [|c r]; cbn; [done|]. intros [->|[->| ->]]; done. Qed.

Lemma scan_exp_none r : delim r -> scan_exp r = (None, r).
Proof. destruct r as [|c r]; cbn; [done|]. intros [->|[->| ->]]; done. Qed.

Lemma scan_frac_none r : delim r -> scan_frac r = (None, r).
Proof. destruct r as [|c r]; cbn; [done|]. intros [->|[->| ->]]; done. Qed.

Lemma digit_range c : is_digit c = true -> 48 <= c <= 57.
Proof. unfold is_digit. intros ?. zbool. lia. Qed.

Lemma scan_exp_text sg ds r :
  ds <> [] -> all_digits ds -> delim r ->
  scan_exp (101 :: (sign_text sg ++ ds) ++ r) = (Some (sg, ds), r).
Proof.
  intros Hne Hds Hr. unfold scan_exp. cbn [Z.eqb orb Pos.eqb].
  replace (scan_sign ((sign_text sg ++ ds) ++ r)) with (sg, ds ++ r).
  - rewrite take_digits_app by auto using delim_no_digit. by destruct ds.
  - destruct sg as [[]|]; cbn; [done..|].
    destruct ds as [|c ds]; [done|]. inversion_clear Hds as [|? ? Hc _]. apply digit_range in Hc.
    cbn. destruct (Z.eqb_spec c 45), (Z.eqb_spec c 43); done || lia.
Qed.

Lemma scan_frac_text f r :
  f <> [] -> all_digits f -> no_digit_head r -> scan_frac ((46 :: f) ++ r) = (Some f, r).
Proof.
  intros Hne Hf Hr. cbn. rewrite take_digits_app by done. by destruct f.
Qed.

Lemma scan_int_text i r : int_ok i -> no_digit_head r -> scan_int (i ++ r) = Some (i, r).
Proof.
  intros [->|(c & ds & -> & Hc & Hds)] Hr; [done|]. cbn.
  destruct (Z.eqb_spec c 48); [lia|].
  destruct (Z.leb_spec 49 c), (Z.leb_spec c 57); try lia. cbn.
  by rewrite take_digits_app.
Qed.

Lemma int_ok_head i r : int_ok i -> exists c s, i ++ r = c :: s /\ 48 <= c <= 57.
Proof.
  intros [->|(c & ds & -> & Hc & Hds)]; cbn; eexists _, _; (split; [done|lia]).
Qed.

Lemma scan_token_text t r : token_ok t -> delim r -> scan_token (token_text t ++ r) = Some (t, r).
Proof.
  intros (Hi & Hf & Hx) Hr. destruct t as [neg i f x]; cbn in *. unfold token_text; cbn.
  assert (Hexp : scan_exp (match x with None => []
      | Some (sg, ds) => 101 :: sign_text sg ++ ds end ++ r) = (x, r)).
  { destruct x as [[sg ds]|]; [|by apply scan_exp_none].
    destruct (Hx sg ds eq_refl). by apply scan_exp_text. }
  set (xt := match x with None => [] | Some (sg, ds) => 101 :: sign_text sg ++ ds end) in *.
  assert (Hnd : no_digit_head (xt ++ r)).
  { subst xt. clear Hexp. destruct x as [[sg ds]|]; [done|by apply delim_no_digit]. }
  assert (Hfrac : scan_frac (match f with None => [] | Some f => 46 :: f end ++ xt ++ r) = (f, xt ++ r)).
  { destruct f as [f|]; [destruct (Hf f eq_refl); by apply scan_frac_text|].
    cbn. subst xt. clear Hexp. destruct x as [[sg ds]|]; [done|by apply scan_frac_none]. }
  set (ft := match f with None => [] | Some f => 46 :: f end) in *.
  assert (Hnd' : no_digit_head (ft ++ xt ++ r)) by (subst ft; by destruct f).
  assert (Hneg : scan_token (((if neg then [45] else []) ++ i ++ ft ++ xt) ++ r) =
    match scan_int (i ++ ft ++ xt ++ r) with None => None | Some (i, s) =>
      let '(f, s) := scan_frac s in let '(x, s) := scan_exp s in Some (NumToken neg i f x, s) end).
  { rewrite <- !app_assoc. destruct neg; [done|]. cbn [app].
    destruct (int_ok_head i (ft ++ xt ++ r) Hi) as (c & s & -> & Hc).
    unfold scan_token, scan_minus. destruct (Z.eqb_spec c 45); [lia|done]. }
  rewrite Hneg, scan_int_text by done. by rewrite Hfrac, Hexp.
Qed.

Lemma int_ok_dec_nat n : 0 <= n -> int_ok (dec_nat n).
Proof.
  intros Hn. destruct (Z.eq_dec n 0) as [->|]; [by left|right].
  destruct (dec_nat_head n) as (c & s & Hcs & Hc); [lia|].
  exists c, s. split; [done|]. split; [done|].
  pose proof (dec_nat_digits n Hn) as Hd. rewrite Hcs in Hd. by inversion Hd.
Qed.

Definition int_token (z : Z) : num_token := NumToken (z <? 0) (dec_nat (Z.abs z)) None None.

Lemma int_token_text z : token_text (int_token z) = dec z.
Proof.
  unfold token_text, int_token, dec. cbn. rewrite !app_nil_r.
  destruct (Z.ltb_spec z 0); cbn; [f_equal|]; f_equal; lia.
Qed.

Lemma int_token_ok z : token_ok (int_token z).
Proof. split; [apply int_ok_dec_nat; lia|]. done. Qed.

Lemma int_token_value z t : dumps_int z = Ok t -> token_value (int_token z) = Ok (PInt z).
Proof.
  unfold dumps_int, token_value, int_token. cbn. destruct (Nat.leb _ _); [|done]. intros _.
  rewrite dec_nat_value by lia. destruct (Z.ltb_spec z 0); do 2 f_equal; lia.
Qed.

Lemma dec_value_app a b : dec_value (a ++ b) = dec_value a * 10 ^ Z.of_nat (length b) + dec_value b.
Proof. unfold dec_value. by rewrite map_app, of_digits_app, length_map. Qed.

Lemma dec_value_zeros n : dec_value (zeros n) = 0.
Proof.
  unfold dec_value, zeros. rewrite map_repeat. apply of_digits_zeros.
Qed.

Lemma zeros_length n : Z.of_nat (length (zeros n)) = Z.max 0 n.
Proof. unfold zeros. rewrite repeat_length. lia. Qed.

Lemma zeros_digits n : all_digits (zeros n).
Proof. unfold zeros. induction (Z.to_nat n); cbn; [constructor|by constructor]. Qed.

(** The token that [layout_decimal] writes. *)
Definition layout_token (neg : bool) (d p : Z) : num_token :=
  let ds := dec_nat d in
  let nd := Z.of_nat (length ds) in
  let decpt := nd + p in
  if (-4 <? decpt) && (decpt <=? 16) then
    if decpt <=? 0 then NumToken neg [48] (Some (zeros (- decpt) ++ ds)) None
    else if nd <=? decpt then NumToken neg (ds ++ zeros (decpt - nd)) (Some [48]) None
    else NumToken neg (take (Z.to_nat decpt) ds) (Some (drop (Z.to_nat decpt) ds)) None
  else
    let k := decpt - 1 in
    NumToken neg (take 1 ds) (if nd =? 1 then None else Some (drop 1 ds))
      (Some (Some (k <? 0), (if Z.abs k <? 10 then [48] else []) ++ dec_nat (Z.abs k))).

Lemma layout_token_text neg d p :
  token_text (layout_token neg d p) = (if neg then u "-" else []) ++ layout_decimal d p.
Proof.
  unfold layout_token, layout_decimal, token_text, exp_text.
  destruct (_ && _); [destruct (_ <=? 0); [|destruct (_ <=? _)]|]; cbn; f_equal;
    rewrite <- ?app_assoc, ?app_nil_r; try done.
  destruct (_ =? 1), (_ <? 0), (_ <? 10); done.
Qed.

Lemma all_digits_sub i ds (P : all_digits ds) : all_digits (take i ds) /\ all_digits (drop i ds).
Proof. unfold all_digits in *. split; [by apply Forall_take|by apply Forall_drop]. Qed.

Lemma int_ok_take i c ds : (0 < i)%nat -> 49 <= c <= 57 -> all_digits ds -> int_ok (take i (c :: ds)).
Proof.
  intros Hi Hc Hds. right. destruct i as [|i]; [lia|]. cbn. eexists _, _.
  split; [done|]. split; [done|]. by apply all_digits_sub.
Qed.

Lemma layout_token_ok neg d p : 0 < d -> token_ok (layout_token neg d p).
Proof.
  intros Hd. unfold layout_token. pose proof (dec_nat_digits d ltac:(lia)) as Hds.
  destruct (dec_nat_head d Hd) as (c & s & Hcs & Hc). rewrite Hcs in *.
  assert (Hs : all_digits s) by (by inversion Hds).
  set (nd := Z.of_nat (length (c :: s))) in *.
  destruct (_ && _); [destruct (Z.leb_spec (nd + p) 0); [|destruct (Z.leb_spec nd (nd + p))]|];
    (split; [|split]); cbn [nt_int nt_frac nt_exp]; try done.
  - by left.
  - intros f [= <-]. split; [by destruct (zeros _)|]. apply Forall_app; split; [apply zeros_digits|done].
  - right. exists c, (s ++ zeros (nd + p - nd)). split; [done|]. split; [done|].
    apply Forall_app; split; [done|apply zeros_digits].
  - intros f [= <-]. split; [done|]. by repeat constructor.
  - apply int_ok_take; [lia|done..].
  - intros f [= <-]. split; [|by apply all_digits_sub].
    intros E%(f_equal length). rewrite length_drop in E. cbn [length] in *. lia.
  - by apply int_ok_take; [lia|..].
  - destruct (Z.eqb_spec nd 1); [done|]. intros f [= <-]. split; [|done].
    destruct s; [cbn in *; lia|done].
  - intros sg ds [= <- <-]. split.
    + intros [_ E]%app_eq_nil. revert E. apply dec_nat_ne. lia.
    + apply Forall_app; split; [by destruct (_ <? _); repeat constructor|].
      apply dec_nat_digits. lia.
Qed.

Lemma layout_token_value neg d p :
  0 < d -> token_value (layout_token neg d p) = Ok (PFloat (dec_to_float neg d p)).
Proof.
  intros Hd. unfold layout_token. pose proof (dec_nat_value d ltac:(lia)) as Hv.
  set (ds := dec_nat d) in *. set (nd := Z.of_nat (length ds)).
  destruct (_ && _); [destruct (Z.leb_spec (nd + p) 0); [|destruct (Z.leb_spec nd (nd + p))]|];
    unfold token_value; cbn [nt_int nt_frac nt_exp nt_neg default id exp_value];
    try (do 2 f_equal).
  - rewrite !dec_value_app, dec_value_zeros, Hv.
    rewrite length_app, Nat2Z.inj_add, zeros_length. fold nd. change (dec_value [48]) with 0.
    f_equal; lia.
  - rewrite !dec_value_app, dec_value_zeros, Hv, Z.add_0_r, zeros_length.
    change (dec_value [48]) with 0. rewrite Z.add_0_r. change (Z.of_nat (length [48])) with 1.
    rewrite <- Z.mul_assoc, <- Z.pow_add_r by lia.
    rewrite dec_to_float_shift by lia. f_equal. lia.
  - rewrite take_drop, Hv, length_drop. f_equal. unfold nd in *. lia.
  - set (k := nd + p - 1).
    assert (Hx : dec_value ((if Z.abs k <? 10 then [48] else []) ++ dec_nat (Z.abs k)) = Z.abs k).
    { rewrite dec_value_app, dec_nat_value by lia. destruct (_ <? 10);
        [change (dec_value [48]) with 0|change (dec_value []) with 0]; lia. }
    assert (Hk : exp_value (Some (Some (k <? 0),
        (if Z.abs k <? 10 then [48] else []) ++ dec_nat (Z.abs k))) = k).
    { cbn [exp_value]. rewrite Hx. destruct (Z.ltb_spec k 0); lia. }
    cbn [exp_value] in Hk. rewrite Hk.
    destruct (Z.eqb_spec nd 1) as [E|E]; cbn [default id].
    + rewrite app_nil_r, firstn_all2 by (unfold nd in E; lia). rewrite Hv. cbn [length].
      do 3 f_equal. unfold k. lia.
    + rewrite take_drop, Hv, length_drop. do 3 f_equal. unfold k, nd in *.
      pose proof (dec_nat_ne d ltac:(lia)). fold ds in H. destruct ds; [done|]. cbn [length] in *. lia.
Qed.

(** Every finite float is read back from its [repr]. *)
Lemma float_token x :
  valid_float x = true -> is_finite x = true ->
  exists t, float_repr x = token_text t /\ token_ok t /\ token_value t = Ok (PFloat x).
Proof.
  destruct x as [s| | |s m e]; cbn; try done; intros Hv _.
  - exists (NumToken s [48] (Some [48]) None). split; [by destruct s|]. split; [|done].
    split; [by left|]. split; [|done]. cbn. intros f [= <-]. split; [done|by repeat constructor].
  - destruct (shortest_decimal_reads m e Hv) as [Hd Hr].
    destruct (shortest_decimal m e) as [d p]. cbn in *.
    exists (layout_token s d p). rewrite layout_token_text. split; [by destruct s|].
    split; [by apply layout_token_ok|]. by rewrite layout_token_value, Hr.
Qed.

(** ** Strings *)

Lemma hex4_control c : 0 <= c < 32 ->
  hex4 48 48 (hex_digit (c / 16)) (hex_digit (c mod 16)) = Some c.
Proof.
  intros Hc. pose proof (Z.mod_pos_bound c 16 ltac:(lia)).
  assert (0 <= c / 16 < 16) by (split; [apply Z.div_pos|apply Z.div_lt_upper_bound]; lia).
  unfold hex4. rewrite !hex_value_digit by lia. cbn. f_equal.
  pose proof (Z.div_mod c 16). lia.
Qed.

Lemma scan_str_esc c s :
  0 <= c -> scan_str (esc_char c ++ s) = push c (scan_str s).
Proof.
  intros Hc. unfold esc_char.
  destruct (Z.eqb_spec c 34) as [->|]; [done|]. destruct (Z.eqb_spec c 92) as [->|]; [done|].
  destruct (Z.eqb_spec c 10) as [->|]; [done|]. destruct (Z.eqb_spec c 13) as [->|]; [done|].
  destruct (Z.eqb_spec c 9) as [->|]; [done|]. destruct (Z.eqb_spec c 8) as [->|]; [done|].
  destruct (Z.eqb_spec c 12) as [->|]; [done|]. destruct (Z.ltb_spec c 32).
  - cbn [app scan_str]. rewrite hex4_control by lia.
    assert (is_high_surrogate c = false) as ->; [|done].
    unfold is_high_surrogate. zbool. lia.
  - cbn [app scan_str]. destruct (Z.eqb_spec c 34), (Z.eqb_spec c 92), (Z.leb_spec c 31);
      done || lia.
Qed.

Lemma scan_str_quoted s r :
  str_ok s -> scan_str (flat_map esc_char s ++ 34 :: r) = Some (s, r).
Proof.
  induction 1 as [|c s Hc _ IH]; [done|]. cbn [flat_map]. rewrite <- app_assoc.
  unfold is_codepoint in Hc. zbool. rewrite scan_str_esc by lia. by rewrite IH.
Qed.

(** ** Values *)

Lemma sequence_length {E A} (l : list (res E A)) ts : sequence l = Ok ts -> length ts = length l.
Proof. intros H%sequence_Ok. symmetry. by eapply Forall2_length. Qed.

(** The scanner reads the text of [v] in front of a delimiter. *)
Definition reads_text (v : pyval) (t : pystr) : Prop :=
  forall n r, delim r -> (length (t ++ r) < n)%nat -> scan_once n (t ++ r) = Ok (norm v, r).

(** A text that starts like a JSON value: not white space, not a closing bracket. *)
Definition value_head (t : pystr) : Prop :=
  exists c s, t = c :: s /\ is_ws c = false /\ c <> 93.

Lemma skip_ws_head t r : value_head t -> skip_ws (t ++ r) = t ++ r.
Proof. intros (c & s & -> & Hc & _). cbn. by rewrite Hc. Qed.

Lemma skip_ws_delim c r : c = 44 \/ c = 93 \/ c = 125 \/ c = 58 \/ c = 34 -> skip_ws (c :: r) = c :: r.
Proof. intros [->|[->|[->|[->| ->]]]]; done. Qed.

Lemma token_head t : token_ok t -> exists c s, token_text t = c :: s /\ (c = 45 \/ 48 <= c <= 57).
Proof.
  intros (Hi & _). unfold token_text. destruct (nt_neg t); [by eexists _, _; split; [done|left]|].
  destruct (int_ok_head (nt_int t) (match nt_frac t with None => [] | Some f => 46 :: f end
    ++ match nt_exp t with None => [] | Some (sg, ds) => 101 :: sign_text sg ++ ds end) Hi)
    as (c & s & E & Hc). cbn. rewrite E. eauto.
Qed.

(** A number text is not the start of a constant of the scanner. *)
Lemma scan_constant_token t r : token_ok t -> scan_constant constants (token_text t ++ r) = None.
Proof.
  intros (Hi & _). unfold token_text. rewrite <- !app_assoc.
  destruct (int_ok_head (nt_int t) ((match nt_frac t with None => [] | Some f => 46 :: f end
    ++ match nt_exp t with None => [] | Some (sg, ds) => 101 :: sign_text sg ++ ds end ++ r)) Hi)
    as (c & s & -> & Hc).
  assert (c = 48 \/ c = 49 \/ c = 50 \/ c = 51 \/ c = 52 \/ c = 53 \/ c = 54 \/ c = 55
    \/ c = 56 \/ c = 57) by lia.
  destruct (nt_neg t); destruct_or!; by subst.
Qed.

Lemma scan_once_number t v n r :
  token_ok t -> token_value t = Ok v -> delim r -> (length (token_text t ++ r) < n)%nat ->
  scan_once n (token_text t ++ r) = Ok (v, r).
Proof.
  intros Ht Hv Hr Hn. destruct n as [|n]; [lia|].
  pose proof (scan_constant_token t r Ht) as Hc. pose proof (scan_token_text t r Ht Hr) as Hs.
  destruct (token_head t Ht) as (c & s & E & Hh). rewrite E in *. cbn [app scan_once] in *.
  destruct (Z.eqb_spec c 34), (Z.eqb_spec c 123), (Z.eqb_spec c 91); try lia.
  rewrite Hc. unfold scan_number. rewrite Hs. cbn. by rewrite Hv.
Qed.

Lemma eat_here c r : eat c (c :: r) = Some r.
Proof. unfold eat. by rewrite Z.eqb_refl. Qed.

Lemma eat_other c c' r : c' <> c -> eat c (c' :: r) = None.
Proof. intros ?. unfold eat. by destruct (Z.eqb_spec c' c). Qed.

Lemma eat_head t r : value_head t -> eat 93 (t ++ r) = None.
Proof. intros (c & s & -> & _ & Hc). cbn. by destruct (Z.eqb_spec c 93). Qed.

(** A value and its text, ready to be read inside an array or object. *)
Definition item_ok (v : pyval) (t : pystr) : Prop := value_head t /\ reads_text v t.

Lemma scan_elements_texts n vs ts :
  Forall2 item_ok vs ts -> ts <> [] ->
  forall m acc r,
  (length (join_comma ts ++ 93%Z :: r) < n)%nat -> (length (join_comma ts ++ 93%Z :: r) < m)%nat ->
  scan_elements (scan_once n) m (join_comma ts ++ 93 :: r) acc = Ok (PList (acc ++ map norm vs), r).
Proof.
  induction 1 as [|v t vs ts [Hh Ht] Hvs IH]; [done|]. intros _ m acc r Hn Hm.
  destruct m as [|m]; [lia|]. cbn [scan_elements].
  destruct Hvs as [|v' t' vs ts Hv' Hvs].
  - cbn [join_comma] in *. rewrite (Ht n (93 :: r)); [|cbn; auto|done]. cbn [mbind res_bind].
    rewrite skip_ws_delim, eat_other, eat_here by auto. done.
  - change (join_comma (t :: t' :: ts)) with (t ++ 44 :: join_comma (t' :: ts)) in *.
    rewrite <- app_assoc in *. cbn [app] in *.
    set (rest := join_comma (t' :: ts) ++ 93 :: r) in *.
    rewrite (Ht n (44 :: rest)); [|cbn; auto|done]. cbn [mbind res_bind].
    rewrite skip_ws_delim, eat_here by auto.
    assert (skip_ws rest = rest) as ->.
    { destruct Hv' as [(c & s & -> & Hc & _) _]. unfold rest.
      destruct ts; cbn; by rewrite Hc. }
    assert (Hlen : (length (t ++ 44%Z :: rest) = length t + S (length rest))%nat) by len.
    unfold rest in *. rewrite IH; [|done|lia..]. cbn. by rewrite <- app_assoc.
Qed.

(** The scanner reads the text [q] as the string [s]. *)
Definition reads_string (s q : pystr) : Prop :=
  exists body, q = 34 :: body /\ forall r, scan_str (body ++ r) = Some (s, r).

Lemma reads_quote s : str_ok s -> reads_string s (quote s).
Proof. intros Hs. eexists. split; [done|]. intros r. rewrite <- app_assoc. by apply scan_str_quoted. Qed.

(** A member's text, and the member that is read from it. *)
Definition member_ok (kv : pystr * pyval) (t : pystr) : Prop :=
  exists q tv, t = q ++ 58 :: tv /\ reads_string kv.1 q /\ item_ok kv.2 tv.

Lemma scan_members_texts n (kvs : pydict) ts :
  Forall2 member_ok kvs ts -> ts <> [] ->
  forall m acc r, NoDup (keys (acc ++ kvs)) ->
  (length (join_comma ts ++ 125%Z :: r) < n)%nat -> (length (join_comma ts ++ 125%Z :: r) < m)%nat ->
  scan_members (scan_once n) m (join_comma ts ++ 125 :: r) acc
  = Ok (PDict (of_str_keys (acc ++ map_snd norm kvs)), r).
Proof.
  induction 1 as [|[k v] t kvs ts (q & tv & -> & (body & Hq & Hk) & Hh & Ht) Hkvs IH]; [done|].
  intros _ m acc r Hnd Hn Hm. cbn [fst snd] in *.
  destruct m as [|m]; [lia|]. cbn [scan_members].
  assert (Hset : forall v', dset k v' acc = acc ++ [(k, v')]).
  { intros v'. apply dset_new, has_key_false. unfold keys in *. rewrite map_app in Hnd.
    apply NoDup_app in Hnd as (_ & Hd & _). intros Hin. apply (Hd k Hin). left. }
  assert (Hkey : forall r', eat 34 ((q ++ 58 :: tv) ++ r') ≫= scan_str = Some (k, 58 :: tv ++ r')).
  { intros r'. rewrite Hq, <- app_assoc. cbn [app]. rewrite eat_here. cbn [mbind option_bind]. apply Hk. }
  destruct Hkvs as [|[k' v'] t' kvs ts Hm' Hkvs].
  - cbn [join_comma] in *. rewrite Hkey, skip_ws_delim, eat_here by auto.
    rewrite skip_ws_head, (Ht n (125 :: r)); [|cbn; auto|len|done].
    cbn [mbind res_bind]. rewrite skip_ws_delim, eat_other, eat_here, Hset by auto. done.
  - change (join_comma ((q ++ 58 :: tv) :: t' :: ts))
      with ((q ++ 58 :: tv) ++ 44 :: join_comma (t' :: ts)) in *.
    rewrite <- (app_assoc (q ++ 58 :: tv)), <- app_comm_cons in *.
    set (rest := join_comma (t' :: ts) ++ 125 :: r) in *.
    assert (Hlen : (length ((q ++ 58%Z :: tv) ++ 44%Z :: rest)
                    = length q + S (length (tv ++ 44%Z :: rest)))%nat) by len.
    assert (Hlen' : (length (tv ++ 44%Z :: rest) = length tv + S (length rest))%nat) by len.
    rewrite Hkey, skip_ws_delim, eat_here by auto.
    rewrite skip_ws_head, (Ht n (44 :: rest)); [|cbn; auto|lia|done].
    cbn [mbind res_bind]. rewrite skip_ws_delim, eat_here, Hset by auto.
    assert (skip_ws rest = rest) as ->.
    { destruct Hm' as (q' & tv' & -> & (body' & -> & _) & _). unfold rest. destruct ts; done. }
    unfold rest in *. rewrite IH; [|done| |lia..].
    + cbn. unfold of_str_keys. rewrite <- app_assoc. done.
    + unfold keys in *. rewrite !map_app in *. cbn in *. by rewrite <- app_assoc.
Qed.

(** Arrays and objects read back when their items do. *)
Lemma reads_list vs ts : Forall2 item_ok vs ts -> reads_text (PList vs) (91 :: join_comma ts ++ [93]).
Proof.
  intros Hit n r Hr Hn. destruct n as [|n]; [lia|]. cbn [app scan_once] in *.
  change (91 =? 34) with false. change (91 =? 123) with false. change (91 =? 91) with true.
  cbv iota. rewrite <- app_assoc in *. cbn [app] in *. unfold scan_array.
  destruct Hit as [|v t l ts Hv Hit]; [done|].
  assert (Hh : skip_ws (join_comma (t :: ts) ++ 93 :: r) = join_comma (t :: ts) ++ 93 :: r
    /\ eat 93 (join_comma (t :: ts) ++ 93 :: r) = None).
  { destruct Hv as [(c & s & -> & Hc & Hc') _].
    destruct ts; cbn; rewrite Hc; by destruct (Z.eqb_spec c 93). }
  destruct Hh as [-> ->]. cbn [length] in Hn.
  rewrite (scan_elements_texts n (v :: l) (t :: ts)); [done|by constructor|done|lia..].
Qed.

Lemma reads_members n (kvs : pydict) ts r :
  Forall2 member_ok kvs ts -> NoDup (keys kvs) -> (length ((123%Z :: join_comma ts ++ [125%Z]) ++ r) < n)%nat ->
  scan_once n ((123 :: join_comma ts ++ [125]) ++ r) = Ok (PDict (of_str_keys (map_snd norm kvs)), r).
Proof.
  intros Hmem Hnd Hn. destruct n as [|n]; [lia|]. cbn [app scan_once] in *.
  change (123 =? 34) with false. change (123 =? 123) with true.
  cbv iota. rewrite <- app_assoc in *. cbn [app] in *. unfold scan_object.
  destruct Hmem as [|kv t kvs ts Hm Hmem]; [done|].
  assert (Hh : skip_ws (join_comma (t :: ts) ++ 125 :: r) = join_comma (t :: ts) ++ 125 :: r
    /\ eat 125 (join_comma (t :: ts) ++ 125 :: r) = None).
  { destruct Hm as (q & tv & -> & (body & -> & _) & _). destruct ts; done. }
  destruct Hh as [-> ->]. cbn [length] in Hn.
  rewrite (scan_members_texts n (kv :: kvs) (t :: ts)); [done|by constructor|done..|lia|lia].
Qed.

Lemma constant_text v t r :
  In (t, v) constants -> delim r -> scan_constant constants (t ++ r) = Some (v, r).
Proof. intros H _. cbn in H. destruct_or?; by simplify_eq. Qed.

Lemma scan_once_constant v t n r :
  In (t, v) (firstn 3 constants) -> delim r -> (length (t ++ r) < n)%nat ->
  scan_once n (t ++ r) = Ok (v, r).
Proof.
  intros H _ Hn. destruct n as [|n]; [lia|]. cbn in H. destruct_or?; simplify_eq; done.
Qed.

Lemma scan_once_string s n r :
  str_ok s -> (length (quote s ++ r) < n)%nat -> scan_once n (quote s ++ r) = Ok (PStr s, r).
Proof.
  intros Hs Hn. destruct n as [|n]; [lia|]. unfold quote in *. cbn [app scan_once] in *.
  rewrite <- app_assoc. cbn [app]. change (34 =? 34) with true. cbn [negb].
  by rewrite scan_str_quoted.
Qed.

Lemma token_value_head t : token_ok t -> value_head (token_text t).
Proof.
  intros Ht. destruct (token_head t Ht) as (c & s & -> & Hc). exists c, s. split; [done|].
  unfold is_ws. split; [zbool; lia|lia].
Qed.

(** [dumps] yields a text that starts like a value. *)
Lemma dumps_head v t : wf_val v = true -> dumps v = Ok t -> value_head t.
Proof.
  destruct v as [|b|z|f|s|l|d|]; intros Hwf Hd; cbn -[dumps_int] in Hwf, Hd; inv_ok; subst.
  - by exists 110, [117; 108; 108].
  - destruct b; eexists _, _; done.
  - unfold dumps_int in Hd. destruct (Nat.leb _ _); [|done].
    injection Hd as <-. rewrite <- int_token_text. apply token_value_head, int_token_ok.
  - destruct (is_finite f) eqn:Ef; [|done]. injection Hd as <-.
    destruct (float_token f Hwf Ef) as (tk & -> & Hok & _). by apply token_value_head.
  - by eexists _, _.
  - by eexists _, _.
  - destruct (str_keys _); [|done]. inv_ok. subst. by eexists _, _.
Qed.

Lemma forall2_items (l : list pyval) ts :
  Forall (fun v => wf_val v = true -> forall t, dumps v = Ok t -> reads_text v t) l ->
  forallb wf_val l = true -> sequence (map dumps l) = Ok ts -> Forall2 item_ok l ts.
Proof.
  intros Hl Hwf Hs%sequence_Ok. apply Forall2_fmap_l in Hs.
  induction Hs as [|v t l ts Hv Hs IH]; [constructor|].
  cbn in Hwf. apply andb_true_iff in Hwf as [Hw Hwf]. inversion_clear Hl.
  constructor; [|auto]. split; [by eapply dumps_head|auto].
Qed.

Lemma forall2_members (d : pydict) ts :
  Forall (fun kv => str_ok kv.1 /\ wf_val kv.2 = true) d ->
  Forall (fun kv => wf_val kv.2 = true -> forall t, dumps kv.2 = Ok t -> reads_text kv.2 t) d ->
  sequence (map (fun kv => member_text (kv.1, dumps kv.2)) d) = Ok ts ->
  Forall2 member_ok d ts.
Proof.
  intros Hwf Hd Hs%sequence_Ok. apply Forall2_fmap_l in Hs.
  induction Hs as [|kv t d ts Hkv Hs IH]; [constructor|].
  inversion_clear Hwf as [|? ? [Hk Hv] Hwf']. inversion_clear Hd as [|? ? Hr Hd'].
  constructor; [|auto]. unfold member_text in Hkv. cbn in Hkv. inv_ok. subst.
  exists (quote kv.1). eexists. split; [done|]. split; [by apply reads_quote|]. split; [by eapply dumps_head|auto].
Qed.

(** The scanner reads back every text that [dumps] writes. *)
Lemma scan_once_dumps v : wf_val v = true -> forall t, dumps v = Ok t -> reads_text v t.
Proof.
  induction v as [|b|z|f|s|l IH|d IH|ty] using pyval_ind'; intros Hwf t Hd n r Hr Hn.
  - injection Hd as <-. apply scan_once_constant; [by left|done..].
  - injection Hd as <-. apply scan_once_constant; [|done..]. destruct b; cbn; auto.
  - cbn in Hd. pose proof (int_token_value z t Hd) as Hv. unfold dumps_int in Hd.
    destruct (Nat.leb _ _); [|done]. injection Hd as <-. rewrite <- int_token_text in *.
    apply scan_once_number; auto using int_token_ok.
  - cbn in Hwf, Hd. destruct (is_finite f) eqn:Ef; [|done]. injection Hd as <-.
    destruct (float_token f Hwf Ef) as (tk & E & Hok & Hv). rewrite E in *.
    by apply scan_once_number.
  - injection Hd as <-. apply scan_once_string; [by apply str_okb_spec|done].
  - cbn in Hwf. apply bind_Ok in Hd as (ts & Hts & [= <-]).
    apply reads_list; [by apply forall2_items|done..].
  - rewrite dumps_dict in Hd. destruct (str_keys d) as [sd|] eqn:Esd; [|done].
    apply str_keys_Some in Esd as ->. apply wf_val_dict in Hwf as [Hnd Hwf].
    apply bind_Ok in Hd as (ts & Hts & [= <-]). rewrite norm_dict.
    assert (Hperm := sort_by_perm fst sd).
    assert (Hmem : Forall2 member_ok (sort_by fst sd) ts).
    { apply forall2_members; [by rewrite Hperm| |done]. rewrite Hperm.
      unfold of_str_keys in IH. apply Forall_map in IH.
      eapply Forall_impl; [exact IH|]. by intros [k v] ?. }
    apply reads_members; [done| |done]. unfold keys in *. by rewrite Hperm.
  - done.
Qed.

(** ** The round trip *)

(** [json.loads(json.dumps(v))] is [v] with every dictionary in key order. *)
Theorem decode_dumps v t : wf_val v = true -> dumps v = Ok t -> decode t = Ok (norm v).
Proof.
  intros Hwf Hd. pose proof (dumps_head v t Hwf Hd) as Hh.
  pose proof (scan_once_dumps v Hwf t Hd (S (length t)) []) as Hs.
  rewrite app_nil_r in Hs. unfold decode. rewrite <- (app_nil_r t) at 2.
  rewrite skip_ws_head, app_nil_r by done. by rewrite Hs by (done || lia).
Qed.

(** Two values with one canonical text are equal up to key order. *)
Theorem dumps_inj v v' t :
  wf_val v = true -> wf_val v' = true -> dumps v = Ok t -> dumps v' = Ok t -> norm v = norm v'.
Proof.
  intros Hw Hw' Hd Hd'. apply decode_dumps in Hd, Hd'; congruence.
Qed.

(** ** The normal form *)

Lemma member_texts_ext (d : pydict) ts :
  Forall (fun kv => forall t, dumps kv.2 = Ok t -> dumps (norm kv.2) = Ok t) d ->
  sequence (map (fun kv => member_text (kv.1, dumps kv.2)) d) = Ok ts ->
  sequence (map (fun kv => member_text (kv.1, dumps kv.2)) (map_snd norm d)) = Ok ts.
Proof.
  intros Hd. rewrite !sequence_Ok. unfold map_snd. rewrite map_map.
  rewrite !Forall2_fmap_l. intros Hs. induction Hs as [|[k v] t d ts Hv Hs IH]; [constructor|].
  inversion_clear Hd as [|? ? Hn Hd']. constructor; [|auto].
  unfold member_text in *. cbn in *. apply bind_Ok in Hv as (tv & Htv & [= <-]).
  by rewrite (Hn tv Htv).
Qed.

(** Key order does not change the text. *)
Lemma dumps_norm v : forall t, dumps v = Ok t -> dumps (norm v) = Ok t.
Proof.
  induction v as [|b|z|f|s|l IH|d IH|ty] using pyval_ind'; intros t Hd; try done.
  - cbn in Hd |- *. apply bind_Ok in Hd as (ts & Hts & [= <-]).
    apply bind_Ok. exists ts. split; [|done]. revert Hts.
    rewrite map_map, !sequence_Ok, !Forall2_fmap_l. intros Hs.
    induction Hs as [|v t l ts Hv Hs IHs]; [constructor|].
    inversion_clear IH. constructor; [by cbn; auto|auto].
  - rewrite dumps_dict in Hd. destruct (str_keys d) as [sd|] eqn:Esd; [|done].
    apply str_keys_Some in Esd as ->. apply bind_Ok in Hd as (ts & Hts & [= <-]).
    rewrite norm_dict, dumps_dict.
    destruct (str_keys (of_str_keys (map_snd norm (sort_by fst sd)))) as [sd'|] eqn:E.
    + apply str_keys_Some in E. assert (sd' = map_snd norm (sort_by fst sd)) as ->.
      { assert (str_keys (of_str_keys sd') = Some sd') as H by by apply str_keys_Some.
        rewrite <- E in H. symmetry. apply (inj Some). rewrite <- H. symmetry. by apply str_keys_Some. }
      rewrite sort_by_map_snd, sort_by_idemp. apply bind_Ok. exists ts. split; [|done].
      apply member_texts_ext; [|done]. rewrite (sort_by_perm fst sd).
      unfold of_str_keys in IH. apply Forall_map in IH. exact IH.
    + exfalso. assert (str_keys (of_str_keys (map_snd norm (sort_by fst sd)))
        = Some (map_snd norm (sort_by fst sd))) by by apply str_keys_Some. congruence.
Qed.

Lemma wf_norm v : wf_val v = true -> wf_val (norm v) = true.
Proof.
  induction v as [|b|z|f|s|l IH|d IH|ty] using pyval_ind'; try done; cbn.
  - rewrite !forallb_forall. setoid_rewrite in_map_iff. intros Hwf _ (x & <- & Hx).
    rewrite Forall_forall in IH. apply IH; [by apply list_elem_of_In|auto].
  - set (nd := map (fun kv => (kv.1, norm kv.2)) d).
    pose proof (sort_by_perm (fun kv : pykey * pyval => key_text kv.1) nd) as Hp.
    rewrite !andb_true_iff, !bool_decide_eq_true, !forallb_forall. intros [Hnd Hwf]. split.
    + rewrite Hp. unfold nd. by rewrite map_map.
    + intros kv Hin%list_elem_of_In. rewrite Hp in Hin. unfold nd in Hin.
      apply list_elem_of_fmap in Hin as (kv' & -> & Hin). cbn.
      specialize (Hwf kv' ltac:(by apply list_elem_of_In)). apply andb_true_iff in Hwf as [Hk Hv].
      rewrite Hk. rewrite Forall_forall in IH. by apply IH.
Qed.

Lemma norm_idemp v t : wf_val v = true -> dumps v = Ok t -> norm (norm v) = norm v.
Proof.
  intros Hwf Hd. apply (dumps_inj _ _ t); auto using wf_norm, dumps_norm.
Qed.

(** ** The characters of a canonical text *)

(** No control character: in particular no LF and no NUL. *)
Definition printable (c : Z) : Prop := 32 <= c /\ is_codepoint c = true.

Lemma printable_digits s : all_digits s -> Forall printable s.
Proof.
  intros Hs. eapply Forall_impl; [exact Hs|]. intros c Hc%digit_range.
  unfold printable, is_codepoint. zbool. lia.
Qed.

Ltac printable_lit :=
  repeat first [apply Forall_nil_2 | apply Forall_cons_2]; try (split; [lia|done]).

Lemma token_text_printable t : token_ok t -> Forall printable (token_text t).
Proof.
  intros (Hi & Hf & Hx). unfold token_text. repeat apply Forall_app_2.
  - destruct (nt_neg t); printable_lit.
  - apply printable_digits. destruct Hi as [->|(c & ds & -> & Hc & Hds)]; [by repeat constructor|].
    constructor; [unfold is_digit; zbool; lia|exact Hds].
  - destruct (nt_frac t) as [f|]; [|constructor]. constructor; [printable_lit|].
    apply printable_digits. by apply Hf.
  - destruct (nt_exp t) as [[sg ds]|]; [|constructor]. constructor; [printable_lit|].
    apply Forall_app_2; [destruct sg as [[]|]; printable_lit|].
    apply printable_digits. by eapply Hx.
Qed.

Lemma esc_char_printable c : is_codepoint c = true -> Forall printable (esc_char c).
Proof.
  intros Hc. assert (Hc' := Hc). unfold is_codepoint in Hc'. zbool. unfold esc_char.
  do 7 (case_match; [printable_lit|]). destruct (Z.ltb_spec c 32); [|printable_lit].
  pose proof (Z.mod_pos_bound c 16 ltac:(lia)).
  assert (0 <= c / 16 < 16) by (split; [apply Z.div_pos|apply Z.div_lt_upper_bound]; lia).
  assert (Hh : forall n, 0 <= n < 16 -> printable (hex_digit n)).
  { intros n Hn. unfold printable, is_codepoint, hex_digit.
    destruct (Z.ltb_spec n 10); zbool; lia. }
  do 4 (constructor; [printable_lit|]). printable_lit; by apply Hh.
Qed.

Lemma quote_printable s : str_ok s -> Forall printable (quote s).
Proof.
  intros Hs. unfold quote. constructor; [printable_lit|]. apply Forall_app_2; [|printable_lit].
  induction Hs as [|c s Hc _ IH]; [constructor|].
  cbn. apply Forall_app_2; [by apply esc_char_printable|done].
Qed.

Lemma join_comma_printable ts : Forall (Forall printable) ts -> Forall printable (join_comma ts).
Proof.
  induction 1 as [|t [|t' ts] Ht _ IH]; [constructor|done|].
  change (join_comma (t :: t' :: ts)) with (t ++ 44 :: join_comma (t' :: ts)).
  apply Forall_app_2; [done|]. constructor; [printable_lit|done].
Qed.

Lemma dumps_printable v : wf_val v = true -> forall t, dumps v = Ok t -> Forall printable t.
Proof.
  induction v as [|b|z|f|s|l IH|d IH|ty] using pyval_ind'; intros Hwf t Hd.
  - injection Hd as <-. unfold u. cbn. printable_lit.
  - injection Hd as <-. destruct b; unfold u; cbn; printable_lit.
  - cbn in Hd. unfold dumps_int in Hd. destruct (Nat.leb _ _); [|done]. injection Hd as <-.
    rewrite <- int_token_text. apply token_text_printable, int_token_ok.
  - cbn in Hwf, Hd. destruct (is_finite f) eqn:Ef; [|done]. injection Hd as <-.
    destruct (float_token f Hwf Ef) as (tk & -> & Hok & _). by apply token_text_printable.
  - injection Hd as <-. apply quote_printable. by apply str_okb_spec.
  - cbn in Hwf, Hd. apply bind_Ok in Hd as (ts & Hts & [= <-]).
    constructor; [printable_lit|]. apply Forall_app_2; [|printable_lit].
    apply join_comma_printable. apply sequence_Ok, Forall2_fmap_l in Hts.
    induction Hts as [|v t l ts Hv Hs IHs]; [constructor|].
    cbn in Hwf. apply andb_true_iff in Hwf as [??]. inversion_clear IH. constructor; auto.
  - rewrite dumps_dict in Hd. destruct (str_keys d) as [sd|] eqn:Esd; [|done].
    apply str_keys_Some in Esd as ->. apply wf_val_dict in Hwf as [_ Hwf].
    apply bind_Ok in Hd as (ts & Hts & [= <-]).
    constructor; [printable_lit|]. apply Forall_app_2; [|printable_lit].
    apply join_comma_printable. rewrite <- (sort_by_perm fst sd) in Hwf.
    unfold of_str_keys in IH. apply Forall_map in IH. rewrite <- (sort_by_perm fst sd) in IH.
    revert Hwf IH Hts. generalize (sort_by fst sd) as kvs. clear. intros kvs Hwf IH Hts.
    apply sequence_Ok, Forall2_fmap_l in Hts.
    induction Hts as [|[k v] t kvs ts Hv Hs IHs]; [constructor|].
    inversion_clear Hwf as [|? ? [Hk Hw] Hwf']. inversion_clear IH as [|? ? IHv IH'].
    constructor; [|auto]. unfold member_text in Hv. cbn in *.
    apply bind_Ok in Hv as (tv & Htv & [= <-]).
    change (Forall printable (quote k ++ 58 :: tv)).
    apply Forall_app_2; [by apply quote_printable|]. constructor; [printable_lit|eauto].
  - done.
Qed.
