(* ===== verification/JsonLoadsFacts.v ===== *)
(** What [json.loads] returns: it terminates within its fuel, and its values
    are well formed (binary64 floats, code points in range, distinct keys, no
    integer that [str] refuses). *)

From S2P Require Import Prelude.
From S2P Require Import PyText.
From S2P Require Import Binary64.
From S2P Require Import PyValue.
From S2P Require Import JsonDumps.
From S2P Require Import JsonLoads.
From Stdlib Require Import Wf_nat.

(** The rest of the input after a scan: no longer, and still a [str]. *)
Definition rest_of (s r : pystr) : Prop := (length r <= length s)%nat /\ (str_ok s -> str_ok r).

Lemma rest_refl s : rest_of s s.
Proof. done. Qed.

#[export] Instance rest_trans : Transitive rest_of.
Proof. intros a b c [??] [??]. split; [lia|auto]. Qed.

Lemma rest_cons c s r : rest_of s r -> rest_of (c :: s) r.
Proof. intros [? H]. split; [cbn; lia|]. intros Hs. apply H. by inversion Hs. Qed.

#[export] Hint Resolve rest_refl rest_cons : py.

Lemma skip_ws_rest s : rest_of s (skip_ws s).
Proof. induction s as [|c s IH]; cbn; [done|]. destruct (is_ws c); auto with py. Qed.

Lemma eat_rest c s r : eat c s = Some r -> rest_of s r /\ (length r < length s)%nat.
Proof.
  destruct s as [|c' s]; cbn; [done|]. destruct (_ =? _); [|done]. intros [= ->].
  split; [auto with py|lia].
Qed.

Lemma take_digits_rest s ds r : take_digits s = (ds, r) -> rest_of s r /\ Forall (fun c => is_digit c = true) ds.
Proof.
  revert ds r; induction s as [|c s IH]; intros ds r; cbn; [by intros [= <- <-]|].
  destruct (is_digit c) eqn:Ec; [|by intros [= <- <-]].
  destruct (take_digits s) as [ds' r']. destruct (IH _ _ eq_refl) as [Hr Hd].
  intros [= <- <-]. split; [auto with py|by constructor].
Qed.

Lemma strip_prefix_rest p s r : strip_prefix p s = Some r -> rest_of s r /\ (length s = length p + length r)%nat.
Proof.
  revert s; induction p as [|a p IH]; intros s; cbn; [by intros [= ->]|].
  destruct s as [|b s]; [done|]. destruct (_ =? _); [|done].
  intros [Hr Hl]%IH. split; [auto with py|cbn; lia].
Qed.

Lemma scan_constant_rest cs s v r :
  Forall (fun pv => pv.1 <> [] /\ writable str_okb pv.2 = true) cs ->
  scan_constant cs s = Some (v, r) -> rest_of s r /\ (length r < length s)%nat /\ writable str_okb v = true.
Proof.
  induction 1 as [|[p v'] cs [Hp Hv] _ IH]; cbn; [done|].
  destruct (strip_prefix p s) eqn:E; [|done]. intros [= <- <-].
  apply strip_prefix_rest in E as [Hr Hl]. split; [done|]. split; [|done].
  destruct p; [done|]. cbn in Hl. lia.
Qed.

(** ** Strings *)

Lemma hex_value_range c v : hex_value c = Some v -> 0 <= v < 16.
Proof.
  unfold hex_value, is_digit. repeat case_match; intros; simplify_eq; zbool; lia.
Qed.

Lemma hex4_range a b c d v : hex4 a b c d = Some v -> 0 <= v < 65536.
Proof.
  unfold hex4. intros H.
  destruct (hex_value a) eqn:Ea, (hex_value b) eqn:Eb, (hex_value c) eqn:Ec, (hex_value d) eqn:Ed;
    cbn in H; simplify_eq.
  apply hex_value_range in Ea, Eb, Ec, Ed. lia.
Qed.

Lemma hex4_codepoint a b c d v : hex4 a b c d = Some v -> is_codepoint v = true.
Proof. intros ?%hex4_range. unfold is_codepoint. zbool. lia. Qed.

Lemma join_codepoint h l :
  is_high_surrogate h = true -> is_low_surrogate l = true -> is_codepoint (join_surrogates h l) = true.
Proof.
  unfold is_high_surrogate, is_low_surrogate, join_surrogates, is_codepoint. intros. zbool. lia.
Qed.

Lemma simple_escape_codepoint e c : simple_escape e = Some c -> is_codepoint c = true.
Proof. unfold simple_escape. repeat case_match; intros; by simplify_eq. Qed.

(** A scanned string: text in range when the input is, and a shorter rest. *)
Definition str_result (s t r : pystr) : Prop :=
  (length r < length s)%nat /\ (str_ok s -> str_ok t /\ str_ok r).

Lemma push_Some c m t r : push c m = Some (t, r) -> exists t', m = Some (t', r) /\ t = c :: t'.
Proof. destruct m as [[t' r']|]; cbn; naive_solver. Qed.

(** One more character [c] in front, after at least one input character. *)
Lemma str_result_push s s' c t r :
  str_result s' t r -> (length s' < length s)%nat -> (str_ok s -> str_ok s') ->
  (str_ok s -> is_codepoint c = true) -> str_result s (c :: t) r.
Proof.
  intros [Hl Ht] Hl' Hs Hc. split; [lia|]. intros H. destruct (Ht (Hs H)) as [Ht' Hr].
  split; [|done]. constructor; [by apply Hc|done].
Qed.

Ltac str_tail := let H := fresh in intros H; repeat (apply Forall_cons in H as [_ H]); exact H.

Lemma scan_str_result s t r : scan_str s = Some (t, r) -> str_result s t r.
Proof.
  revert t r. induction s as [s IH] using (induction_ltof1 _ (@length Z)). unfold ltof in IH.
  intros t r H.
  destruct s as [|c s1]; [done|]. cbn [scan_str] in H.
  destruct (c =? 34) eqn:E34.
  { injection H as <- <-. split; [cbn; lia|]. intros [_ Hs]%Forall_cons. by repeat constructor. }
  destruct (c =? 92) eqn:E92.
  - destruct s1 as [|e s2]; [done|]. destruct (e =? 117) eqn:E117.
    + destruct s2 as [|h1 [|h2 [|h3 [|h4 s3]]]]; try done.
      destruct (hex4 h1 h2 h3 h4) as [hi|] eqn:Eh; [|done].
      assert (Hlone : forall t r, push hi (scan_str s3) = Some (t, r) ->
        str_result (c :: e :: h1 :: h2 :: h3 :: h4 :: s3) t r).
      { intros t' r' (t'' & H' & ->)%push_Some. apply IH in H'; [|cbn; lia].
        eapply str_result_push; [exact H'|cbn; lia|str_tail|]. intros _. by eapply hex4_codepoint. }
      destruct (is_high_surrogate hi) eqn:Ehi; [|by apply Hlone].
      destruct s3 as [|b [|x [|g1 [|g2 [|g3 [|g4 s4]]]]]]; try by apply Hlone.
      destruct ((b =? 92) && (x =? 117)); [|by apply Hlone].
      destruct (hex4 g1 g2 g3 g4) as [lo|] eqn:El; [|done].
      destruct (is_low_surrogate lo) eqn:Elo; [|by apply Hlone].
      apply push_Some in H as (t' & H & ->). apply IH in H; [|cbn; lia].
      eapply str_result_push; [exact H|cbn; lia|str_tail|]. intros _. by apply join_codepoint.
    + destruct (simple_escape e) eqn:Ee; [|done].
      apply push_Some in H as (t' & H & ->). apply IH in H; [|cbn; lia].
      eapply str_result_push; [exact H|cbn; lia|str_tail|]. intros _. by eapply simple_escape_codepoint.
  - destruct (c <=? 31); [done|].
    apply push_Some in H as (t' & H & ->). apply IH in H; [|cbn; lia].
    eapply str_result_push; [exact H|cbn; lia|str_tail|]. by intros [? _]%Forall_cons.
Qed.

(** ** Numbers *)

Definition digits_only (s : pystr) : Prop := Forall (fun c => is_digit c = true) s.

Lemma scan_frac_rest s f r : scan_frac s = (f, r) -> rest_of s r /\ digits_only (default [] f).
Proof.
  unfold scan_frac. destruct s as [|c s]; [intros [= <- <-]; split; cbn; [done|constructor]|].
  destruct (c =? 46); [|intros [= <- <-]; split; cbn; [done|constructor]].
  destruct (take_digits s) as [ds r'] eqn:E. apply take_digits_rest in E as [Hr Hd].
  destruct ds; intros [= <- <-]; split; cbn; auto with py; constructor.
Qed.

Lemma scan_exp_rest s x r : scan_exp s = (x, r) -> rest_of s r.
Proof.
  unfold scan_exp. destruct s as [|c s]; [by intros [= <- <-]|].
  destruct (_ || _); [|by intros [= <- <-]].
  destruct (scan_sign s) as [sg s'] eqn:Es. destruct (take_digits s') as [ds r'] eqn:E.
  apply take_digits_rest in E as [Hr _].
  assert (rest_of s s').
  { unfold scan_sign in Es. destruct s as [|c' s]; [by simplify_eq|].
    destruct (c' =? 45); [|destruct (c' =? 43)]; simplify_eq; auto with py. }
  destruct ds; intros [= <- <-]; [done|]. apply rest_cons. by etrans.
Qed.

Lemma scan_int_rest s i r :
  scan_int s = Some (i, r) -> rest_of s r /\ (length r < length s)%nat /\ i <> [] /\ digits_only i.
Proof.
  unfold scan_int. destruct s as [|c s]; [done|].
  destruct (Z.eqb_spec c 48) as [->|]; 
    [intros [= <- <-]; split; [auto with py|]; split; [cbn; lia|]; split; [done|by repeat constructor]|].
  destruct ((49 <=? c) && (c <=? 57)) eqn:Ec; [|done].
  destruct (take_digits s) as [ds r'] eqn:E. apply take_digits_rest in E as [Hr Hd].
  intros [= <- <-]. split; [auto with py|]. split; [destruct Hr; cbn; lia|]. split; [done|].
  constructor; [|done]. unfold is_digit. zbool. lia.
Qed.

Lemma dec_value_nonneg s : digits_only s -> 0 <= dec_value s.
Proof.
  induction s as [|c s IH] using rev_ind; [done|]. intros [Hs Hc]%Forall_app.
  unfold dec_value in *. rewrite map_app. cbn [map]. rewrite of_digits_snoc.
  apply Forall_cons in Hc as [Hc _]. unfold is_digit in Hc. zbool. specialize (IH Hs). lia.
Qed.

(** A scanner result on input [s]: fuel was enough, the input shrinks, and under
    the assumption [P] that the input is a [str] the value is well formed. *)
Definition good (P : Prop) (s : pystr) (m : res scan_error (pyval * pystr)) : Prop :=
  match m with
  | Ok (v, r) => (length r < length s)%nat /\ (P -> writable str_okb v = true /\ str_ok r)
  | Err ScanOutOfFuel => False
  | Err _ => True
  end.

Lemma scan_minus_rest s b r : scan_minus s = (b, r) -> rest_of s r.
Proof.
  unfold scan_minus. destruct s as [|c s]; [by intros [= <- <-]|].
  destruct (c =? 45); intros [= <- <-]; auto with py.
Qed.

Lemma token_value_wf t :
  nt_int t <> [] -> digits_only (nt_int t) -> digits_only (default [] (nt_frac t)) ->
  match token_value t with
  | Ok v => writable str_okb v = true
  | Err e => e = ScanValueError
  end.
Proof.
  intros Hne Hi Hf. unfold token_value. pose proof (dec_nat_shorter _ Hne Hi) as Hl. pose proof (dec_value_nonneg _ Hi).
  destruct (nt_frac t) as [f|] eqn:Ef, (nt_exp t) as [x|] eqn:Ex; cbn;
    try (apply dec_to_float_valid, dec_value_nonneg, Forall_app; split; done).
  destruct (Nat.leb_spec (length (nt_int t)) max_str_digits); [|done]. cbn. apply Nat.leb_le.
  replace (Z.abs _) with (dec_value (nt_int t)) by (destruct (nt_neg t); lia). lia.
Qed.

Lemma scan_number_good P s : (P -> str_ok s) -> good P s (scan_number s).
Proof.
  intros HP. unfold scan_number, scan_token.
  destruct (scan_minus s) as [b s1] eqn:E1. apply scan_minus_rest in E1.
  destruct (scan_int s1) as [[i s2]|] eqn:E2; [|done].
  apply scan_int_rest in E2 as (H2 & Hl & Hne & Hi).
  destruct (scan_frac s2) as [f s3] eqn:E3. apply scan_frac_rest in E3 as [H3 Hf].
  destruct (scan_exp s3) as [x s4] eqn:E4. apply scan_exp_rest in E4.
  pose proof (token_value_wf (NumToken b i f x) Hne Hi Hf) as Hv.
  destruct (token_value _) as [v|e]; cbn; [|by subst].
  assert (rest_of s2 s4) as [? H24] by by etrans.
  assert (rest_of s s2) as [? H02] by by etrans.
  destruct E1 as [? _]. split; [lia|]. intros Hp. split; [done|]. by apply H24, H02, HP.
Qed.

(** ** Containers *)

Section containers_good.
Variables (P : Prop) (scan : pystr -> res scan_error (pyval * pystr)) (n : nat).
Hypothesis scan_good : forall s, (length s < n)%nat -> (P -> str_ok s) -> good P s (scan s).

(** Input after an optional white space. *)
Lemma skip_ws_P s : (P -> str_ok s) -> (length (skip_ws s) <= length s)%nat /\ (P -> str_ok (skip_ws s)).
Proof. destruct (skip_ws_rest s) as [? H]. auto. Qed.

Lemma eat_P c s r : (P -> str_ok s) -> eat c s = Some r -> (length r < length s)%nat /\ (P -> str_ok r).
Proof. intros HP [[_ H] ?]%eat_rest. auto. Qed.

(** A tail call on a shorter input. *)
Lemma good_weaken s s' m : good P s' m -> (length s' <= length s)%nat -> good P s m.
Proof. destruct m as [[v r]|[]]; cbn; intuition lia. Qed.

Lemma scan_elements_good m s acc :
  (length s < n)%nat -> (length s < m)%nat -> (P -> str_ok s) ->
  (P -> forallb (writable str_okb) acc = true) -> good P s (scan_elements scan m s acc).
Proof.
  revert s acc; induction m as [|m IH]; intros s acc Hn Hm HP Hacc; [lia|].
  cbn [scan_elements]. pose proof (scan_good s Hn HP) as Hg.
  destruct (scan s) as [[v r]|e]; cbn in Hg |- *; [|done]. destruct Hg as [Hl Hg].
  assert (HPr : P -> str_ok r) by (intros; by apply Hg).
  destruct (skip_ws_P r HPr) as [Hl1 HP1].
  assert (Hacc' : P -> forallb (writable str_okb) (acc ++ [v]) = true).
  { intros Hp. rewrite forallb_app, Hacc by done. cbn. by rewrite (proj1 (Hg Hp)). }
  destruct (eat 44 (skip_ws r)) as [r2|] eqn:E.
  - apply (eat_P 44 _ _ HP1) in E as [Hl2 HP2]. destruct (skip_ws_P r2 HP2) as [Hl3 HP3].
    apply (good_weaken s (skip_ws r2)); [apply IH; auto; lia|lia].
  - destruct (eat 93 (skip_ws r)) as [r2|] eqn:E'; [|done].
    apply (eat_P 93 _ _ HP1) in E' as [Hl2 HP2]. cbn. split; [lia|auto].
Qed.

Lemma scan_array_good s : (length s < n)%nat -> (P -> str_ok s) -> good P s (scan_array scan n s).
Proof.
  intros Hn HP. unfold scan_array. destruct (skip_ws_P s HP) as [Hl1 HP1].
  destruct (eat 93 (skip_ws s)) as [r|] eqn:E.
  - apply (eat_P 93 _ _ HP1) in E as [Hl2 HP2]. cbn. split; [lia|auto].
  - apply (good_weaken s (skip_ws s)); [|lia]. apply scan_elements_good; auto; lia.
Qed.

(** The accumulated object stays well formed. *)
Definition acc_ok (acc : pydict) : Prop :=
  NoDup (keys acc) /\ Forall (fun kv => str_okb kv.1 = true /\ writable str_okb kv.2 = true) acc.

Lemma dset_acc_ok k v acc : acc_ok acc -> str_okb k = true -> writable str_okb v = true -> acc_ok (dset k v acc).
Proof.
  intros [Hnd Hf] Hk Hv. split; [by apply dset_nodup|].
  clear Hnd. induction Hf as [|[k' v'] acc [Hk' Hv'] Hf IH]; cbn.
  - by repeat constructor.
  - case_bool_decide; by repeat constructor.
Qed.

Lemma scan_members_good m s acc :
  (length s < n)%nat -> (length s < m)%nat -> (P -> str_ok s) ->
  (P -> acc_ok acc) -> good P s (scan_members scan m s acc).
Proof.
  revert s acc; induction m as [|m IH]; intros s acc Hn Hm HP Hacc; [lia|].
  cbn [scan_members]. destruct (eat 34 s) as [s1|] eqn:E1; cbn [mbind option_bind]; [|done].
  apply (eat_P 34 _ _ HP) in E1 as [Hl1 HP1].
  destruct (scan_str s1) as [[k s2]|] eqn:E2; [|done].
  apply scan_str_result in E2 as [Hl2 H2].
  assert (HP2 : P -> str_ok s2) by (intros; by apply H2, HP1).
  destruct (skip_ws_P s2 HP2) as [Hl3 HP3].
  destruct (eat 58 (skip_ws s2)) as [s4|] eqn:E4; [|done].
  apply (eat_P 58 _ _ HP3) in E4 as [Hl4 HP4]. destruct (skip_ws_P s4 HP4) as [Hl5 HP5].
  pose proof (scan_good (skip_ws s4) ltac:(lia) HP5) as Hg.
  destruct (scan (skip_ws s4)) as [[v r]|e]; cbn in Hg |- *; [|done]. destruct Hg as [Hl Hg].
  assert (HPr : P -> str_ok r) by (intros; by apply Hg).
  destruct (skip_ws_P r HPr) as [Hl6 HP6].
  assert (Hacc' : P -> acc_ok (dset k v acc)).
  { intros Hp. apply dset_acc_ok; [by apply Hacc|by apply str_okb_spec, H2, HP1|by apply Hg]. }
  destruct (eat 44 (skip_ws r)) as [r2|] eqn:E.
  - apply (eat_P 44 _ _ HP6) in E as [Hl7 HP7]. destruct (skip_ws_P r2 HP7) as [Hl8 HP8].
    apply (good_weaken s (skip_ws r2)); [apply IH; auto; lia|lia].
  - destruct (eat 125 (skip_ws r)) as [r2|] eqn:E'; [|done].
    apply (eat_P 125 _ _ HP6) in E' as [Hl7 HP7]. cbn -[writable]. split; [lia|].
    intros Hp. split; [|auto]. apply writable_members. by apply Hacc'.
Qed.

Lemma scan_object_good s : (length s < n)%nat -> (P -> str_ok s) -> good P s (scan_object scan n s).
Proof.
  intros Hn HP. unfold scan_object. destruct (skip_ws_P s HP) as [Hl1 HP1].
  destruct (eat 125 (skip_ws s)) as [r|] eqn:E.
  - apply (eat_P 125 _ _ HP1) in E as [Hl2 HP2]. cbn. split; [lia|auto].
  - apply (good_weaken s (skip_ws s)); [|lia].
    apply scan_members_good; [lia..|done|]. intros _. split; constructor.
Qed.
End containers_good.

Lemma constants_wf : Forall (fun pv => pv.1 <> [] /\ writable str_okb pv.2 = true) constants.
Proof. by repeat constructor. Qed.

Lemma scan_once_good P n s : (length s < n)%nat -> (P -> str_ok s) -> good P s (scan_once n s).
Proof.
  revert s; induction n as [|n IH]; intros s Hn HP; [lia|]. cbn [scan_once].
  destruct s as [|c s]; [done|]. cbn [length] in Hn.
  assert (HP' : P -> str_ok s) by (intros Hp; specialize (HP Hp); by inversion HP).
  destruct (c =? 34).
  { destruct (scan_str s) as [[t r]|] eqn:E; [|done]. apply scan_str_result in E as [Hl Ht].
    cbn. split; [lia|]. intros Hp. split; [apply str_okb_spec|]; by apply Ht, HP'. }
  destruct (c =? 123).
  { apply (good_weaken P (c :: s) s); [|cbn; lia]. apply scan_object_good; auto; lia. }
  destruct (c =? 91).
  { apply (good_weaken P (c :: s) s); [|cbn; lia]. apply scan_array_good; auto; lia. }
  destruct (scan_constant constants (c :: s)) as [[v r]|] eqn:E; [|by apply scan_number_good].
  apply scan_constant_rest in E as (Hr & Hl & Hv); [|apply constants_wf].
  cbn. split; [done|]. intros Hp. split; [done|]. apply Hr. by apply HP.
Qed.

(** [json.loads] never runs out of fuel, and returns well-formed values. *)
Theorem decode_good s :
  match decode s with
  | Ok v => str_ok s -> writable str_okb v = true
  | Err e => e <> ScanOutOfFuel
  end.
Proof.
  unfold decode.
  pose proof (scan_once_good (str_ok s) (S (length s)) (skip_ws s)) as Hg.
  destruct (skip_ws_rest s) as [Hl Hs]. specialize (Hg ltac:(lia) Hs).
  destruct (scan_once _ _) as [[v r]|[]]; cbn in Hg |- *; try done.
  destruct (skip_ws r); [|done]. intros H. by apply Hg.
Qed.

(** What is loaded from a text can be written again. *)
Lemma loads_str_writable s v : str_ok s -> loads_str s = Ok v -> writable str_okb v = true.
Proof.
  intros Hs Hl. pose proof (decode_good s) as Hg. assert (decode s = Ok v) as E.
  { unfold loads_str in Hl. repeat case_match; congruence. }
  rewrite E in Hg. auto.
Qed.

(** ** [bytes] arguments *)

Lemma decode_detected_ok b s : bytes_ok b -> decode_detected b = Some s -> str_ok s.
Proof.
  intros Hb. unfold decode_detected.
  repeat case_match; subst; intros H;
    first [apply utf8_decode_ok in H | apply utf16_decode_ok in H | apply utf32_decode_ok in H];
    try done; repeat (apply Forall_cons in Hb as [_ Hb]; try done).
Qed.

Theorem loads_bytes_wf b v : bytes_ok b -> loads_bytes b = Ok v -> wf_val v = true.
Proof.
  unfold loads_bytes. intros Hb. destruct (decode_detected b) as [s|] eqn:E; [|done].
  apply decode_detected_ok in E; [|done]. intros H.
  pose proof (decode_good s) as Hg. rewrite H in Hg. auto using writable_wf.
Qed.

Theorem loads_bytes_fuel b : loads_bytes b <> Err ScanOutOfFuel.
Proof.
  unfold loads_bytes. destruct (decode_detected b) as [s|]; [|done].
  pose proof (decode_good s). destruct (decode s); congruence.
Qed.

(** A text that starts with [{] and has no NUL is detected as UTF-8. *)
Lemma decode_detected_object b :
  Forall (fun x => 32 <= x) b -> decode_detected (123 :: b) = utf8_decode true (123 :: b).
Proof.
  intros Hb. destruct b as [|b1 b]; [done|]. apply Forall_cons in Hb as [H1 _].
  destruct b1 as [|p|p]; [lia| |lia]. destruct b as [|b2 [|b3 b]]; reflexivity.
Qed.
