(* ===== verification/JsonAscii.v ===== *)
(** [json.dumps(value, separators=(",", ":"), sort_keys=...)] with the defaults
    [ensure_ascii=True] and [allow_nan=True]: the text of the log records, of
    the responses of the collector and of the mapper's command line. *)

From S2P Require Import Prelude.
From S2P Require Import PyText.
From S2P Require Import Binary64.
From S2P Require Import PyValue.
From S2P Require Import JsonDumps.
From S2P Require Import JsonLoads.
From S2P Require Import JsonRoundTrip.

(** [\uXXXX] of a 16-bit unit. *)
Definition unit_escape (n : Z) : pystr :=
  [92; 117; hex_digit (n / 4096); hex_digit (n / 256 mod 16); hex_digit (n / 16 mod 16); hex_digit (n mod 16)].

Definition ascii_char (c : Z) : pystr :=
  if c =? 34 then [92; 34]
  else if c =? 92 then [92; 92]
  else if (32 <=? c) && (c <=? 126) then [c]
  else if c =? 10 then [92; 110]
  else if c =? 13 then [92; 114]
  else if c =? 9 then [92; 116]
  else if c =? 8 then [92; 98]
  else if c =? 12 then [92; 102]
  else if c <? 0x10000 then unit_escape c
  else unit_escape (0xD800 + (c - 0x10000) / 1024) ++ unit_escape (0xDC00 + c mod 1024).

Definition quote_ascii (s : pystr) : pystr := 34 :: flat_map ascii_char s ++ [34].

(** [float.__repr__], or the three constants outside JSON. *)
Definition float_text (f : spec_float) : pystr :=
  match f with
  | S754_nan => u "NaN"
  | S754_infinity s => if s then u "-Infinity" else u "Infinity"
  | _ => float_repr f
  end.

Definition ascii_member (kt : pystr * res dumps_error pystr) : res dumps_error pystr :=
  t ← kt.2; Ok (quote_ascii kt.1 ++ 58 :: t).

Fixpoint dumps_ascii (sort_keys : bool) (v : pyval) : res dumps_error pystr :=
  match v with
  | PNone => Ok (u "null")
  | PBool b => Ok (if b then u "true" else u "false")
  | PInt z => dumps_int z
  | PFloat f => Ok (float_text f)
  | PStr s => Ok (quote_ascii s)
  | PList l =>
      ts ← sequence (map (dumps_ascii sort_keys) l);
      Ok (91 :: join_comma ts ++ [93])
  | PDict d =>
      match str_keys (map (fun kv => (kv.1, dumps_ascii sort_keys kv.2)) d) with
      | None => Err DumpsTypeError
      | Some items =>
          ts ← sequence (map ascii_member (if sort_keys then sort_by fst items else items));
          Ok (123 :: join_comma ts ++ [125])
      end
  | POther _ => Err DumpsTypeError
  end.

(** The values that are read back as they were: without surrogates. *)
Definition scalar_text (s : pystr) : bool := forallb is_scalar s.
Notation lossless := (writable scalar_text) (only parsing).

(** ** The characters *)

Definition graphic (c : Z) : Prop := 32 <= c <= 126.

Lemma graphic_line s : Forall graphic s -> LF ∉ s.
Proof. rewrite Forall_forall. intros Hs Hin. destruct (Hs LF Hin) as [H _]. vm_compute in H. done. Qed.

Lemma hex_digit_graphic n : 0 <= n < 16 -> graphic (hex_digit n).
Proof. unfold hex_digit, graphic. destruct (Z.ltb_spec n 10); lia. Qed.

Ltac hex_range := Z.to_euclidean_division_equations; lia.

Lemma unit_escape_graphic n : 0 <= n < 65536 -> Forall graphic (unit_escape n).
Proof.
  intros Hn. unfold unit_escape.
  repeat (apply Forall_cons; split; [try (unfold graphic; lia)|]); [..|done]; apply hex_digit_graphic; hex_range.
Qed.

Lemma hex4_unit n : 0 <= n < 65536 ->
  hex4 (hex_digit (n / 4096)) (hex_digit (n / 256 mod 16)) (hex_digit (n / 16 mod 16)) (hex_digit (n mod 16)) = Some n.
Proof.
  intros Hn. unfold hex4. rewrite !hex_value_digit by hex_range. cbn. f_equal. hex_range.
Qed.

Lemma ascii_char_graphic c : is_codepoint c = true -> Forall graphic (ascii_char c).
Proof.
  unfold is_codepoint, ascii_char. intros Hc. zbool.
  destruct (Z.eqb_spec c 34); [by repeat constructor|]. destruct (Z.eqb_spec c 92); [by repeat constructor|].
  destruct (Z.leb_spec 32 c), (Z.leb_spec c 126); cbn [andb]; [by repeat constructor|..]; try lia.
  all: do 5 (case_match; [by repeat constructor|]).
  all: destruct (Z.ltb_spec c 65536); [apply unit_escape_graphic; lia|].
  all: apply Forall_app_2; apply unit_escape_graphic; hex_range.
Qed.

Lemma scan_str_unit n s : 0 <= n < 65536 -> is_high_surrogate n = false -> scan_str (unit_escape n ++ s) = push n (scan_str s).
Proof. intros Hn Hh. unfold unit_escape. cbn [app scan_str]. by rewrite hex4_unit, Hh by lia. Qed.

Lemma scan_str_pair hi lo s :
  0 <= hi < 65536 -> 0 <= lo < 65536 -> is_high_surrogate hi = true -> is_low_surrogate lo = true ->
  scan_str ((unit_escape hi ++ unit_escape lo) ++ s) = push (join_surrogates hi lo) (scan_str s).
Proof. intros Hn Hl Eh El. unfold unit_escape. cbn [app scan_str]. by rewrite !hex4_unit, Eh, El by lia. Qed.

Lemma scan_str_ascii c s : is_scalar c = true -> scan_str (ascii_char c ++ s) = push c (scan_str s).
Proof.
  unfold is_scalar, is_codepoint, is_surrogate, ascii_char. intros Hc. zbool.
  destruct (Z.eqb_spec c 34) as [->|]; [done|]. destruct (Z.eqb_spec c 92) as [->|]; [done|].
  destruct ((32 <=? c) && (c <=? 126)) eqn:Eg.
  { zbool. cbn [app scan_str]. destruct (Z.eqb_spec c 34), (Z.eqb_spec c 92), (Z.leb_spec c 31); done || lia. }
  destruct (Z.eqb_spec c 10) as [->|]; [done|]. destruct (Z.eqb_spec c 13) as [->|]; [done|].
  destruct (Z.eqb_spec c 9) as [->|]; [done|]. destruct (Z.eqb_spec c 8) as [->|]; [done|].
  destruct (Z.eqb_spec c 12) as [->|]; [done|]. destruct (Z.ltb_spec c 0x10000).
  - apply scan_str_unit; [lia|]. unfold is_high_surrogate. zbool. lia.
  - rewrite scan_str_pair; [|hex_range..| |].
    + f_equal. unfold join_surrogates. hex_range.
    + unfold is_high_surrogate. zbool. hex_range.
    + unfold is_low_surrogate. zbool. hex_range.
Qed.

Lemma reads_quote_ascii s : scalar_text s = true -> reads_string s (quote_ascii s).
Proof.
  unfold scalar_text. intros Hs. eexists. split; [done|]. intros r. rewrite <- app_assoc.
  induction s as [|c s IH]; [done|]. cbn [forallb] in Hs. apply andb_true_iff in Hs as [Hc Hs].
  cbn [flat_map]. rewrite <- app_assoc, scan_str_ascii by done. cbn [app] in *. by rewrite IH.
Qed.

Lemma scalar_codepoint s : scalar_text s = true -> str_ok s.
Proof.
  unfold scalar_text, str_ok. rewrite forallb_forall, Forall_forall. setoid_rewrite list_elem_of_In.
  intros Hs c Hc. specialize (Hs c Hc). by apply andb_true_iff in Hs as [? _].
Qed.

Lemma quote_ascii_graphic s : str_ok s -> Forall graphic (quote_ascii s).
Proof.
  intros Hs. unfold quote_ascii. constructor; [by unfold graphic|]. apply Forall_app_2; [|by repeat constructor].
  induction Hs as [|c s Hc _ IH]; [constructor|]. cbn. apply Forall_app_2; [by apply ascii_char_graphic|done].
Qed.

Lemma digits_graphic s : all_digits s -> Forall graphic s.
Proof. intros Hs. eapply Forall_impl; [exact Hs|]. intros c Hc%digit_range. unfold graphic. lia. Qed.

Lemma token_graphic t : token_ok t -> Forall graphic (token_text t).
Proof.
  intros (Hi & Hf & Hx). unfold token_text. repeat apply Forall_app_2.
  - destruct (nt_neg t); by repeat constructor.
  - apply digits_graphic. destruct Hi as [->|(c & ds & -> & Hc & Hds)]; [by repeat constructor|].
    constructor; [unfold is_digit; zbool; lia|exact Hds].
  - destruct (nt_frac t) as [f|]; [|constructor]. constructor; [by unfold graphic|]. apply digits_graphic. by apply Hf.
  - destruct (nt_exp t) as [[sg ds]|]; [|constructor]. constructor; [by unfold graphic|].
    apply Forall_app_2; [destruct sg as [[]|]; by repeat constructor|]. apply digits_graphic. by eapply Hx.
Qed.

Lemma join_comma_graphic ts : Forall (Forall graphic) ts -> Forall graphic (join_comma ts).
Proof.
  induction 1 as [|t [|t' ts] Ht _ IH]; [constructor|done|].
  change (join_comma (t :: t' :: ts)) with (t ++ 44 :: join_comma (t' :: ts)).
  apply Forall_app_2; [done|]. constructor; [by unfold graphic|done].
Qed.

Lemma bracketed_graphic a b ts : graphic a -> graphic b -> Forall (Forall graphic) ts ->
  Forall graphic (a :: join_comma ts ++ [b]).
Proof.
  intros Ha Hb Hts. constructor; [done|]. apply Forall_app_2; [by apply join_comma_graphic|by constructor].
Qed.

(** ** Every such value is written, on one line of ASCII, and read back *)

(** The text of a value, as a line reader needs it, and, where [b], as the
    scanner does. *)
Definition ascii_text_of (b : bool) (v : pyval) (t : pystr) : Prop := Forall graphic t /\ (b = true -> item_ok v t).

Lemma token_item b t v : token_ok t -> token_value t = Ok v -> norm v = v -> ascii_text_of b v (token_text t).
Proof.
  intros Ht Hv Hn. split; [by apply token_graphic|]. intros _. split; [by apply token_value_head|].
  intros n r Hr Hl. rewrite Hn. by apply scan_once_number.
Qed.

Lemma constant_item b v t : In (t, v) constants -> norm v = v -> ascii_text_of b v t.
Proof.
  intros H Hn. cbn in H. split; [destruct_or?; simplify_eq; by repeat constructor|]. intros _.
  split; [destruct_or?; simplify_eq; by eexists _, _|]. intros [|n] r Hr Hl; [lia|]. rewrite Hn.
  destruct_or?; simplify_eq; done.
Qed.

Lemma float_item b f : valid_float f = true -> ascii_text_of b (PFloat f) (float_text f).
Proof.
  intros Hf. destruct (is_finite f) eqn:E.
  - destruct (float_token f Hf E) as (t & Ht & Hok & Hv). replace (float_text f) with (float_repr f) by by destruct f.
    rewrite Ht. by apply token_item.
  - destruct f as [s|[]| |s m e]; try done; apply constant_item; cbn; auto 10.
Qed.

Lemma string_item b s : str_okb s = true -> (b = true -> scalar_text s = true) -> ascii_text_of b (PStr s) (quote_ascii s).
Proof.
  intros Hs Hb. split; [by apply quote_ascii_graphic, str_okb_spec|]. intros Hsc%Hb.
  split; [by eexists _, _|]. intros [|n] r Hr Hn; [lia|].
  destruct (reads_quote_ascii s Hsc) as (body & Hq & Hr'). rewrite Hq. cbn [app scan_once].
  change (34 =? 34) with true. cbv iota. by rewrite Hr'.
Qed.

Lemma forall_texts {A} (f : A -> res dumps_error pystr) (P : A -> pystr -> Prop) l :
  Forall (fun x => exists t, f x = Ok t /\ P x t) l -> exists ts, sequence (map f l) = Ok ts /\ Forall2 P l ts.
Proof.
  induction 1 as [|x l (t & Ht & Hp) _ (ts & Hts & Hps)]; [by exists []|].
  exists (t :: ts). cbn. rewrite Ht, Hts. split; [done|by constructor].
Qed.

(** Texts that are graphic, and related to their values when [b]. *)
Lemma texts_split {A} (b : bool) (P : A -> pystr -> Prop) l ts :
  Forall2 (fun x t => Forall graphic t /\ (b = true -> P x t)) l ts ->
  Forall (Forall graphic) ts /\ (b = true -> Forall2 P l ts).
Proof.
  induction 1 as [|x t l ts [Hg Hp] _ [IHg IHp]]; [by split|]. split; [by constructor|]. intros Hb. constructor; auto.
Qed.

(** The members of an object whose values have texts. *)
Lemma ascii_members b sort (d : pydict) :
  Forall (fun kv => (str_okb kv.1 = true /\ (b = true -> scalar_text kv.1 = true)) /\
    exists t, dumps_ascii sort kv.2 = Ok t /\ ascii_text_of b kv.2 t) d ->
  exists ts, sequence (map (fun kv => ascii_member (kv.1, dumps_ascii sort kv.2)) d) = Ok ts /\
    Forall (Forall graphic) ts /\ (b = true -> Forall2 member_ok d ts).
Proof.
  intros Hd. destruct (forall_texts (fun kv => ascii_member (kv.1, dumps_ascii sort kv.2))
    (fun kv t => Forall graphic t /\ (b = true -> member_ok kv t)) d) as (ts & Hts & Hok%texts_split); [|by exists ts].
  eapply Forall_impl; [exact Hd|]. intros [k v] ([Hk Hb] & t & Ht & Hg & Hv). cbn [fst snd] in *.
  unfold ascii_member. cbn [fst snd]. rewrite Ht. exists (quote_ascii k ++ 58 :: t). split; [done|]. split.
  - apply Forall_app_2; [by apply quote_ascii_graphic, str_okb_spec|]. constructor; [by unfold graphic|done].
  - intros E. exists (quote_ascii k), t. split; [done|]. split; [apply reads_quote_ascii; auto|auto].
Qed.

Lemma dumps_ascii_dict b (d : pydict) :
  dumps_ascii b (PDict (of_str_keys d)) =
  ts ← sequence (map (fun kv => ascii_member (kv.1, dumps_ascii b kv.2)) (if b then sort_by fst d else d));
  Ok (123 :: join_comma ts ++ [125]).
Proof.
  cbn. change (map _ (of_str_keys d)) with (map_snd (dumps_ascii b) (of_str_keys d)). rewrite str_keys_map_snd.
  rewrite (proj2 (str_keys_Some _ d) eq_refl). cbn. destruct b; [rewrite sort_by_map_snd|]; unfold map_snd; by rewrite map_map.
Qed.

Lemma dumps_ascii_item b v :
  writable str_okb v = true -> (b = true -> lossless v = true) ->
  exists t, dumps_ascii true v = Ok t /\ ascii_text_of b v t.
Proof.
  induction v as [|c|z|f|s|l IH|d IH|ty] using pyval_ind'; intros Hw Hl.
  - eexists. split; [done|]. apply constant_item; [by left|done].
  - eexists. split; [done|]. apply constant_item; [|done]. destruct c; cbn; auto.
  - cbn in Hw |- *. assert (Hd : dumps_int z = Ok (dec z)) by (unfold dumps_int; by rewrite Hw).
    exists (dec z). split; [done|]. rewrite <- int_token_text. apply token_item; [apply int_token_ok| |done].
    by eapply int_token_value.
  - eexists. split; [done|]. by apply float_item.
  - eexists. split; [done|]. by apply string_item.
  - cbn in Hw, Hl. rewrite forallb_forall in Hw, Hl.
    destruct (forall_texts (dumps_ascii true) (ascii_text_of b) l) as (ts & Hts & [Hg Hok]%texts_split).
    { rewrite Forall_forall in IH |- *. intros x Hx. pose proof (proj1 (list_elem_of_In _ _) Hx). apply IH; auto. }
    cbn. rewrite Hts. eexists. split; [done|]. split; [by apply bracketed_graphic; [by unfold graphic..|]|].
    intros Hb. split; [by eexists _, _|]. apply reads_list. auto.
  - apply writable_dict in Hw as (sd & -> & Hnd & Hsd). rewrite writable_members in Hl.
    assert (Hperm := sort_by_perm fst sd). rewrite dumps_ascii_dict.
    unfold of_str_keys in IH. apply Forall_map in IH. cbn in IH.
    destruct (ascii_members b true (sort_by fst sd)) as (ts & Hts & Hg & Hok).
    { rewrite Hperm. rewrite Forall_forall in IH, Hsd |- *. intros kv Hkv. destruct (Hsd kv Hkv).
      assert (b = true -> scalar_text kv.1 = true /\ lossless kv.2 = true).
      { intros Hb. destruct (Hl Hb) as [_ Hf]. rewrite Forall_forall in Hf. auto. }
      split; [naive_solver|]. apply IH; naive_solver. }
    rewrite Hts. cbn [mbind res_bind]. eexists. split; [done|]. split; [by apply bracketed_graphic; [by unfold graphic..|]|].
    intros Hb. split; [by eexists _, _|]. intros n r Hr Hn. rewrite norm_dict.
    apply reads_members; [auto|unfold keys in *; by rewrite Hperm|done].
  - done.
Qed.

Lemma str_okb_scalar s : scalar_text s = true -> str_okb s = true.
Proof. intros Hs. by apply str_okb_spec, scalar_codepoint. Qed.

Lemma writable_impl (p q : pystr -> bool) v :
  (forall s, p s = true -> q s = true) -> writable p v = true -> writable q v = true.
Proof.
  intros Hpq. induction v as [|c|z|f|s|l IH|d IH|ty] using pyval_ind'; try done; [apply Hpq| |].
  - cbn. rewrite !forallb_forall. rewrite Forall_forall in IH. setoid_rewrite <- list_elem_of_In. auto.
  - intros (sd & -> & Hnd & Hf)%writable_dict. apply writable_members. split; [done|].
    unfold of_str_keys in IH. apply Forall_map in IH. rewrite Forall_forall in *. intros kv Hkv. destruct (Hf kv Hkv). split; [auto|].
    by apply (IH kv Hkv).
Qed.

Lemma item_loads v t : item_ok v t -> decode t = Ok (norm v).
Proof.
  intros [Hh Hr]. specialize (Hr (S (length t)) [] I). rewrite app_nil_r in Hr. unfold decode.
  rewrite <- (app_nil_r t) at 2. rewrite skip_ws_head, app_nil_r by done. by rewrite Hr by lia.
Qed.

Lemma graphic_loads t : Forall graphic t -> loads_str t = decode t.
Proof.
  destruct 1 as [|c t Hc _]; [done|]. unfold graphic in Hc. cbn [loads_str]. repeat (case_match; try done); lia.
Qed.

(** With sorted keys, a value has a text of one line of ASCII, which reads back
    as the value when no text of it has surrogates. *)
Lemma dumps_ascii_loads v :
  writable str_okb v = true ->
  exists t, dumps_ascii true v = Ok t /\ Forall graphic t /\ (lossless v = true -> loads_str t = Ok (norm v)).
Proof.
  intros Hw. destruct (dumps_ascii_item (lossless v) v Hw ltac:(done)) as (t & Ht & Hg & Hr). exists t.
  split; [done|]. split; [done|]. intros Hl. rewrite graphic_loads by done. by apply item_loads, Hr.
Qed.

(** An object of texts, written in insertion order. *)
Lemma dumps_ascii_object (d : pydict) :
  NoDup (keys d) -> Forall (fun kv => str_okb kv.1 = true /\ exists s, kv.2 = PStr s /\ str_okb s = true) d ->
  exists t, dumps_ascii false (to_dict d) = Ok t /\ Forall graphic t /\
    (lossless (to_dict d) = true -> loads_str t = Ok (to_dict d)).
Proof.
  intros Hnd Hd. change (to_dict d) with (PDict (of_str_keys d)). rewrite dumps_ascii_dict.
  set (b := lossless (PDict (of_str_keys d))).
  assert (Hb : b = true -> Forall (fun kv => scalar_text kv.1 = true /\ lossless kv.2 = true) d) by by intros [_ ?]%writable_members.
  destruct (ascii_members b false d) as (ts & Hts & Hg & Hok).
  { rewrite Forall_forall in Hd |- *. intros kv Hkv. destruct (Hd kv Hkv) as (Hk & s & Es & Hs).
    assert (Hsc : b = true -> scalar_text kv.1 = true /\ lossless kv.2 = true).
    { intros E. specialize (Hb E). rewrite Forall_forall in Hb. auto. }
    split; [naive_solver|]. rewrite Es in *. eexists. split; [done|]. apply string_item; [done|naive_solver]. }
  rewrite Hts. cbn [mbind res_bind]. eexists. split; [done|]. split; [by apply bracketed_graphic; [by unfold graphic..|]|].
  intros E. set (t := 123 :: join_comma ts ++ [125]).
  assert (Hr := reads_members (S (length t)) d ts [] (Hok E) Hnd).
  fold t in Hr. rewrite app_nil_r in Hr. change (loads_str t) with (decode t). unfold decode.
  change (skip_ws t) with t. rewrite Hr by lia. cbn [mbind res_bind skip_ws]. do 3 f_equal.
  unfold map_snd. rewrite <- (map_id d) at 2. apply map_ext_in. intros kv Hkv%list_elem_of_In.
  rewrite Forall_forall in Hd. destruct kv as [k v], (Hd _ Hkv) as (_ & s & Es & _). cbn in Es |- *. by rewrite Es.
Qed.
