(* ===== verification/Sha256.v ===== *)
(** SHA-256 (FIPS 180-4), the [hashlib.sha256] of [forensics/_format.py], on
    octet lists.  Words are integers in [0, 2^32); every addition and left
    shift wraps explicitly. *)

From S2P Require Import Prelude.
From S2P Require Import PyText.

Definition w32 (x : Z) : Z := x mod 2 ^ 32.

Definition rotr (n x : Z) : Z := Z.lor (Z.shiftr x n) (w32 (Z.shiftl x (32 - n))).

Definition choose (x y z : Z) : Z := Z.lxor (Z.land x y) (Z.land (2 ^ 32 - 1 - x) z).
Definition majority (x y z : Z) : Z := Z.lxor (Z.lxor (Z.land x y) (Z.land x z)) (Z.land y z).
Definition big_sigma0 (x : Z) : Z := Z.lxor (Z.lxor (rotr 2 x) (rotr 13 x)) (rotr 22 x).
Definition big_sigma1 (x : Z) : Z := Z.lxor (Z.lxor (rotr 6 x) (rotr 11 x)) (rotr 25 x).
Definition small_sigma0 (x : Z) : Z := Z.lxor (Z.lxor (rotr 7 x) (rotr 18 x)) (Z.shiftr x 3).
Definition small_sigma1 (x : Z) : Z := Z.lxor (Z.lxor (rotr 17 x) (rotr 19 x)) (Z.shiftr x 10).

(** The first 32 bits of the fractional parts of the cube roots of the first 64
    primes, and of the square roots of the first eight. *)
Definition round_constants : list Z :=
  [ 1116352408; 1899447441; 3049323471; 3921009573; 961987163; 1508970993;
    2453635748; 2870763221; 3624381080; 310598401; 607225278; 1426881987;
    1925078388; 2162078206; 2614888103; 3248222580; 3835390401; 4022224774;
    264347078; 604807628; 770255983; 1249150122; 1555081692; 1996064986;
    2554220882; 2821834349; 2952996808; 3210313671; 3336571891; 3584528711;
    113926993; 338241895; 666307205; 773529912; 1294757372; 1396182291;
    1695183700; 1986661051; 2177026350; 2456956037; 2730485921; 2820302411;
    3259730800; 3345764771; 3516065817; 3600352804; 4094571909; 275423344;
    430227734; 506948616; 659060556; 883997877; 958139571; 1322822218;
    1537002063; 1747873779; 1955562222; 2024104815; 2227730452; 2361852424;
    2428436474; 2756734187; 3204031479; 3329325298 ].

Definition initial_words : list Z :=
  [ 1779033703; 3144134277; 1013904242; 2773480762;
    1359893119; 2600822924; 528734635; 1541459225 ].

(** Big-endian octets of an [n]-octet word, and back. *)
Fixpoint be_bytes (n : nat) (x : Z) : bytes :=
  match n with
  | O => []
  | S n => be_bytes n (x / 256) ++ [x mod 256]
  end.

Definition be_word (b : bytes) : Z := fold_left (fun acc x => 256 * acc + x) b 0.

(** Append 0x80, zeros up to 56 modulo 64, and the bit length on 8 octets. *)
Definition sha_pad (m : bytes) : bytes :=
  let n := Z.of_nat (length m) in
  m ++ 128 :: repeat 0 (Z.to_nat ((55 - n) mod 64)) ++ be_bytes 8 (8 * n).

(** Consecutive groups of [k > 0] octets. *)
Fixpoint groups (fuel k : nat) (b : bytes) : list bytes :=
  match fuel, b with
  | O, _ => []
  | _, [] => []
  | S fuel, _ => take k b :: groups fuel k (drop k b)
  end.

(** The message schedule: [n] more words in front of the 16 latest, newest first. *)
Fixpoint schedule (n : nat) (w : list Z) : list Z :=
  match n with
  | O => w
  | S n =>
      let at_ i := nth i w 0 in
      schedule n (w32 (small_sigma1 (at_ 1%nat) + at_ 6%nat + small_sigma0 (at_ 14%nat) + at_ 15%nat) :: w)
  end.

Definition sha_round (st : list Z) (kw : Z * Z) : list Z :=
  match st with
  | [a; b; c; d; e; f; g; h] =>
      let t1 := h + big_sigma1 e + choose e f g + kw.1 + kw.2 in
      let t2 := big_sigma0 a + majority a b c in
      [w32 (t1 + t2); a; b; c; w32 (d + t1); e; f; g]
  | _ => st
  end.

Definition sha_block (st : list Z) (block : bytes) : list Z :=
  let w := rev (schedule 48 (rev (map be_word (groups 16 4 block)))) in
  zip_with (fun x y => w32 (x + y)) st (fold_left sha_round (zip round_constants w) st).

(** [hashlib.sha256(m).digest()] *)
Definition sha256 (m : bytes) : bytes :=
  let padded := sha_pad m in
  flat_map (be_bytes 4) (fold_left sha_block (groups (length padded) 64 padded) initial_words).

(** [hashlib.sha256(m).hexdigest()] *)
Definition sha256_hex (m : bytes) : pystr := bytes_hex (sha256 m).

Arguments sha256 : simpl never.
Arguments sha256_hex : simpl never.

(** ** The digest is 32 octets *)

Lemma be_bytes_length n x : length (be_bytes n x) = n.
Proof. revert x; induction n as [|n IH]; intros x; cbn; [done|]. rewrite length_app, IH. cbn. lia. Qed.

Lemma be_bytes_ok n x : bytes_ok (be_bytes n x).
Proof.
  revert x; induction n as [|n IH]; intros x; cbn; [constructor|].
  apply Forall_app_2; [apply IH|]. repeat constructor. unfold is_byte.
  pose proof (Z.mod_pos_bound x 256). zbool. lia.
Qed.

Lemma sha_round_length st kw : length (sha_round st kw) = length st.
Proof. unfold sha_round. do 9 (destruct st as [|? st]; [done|]). done. Qed.

Lemma sha_rounds_length kws st : length (fold_left sha_round kws st) = length st.
Proof.
  revert st; induction kws as [|kw kws IH]; intros st; cbn; [done|]. by rewrite IH, sha_round_length.
Qed.

Lemma sha_block_length st b : length (sha_block st b) = length st.
Proof.
  unfold sha_block. rewrite length_zip_with, sha_rounds_length. lia.
Qed.

Lemma sha_blocks_length bs st : length (fold_left sha_block bs st) = length st.
Proof.
  revert st; induction bs as [|b bs IH]; intros st; cbn [fold_left]; [done|].
  by rewrite IH, sha_block_length.
Qed.

Lemma flat_map_be_length ws : length (flat_map (be_bytes 4) ws) = (4 * length ws)%nat.
Proof.
  induction ws as [|w ws IH]; [done|]. cbn [flat_map length].
  rewrite length_app, be_bytes_length, IH. lia.
Qed.

Lemma sha256_length m : length (sha256 m) = 32%nat.
Proof. unfold sha256. by rewrite flat_map_be_length, sha_blocks_length. Qed.

Lemma sha256_ok m : bytes_ok (sha256 m).
Proof.
  unfold sha256. induction (fold_left _ _ _) as [|w ws IH]; cbn [flat_map]; [constructor|].
  apply Forall_app_2; [apply be_bytes_ok|done].
Qed.

Lemma sha256_hex_lower m : is_lower_hex_n 64 (sha256_hex m) = true.
Proof.
  unfold is_lower_hex_n, sha256_hex. rewrite bytes_hex_length, sha256_length.
  cbn. apply bytes_hex_lower, sha256_ok.
Qed.

(** Equal digests in hexadecimal are equal digests. *)
Lemma sha256_hex_inj m m' : sha256_hex m = sha256_hex m' -> sha256 m = sha256 m'.
Proof.
  intros H%(f_equal bytes_fromhex). unfold sha256_hex in H.
  rewrite !bytes_fromhex_hex in H by apply sha256_ok. by injection H.
Qed.
