(* ===== verification/Timestamp.v ===== *)
(** RFC 3339 UTC timestamps: the regular expressions of the sources and
    [datetime.fromisoformat] (CPython 3.11, C implementation) on what they match. *)

From S2P Require Import Prelude.
From S2P Require Import PyText.

(** ** [\d] on a [str] pattern: any Unicode decimal digit *)

(** The code points of the zeros of the 66 runs of ten digits (Unicode 14.0). *)
Definition digit_zeros : list Z :=
  [ 48; 1632; 1776; 1984; 2406; 2534; 2662; 2790; 2918; 3046; 3174;
    3302; 3430; 3558; 3664; 3792; 3872; 4160; 4240; 6112; 6160; 6470;
    6608; 6784; 6800; 6992; 7088; 7232; 7248; 42528; 43216; 43264; 43472;
    43504; 43600; 44016; 65296; 66720; 68912; 69734; 69872; 69942; 70096; 70384;
    70736; 70864; 71248; 71360; 71472; 71904; 72016; 72784; 73040; 73120; 92768;
    92864; 93008; 120782; 120792; 120802; 120812; 120822; 123200; 123632; 125264; 130032 ].

Definition is_unicode_digit (c : Z) : bool :=
  existsb (fun z => (z <=? c) && (c <=? z + 9)) digit_zeros.

(** ** The regular expressions *)

(** The digit groups of a match: [frac] is the run after the point, if any. *)
Record ts_match := TsMatch {
  ts_year : pystr; ts_month : pystr; ts_day : pystr;
  ts_hour : pystr; ts_minute : pystr; ts_second : pystr;
  ts_frac : option pystr
}.

(** [(?:\.\d{1,max})?Z], or [\d+] with no maximum, up to the end. *)
Definition match_tail (max : option nat) (s : pystr) : option (option pystr) :=
  match s with
  | [c] => if c =? 90 then Some None else None
  | c :: r =>
      let ds := removelast r in
      if (c =? 46) && (List.last r 0 =? 90) && negb (Nat.eqb (length ds) 0)
         && forallb is_unicode_digit ds
         && match max with None => true | Some n => Nat.leb (length ds) n end
      then Some (Some ds) else None
  | [] => None
  end.

(** [\d{4}-\d{2}-\d{2}T\d{2}:\d{2}:\d{2}(?:\.\d+)?Z], [fullmatch]. *)
Definition match_timestamp (max : option nat) (s : pystr) : option ts_match :=
  match s with
  | y1 :: y2 :: y3 :: y4 :: c1 :: m1 :: m2 :: c2 :: d1 :: d2 :: t
      :: h1 :: h2 :: c3 :: n1 :: n2 :: c4 :: s1 :: s2 :: tail =>
      if forallb is_unicode_digit [y1; y2; y3; y4; m1; m2; d1; d2; h1; h2; n1; n2; s1; s2]
         && (c1 =? 45) && (c2 =? 45) && (t =? 84) && (c3 =? 58) && (c4 =? 58)
      then
        f ← match_tail max tail;
        Some (TsMatch [y1; y2; y3; y4] [m1; m2] [d1; d2] [h1; h2] [n1; n2] [s1; s2] f)
      else None
  | _ => None
  end.

(** ** [datetime] *)

(** An aware [datetime]; the offset is in minutes. *)
Record datetime := Datetime {
  dt_year : Z; dt_month : Z; dt_day : Z;
  dt_hour : Z; dt_minute : Z; dt_second : Z; dt_micro : Z;
  dt_offset : Z
}.

Definition is_leap (y : Z) : bool :=
  (y mod 4 =? 0) && (negb (y mod 100 =? 0) || (y mod 400 =? 0)).

Definition days_in_month (y m : Z) : Z :=
  if m =? 2 then (if is_leap y then 29 else 28)
  else if (m =? 4) || (m =? 6) || (m =? 9) || (m =? 11) then 30 else 31.

Definition date_ok (y m d : Z) : bool :=
  (1 <=? y) && (y <=? 9999) && (1 <=? m) && (m <=? 12) && (1 <=? d) && (d <=? days_in_month y m).

Definition time_ok (h n s : Z) : bool :=
  (0 <=? h) && (h <=? 23) && (0 <=? n) && (n <=? 59) && (0 <=? s) && (s <=? 59).

(** [parse_digits]: ASCII digits only. *)
Definition ascii_number (s : pystr) : option Z :=
  if forallb is_digit s then Some (dec_value s) else None.

(** The microseconds of the fraction: its first six digits, which must be ASCII;
    the C parser never looks at the digits after them. *)
Definition parse_micro (frac : option pystr) : option Z :=
  match frac with
  | None => Some 0
  | Some ds =>
      let used := take 6 ds in
      v ← ascii_number used; Some (v * 10 ^ (6 - Z.of_nat (length used)))
  end.

(** [datetime.fromisoformat(text[:-1] + "+00:00")] for a matched [text];
    [None] is [ValueError]. *)
Definition fromisoformat_utc (m : ts_match) : option datetime :=
  y ← ascii_number (ts_year m); mo ← ascii_number (ts_month m); d ← ascii_number (ts_day m);
  h ← ascii_number (ts_hour m); mi ← ascii_number (ts_minute m); s ← ascii_number (ts_second m);
  us ← parse_micro (ts_frac m);
  if date_ok y mo d && time_ok h mi s then Some (Datetime y mo d h mi s us 0) else None.
