(* ===== verification/RecordFormat.v ===== *)
(** [forensics/_format.py]: the canonical record format of the forensic chain. *)

From S2P Require Import Prelude.
From S2P Require Import PyText.
From S2P Require Import Binary64.
From S2P Require Import PyValue.
From S2P Require Import JsonDumps.
From S2P Require Import Sha256.
From S2P Require Import Timestamp.

(** ** Errors *)

(** The reasons of [RecordFormatError], one constructor per message; the
    [field] or [path] is the one the message names. *)
Inductive format_error :=
| EventNotMapping
| EventKeysNotStrings
| EventMissingFields (fields : list pystr)
| EventUnknownFields (fields : list pystr)
| RecordNotObject
| RecordKeysNotStrings
| RecordMissingFields (fields : list pystr)
| MissingFormatVersion
| BadFormatVersion
| BadEventType
| NotNonemptyString (field : pystr)
| HasSurrogate (path : pystr)
| BadHash (field : pystr)
| BadTimestampForm
| BadTimestampValue
| TimestampNotUTC
| ConfidenceNotNumber
| ConfidenceOutOfRange
| BadCollectorSequence
| JsonIntRange (path : pystr)
| JsonNonFinite (path : pystr)
| JsonNonStringKey (path : pystr)
| JsonUnsupported (path type_name : pystr)
| BadSeq
| BadSignature
| NotEncodable (e : dumps_error)
| SurrogateInText.

(** What the functions raise: [RecordFormatError], or the [OverflowError] of
    [math.isfinite] on an integer beyond the range of binary64. *)
Inductive format_exn :=
| FormatError (e : format_error)
| FormatOverflow.

#[global] Instance dumps_error_eq_dec : EqDecision dumps_error.
Proof. solve_decision. Defined.
#[global] Instance format_error_eq_dec : EqDecision format_error.
Proof. solve_decision. Defined.
#[global] Instance format_exn_eq_dec : EqDecision format_exn.
Proof. solve_decision. Defined.

Notation fres := (res format_exn).
Definition fail {A} (e : format_error) : fres A := Err (FormatError e).

(** ** Constants *)

Definition GENESIS_PREV_HASH : pystr := repeat 48 64.

Definition V1_EVENT_FIELDS : list pystr :=
  [ u "ts_utc"; u "node_id"; u "raw_csi_hash"; u "features_hash"; u "model_id";
    u "model_config_hash"; u "class"; u "confidence"; u "top_shap" ].

Definition V2_COMMON_EVENT_FIELDS : list pystr :=
  [ u "format_version"; u "event_type"; u "ts_utc"; u "node_id"; u "raw_csi_hash" ].

Definition V2_INGESTION_EVENT_FIELDS : list pystr :=
  V2_COMMON_EVENT_FIELDS ++ [ u "collector_schema_version"; u "collector_sequence_number" ].

Definition V2_CLASSIFICATION_EVENT_FIELDS : list pystr :=
  V2_COMMON_EVENT_FIELDS ++
  [ u "features_hash"; u "model_id"; u "model_config_hash"; u "class"; u "confidence"; u "top_shap" ].

Definition MANAGED_FIELDS : list pystr :=
  [ u "seq"; u "prev_hash"; u "record_hash"; u "signature" ].

(** [sorted(fields)] of a set of names. *)
Definition sorted_names (l : list pystr) : list pystr := sort_by (fun x => x) l.

(** ** Canonical bytes and record hash *)

Definition canonical_json_bytes (value : pydict) : fres bytes :=
  serialized ← map_err (fun e => FormatError (NotEncodable e)) (dumps (to_dict value));
  match utf8_encode serialized with
  | Some b => Ok b
  | None => fail SurrogateInText
  end.

Definition unsigned_part (record : pydict) : pydict :=
  dfilter (fun key => negb (mem key [u "record_hash"; u "signature"])) record.

Definition hash_unsigned_record (record : pydict) : fres (bytes * pystr) :=
  record_bytes ← canonical_json_bytes (unsigned_part record);
  Ok (record_bytes, sha256_hex record_bytes).

(** ** Field checks *)

(** Python [value == n] for an integer [n]. *)
Definition eq_int (v : pyval) (n : Z) : bool :=
  match v with
  | PInt z => z =? n
  | PBool b => (if b then 1 else 0) =? n
  | PFloat f => SFeqb f (dec_to_float (n <? 0) (Z.abs n) 0)
  | _ => false
  end.

Definition _require_unicode_scalars (value path : pystr) : fres unit :=
  ensure (negb (existsb is_surrogate value)) (FormatError (HasSurrogate path)).

Definition _require_nonempty_string (value : pyval) (field : pystr) : fres unit :=
  match value with
  | PStr (c :: s) => _require_unicode_scalars (c :: s) field
  | _ => fail (NotNonemptyString field)
  end.

Definition _require_hash (value : pyval) (field : pystr) : fres unit :=
  match value with
  | PStr s => ensure (is_lower_hex_n 64 s) (FormatError (BadHash field))
  | _ => fail (BadHash field)
  end.

(** [path[index]], [path.key]. *)
Definition index_path (path : pystr) (i : Z) : pystr := path ++ u "[" ++ dec i ++ u "]".
Definition key_path (path key : pystr) : pystr := path ++ u "." ++ key.

Fixpoint _validate_json_value (value : pyval) (path : pystr) : fres unit :=
  match value with
  | PNone | PBool _ => Ok tt
  | PStr s => _require_unicode_scalars s path
  | PInt z => ensure ((- 2 ^ 63 <=? z) && (z <? 2 ^ 63)) (FormatError (JsonIntRange path))
  | PFloat f => ensure (is_finite f) (FormatError (JsonNonFinite path))
  | PList l =>
      (fix go (i : Z) (l : list pyval) : fres unit :=
         match l with
         | [] => Ok tt
         | x :: l => _ ← _validate_json_value x (index_path path i); go (i + 1) l
         end) 0 l
  | PDict d =>
      (fix go (d : list (pykey * pyval)) : fres unit :=
         match d with
         | [] => Ok tt
         | (KOther _, _) :: _ => fail (JsonNonStringKey path)
         | (KStr key, x) :: d =>
             _ ← _require_unicode_scalars key (path ++ u " object key");
             _ ← _validate_json_value x (key_path path key);
             go d
         end) d
  | POther type_name => fail (JsonUnsupported path type_name)
  end.

(** [math.isfinite(x)] and [0 <= x <= 1] for an [int] or a [float]; an [int]
    beyond binary64 makes [math.isfinite] raise [OverflowError]. *)
Definition float_zero : spec_float := S754_zero false.
Definition float_one : spec_float := S754_finite false 4503599627370496 (-52).

Definition check_confidence (v : pyval) : fres unit :=
  match v with
  | PInt z =>
      if is_finite (dec_to_float (z <? 0) (Z.abs z) 0)
      then ensure ((0 <=? z) && (z <=? 1)) (FormatError ConfidenceOutOfRange)
      else Err FormatOverflow
  | PFloat f =>
      ensure (is_finite f && SFleb float_zero f && SFleb f float_one)
        (FormatError ConfidenceOutOfRange)
  | _ => fail ConfidenceNotNumber
  end.

(** An [int] that is not a [bool], in [0, 2^63). *)
Definition is_seq_int (v : pyval) : bool :=
  match v with PInt z => (0 <=? z) && (z <? 2 ^ 63) | _ => false end.

(** ** Events *)

Definition record_format_version (record : pydict) : Z :=
  match dget (u "format_version") record with
  | Some v => if eq_int v 2 then 2 else 1
  | None => 1
  end.

(** An [int] that is not a [bool] and equals [n]; a [str] equal to [s]. *)
Definition is_int (v : pyval) (n : Z) : bool := match v with PInt z => z =? n | _ => false end.
Definition is_str (v : option pyval) (s : pystr) : bool :=
  match v with Some (PStr t) => bool_decide (t = s) | _ => false end.

Definition _event_fields (event : pydict) : fres (list pystr) :=
  match dget (u "format_version") event with
  | None =>
      if has_key (u "event_type") event then fail MissingFormatVersion else Ok V1_EVENT_FIELDS
  | Some version =>
      _ ← ensure (is_int version 2) (FormatError BadFormatVersion);
      let event_type := dget (u "event_type") event in
      if is_str event_type (u "ingestion_accepted")
      then Ok V2_INGESTION_EVENT_FIELDS
      else if is_str event_type (u "classification_decision")
      then Ok V2_CLASSIFICATION_EVENT_FIELDS
      else fail BadEventType
  end.

(** [d[k]] for a key whose presence was checked. *)
Definition item (d : pydict) (k : pystr) : pyval := default PNone (dget k d).

Definition check_ts_utc (timestamp : pyval) : fres unit :=
  match timestamp with
  | PStr s =>
      match match_timestamp None s with
      | None => fail BadTimestampForm
      | Some m =>
          match fromisoformat_utc m with
          | None => fail BadTimestampValue
          | Some parsed => ensure (dt_offset parsed =? 0) (FormatError TimestampNotUTC)
          end
      end
  | _ => fail BadTimestampForm
  end.

Definition _validate_event_values (event : pydict) : fres unit :=
  _ ← _event_fields event;
  _ ← _require_nonempty_string (item event (u "node_id")) (u "node_id");
  _ ← check_ts_utc (item event (u "ts_utc"));
  _ ← _require_hash (item event (u "raw_csi_hash")) (u "raw_csi_hash");
  if (record_format_version event =? 1)
     || is_str (dget (u "event_type") event) (u "classification_decision")
  then
    _ ← for_each (fun field => _require_nonempty_string (item event field) field)
          [u "model_id"; u "class"];
    _ ← for_each (fun field => _require_hash (item event field) field)
          [u "features_hash"; u "model_config_hash"];
    _ ← check_confidence (item event (u "confidence"));
    _validate_json_value (item event (u "top_shap")) (u "top_shap")
  else
    _ ← _require_nonempty_string (item event (u "collector_schema_version"))
          (u "collector_schema_version");
    ensure (is_seq_int (item event (u "collector_sequence_number")))
      (FormatError BadCollectorSequence).

(** The body of [validate_event] once the keys are known to be strings. *)
Definition validate_event_dict (event : pydict) : fres pydict :=
  expected ← _event_fields event;
  let missing := set_diff expected (keys event) in
  let unknown := set_diff (keys event) expected in
  _ ← ensure (bool_decide (missing = [])) (FormatError (EventMissingFields (sorted_names missing)));
  _ ← ensure (bool_decide (unknown = [])) (FormatError (EventUnknownFields (sorted_names unknown)));
  _ ← _validate_event_values event;
  Ok event.

Definition validate_event (event : pyval) : fres pydict :=
  match event with
  | PDict d =>
      match str_keys d with
      | None => fail EventKeysNotStrings
      | Some d => validate_event_dict d
      end
  | _ => fail EventNotMapping
  end.

(** ** Stored records *)

Definition event_part (record : pydict) : pydict :=
  dfilter (fun key => negb (mem key MANAGED_FIELDS)) record.

Definition is_signature (v : pyval) : bool :=
  match v with PStr s => is_lower_hex_n 128 s | _ => false end.

Definition validate_record_dict (record : pydict) : fres pydict :=
  let missing := set_diff MANAGED_FIELDS (keys record) in
  _ ← ensure (bool_decide (missing = [])) (FormatError (RecordMissingFields (sorted_names missing)));
  _ ← validate_event (to_dict (event_part record));
  _ ← ensure (is_seq_int (item record (u "seq"))) (FormatError BadSeq);
  _ ← _require_hash (item record (u "prev_hash")) (u "prev_hash");
  _ ← _require_hash (item record (u "record_hash")) (u "record_hash");
  _ ← ensure (is_signature (item record (u "signature"))) (FormatError BadSignature);
  Ok record.

Definition validate_stored_record (record : pyval) : fres pydict :=
  match record with
  | PDict d =>
      match str_keys d with
      | None => fail RecordKeysNotStrings
      | Some d => validate_record_dict d
      end
  | _ => fail RecordNotObject
  end.
