(* ===== verification/EventSpec.v ===== *)
(** The declarative reading of the record format: what an event of each kind
    and a stored record are, and that the validators of [RecordFormat] decide
    exactly that. *)

From S2P Require Import Prelude.
From S2P Require Import PyText.
From S2P Require Import Binary64.
From S2P Require Import PyValue.
From S2P Require Import JsonDumps.
From S2P Require Import Sha256.
From S2P Require Import Timestamp.
From S2P Require Import RecordFormat.

(** ** Fields *)

(** The text has no surrogate, so it has a UTF-8 encoding. *)
Definition scalars (s : pystr) : Prop := existsb is_surrogate s = false.

(** A field is present with a value that has the property. *)
Definition field (P : pyval -> Prop) (f : pystr) (d : pydict) : Prop :=
  exists v, dget f d = Some v /\ P v.

Definition text_value (v : pyval) : Prop := exists s, v = PStr s /\ s <> [] /\ scalars s.
Definition hash_value (v : pyval) : Prop := exists s, v = PStr s /\ is_lower_hex_n 64 s = true.
Definition signature_value (v : pyval) : Prop := exists s, v = PStr s /\ is_lower_hex_n 128 s = true.
Definition seq_value (v : pyval) : Prop := exists z, v = PInt z /\ 0 <= z < 2 ^ 63.
Definition utc_value (v : pyval) : Prop :=
  exists s m t, v = PStr s /\ match_timestamp None s = Some m /\ fromisoformat_utc m = Some t.

(** The integers 0 and 1, or a binary64 number of the interval. *)
Definition confidence_value (v : pyval) : Prop :=
  v = PInt 0 \/ v = PInt 1 \/
  exists f, v = PFloat f /\ is_finite f = true /\
    SFleb float_zero f = true /\ SFleb f float_one = true.

(** JSON data that every verifier can read: signed 64-bit integers, finite
    numbers, strings and keys of Unicode scalars. *)
Inductive json_value : pyval -> Prop :=
| json_none : json_value PNone
| json_bool b : json_value (PBool b)
| json_int z : - 2 ^ 63 <= z < 2 ^ 63 -> json_value (PInt z)
| json_float f : is_finite f = true -> json_value (PFloat f)
| json_str s : scalars s -> json_value (PStr s)
| json_list l : Forall json_value l -> json_value (PList l)
| json_dict (d : pydict) :
    Forall (fun kv => scalars kv.1 /\ json_value kv.2) d -> json_value (to_dict d).

(** ** Events *)

(** The three kinds of event: version 1, and the two of version 2. *)
Inductive event_kind := V1Event | V2Ingestion | V2Classification.

#[global] Instance event_kind_eq_dec : EqDecision event_kind.
Proof. solve_decision. Defined.

Definition kind_version (k : event_kind) : Z :=
  match k with V1Event => 1 | _ => 2 end.

Definition kind_fields (k : event_kind) : list pystr :=
  match k with
  | V1Event => V1_EVENT_FIELDS
  | V2Ingestion => V2_INGESTION_EVENT_FIELDS
  | V2Classification => V2_CLASSIFICATION_EVENT_FIELDS
  end.

Definition kind_tag (k : event_kind) (d : pydict) : Prop :=
  match k with
  | V1Event => dget (u "format_version") d = None /\ dget (u "event_type") d = None
  | V2Ingestion =>
      dget (u "format_version") d = Some (PInt 2) /\
      dget (u "event_type") d = Some (PStr (u "ingestion_accepted"))
  | V2Classification =>
      dget (u "format_version") d = Some (PInt 2) /\
      dget (u "event_type") d = Some (PStr (u "classification_decision"))
  end.

Definition kind_values (k : event_kind) (d : pydict) : Prop :=
  match k with
  | V2Ingestion =>
      field text_value (u "collector_schema_version") d /\
      field seq_value (u "collector_sequence_number") d
  | _ =>
      field text_value (u "model_id") d /\ field text_value (u "class") d /\
      field hash_value (u "features_hash") d /\ field hash_value (u "model_config_hash") d /\
      field confidence_value (u "confidence") d /\ field json_value (u "top_shap") d
  end.

Record event_spec (k : event_kind) (d : pydict) : Prop := EventSpec {
  spec_tag : kind_tag k d;
  spec_fields : forall f, f ∈ keys d <-> f ∈ kind_fields k;
  spec_node : field text_value (u "node_id") d;
  spec_time : field utc_value (u "ts_utc") d;
  spec_raw : field hash_value (u "raw_csi_hash") d;
  spec_values : kind_values k d
}.

(** A complete record: an event of some kind and the four managed fields. *)
Record record_spec (k : event_kind) (r : pydict) : Prop := RecordSpec {
  spec_event : event_spec k (event_part r);
  spec_seq : field seq_value (u "seq") r;
  spec_prev : field hash_value (u "prev_hash") r;
  spec_hash : field hash_value (u "record_hash") r;
  spec_sig : field signature_value (u "signature") r
}.

(** ** The field checks decide the field predicates *)

Lemma item_field (P : pyval -> Prop) f d : f ∈ keys d -> field P f d <-> P (item d f).
Proof.
  intros Hf. unfold field, item. destruct (dget f d) as [v|] eqn:E.
  - cbn. split; [intros (? & [= ->] & ?); done|eauto].
  - by apply dget_None in E.
Qed.

Lemma field_present (P : pyval -> Prop) f d : field P f d -> f ∈ keys d.
Proof.
  intros (v & Hv & _). apply dget_Some_elem in Hv. by apply (list_elem_of_fmap_2 fst) in Hv.
Qed.

Lemma require_scalars_Ok s p : _require_unicode_scalars s p = Ok tt <-> scalars s.
Proof. unfold _require_unicode_scalars, scalars. rewrite ensure_Ok, negb_true_iff. done. Qed.

Lemma require_text_Ok v p : _require_nonempty_string v p = Ok tt <-> text_value v.
Proof.
  unfold text_value. destruct v as [| | | |[|c s]| | |]; cbn;
    try (split; [done|]; intros (? & [= <-] & ? & ?); done).
  rewrite require_scalars_Ok. split; [eauto|]. by intros (? & [= <-] & _ & ?).
Qed.

Lemma require_hash_Ok v p : _require_hash v p = Ok tt <-> hash_value v.
Proof.
  unfold hash_value. destruct v; cbn; try (split; [done|]; intros (? & [=] & ?)).
  rewrite ensure_Ok. split; [eauto|]. by intros (? & [= <-] & ?).
Qed.

Lemma is_signature_true v : is_signature v = true <-> signature_value v.
Proof.
  unfold signature_value. destruct v; cbn; try (split; [done|]; intros (? & [=] & ?)).
  split; [eauto|]. by intros (? & [= <-] & ?).
Qed.

Lemma is_seq_int_true v : is_seq_int v = true <-> seq_value v.
Proof.
  unfold seq_value. destruct v; cbn -[Z.pow]; try (split; [done|]; intros (? & [=] & ?)).
  zbool. split; [eauto|]. by intros (? & [= <-] & ?).
Qed.

Lemma fromisoformat_utc_offset m t : fromisoformat_utc m = Some t -> dt_offset t = 0.
Proof.
  unfold fromisoformat_utc. intros H. repeat (apply bind_Some in H as (? & _ & H)).
  destruct (_ && _); [|done]. by injection H as <-.
Qed.

Lemma check_ts_utc_Ok v : check_ts_utc v = Ok tt <-> utc_value v.
Proof.
  unfold utc_value, check_ts_utc. destruct v; try (split; [done|]; intros (? & ? & ? & [=] & ?)).
  split.
  - destruct (match_timestamp None s) as [m|] eqn:Em; [|done].
    destruct (fromisoformat_utc m) as [t|] eqn:Et; [|done]. eauto 6.
  - intros (? & m & t & [= <-] & -> & Ht). rewrite Ht. by rewrite (fromisoformat_utc_offset m t Ht).
Qed.

Lemma check_confidence_Ok v : check_confidence v = Ok tt <-> confidence_value v.
Proof.
  unfold confidence_value. destruct v; cbn [check_confidence];
    try (split; [done|]; intros [|[|(? & ? & _)]]; done).
  - split.
    + destruct (is_finite _); [|done]. intros H%ensure_Ok. zbool.
      assert (z = 0 \/ z = 1) as [-> | ->] by lia; auto.
    + intros [[= ->]|[[= ->]|(? & [=] & _)]]; vm_compute; done.
  - rewrite ensure_Ok. split.
    + intros H. zbool. right. right. naive_solver.
    + intros [?|[?|(? & [= <-] & -> & -> & ->)]]; done.
Qed.

(** ** [_validate_json_value] *)

Lemma json_value_list l : json_value (PList l) <-> Forall json_value l.
Proof. split; [by inversion 1|by constructor]. Qed.

Lemma json_value_dict (d : pydict) :
  json_value (to_dict d) <-> Forall (fun kv => scalars kv.1 /\ json_value kv.2) d.
Proof.
  split; [|by constructor]. inversion 1 as [| | | | | |d' Hd' Heq].
  apply (of_str_keys_inj d' d) in Heq. by subst.
Qed.

Lemma validate_json_value_Ok v : forall p, _validate_json_value v p = Ok tt <-> json_value v.
Proof.
  induction v as [|b|z|f|s|l IH|d IH|ty] using pyval_ind'; intros p; cbn [_validate_json_value].
  - split; [constructor|done].
  - split; [constructor|done].
  - rewrite ensure_Ok. split; [intros H; zbool; constructor; lia|].
    inversion 1; subst. zbool. lia.
  - rewrite ensure_Ok. split; [by constructor|]. by inversion 1.
  - rewrite require_scalars_Ok. split; [by constructor|]. by inversion 1.
  - rewrite json_value_list. generalize 0 as i. induction IH as [|x l Hx _ IH']; intros i.
    + split; [constructor|done].
    + rewrite Forall_cons, <- (IH' (i + 1)), <- (Hx (index_path p i)).
      destruct (_validate_json_value x _) as [[]|]; cbn; naive_solver.
  - induction IH as [|[[k|i] x] d Hx _ IH'].
    + split; [intros _; by apply (json_value_dict [])|done].
    + cbn in Hx. rewrite bind_Ok.
      split.
      * intros ([] & Hk & H). rewrite require_scalars_Ok in Hk.
        apply bind_Ok in H as ([] & H1 & H2). rewrite Hx in H1. rewrite IH' in H2.
        inversion H2 as [| | | | | |d' Hd']; subst.
        apply (json_value_dict ((k, x) :: d')). by constructor.
      * inversion 1 as [| | | | | |d' Hd' Heq]. destruct d' as [|[k' x'] d']; [done|].
        injection Heq as -> -> <-. apply Forall_cons in Hd' as [[??] Hd'].
        exists tt. rewrite require_scalars_Ok. split; [done|]. apply bind_Ok. exists tt.
        rewrite Hx, IH'. split; [done|]. by apply json_value_dict.
    + split; [done|]. inversion 1 as [| | | | | |d' Hd' Heq]. by destruct d' as [|[k' x'] d'].
  - split; [done|]. inversion 1.
Qed.
