(* ===== verification/RecordFacts.v ===== *)
(** The validators of [RecordFormat] decide the specifications of [EventSpec],
    and what they accept has a canonical encoding that reads back. *)

From S2P Require Import Prelude.
From S2P Require Import PyText.
From S2P Require Import Binary64.
From S2P Require Import PyValue.
From S2P Require Import JsonDumps.
From S2P Require Import JsonLoads.
From S2P Require Import JsonRoundTrip.
From S2P Require Import JsonLoadsFacts.
From S2P Require Import Sha256.
From S2P Require Import Timestamp.
From S2P Require Import RecordFormat.
From S2P Require Import EventSpec.

(** ** [_event_fields] and [record_format_version] *)

Lemma is_int_true v n : is_int v n = true <-> v = PInt n.
Proof. destruct v; cbn; try done. rewrite Z.eqb_eq. naive_solver. Qed.

Lemma is_str_true o s : is_str o s = true <-> o = Some (PStr s).
Proof. destruct o as [[]|]; cbn; try done. rewrite bool_decide_eq_true. naive_solver. Qed.

Lemma has_key_dget k d : has_key k d = false <-> dget k d = None.
Proof. unfold has_key. by destruct (dget k d). Qed.

(** The two event types and the version number are told apart. *)
Lemma kind_tag_fun k k' d : kind_tag k d -> kind_tag k' d -> k = k'.
Proof.
  destruct k, k'; cbn; try done; intros [H1 H2] [H3 H4]; rewrite H1 in H3; try done;
    rewrite H2 in H4; by vm_compute in H4.
Qed.

Lemma event_fields_Ok d F : _event_fields d = Ok F <-> exists k, kind_tag k d /\ F = kind_fields k.
Proof.
  unfold _event_fields. destruct (dget (u "format_version") d) as [v|] eqn:Ev.
  - split.
    + intros H. inv_ok. apply is_int_true in H0 as ->.
      destruct (is_str _ (u "ingestion_accepted")) eqn:E1.
      { apply is_str_true in E1. injection H as <-. by exists V2Ingestion. }
      destruct (is_str _ (u "classification_decision")) eqn:E2; [|done].
      apply is_str_true in E2. injection H as <-. by exists V2Classification.
    + intros ([] & Hk & ->); cbn in Hk; destruct Hk as [Hv Ht]; rewrite Ev in Hv; try done.
      * injection Hv as ->. cbn -[is_str]. by rewrite (proj2 (is_str_true _ _) Ht).
      * injection Hv as ->. cbn -[is_str]. rewrite (proj2 (is_str_true _ _) Ht), Ht. by vm_compute.
  - destruct (has_key (u "event_type") d) eqn:Et.
    + split; [done|]. intros ([] & Hk & ->); cbn in Hk; destruct Hk as [Hv Ht]; [|congruence..].
      apply has_key_dget in Ht. congruence.
    + apply has_key_dget in Et. split.
      * intros [= <-]. by exists V1Event.
      * intros ([] & Hk & ->); cbn in Hk; destruct Hk as [Hv _]; [done|congruence..].
Qed.

Lemma tag_version k d : kind_tag k d -> record_format_version d = kind_version k.
Proof. unfold record_format_version. by destruct k; intros [-> _]; vm_compute. Qed.

Lemma tag_is_classification k d : kind_tag k d ->
  (record_format_version d =? 1) || is_str (dget (u "event_type") d) (u "classification_decision")
  = match k with V2Ingestion => false | _ => true end.
Proof.
  intros Hk. rewrite (tag_version k d Hk). by destruct k; destruct Hk as [_ ->]; vm_compute.
Qed.

(** ** [validate_event] *)

(** Membership of a field name in a literal list, by computation. *)
Ltac in_fields := apply mem_spec; vm_compute; reflexivity.
Ltac not_in_fields := apply mem_false; vm_compute; reflexivity.

Lemma validate_values_Ok k d :
  kind_tag k d -> (forall f, f ∈ keys d <-> f ∈ kind_fields k) ->
  _validate_event_values d = Ok tt <->
  field text_value (u "node_id") d /\ field utc_value (u "ts_utc") d /\
  field hash_value (u "raw_csi_hash") d /\ kind_values k d.
Proof.
  intros Hk Hf. unfold _validate_event_values.
  rewrite (tag_is_classification k d Hk).
  assert (Hef : exists F, _event_fields d = Ok F) by (eexists; apply event_fields_Ok; eauto).
  destruct Hef as [F ->]. rewrite Ok_bind.
  assert (Hin : forall P f, f ∈ kind_fields k -> field P f d <-> P (item d f))
    by (intros P f ?; by apply item_field, Hf).
  rewrite !then_Ok, require_text_Ok, check_ts_utc_Ok, require_hash_Ok.
  rewrite !Hin by (destruct k; in_fields).
  destruct k; cbn [kind_values]; rewrite !Hin by in_fields; rewrite !then_Ok;
    rewrite ?for_each_Ok, ?ensure_Ok, ?is_seq_int_true, ?check_confidence_Ok,
      ?validate_json_value_Ok, ?require_text_Ok, ?Forall_cons, ?Forall_nil, ?require_text_Ok,
      ?require_hash_Ok; tauto.
Qed.

Lemma validate_event_dict_Ok d d' :
  validate_event_dict d = Ok d' <-> d' = d /\ exists k, event_spec k d.
Proof.
  unfold validate_event_dict. rewrite bind_Ok. setoid_rewrite then_Ok. setoid_rewrite then_Ok.
  setoid_rewrite then_Ok. setoid_rewrite ensure_Ok. setoid_rewrite bool_decide_eq_true.
  setoid_rewrite set_diff_nil. split.
  - intros (F & (k & Hk & ->)%event_fields_Ok & Hm & Hu & Hv & [= <-]). split; [done|]. exists k.
    assert (Hf : forall f, f ∈ keys d <-> f ∈ kind_fields k) by naive_solver.
    apply (validate_values_Ok k d) in Hv; [|done..]. constructor; tauto.
  - intros (-> & k & [Ht Hf Hn Hs Hr Hv]). exists (kind_fields k). split.
    { apply event_fields_Ok. eauto. }
    split; [intros ??; by apply Hf|]. split; [intros ??; by apply Hf|]. split; [|done].
    by apply (validate_values_Ok k d).
Qed.

Lemma validate_event_Ok v d : validate_event v = Ok d <-> v = to_dict d /\ exists k, event_spec k d.
Proof.
  unfold validate_event. split.
  - destruct v as [| | | | | |l|]; try done. destruct (str_keys l) as [d'|] eqn:E; [|done].
    intros [-> Hk]%validate_event_dict_Ok. apply str_keys_Some in E as ->. done.
  - intros [-> Hk]. cbn. rewrite str_keys_to_dict. by apply validate_event_dict_Ok.
Qed.

(** ** [validate_stored_record] *)

Lemma validate_record_dict_Ok r r' :
  validate_record_dict r = Ok r' <-> r' = r /\ exists k, record_spec k r.
Proof.
  unfold validate_record_dict. rewrite then_Ok, ensure_Ok, bool_decide_eq_true, set_diff_nil.
  split.
  - intros [Hm H]. apply bind_Ok in H as (e & [He%to_dict_inj (k & Hk)]%validate_event_Ok & H).
    subst e. rewrite !then_Ok, ensure_Ok, !require_hash_Ok, ensure_Ok, is_seq_int_true,
      is_signature_true in H. destruct H as (H1 & H2 & H3 & H4 & [= <-]).
    split; [done|]. exists k. constructor; [done|apply item_field..];
      try done; apply Hm; in_fields.
  - intros [-> (k & [He H1 H2 H3 H4])]. split.
    { intros f Hf. unfold MANAGED_FIELDS in Hf. rewrite !elem_of_cons, elem_of_nil in Hf.
      destruct_or!; subst; try done; by eapply field_present. }
    apply bind_Ok. exists (event_part r). split; [apply validate_event_Ok; eauto|].
    rewrite !then_Ok, ensure_Ok, !require_hash_Ok, ensure_Ok, is_seq_int_true, is_signature_true.
    rewrite <- !item_field by (by eapply field_present). done.
Qed.

Lemma validate_stored_record_Ok v r :
  validate_stored_record v = Ok r <-> v = to_dict r /\ exists k, record_spec k r.
Proof.
  unfold validate_stored_record. split.
  - destruct v as [| | | | | |l|]; try done. destruct (str_keys l) as [d'|] eqn:E; [|done].
    intros [-> Hk]%validate_record_dict_Ok. apply str_keys_Some in E as ->. done.
  - intros [-> Hk]. cbn. rewrite str_keys_to_dict. by apply validate_record_dict_Ok.
Qed.
