(* ===== verification/CanonicalBytes.v ===== *)
(** [canonical_json_bytes] on validated data: it never raises, its bytes hold
    no line feed, and [json.loads] of them is the value in key order. *)

From stdpp Require Import sorting.
From S2P Require Import Prelude.
From S2P Require Import PyText.
From S2P Require Import Binary64.
From S2P Require Import PyValue.
From S2P Require Import JsonDumps.
From S2P Require Import JsonLoads.
From S2P Require Import JsonRoundTrip.
From S2P Require Import JsonLoadsFacts.
From S2P Require Import Sha256.
From S2P Require Import Timestamp.
From S2P Require Import RecordFormat.
From S2P Require Import EventSpec.
From S2P Require Import RecordFacts.

(** ** Lengths of decimal texts *)

Lemma dumps_int_small z : - 2 ^ 64 < z < 2 ^ 64 -> dumps_int z = Ok (dec z).
Proof.
  intros Hz. unfold dumps_int. destruct (Nat.leb_spec (length (dec_nat (Z.abs z))) max_str_digits) as [|Hl];
    [done|]. exfalso. unfold dec_nat in Hl. rewrite length_map in Hl.
  destruct (Z.eq_dec z 0) as [->|Hne]; [vm_compute in Hl; lia|].
  assert (length (digits (Z.abs z)) <= 20)%nat.
  { apply digits_length_bound. assert (2 ^ 64 < 10 ^ Z.of_nat 20) by done. lia. }
  unfold max_str_digits in Hl. lia.
Qed.

(** ** Texts without surrogates *)

Lemma scalars_app a b : scalars (a ++ b) <-> scalars a /\ scalars b.
Proof. unfold scalars. by rewrite existsb_app, orb_false_iff. Qed.

Lemma scalars_cons c s : scalars (c :: s) <-> is_surrogate c = false /\ scalars s.
Proof. unfold scalars. cbn. by rewrite orb_false_iff. Qed.

Lemma scalars_ascii s : Forall (fun c => c < 0x80) s -> scalars s.
Proof.
  induction 1 as [|c s Hc _ IH]; [done|]. apply scalars_cons. split; [|done].
  unfold is_surrogate. zbool. lia.
Qed.

Lemma scalars_digits s : all_digits s -> scalars s.
Proof.
  intros Hs. apply scalars_ascii. eapply Forall_impl; [exact Hs|]. intros c Hc%digit_range. lia.
Qed.

Lemma scalars_token t : token_ok t -> scalars (token_text t).
Proof.
  intros (Hi & Hf & Hx). unfold token_text. rewrite !scalars_app. repeat split.
  - by destruct (nt_neg t).
  - apply scalars_digits. destruct Hi as [->|(c & ds & -> & Hc & Hds)]; [by repeat constructor|].
    constructor; [unfold is_digit; zbool; lia|exact Hds].
  - destruct (nt_frac t) as [f|]; [|done]. apply scalars_cons. split; [done|].
    apply scalars_digits. by apply Hf.
  - destruct (nt_exp t) as [[sg ds]|]; [|done]. apply scalars_cons. split; [done|].
    apply scalars_app. split; [by destruct sg as [[]|]|].
    apply scalars_digits. by eapply Hx.
Qed.

Lemma hex_digit_scalar n : 0 <= n < 16 -> is_surrogate (hex_digit n) = false.
Proof. intros Hn. unfold hex_digit, is_surrogate. destruct (n <? 10) eqn:E; zbool; lia. Qed.

Lemma scalars_quote s : str_ok s -> scalars s -> scalars (quote s).
Proof.
  intros Hok Hs. unfold quote. apply scalars_cons. split; [done|]. apply scalars_app.
  split; [|done]. induction Hok as [|c s Hc _ IH]; [done|].
  apply scalars_cons in Hs as [Hcs Hs]. cbn. apply scalars_app. split; [|auto].
  unfold esc_char. do 7 (case_match; [done|]). destruct (Z.ltb_spec c 32).
  - unfold is_codepoint in Hc. zbool.
    assert (0 <= c / 16 < 16) by (split; [apply Z.div_pos|apply Z.div_lt_upper_bound]; lia).
    pose proof (Z.mod_pos_bound c 16 ltac:(lia)).
    rewrite !scalars_cons. by rewrite !hex_digit_scalar by lia.
  - apply scalars_cons. done.
Qed.

Lemma scalars_join ts : Forall scalars ts -> scalars (join_comma ts).
Proof.
  induction 1 as [|t [|t' ts] Ht _ IH]; [done..|].
  change (join_comma (t :: t' :: ts)) with (t ++ 44 :: join_comma (t' :: ts)).
  apply scalars_app. split; [done|]. by apply scalars_cons.
Qed.

(** ** Every JSON value has a canonical text *)

Definition texts_ok {A} (f : A -> res dumps_error pystr) (l : list A) : Prop :=
  exists ts, sequence (map f l) = Ok ts /\ Forall scalars ts.

Lemma texts_ok_forall {A} (f : A -> res dumps_error pystr) l :
  Forall (fun x => exists t, f x = Ok t /\ scalars t) l -> texts_ok f l.
Proof.
  unfold texts_ok. induction 1 as [|x l (t & Ht & Hs) _ (ts & Hts & Hss)]; [by exists []|].
  exists (t :: ts). cbn. rewrite Ht, Hts. split; [done|by constructor].
Qed.

Lemma dumps_total v : wf_val v = true -> json_value v -> exists t, dumps v = Ok t /\ scalars t.
Proof.
  induction v as [|b|z|f|s|l IH|d IH|ty] using pyval_ind'; intros Hwf Hv.
  - by eexists.
  - by destruct b; eexists.
  - inversion_clear Hv. cbn [dumps]. rewrite dumps_int_small by lia. eexists; split; [done|].
    rewrite <- int_token_text. apply scalars_token, int_token_ok.
  - inversion_clear Hv. cbn in Hwf. destruct (float_token f Hwf) as (tk & Htk & Hok & _); [done|].
    cbn. rewrite H. eexists; split; [done|]. rewrite Htk. by apply scalars_token.
  - inversion_clear Hv. eexists; split; [done|]. apply scalars_quote; [by apply str_okb_spec|done].
  - apply json_value_list in Hv. cbn in Hwf |- *.
    destruct (texts_ok_forall dumps l) as (ts & -> & Hts).
    { rewrite forallb_forall in Hwf. rewrite Forall_forall in IH, Hv |- *.
      intros x Hx. apply IH; [done| |auto]. apply Hwf. by apply list_elem_of_In. }
    eexists; split; [done|]. apply scalars_cons. split; [done|]. apply scalars_app.
    split; [by apply scalars_join|done].
  - inversion Hv as [| | | | | |d' Hd' Heq]. subst d. change (map _ d') with (of_str_keys d') in *.
    apply wf_val_dict in Hwf as [_ Hwf]. rewrite dumps_dict, (proj2 (str_keys_Some _ d') eq_refl).
    unfold of_str_keys in IH. apply Forall_map in IH. cbn in IH.
    destruct (texts_ok_forall (fun kv => member_text (kv.1, dumps kv.2)) (sort_by fst d'))
      as (ts & -> & Hts).
    { rewrite (sort_by_perm fst d'). rewrite Forall_forall in Hwf, IH, Hd' |- *.
      intros kv Hkv. destruct (Hwf kv Hkv) as [Hk Hw]. destruct (Hd' kv Hkv) as [Hks Hj].
      destruct (IH kv Hkv Hw Hj) as (t & Ht & Hs). unfold member_text. cbn. rewrite Ht.
      eexists; split; [done|]. apply (scalars_app (quote kv.1)).
      split; [by apply scalars_quote|]. by apply scalars_cons. }
    eexists; split; [done|]. apply scalars_cons. split; [done|]. apply scalars_app.
    split; [by apply scalars_join|done].
  - inversion Hv.
Qed.

Definition wf_dict (d : pydict) : Prop := wf_val (to_dict d) = true.

Lemma canonical_bytes_total d :
  wf_dict d -> json_value (to_dict d) -> exists b, canonical_json_bytes d = Ok b.
Proof.
  intros Hwf Hj. destruct (dumps_total _ Hwf Hj) as (t & Ht & Hs).
  unfold canonical_json_bytes. rewrite Ht. cbn. unfold utf8_encode. rewrite Hs. eauto.
Qed.

(** ** Key order: the dictionary that reading gives back *)

(** The members in key order, the dictionaries inside them too. *)
Definition norm_pydict (d : pydict) : pydict := map_snd norm (sort_by fst d).

Lemma norm_to_dict d : norm (to_dict d) = to_dict (norm_pydict d).
Proof. apply norm_dict. Qed.

Lemma wf_dict_spec d :
  wf_dict d <-> NoDup (keys d) /\ Forall (fun kv => str_ok kv.1 /\ wf_val kv.2 = true) d.
Proof. apply wf_val_dict. Qed.

Lemma wf_norm_pydict d : wf_dict d -> wf_dict (norm_pydict d).
Proof. unfold wf_dict. rewrite <- norm_to_dict. apply wf_norm. Qed.

Lemma keys_norm_pydict d : keys (norm_pydict d) ≡ₚ keys d.
Proof. unfold keys, norm_pydict. rewrite map_snd_fst. by rewrite sort_by_perm. Qed.

Lemma dget_map_snd f k d : dget k (map_snd f d) = f <$> dget k d.
Proof.
  unfold map_snd. induction d as [|[k' v] d IH]; cbn; [done|]. by case_bool_decide.
Qed.

Lemma dget_norm_pydict k d : NoDup (keys d) -> dget k (norm_pydict d) = norm <$> dget k d.
Proof.
  intros Hnd. unfold norm_pydict. rewrite dget_map_snd. f_equal. symmetry.
  apply dget_perm; [done|]. by rewrite sort_by_perm.
Qed.

Lemma dfilter_map_snd p f d : dfilter p (map_snd f d) = map_snd f (dfilter p d).
Proof.
  unfold dfilter, map_snd. induction d as [|[k v] d IH]; cbn; [done|].
  destruct (p k); cbn; by rewrite IH.
Qed.

Lemma filter_strongly_sorted {A} (R : relation A) (p : A -> bool) l :
  StronglySorted R l -> StronglySorted R (List.filter p l).
Proof.
  induction 1 as [|x l Hs IH Hf]; cbn; [constructor|]. destruct (p x); [|done].
  constructor; [done|]. rewrite Forall_forall in Hf |- *. intros y [Hy _]%elem_of_lfilter. auto.
Qed.

#[export] Instance lfilter_perm {A} (p : A -> bool) : Proper ((≡ₚ) ==> (≡ₚ)) (List.filter p).
Proof.
  intros l l'. induction 1 as [|x l l' _ IH|x y l|]; cbn; [done| | |by etrans].
  - destruct (p x); [by rewrite IH|done].
  - destruct (p x), (p y); try done. apply Permutation_swap.
Qed.

Lemma dfilter_norm_pydict p d :
  NoDup (keys d) -> dfilter p (norm_pydict d) = norm_pydict (dfilter p d).
Proof.
  intros Hnd. unfold norm_pydict. rewrite dfilter_map_snd. f_equal. unfold dfilter.
  apply (sorted_perm_eq fst).
  - change (map fst) with keys. change (List.filter _ ?l) with (dfilter p l).
    apply dfilter_nodup. unfold keys. by rewrite sort_by_perm.
  - by rewrite !sort_by_perm.
  - apply filter_strongly_sorted, sort_by_sorted.
  - apply sort_by_sorted.
Qed.

Lemma wf_dict_dfilter p d : wf_dict d -> wf_dict (dfilter p d).
Proof.
  rewrite !wf_dict_spec. intros [Hnd Hf]. split; [by apply dfilter_nodup|].
  rewrite Forall_forall in Hf |- *. intros kv [Hkv _]%elem_of_lfilter. auto.
Qed.

(** ** The bytes *)

Lemma utf8_encode_Some s b : utf8_encode s = Some b -> b = flat_map utf8_char s.
Proof. unfold utf8_encode. destruct (existsb _ s); [done|]. by intros [= <-]. Qed.

(** Everything the chain store needs of the bytes of a record. *)
Record canonical_bytes_facts (d : pydict) (b : bytes) : Prop := CanonicalBytesFacts {
  cb_bytes : bytes_ok b;
  cb_visible : Forall (fun x => 32 <= x) b;
  cb_nonempty : b <> [];
  cb_loads : loads_bytes b = Ok (to_dict (norm_pydict d));
  cb_norm : canonical_json_bytes (norm_pydict d) = Ok b
}.

Lemma dumps_dict_head d t : dumps (to_dict d) = Ok t -> exists t', t = 123 :: t'.
Proof.
  unfold to_dict. rewrite dumps_dict. destruct (str_keys _); [|done]. intros H. inv_ok. eauto.
Qed.

Lemma canonical_bytes d b : wf_dict d -> canonical_json_bytes d = Ok b -> canonical_bytes_facts d b.
Proof.
  intros Hwf Hb. unfold canonical_json_bytes in Hb. inv_ok. rename x into t, H into Ht.
  destruct (utf8_encode t) as [b'|] eqn:Eb; [|done]. injection Hb as ->.
  pose proof (dumps_printable _ Hwf t Ht) as Hp.
  assert (Hok : str_ok t) by (eapply Forall_impl; [exact Hp|by intros ? []]).
  destruct (utf8_encode_ge32 t b Hp Eb) as [Hvis Hbytes].
  destruct (dumps_dict_head d t Ht) as [t' ->].
  assert (Hhd : exists b', b = 123 :: b').
  { apply utf8_encode_Some in Eb. cbn in Eb. eauto. }
  destruct Hhd as [b' ->]. apply Forall_cons in Hvis as [Hv0 Hvis].
  constructor.
  - done.
  - by constructor.
  - done.
  - unfold loads_bytes. rewrite decode_detected_object by done.
    rewrite (utf8_decode_encode true _ _ Hok Eb). rewrite <- norm_to_dict.
    by apply decode_dumps.
  - unfold canonical_json_bytes. rewrite <- norm_to_dict, (dumps_norm _ _ Ht). cbn [map_err].
    rewrite Ok_bind. by rewrite Eb.
Qed.

(** Equal bytes come from the same record up to key order. *)
Lemma canonical_bytes_inj d d' b :
  wf_dict d -> wf_dict d' -> canonical_json_bytes d = Ok b -> canonical_json_bytes d' = Ok b ->
  norm_pydict d = norm_pydict d'.
Proof.
  intros Hwf Hwf' H H'. apply canonical_bytes in H, H'; [|done..].
  pose proof (cb_loads _ _ H) as E. rewrite (cb_loads _ _ H') in E.
  injection E as E. symmetry. by apply of_str_keys_inj.
Qed.
