(* ===== verification/RecordLaws.v ===== *)
(** Laws of validated records: they are JSON data, so they have canonical
    bytes; key order does not matter; and the record that [log_event] builds
    from an event is a valid record whose signed part is the unsigned record. *)

From S2P Require Import Prelude.
From S2P Require Import PyText.
From S2P Require Import Binary64.
From S2P Require Import PyValue.
From S2P Require Import JsonDumps.
From S2P Require Import JsonLoads.
From S2P Require Import Sha256.
From S2P Require Import Timestamp.
From S2P Require Import RecordFormat.
From S2P Require Import EventSpec.
From S2P Require Import RecordFacts.
From S2P Require Import CanonicalBytes.

(** ** The field values are JSON data *)

Lemma text_json v : text_value v -> json_value v.
Proof. intros (s & -> & _ & ?). by constructor. Qed.

Lemma hex_scalars n s : is_lower_hex_n n s = true -> scalars s.
Proof.
  unfold is_lower_hex_n. intros H. zbool. destruct H as [_ H]. rewrite forallb_forall in H.
  apply scalars_ascii. rewrite Forall_forall. intros c Hc%list_elem_of_In%H.
  unfold is_lower_hex, is_digit in Hc. zbool. lia.
Qed.

Lemma hex_str_ok n s : is_lower_hex_n n s = true -> str_ok s.
Proof.
  unfold is_lower_hex_n. intros H. zbool. destruct H as [_ H]. rewrite forallb_forall in H.
  unfold str_ok. rewrite Forall_forall. intros c Hc%list_elem_of_In%H.
  unfold is_lower_hex, is_digit, is_codepoint in *. zbool. lia.
Qed.

Lemma hash_json v : hash_value v -> json_value v.
Proof. intros (s & -> & Hs). constructor. by eapply hex_scalars. Qed.

Lemma signature_json v : signature_value v -> json_value v.
Proof. intros (s & -> & Hs). constructor. by eapply hex_scalars. Qed.

Lemma seq_json v : seq_value v -> json_value v.
Proof. intros (z & -> & ?). constructor. lia. Qed.

Lemma confidence_json v : confidence_value v -> json_value v.
Proof. intros [->|[->|(f & -> & Hf & _)]]; by constructor. Qed.

Lemma unicode_digit_scalar c : is_unicode_digit c = true -> is_surrogate c = false.
Proof.
  unfold is_unicode_digit. rewrite existsb_exists. intros (z & Hz & Hc). zbool.
  assert (Hall : forallb (fun z => (z + 9 <? 0xD800) || (0xDFFF <? z)) digit_zeros = true) by done.
  rewrite forallb_forall in Hall. specialize (Hall z Hz). unfold is_surrogate. zbool. lia.
Qed.

Lemma forallb_digits_scalars s : forallb is_unicode_digit s = true -> scalars s.
Proof.
  rewrite forallb_forall. intros H. unfold scalars. apply not_true_iff_false.
  rewrite existsb_exists. intros (c & Hc & Hs). rewrite (unicode_digit_scalar c (H c Hc)) in Hs. done.
Qed.

Lemma match_tail_scalars s f : match_tail None s = Some f -> scalars s.
Proof.
  unfold match_tail. destruct s as [|c [|c' r]]; [done| |].
  - destruct (Z.eqb_spec c 90); [by subst|done].
  - destruct (_ && _) eqn:E; [|done]. intros _. rewrite !andb_true_iff in E.
    destruct E as ((((Hc & Hl) & _) & Hd) & _). apply Z.eqb_eq in Hc, Hl. subst c.
    apply scalars_cons. split; [done|].
    rewrite (app_removelast_last 0 (l := c' :: r)) by done. rewrite Hl.
    apply scalars_app. split; [by apply forallb_digits_scalars|done].
Qed.

Lemma timestamp_scalars s m : match_timestamp None s = Some m -> scalars s.
Proof.
  unfold match_timestamp. do 19 (destruct s as [|? s]; [done|]).
  destruct (_ && _) eqn:E; [|done]. intros Hf. apply bind_Some in Hf as (f & Hf & _).
  apply match_tail_scalars in Hf. rewrite !andb_true_iff in E.
  destruct E as (((((Hd & H1) & H2) & H3) & H4) & H5). zbool. subst.
  cbn [forallb] in Hd. rewrite !andb_true_iff in Hd. destruct_and! Hd.
  rewrite !scalars_cons. by repeat split; try apply unicode_digit_scalar.
Qed.

Lemma utc_json v : utc_value v -> json_value v.
Proof. intros (s & m & t & -> & Hm & _). constructor. by eapply timestamp_scalars. Qed.

#[export] Hint Resolve text_json hash_json signature_json seq_json confidence_json utc_json : py.

(** ** The whole event and the whole record *)

Lemma field_json (P : pyval -> Prop) f d v :
  dget f d = Some v -> field P f d -> (forall w, P w -> json_value w) -> json_value v.
Proof. intros Hv (w & Hw & H) HP. rewrite Hw in Hv. injection Hv as <-. auto. Qed.

Lemma kind_value_json k d f v :
  event_spec k d -> dget f d = Some v -> f ∈ kind_fields k -> json_value v.
Proof.
  intros [Ht _ Hn Hs Hr Hv] Hf Hin.
  assert (Hin' : exists i, nth_error (kind_fields k) i = Some f)
    by (apply In_nth_error, list_elem_of_In; done).
  destruct Hin' as [i Hi]. clear Hin.
  destruct k; cbn [kind_tag kind_values] in Ht, Hv; destruct_and?;
    do 12 (destruct i as [|i]; [cbn in Hi; first [discriminate Hi|injection Hi as <-];
      first [ by simplify_eq; constructor
            | by eapply (field_json _ _ _ _ Hf); [eassumption|auto with py] ]|]);
    destruct i; discriminate Hi.
Qed.

Lemma kind_fields_scalars k f : f ∈ kind_fields k -> scalars f.
Proof.
  assert (H : forallb (fun f => negb (existsb is_surrogate f)) (kind_fields k) = true) by (by destruct k).
  rewrite forallb_forall in H. intros Hf%list_elem_of_In%H. by apply negb_true_iff in Hf.
Qed.

Lemma event_json k d : NoDup (keys d) -> event_spec k d ->
  Forall (fun kv => scalars kv.1 /\ json_value kv.2) d.
Proof.
  intros Hnd Hs. rewrite Forall_forall. intros [f v] Hin. cbn.
  assert (Hf : f ∈ kind_fields k)
    by (apply (spec_fields _ _ Hs); by apply (list_elem_of_fmap_2 fst) in Hin).
  split; [by eapply kind_fields_scalars|]. eapply kind_value_json; [done| |done]. by apply elem_dget.
Qed.

Lemma managed_false f :
  mem f MANAGED_FIELDS = false <->
  f <> u "seq" /\ f <> u "prev_hash" /\ f <> u "record_hash" /\ f <> u "signature".
Proof.
  rewrite <- not_true_iff_false, mem_spec. unfold MANAGED_FIELDS.
  rewrite !not_elem_of_cons. pose proof (not_elem_of_nil f). tauto.
Qed.

Lemma record_json k r : NoDup (keys r) -> record_spec k r -> json_value (to_dict r).
Proof.
  intros Hnd [He H1 H2 H3 H4]. apply json_value_dict. rewrite Forall_forall. intros [f v] Hin.
  destruct (mem f MANAGED_FIELDS) eqn:Em.
  - apply elem_dget in Hin; [|done]. apply mem_spec in Em. unfold MANAGED_FIELDS in Em.
    rewrite !elem_of_cons, elem_of_nil in Em. cbn [fst snd].
    destruct_or! Em; try done; subst f; (split; [done|]);
      by eapply (field_json _ _ _ _ Hin); [eassumption|auto with py].
  - apply (event_json k _ (dfilter_nodup _ _ Hnd)) in He. rewrite Forall_forall in He.
    apply He. apply elem_of_lfilter. split; [done|]. cbn. by rewrite Em.
Qed.

(** ** Key order does not matter *)

Lemma norm_json v : json_value v -> json_value (norm v).
Proof.
  induction v as [|b|z|f|s|l IH|d IH|ty] using pyval_ind'; intros Hv; try exact Hv.
  - apply json_value_list in Hv. cbn. apply json_value_list, Forall_map.
    rewrite Forall_forall in IH, Hv |- *. cbn. auto.
  - inversion Hv as [| | | | | |d' Hd' Heq]. subst d. change (PDict _) with (to_dict d').
    rewrite norm_to_dict. apply json_value_dict. unfold norm_pydict.
    apply Forall_map. rewrite (sort_by_perm fst d'). apply Forall_map in IH.
    rewrite Forall_forall in IH, Hd' |- *. intros kv Hkv. cbn. destruct (Hd' kv Hkv).
    split; [done|]. by apply (IH kv Hkv).
Qed.

Lemma field_norm (P : pyval -> Prop) f d :
  NoDup (keys d) -> (forall v, P v -> P (norm v)) -> field P f d -> field P f (norm_pydict d).
Proof.
  intros Hnd HP (v & Hv & H). exists (norm v). rewrite dget_norm_pydict, Hv by done. auto.
Qed.

Lemma text_norm v : text_value v -> text_value (norm v).
Proof. by intros (s & -> & ?); exists s. Qed.
Lemma hash_norm v : hash_value v -> hash_value (norm v).
Proof. by intros (s & -> & ?); exists s. Qed.
Lemma signature_norm v : signature_value v -> signature_value (norm v).
Proof. by intros (s & -> & ?); exists s. Qed.
Lemma seq_norm v : seq_value v -> seq_value (norm v).
Proof. by intros (z & -> & ?); exists z. Qed.
Lemma confidence_norm v : confidence_value v -> confidence_value (norm v).
Proof. unfold confidence_value. by intros [->|[->|(f & -> & ?)]]; cbn; eauto 6. Qed.
Lemma utc_norm v : utc_value v -> utc_value (norm v).
Proof. by intros (s & m & t & -> & ?); exists s, m, t. Qed.

#[export] Hint Resolve text_norm hash_norm signature_norm seq_norm confidence_norm utc_norm
  norm_json field_norm : py.

Lemma event_spec_norm k d : NoDup (keys d) -> event_spec k d -> event_spec k (norm_pydict d).
Proof.
  intros Hnd [Ht Hf Hn Hs Hr Hv]. constructor; auto with py.
  - destruct k; destruct Ht as [Ht1 Ht2]; cbn [kind_tag];
      by rewrite !dget_norm_pydict, Ht1, Ht2 by done.
  - intros f. rewrite keys_norm_pydict. apply Hf.
  - destruct k; cbn [kind_values] in *; destruct_and?; auto 8 with py.
Qed.

Lemma record_spec_norm k r : NoDup (keys r) -> record_spec k r -> record_spec k (norm_pydict r).
Proof.
  intros Hnd [He H1 H2 H3 H4]. constructor; auto with py.
  unfold event_part. rewrite dfilter_norm_pydict by done.
  apply event_spec_norm; [by apply dfilter_nodup|done].
Qed.
