(* ===== verification/FloatCanonical.v ===== *)
(** [forensics/float_canonical.py] and the Python side of
    [forensics/check_float_canonicalization.py]: the canonical text of one
    binary64 number. *)

From S2P Require Import Prelude.
From S2P Require Import PyText.
From S2P Require Import Binary64.
From S2P Require Import PyValue.
From S2P Require Import JsonDumps.
From S2P Require Import JsonLoads.
From S2P Require Import JsonRoundTrip.

Inductive float_exn :=
| NotFloat         (* [TypeError] *)
| NotFinite        (* [ValueError] *)
| FloatDumps (e : dumps_error).

Definition canonicalize_float (value : pyval) : res float_exn pystr :=
  match value with
  | PFloat f =>
      _ ← ensure (is_finite f) NotFinite;
      map_err FloatDumps (dumps value)
  | _ => Err NotFloat
  end.

(** ** The vector check *)

(** Sign bit, 11 exponent bits, 52 fraction bits. *)
Definition float_of_bits (b : Z) : spec_float :=
  let sign := Z.testbit b 63 in
  let ex := Z.land (Z.shiftr b 52) 2047 in
  let frac := Z.land b (2 ^ 52 - 1) in
  if ex =? 2047 then (if frac =? 0 then S754_infinity sign else S754_nan)
  else if ex =? 0 then
    match frac with Zpos m => S754_finite sign m (-1074) | _ => S754_zero sign end
  else match frac + 2 ^ 52 with Zpos m => S754_finite sign m (ex - 1075) | _ => S754_nan end.

(** [struct.unpack(">d", b)[0]]: [struct.error] unless there are eight octets. *)
Definition unpack_double (b : bytes) : option spec_float :=
  if Nat.eqb (length b) 8 then Some (float_of_bits (fold_left (fun acc x => 256 * acc + x) b 0)) else None.

(** A vector: its [binary64_hex] and its [canonical] text, [None] for [null]. *)
Definition vector : Type := pystr * option pystr.

Definition REJECTED : pystr := u "<rejected>".

(** One line of [_python_lines]; [None] for an exception that is not caught. *)
Definition python_line (v : vector) : option pystr :=
  octets ← bytes_fromhex v.1;
  value ← unpack_double octets;
  rendered ← match canonicalize_float (PFloat value) with
             | Ok t => Some t
             | Err NotFinite => Some REJECTED
             | Err (FloatDumps DumpsValueError) => Some REJECTED
             | Err _ => None
             end;
  Some (v.1 ++ [9] ++ rendered).

Fixpoint _python_lines (vectors : list vector) : option (list pystr) :=
  match vectors with
  | [] => Some []
  | v :: vectors => l ← python_line v; ls ← _python_lines vectors; Some (l :: ls)
  end.

(** [vector['canonical'] or REJECTED]: an empty text counts as missing. *)
Definition _expected_lines (vectors : list vector) : list pystr :=
  map (fun v => v.1 ++ [9] ++ match v.2 with Some (c :: s) => c :: s | _ => REJECTED end) vectors.

(** ** Facts *)

Lemma canonicalize_Ok v t :
  canonicalize_float v = Ok t <-> exists f, v = PFloat f /\ is_finite f = true /\ t = float_repr f.
Proof.
  destruct v; cbn [canonicalize_float]; try (split; [done|]; intros (? & [=] & _)).
  rewrite then_Ok, ensure_Ok. cbn [dumps]. split.
  - intros [Hf H]. rewrite Hf in H. injection H as <-. eauto.
  - intros (g & [= <-] & Hf & ->). by rewrite Hf.
Qed.

Lemma float_bits_valid b : valid_float (float_of_bits b) = true.
Proof.
  unfold float_of_bits.
  set (frac := Z.land b (2 ^ 52 - 1)).
  set (ex := Z.land (Z.shiftr b 52) 2047).
  assert (Hf : 0 <= frac < 2 ^ 52).
  { unfold frac. change (2 ^ 52 - 1) with (Z.ones 52). rewrite Z.land_ones by done.
    by apply Z.mod_pos_bound. }
  assert (He : 0 <= ex < 2048).
  { unfold ex. change 2047 with (Z.ones 11). rewrite Z.land_ones by done.
    by apply Z.mod_pos_bound. }
  destruct (Z.eqb_spec ex 2047); [by destruct (_ =? 0)|].
  destruct (Z.eqb_spec ex 0).
  - destruct frac as [|m|m]; [done| |done]. unfold valid_float, valid_binary. apply bounded_spec.
    assert (Z.log2 (Zpos m) < 52) by (apply Z.log2_lt_pow2; lia).
    unfold e_min, e_max. lia.
  - destruct (frac + 2 ^ 52) as [|m|m] eqn:Em; [done| |done]. unfold valid_float, valid_binary.
    apply bounded_spec.
    assert (Z.log2 (Zpos m) < 53) by (apply Z.log2_lt_pow2; lia).
    assert (52 <= Z.log2 (Zpos m)) by (apply Z.log2_le_pow2; lia).
    unfold e_min, e_max. lia.
Qed.
