(* ===== verification/ChainStore.v ===== *)
(** [forensics/_store.py]: the strict reader of the JSONL chain store.

    A store file is [option bytes], [None] when the file does not exist.  The
    generator [iter_validated_records] is lazy, so the model takes the body of
    the [for] loop that consumes it: the body runs between two records, and
    what it raises stops the iteration. *)

From S2P Require Import Prelude.
From S2P Require Import PyText.
From S2P Require Import Binary64.
From S2P Require Import PyValue.
From S2P Require Import JsonDumps.
From S2P Require Import JsonLoads.
From S2P Require Import Sha256.
From S2P Require Import Timestamp.
From S2P Require Import RecordFormat.

Notation file := (option bytes) (only parsing).

(** ** Errors *)

Inductive store_reason :=
| NotTerminated
| BlankLine
| InvalidJson (e : scan_error)
| InvalidRecord (e : format_error)
| MixesFormatVersions
| NotCanonicalForm
| SeqMismatch (expected : Z) (found : pyval)
| PrevHashMismatch
| RecordHashMismatch
| CannotAppendVersion.

(** [StoreError], or an exception that the [except] clauses let through: the
    [ValueError] of an over-long integer ([ScanValueError]) and what the format
    functions raise outside the [try], [OverflowError] included. *)
Inductive store_exn :=
| StoreError (line_number : Z) (reason : store_reason)
| StoreScan (e : scan_error)
| StoreFormat (e : format_exn).

(** ** Physical lines of a binary file: up to and with each LF *)

Fixpoint physical_lines (b : bytes) : list bytes :=
  match b with
  | [] => []
  | c :: b' =>
      if c =? LF then [c] :: physical_lines b'
      else match physical_lines b' with
           | [] => [[c]]
           | line :: rest => (c :: line) :: rest
           end
  end.

Definition ends_with_lf (line : bytes) : bool :=
  match line with [] => false | _ => List.last line 0 =? LF end.

(** ** One record *)

(** [expected_seq], [expected_prev_hash], [expected_format_version]. *)
Record iter_state := IterState {
  expected_seq : Z;
  expected_prev_hash : pystr;
  expected_format_version : option Z
}.

Definition initial_iter_state : iter_state := IterState 0 GENESIS_PREV_HASH None.

(** [json.loads] and [validate_stored_record] under the [except] clause. *)
Definition parse_record (line_number : Z) (line : bytes) : res store_exn pydict :=
  match loads_bytes line with
  | Ok parsed =>
      match validate_stored_record parsed with
      | Ok record => Ok record
      | Err (FormatError e) => Err (StoreError line_number (InvalidRecord e))
      | Err FormatOverflow => Err (StoreFormat FormatOverflow)
      end
  | Err ScanDecodeError => Err (StoreError line_number (InvalidJson ScanDecodeError))
  | Err ScanUnicodeError => Err (StoreError line_number (InvalidJson ScanUnicodeError))
  | Err e => Err (StoreScan e)
  end.

(** A [str] member of a validated record. *)
Definition str_item (record : pydict) (k : pystr) : pystr :=
  match dget k record with Some (PStr s) => s | _ => [] end.
Definition int_item (record : pydict) (k : pystr) : Z :=
  match dget k record with Some (PInt z) => z | _ => 0 end.

(** The loop body up to the [yield]: the record, its signed bytes, and the
    state after the [yield]. *)
Definition check_line (st : iter_state) (line_number : Z) (physical_line : bytes)
  : res store_exn (pydict * bytes * iter_state) :=
  let err reason := StoreError line_number reason in
  _ ← ensure (ends_with_lf physical_line) (err NotTerminated);
  let line := removelast physical_line in
  _ ← ensure (negb (Nat.eqb (length line) 0)) (err BlankLine);
  record ← parse_record line_number line;
  let format_version := record_format_version record in
  let version := default format_version (expected_format_version st) in
  _ ← ensure (format_version =? version) (err MixesFormatVersions);
  canonical ← map_err StoreFormat (canonical_json_bytes record);
  _ ← ensure (bool_decide (canonical = line)) (err NotCanonicalForm);
  _ ← ensure (eq_int (item record (u "seq")) (expected_seq st))
        (err (SeqMismatch (expected_seq st) (item record (u "seq"))));
  _ ← ensure (is_str (dget (u "prev_hash") record) (expected_prev_hash st)) (err PrevHashMismatch);
  '(signed_bytes, expected_record_hash) ← map_err StoreFormat (hash_unsigned_record record);
  _ ← ensure (is_str (dget (u "record_hash") record) expected_record_hash) (err RecordHashMismatch);
  Ok (record, signed_bytes,
      IterState (expected_seq st + 1) (str_item record (u "record_hash")) (Some version)).

(** ** The generator, run by a loop body *)

Section iteration.
Context {E S : Type} (raise : store_exn -> E) (body : S -> Z -> pydict -> bytes -> res E S).

Fixpoint iterate (st : iter_state) (line_number : Z) (lines : list bytes) (s : S) : res E S :=
  match lines with
  | [] => Ok s
  | physical_line :: lines =>
      '(record, signed_bytes, st) ← map_err raise (check_line st line_number physical_line);
      s ← body s line_number record signed_bytes;
      iterate st (line_number + 1) lines s
  end.

(** [for line_number, record, signed_bytes in iter_validated_records(path): body]. *)
Definition iter_validated_records (store : file) (s : S) : res E S :=
  match store with
  | None => Ok s
  | Some content => iterate initial_iter_state 1 (physical_lines content) s
  end.
End iteration.

(** ** [chain_tip] *)

Definition chain_tip_body (required_format_version : option Z)
  (tip : Z * pystr) (line_number : Z) (record : pydict) (signed_bytes : bytes)
  : res store_exn (Z * pystr) :=
  _ ← ensure (match required_format_version with
              | None => true
              | Some v => record_format_version record =? v
              end) (StoreError line_number CannotAppendVersion);
  Ok (int_item record (u "seq") + 1, str_item record (u "record_hash")).

Definition chain_tip (store : file) (required_format_version : option Z)
  : res store_exn (Z * pystr) :=
  iter_validated_records (fun e => e) (chain_tip_body required_format_version) store
    (0, GENESIS_PREV_HASH).
