(* ===== verification/ChainSpec.v ===== *)
(** What a well-formed chain is, and that the store reader accepts exactly
    the well-formed chains. *)

From S2P Require Import Prelude.
From S2P Require Import PyText.
From S2P Require Import Binary64.
From S2P Require Import PyValue.
From S2P Require Import JsonDumps.
From S2P Require Import JsonLoads.
From S2P Require Import JsonRoundTrip.
From S2P Require Import JsonLoadsFacts.
From S2P Require Import Sha256.
From S2P Require Import Timestamp.
From S2P Require Import RecordFormat.
From S2P Require Import EventSpec.
From S2P Require Import RecordFacts.
From S2P Require Import CanonicalBytes.
From S2P Require Import RecordLaws.
From S2P Require Import ChainStore.

(** ** The specification *)

(** [line] (without its LF) stores the record [r], the [seq]-th of a chain
    whose previous record hash is [prev]; [signed] are the bytes it hashes. *)
Record stored (k : event_kind) (seq : Z) (prev : pystr) (r : pydict) (signed line : bytes) : Prop :=
  Stored {
    st_record : record_spec k r;
    st_loads : loads_bytes line = Ok (to_dict r);
    st_line : canonical_json_bytes r = Ok line;
    st_seq : dget (u "seq") r = Some (PInt seq);
    st_prev : dget (u "prev_hash") r = Some (PStr prev);
    st_signed : canonical_json_bytes (unsigned_part r) = Ok signed;
    st_hash : dget (u "record_hash") r = Some (PStr (sha256_hex signed))
  }.

(** The lines of a chain of version [v] from position [seq] on, with the
    records and signed bytes they hold. *)
Inductive linked (v : Z) : Z -> pystr -> list bytes -> list (pydict * bytes) -> Prop :=
| linked_nil seq prev : linked v seq prev [] []
| linked_cons k seq prev r signed line lines entries :
    kind_version k = v -> stored k seq prev r signed line ->
    linked v (seq + 1) (sha256_hex signed) lines entries ->
    linked v seq prev ((line ++ [LF]) :: lines) ((r, signed) :: entries).

(** A chain store: no file, or the lines of one chain from the genesis on. *)
Definition chain_store (v : Z) (store : file) (entries : list (pydict * bytes)) : Prop :=
  match store with
  | None => entries = []
  | Some content => linked v 0 GENESIS_PREV_HASH (physical_lines content) entries
  end.

(** The hash a chain ends with. *)
Fixpoint tip_from (prev : pystr) (entries : list (pydict * bytes)) : pystr :=
  match entries with
  | [] => prev
  | (_, signed) :: entries => tip_from (sha256_hex signed) entries
  end.
Definition tip_of (entries : list (pydict * bytes)) : pystr := tip_from GENESIS_PREV_HASH entries.

(** ** Physical lines *)

Lemma physical_lines_concat b : concat (physical_lines b) = b.
Proof.
  induction b as [|c b IH]; [done|]. cbn [physical_lines]. destruct (c =? LF); cbn [concat].
  - by rewrite IH.
  - destruct (physical_lines b) as [|l ls]; cbn in *; by rewrite <- IH.
Qed.

Lemma physical_lines_line line b :
  Forall (fun c => c <> LF) line ->
  physical_lines (line ++ LF :: b) = (line ++ [LF]) :: physical_lines b.
Proof.
  induction 1 as [|c line Hc _ IH]; [done|]. cbn [app physical_lines].
  apply Z.eqb_neq in Hc. by rewrite Hc, IH.
Qed.

Lemma ends_with_lf_spec l : ends_with_lf l = true <-> exists line, l = line ++ [LF].
Proof.
  unfold ends_with_lf. split.
  - destruct l as [|c l] using rev_ind; [done|]. intros H.
    assert (c = LF) as ->; [|eauto]. destruct (l ++ [c]) eqn:E; [done|]. rewrite <- E in H.
    rewrite last_last in H. by apply Z.eqb_eq.
  - intros [line ->]. destruct (line ++ [LF]) eqn:E; [by apply app_eq_nil in E as [_ ?]|].
    by rewrite <- E, last_last.
Qed.

Lemma physical_lines_app b b' :
  b = [] \/ ends_with_lf b = true -> physical_lines (b ++ b') = physical_lines b ++ physical_lines b'.
Proof.
  intros [->|[line ->]%ends_with_lf_spec]; [done|]. induction line as [|c line IH]; [done|].
  cbn [app physical_lines]. rewrite IH. destruct (c =? LF); [done|].
  destruct (physical_lines (line ++ [LF])) eqn:E; [|done].
  apply (f_equal (@concat Z)) in E. rewrite physical_lines_concat in E. by apply app_eq_nil in E as [_ ?].
Qed.

(** ** One line *)

Lemma parse_record_Ok n line r :
  parse_record n line = Ok r <-> loads_bytes line = Ok (to_dict r) /\ exists k, record_spec k r.
Proof.
  unfold parse_record. split.
  - destruct (loads_bytes line) as [v|[]] eqn:El; try done.
    destruct (validate_stored_record v) as [r'|[]] eqn:Ev; try done. intros [= ->].
    apply validate_stored_record_Ok in Ev as [-> ?]. done.
  - intros [-> Hk]. by rewrite (proj2 (validate_stored_record_Ok _ r) (conj eq_refl Hk)).
Qed.

Lemma eq_int_seq v n : seq_value v -> eq_int v n = true <-> v = PInt n.
Proof. intros (z & -> & _). cbn. rewrite Z.eqb_eq. naive_solver. Qed.

Lemma item_dget f d v : f ∈ keys d -> item d f = v <-> dget f d = Some v.
Proof.
  intros Hf. unfold item. destruct (dget f d) eqn:E; cbn; [naive_solver|].
  by apply dget_None in E.
Qed.

Lemma hash_unsigned_record_Ok r b h :
  hash_unsigned_record r = Ok (b, h) <-> canonical_json_bytes (unsigned_part r) = Ok b /\ h = sha256_hex b.
Proof.
  unfold hash_unsigned_record. rewrite bind_Ok. split.
  - intros (b' & Hb & [= <- <-]). done.
  - intros [Hb ->]. eauto.
Qed.

Lemma event_part_lookup f r :
  mem f MANAGED_FIELDS = false -> dget f (event_part r) = dget f r.
Proof. intros Hf. unfold event_part. by rewrite dget_dfilter, Hf. Qed.

Lemma record_version k r : record_spec k r -> record_format_version r = kind_version k.
Proof.
  intros Hr. rewrite <- (tag_version k (event_part r)) by apply Hr.
  unfold record_format_version. by rewrite event_part_lookup.
Qed.

(** The state of the reader in front of the [seq]-th record. *)
Definition state_at (v : option Z) (seq : Z) (prev : pystr) : iter_state := IterState seq prev v.

Definition version_fits (o : option Z) (v : Z) : Prop :=
  match o with None => True | Some v' => v = v' end.

Lemma check_line_Ok o seq prev n pl r signed st' :
  check_line (state_at o seq prev) n pl = Ok (r, signed, st') <->
  exists k line, pl = line ++ [LF] /\ stored k seq prev r signed line /\
    version_fits o (kind_version k) /\ line <> [] /\
    st' = state_at (Some (kind_version k)) (seq + 1) (sha256_hex signed).
Proof.
  unfold check_line. cbn [expected_format_version expected_seq expected_prev_hash state_at].
  rewrite !then_Ok, !ensure_Ok. split.
  - intros ([line ->]%ends_with_lf_spec & Hne & H). rewrite removelast_last in Hne, H.
    apply bind_Ok in H as (r' & [Hl (k & Hk)]%parse_record_Ok & H).
    rewrite then_Ok, ensure_Ok in H. destruct H as [Hv H]. rewrite (record_version k r' Hk) in *.
    apply bind_Ok in H as (cb & Hcb%map_err_Ok & H). rewrite !then_Ok, !ensure_Ok in H.
    destruct H as (Hcl & Hseq & Hprev & H). apply bool_decide_eq_true in Hcl as ->.
    apply bind_Ok in H as ([sb h] & [Hsb ->]%map_err_Ok%hash_unsigned_record_Ok & H).
    rewrite then_Ok, ensure_Ok in H. destruct H as (Hh & [= <- <- <-]).
    apply is_str_true in Hh, Hprev. pose proof (spec_seq _ _ Hk) as Hsv.
    assert (Hin : u "seq" ∈ keys r') by by eapply field_present.
    apply (eq_int_seq _ seq) in Hseq; [|by apply item_field in Hsv]. apply item_dget in Hseq; [|done].
    exists k, line. split; [done|]. split; [by constructor|].
    apply Z.eqb_eq in Hv. split; [by destruct o|].
    split; [by destruct line|]. unfold str_item. rewrite Hh. unfold state_at. by rewrite <- Hv.
  - intros (k & line & -> & [Hk Hl Hcb Hseq Hprev Hsb Hh] & Hv & Hne & ->).
    rewrite removelast_last. split; [apply ends_with_lf_spec; eauto|]. split; [by destruct line|].
    rewrite (proj2 (parse_record_Ok n line r)) by eauto. rewrite Ok_bind.
    rewrite (record_version k r Hk), then_Ok, ensure_Ok.
    assert (Hd : default (kind_version k) o = kind_version k) by (by destruct o; cbn in *; subst).
    rewrite Hd. split; [apply Z.eqb_refl|]. rewrite Hcb. cbn [map_err]. rewrite Ok_bind.
    rewrite !then_Ok, !ensure_Ok. split; [by apply bool_decide_eq_true|].
    unfold item. rewrite Hseq, (proj2 (hash_unsigned_record_Ok r _ _) (conj Hsb eq_refl)).
    cbn [map_err]. rewrite Ok_bind, then_Ok, ensure_Ok, !is_str_true.
    split; [apply Z.eqb_refl|]. split; [done|]. split; [done|].
    unfold str_item. by rewrite Hh.
Qed.

Lemma canonical_nonempty d b : canonical_json_bytes d = Ok b -> b <> [].
Proof.
  unfold canonical_json_bytes. intros H. inv_ok. destruct (dumps_dict_head d x H0) as [t ->].
  destruct (utf8_encode _) eqn:E; [|done]. injection H as ->. apply utf8_encode_Some in E as ->. done.
Qed.

(** ** The whole iteration *)

(** The loop body run over the entries of a chain. *)
Fixpoint run_entries {E S} (body : S -> Z -> pydict -> bytes -> res E S)
  (n : Z) (entries : list (pydict * bytes)) (s : S) : res E S :=
  match entries with
  | [] => Ok s
  | (r, signed) :: entries => s ← body s n r signed; run_entries body (n + 1) entries s
  end.

Section iterate.
Context {E S : Type} (raise : store_exn -> E) (body : S -> Z -> pydict -> bytes -> res E S).

Lemma iterate_linked v o seq prev lines entries n s :
  version_fits o v -> linked v seq prev lines entries ->
  iterate raise body (state_at o seq prev) n lines s = run_entries body n entries s.
Proof.
  intros Ho Hl. revert o n s Ho.
  induction Hl as [|k seq prev r signed line lines entries Hv Hs Hl IH]; intros o n s Ho; [done|].
  cbn [iterate run_entries]. subst v.
  assert (Hc : check_line (state_at o seq prev) n (line ++ [LF])
               = Ok (r, signed, state_at (Some (kind_version k)) (seq + 1) (sha256_hex signed))).
  { apply check_line_Ok. exists k, line. split; [done|]. split; [done|]. split; [done|].
    split; [|done]. eapply canonical_nonempty, st_line, Hs. }
  rewrite Hc. cbn [map_err]. rewrite Ok_bind. cbn beta iota.
  destruct (body s n r signed) as [s'|e]; [|done]. rewrite !Ok_bind. by apply IH.
Qed.

Lemma iterate_Ok_linked o seq prev lines n s s' :
  iterate raise body (state_at o seq prev) n lines s = Ok s' ->
  exists v entries, version_fits o v /\ linked v seq prev lines entries.
Proof.
  revert o seq prev n s; induction lines as [|pl lines IH]; intros o seq prev n s.
  - intros _. exists (default 0 o), []. split; [by destruct o|constructor].
  - cbn [iterate]. intros H.
    apply bind_Ok in H as ([[r signed] st] & Hc%map_err_Ok & H).
    apply check_line_Ok in Hc as (k & line & -> & Hs & Hv & _ & ->).
    apply bind_Ok in H as (s1 & _ & H). apply IH in H as (v & entries & Hv' & Hl).
    cbn in Hv'. subst v. exists (kind_version k), ((r, signed) :: entries).
    split; [done|]. by econstructor.
Qed.

(** The loop returns exactly on chain stores, with what the body computes. *)
Lemma iter_validated_records_Ok store s s' :
  iter_validated_records raise body store s = Ok s' <->
  exists v entries, chain_store v store entries /\ run_entries body 1 entries s = Ok s'.
Proof.
  destruct store as [content|]; cbn [iter_validated_records chain_store].
  - change initial_iter_state with (state_at None 0 GENESIS_PREV_HASH). split.
    + intros H. destruct (iterate_Ok_linked None _ _ _ _ _ _ H) as (v & entries & _ & Hl).
      exists v, entries. split; [done|]. by rewrite <- (iterate_linked v None _ _ _ _ 1 s I Hl).
    + intros (v & entries & Hl & Hr). by rewrite (iterate_linked v None _ _ _ _ 1 s I Hl).
  - split; [intros [= ->]; by exists 0, []|]. by intros (v & ? & -> & ?).
Qed.
End iterate.

(** The lines determine the entries, and the version when there is one. *)
Lemma stored_fun k k' seq seq' prev prev' r r' signed signed' line :
  stored k seq prev r signed line -> stored k' seq' prev' r' signed' line ->
  r = r' /\ signed = signed' /\ k = k'.
Proof.
  intros [Hk Hl _ _ _ Hs _] [Hk' Hl' _ _ _ Hs' _]. rewrite Hl in Hl'. injection Hl' as Heq.
  apply of_str_keys_inj in Heq as <-. rewrite Hs in Hs'. injection Hs' as <-.
  split; [done|]. split; [done|]. eapply kind_tag_fun; [apply Hk|apply Hk'].
Qed.

Lemma linked_fun v v' seq prev lines entries entries' :
  linked v seq prev lines entries -> linked v' seq prev lines entries' ->
  entries = entries' /\ (entries = [] \/ v = v').
Proof.
  intros Hl. revert v' entries'.
  induction Hl as [|k seq prev r signed line lines entries Hv Hs Hl IH]; intros v' entries' Hl'.
  - inversion Hl'; subst. auto.
  - inversion Hl' as [|k' ? ? r' signed' line' ? entries'' Hv' Hs' Hl'']; subst.
    match goal with H : _ ++ [LF] = _ ++ [LF] |- _ => apply app_inj_tail in H as [-> _] end.
    destruct (stored_fun _ _ _ _ _ _ _ _ _ _ _ Hs Hs') as (-> & -> & ->).
    destruct (IH _ _ Hl'') as [-> _]. auto.
Qed.

Lemma chain_store_fun v v' store entries entries' :
  chain_store v store entries -> chain_store v' store entries' ->
  entries = entries' /\ (entries = [] \/ v = v').
Proof.
  destruct store; cbn; [by apply linked_fun|]. intros -> ->. auto.
Qed.

(** ** [chain_tip] *)

Lemma linked_record v seq prev lines r signed entries :
  linked v seq prev lines ((r, signed) :: entries) -> record_format_version r = v.
Proof.
  inversion 1 as [|k ? ? ? ? line ? ? Hv Hs Hl]; subst. apply record_version, Hs.
Qed.

Definition version_allowed (required : option Z) (v : Z) (entries : list (pydict * bytes)) : Prop :=
  match required with None => True | Some w => entries = [] \/ v = w end.

Lemma chain_tip_body_Ok required tip n r signed tip' :
  chain_tip_body required tip n r signed = Ok tip' <->
  (forall w, required = Some w -> record_format_version r = w) /\
  tip' = (int_item r (u "seq") + 1, str_item r (u "record_hash")).
Proof.
  unfold chain_tip_body. rewrite then_Ok, ensure_Ok.
  destruct required as [w|]; [rewrite Z.eqb_eq|]; naive_solver.
Qed.

Lemma run_chain_tip required v seq prev lines entries n :
  linked v seq prev lines entries -> version_allowed required v entries ->
  run_entries (chain_tip_body required) n entries (seq, prev)
  = Ok (seq + Z.of_nat (length entries), tip_from prev entries).
Proof.
  intros Hl. revert n. induction Hl as [|k seq prev r signed line lines entries Hv Hs Hl IH];
    intros n Ha; [cbn; by rewrite Z.add_0_r|].
  cbn [run_entries].
  rewrite (proj2 (chain_tip_body_Ok required (seq, prev) n r signed (seq + 1, sha256_hex signed))).
  2:{ split; [|by unfold int_item, str_item; rewrite (st_seq _ _ _ _ _ _ Hs), (st_hash _ _ _ _ _ _ Hs)].
      intros w ->. rewrite (record_version k r) by apply Hs. cbn in Ha. destruct Ha; [done|congruence]. }
  rewrite Ok_bind, IH by (destruct required; [cbn in *; naive_solver|done]).
  cbn [length tip_from]. do 2 f_equal. lia.
Qed.

Lemma run_chain_tip_version required v seq prev lines entries n s s' :
  linked v seq prev lines entries -> run_entries (chain_tip_body required) n entries s = Ok s' ->
  version_allowed required v entries.
Proof.
  intros Hl. destruct required as [w|]; [|done]. destruct entries as [|[r signed] entries]; [by left|].
  apply linked_record in Hl. cbn [run_entries]. intros H.
  apply bind_Ok in H as (tip & [Hw _]%chain_tip_body_Ok & _). right. rewrite <- Hl. auto.
Qed.

Lemma chain_tip_Ok store required n h :
  chain_tip store required = Ok (n, h) <->
  exists v entries, chain_store v store entries /\ version_allowed required v entries /\
    n = Z.of_nat (length entries) /\ h = tip_of entries.
Proof.
  unfold chain_tip. rewrite iter_validated_records_Ok. split.
  - intros (v & entries & Hc & Hr). exists v, entries. split; [done|].
    destruct store as [content|]; cbn in Hc.
    + assert (Ha : version_allowed required v entries) by by eapply run_chain_tip_version.
      rewrite (run_chain_tip _ _ _ _ _ _ _ Hc Ha) in Hr. by injection Hr as <- <-.
    + subst. injection Hr as <- <-. split; [by destruct required; [left|]|done].
  - intros (v & entries & Hc & Ha & -> & ->). exists v, entries. split; [done|].
    destruct store as [content|]; cbn in Hc; [|by subst].
    by rewrite (run_chain_tip _ _ _ _ _ _ _ Hc Ha).
Qed.
