(* ===== verification/ChainLogger.v ===== *)
(** [forensics/logger.py]: the append-only writer of the chain.

    The signer is any object with a [sign] method, so it is a parameter; what
    the file system and the lock do in one call is an [environment]. *)

From S2P Require Import Prelude.
From S2P Require Import PyText.
From S2P Require Import Binary64.
From S2P Require Import PyValue.
From S2P Require Import JsonDumps.
From S2P Require Import JsonLoads.
From S2P Require Import Sha256.
From S2P Require Import Timestamp.
From S2P Require Import RecordFormat.
From S2P Require Import ChainStore.

(** What [signer.sign(data)] does: a [bytes] value, another object, an exception. *)
Inductive sign_result :=
| SignBytes (b : bytes)
| SignOther
| SignRaises.

(** The append to the store: it completes, the file cannot be opened, or an
    [OSError] comes when [written] octets of the line have reached the file. *)
Inductive append_outcome :=
| AppendComplete
| OpenFailed
| WriteFailed (written : nat).

Record environment := Environment {
  env_mkdir : bool;              (* [store_path.parent.mkdir] succeeds *)
  env_lock : bool;               (* the lock is acquired within the timeout *)
  env_append : append_outcome
}.

Inductive append_reason :=
| InvalidChain (line_number : Z) (reason : store_reason)
| BadSignerOutput
| AppendOSError.

Inductive logger_exn :=
| LogFormat (e : format_exn)
| LogMkdir
| LogLockTimeout
| AppendError (reason : append_reason)
| LogStore (e : store_exn)
| LogSigner.

(** [except StoreError as exc: raise AppendError]. *)
Definition refuse_invalid_chain (e : store_exn) : logger_exn :=
  match e with
  | StoreError n reason => AppendError (InvalidChain n reason)
  | e => LogStore e
  end.

(** [{**event_fields, "seq": seq, "prev_hash": previous_hash}] *)
Definition unsigned_record (event_fields : pydict) (seq : Z) (previous_hash : pystr) : pydict :=
  dset (u "prev_hash") (PStr previous_hash) (dset (u "seq") (PInt seq) event_fields).

(** [{**unsigned_record, "record_hash": record_hash, "signature": signature.hex()}] *)
Definition signed_record (unsigned : pydict) (record_hash : pystr) (signature : bytes) : pydict :=
  dset (u "signature") (PStr (bytes_hex signature))
    (dset (u "record_hash") (PStr record_hash) unsigned).

(** The file after the append, and whether the append raised [OSError]. *)
Definition append_file (store : file) (line : bytes) (o : append_outcome) : file * bool :=
  match o with
  | AppendComplete => (Some (default [] store ++ line), true)
  | OpenFailed => (store, false)
  | WriteFailed n => (Some (default [] store ++ take n line), false)
  end.

Section log_event.
Variable sign : bytes -> sign_result.

Definition checked_signature (data : bytes) : res logger_exn bytes :=
  match sign data with
  | SignBytes b => _ ← ensure (Nat.eqb (length b) 64) (AppendError BadSignerOutput); Ok b
  | SignOther => Err (AppendError BadSignerOutput)
  | SignRaises => Err LogSigner
  end.

(** Inside the lock, up to the encoded line. *)
Definition prepare_record (event_fields : pydict) (store : file) : res logger_exn (pydict * bytes) :=
  '(seq, previous_hash) ← map_err refuse_invalid_chain
    (chain_tip store (Some (record_format_version event_fields)));
  let unsigned := unsigned_record event_fields seq previous_hash in
  '(record_bytes, record_hash) ← map_err LogFormat (hash_unsigned_record unsigned);
  signature ← checked_signature record_bytes;
  let record := signed_record unsigned record_hash signature in
  encoded ← map_err LogFormat (canonical_json_bytes record);
  Ok (record, encoded ++ [LF]).

(** The result and the store file afterwards. *)
Definition log_event (env : environment) (event : pyval) (store : file)
  : res logger_exn pydict * file :=
  match validate_event event with
  | Err e => (Err (LogFormat e), store)
  | Ok event_fields =>
      if negb (env_mkdir env) then (Err LogMkdir, store)
      else if negb (env_lock env) then (Err LogLockTimeout, store)
      else match prepare_record event_fields store with
           | Err e => (Err e, store)
           | Ok (record, encoded_line) =>
               let '(store', done) := append_file store encoded_line (env_append env) in
               (if done then Ok record else Err (AppendError AppendOSError), store')
           end
  end.
End log_event.
