(* ===== verification/ChainCheck.v ===== *)
(** [forensics/chain_check.py]: the verifier of a chain.

    The public key's [verify] is a parameter: [true] when it returns, [false]
    when it raises [InvalidSignature]. *)

From S2P Require Import Prelude.
From S2P Require Import PyText.
From S2P Require Import Binary64.
From S2P Require Import PyValue.
From S2P Require Import JsonDumps.
From S2P Require Import JsonLoads.
From S2P Require Import Sha256.
From S2P Require Import Timestamp.
From S2P Require Import RecordFormat.
From S2P Require Import ChainStore.

Inductive verify_exn :=
| ChainVerificationError (line_number : Z) (reason : option store_reason)  (* [None]: the signature *)
| VerifyStore (e : store_exn)
| VerifyHex
| VerifyFileNotFound
| VerifyKeyType
| VerifyLockTimeout.

Record VerificationResult := { records_verified : Z; tip_hash : option pystr }.

Definition lift_store_error (e : store_exn) : verify_exn :=
  match e with
  | StoreError n reason => ChainVerificationError n (Some reason)
  | e => VerifyStore e
  end.

Section verify_chain.
Variable verify : bytes -> bytes -> bool.

Definition verify_body (result : VerificationResult) (line_number : Z) (record : pydict)
  (signed_bytes : bytes) : res verify_exn VerificationResult :=
  match bytes_fromhex (str_item record (u "signature")) with
  | None => Err VerifyHex
  | Some signature =>
      _ ← ensure (verify signature signed_bytes) (ChainVerificationError line_number None);
      Ok {| records_verified := records_verified result + 1;
            tip_hash := Some (str_item record (u "record_hash")) |}
  end.

(** [is_key]: [isinstance(public_key, Ed25519PublicKey)]. *)
Definition verify_chain (is_key lock_acquired : bool) (store : file)
  : res verify_exn VerificationResult :=
  _ ← ensure is_key VerifyKeyType;
  _ ← ensure (match store with None => false | Some _ => true end) VerifyFileNotFound;
  _ ← ensure lock_acquired VerifyLockTimeout;
  iter_validated_records lift_store_error verify_body store
    {| records_verified := 0; tip_hash := None |}.
End verify_chain.
