(* ===== verification/LoggerFacts.v ===== *)
(** The writer: [log_event] appends exactly one valid record to a valid chain,
    and changes nothing, or only the end of the file, when it raises. *)

From stdpp Require Import sorting.
From S2P Require Import Prelude.
From S2P Require Import PyText.
From S2P Require Import Binary64.
From S2P Require Import PyValue.
From S2P Require Import JsonDumps.
From S2P Require Import JsonLoads.
From S2P Require Import Sha256.
From S2P Require Import Timestamp.
From S2P Require Import RecordFormat.
From S2P Require Import EventSpec.
From S2P Require Import RecordFacts.
From S2P Require Import CanonicalBytes.
From S2P Require Import RecordLaws.
From S2P Require Import ChainStore.
From S2P Require Import ChainSpec.
From S2P Require Import ChainLogger.

(** ** The record built from an event *)

Section build.
Context (k : event_kind) (ev : pydict) (Hev : event_spec k ev) (Hwf : wf_dict ev).

Lemma event_keys_nodup : NoDup (keys ev).
Proof. by apply wf_dict_spec in Hwf as [? _]. Qed.

Lemma event_no_managed f : mem f MANAGED_FIELDS = true -> f ∉ keys ev.
Proof.
  intros Hm Hf. apply (spec_fields _ _ Hev) in Hf.
  assert (H : forallb (fun f => negb (mem f MANAGED_FIELDS)) (kind_fields k) = true)
    by (by destruct k; vm_compute).
  rewrite forallb_forall in H. apply list_elem_of_In, H in Hf. by rewrite Hm in Hf.
Qed.

Definition seq_fields (seq : Z) (prev : pystr) : pydict :=
  [(u "seq", PInt seq); (u "prev_hash", PStr prev)].
Definition seal_fields (hash : pystr) (sg : bytes) : pydict :=
  [(u "record_hash", PStr hash); (u "signature", PStr (bytes_hex sg))].

Lemma unsigned_record_app seq prev : unsigned_record ev seq prev = ev ++ seq_fields seq prev.
Proof.
  unfold unsigned_record. rewrite (dset_new (u "seq")).
  2:{ apply has_key_false. by apply event_no_managed. }
  rewrite dset_new, <- app_assoc; [done|]. apply has_key_false. unfold keys. rewrite map_app.
  rewrite not_elem_of_app. split; [by apply event_no_managed|not_in_fields].
Qed.

Lemma signed_record_app seq prev hash sg :
  signed_record (unsigned_record ev seq prev) hash sg
  = ev ++ seq_fields seq prev ++ seal_fields hash sg.
Proof.
  rewrite unsigned_record_app. unfold signed_record.
  assert (Hin : forall f l, mem f MANAGED_FIELDS = true -> f ∉ keys l -> has_key f (ev ++ l) = false).
  { intros f l Hm Hl. apply has_key_false. unfold keys. rewrite map_app, not_elem_of_app.
    split; [by apply event_no_managed|done]. }
  rewrite (dset_new (u "record_hash")), dset_new, <- !app_assoc; [done| |].
  - rewrite <- app_assoc. apply Hin; [done|not_in_fields].
  - apply Hin; [done|not_in_fields].
Qed.

Lemma dfilter_event p : (forall f, mem f MANAGED_FIELDS = false -> p f = true) -> dfilter p ev = ev.
Proof.
  intros Hp. apply lfilter_all. rewrite Forall_forall. intros kv Hkv. apply Hp, not_true_iff_false. intros Hm.
  apply (event_no_managed _ Hm). unfold keys. by apply (list_elem_of_fmap_2 fst).
Qed.

Lemma dfilter_app p d d' : dfilter p (d ++ d') = dfilter p d ++ dfilter p d'.
Proof. apply List.filter_app. Qed.

Lemma event_part_signed seq prev hash sg :
  event_part (ev ++ seq_fields seq prev ++ seal_fields hash sg) = ev.
Proof.
  unfold event_part. rewrite dfilter_app, dfilter_event by (intros f ->; done).
  cbn. by rewrite app_nil_r.
Qed.

Lemma unsigned_part_signed seq prev hash sg :
  unsigned_part (ev ++ seq_fields seq prev ++ seal_fields hash sg) = ev ++ seq_fields seq prev.
Proof.
  unfold unsigned_part. rewrite dfilter_app, dfilter_event.
  - done.
  - intros f Hf%managed_false. apply negb_true_iff, not_true_iff_false. rewrite mem_spec.
    rewrite !not_elem_of_cons. pose proof (not_elem_of_nil f). tauto.
Qed.

Lemma unsigned_part_unsigned seq prev :
  unsigned_part (unsigned_record ev seq prev) = ev ++ seq_fields seq prev.
Proof.
  rewrite unsigned_record_app. unfold unsigned_part. rewrite dfilter_app, dfilter_event.
  - done.
  - intros f Hf%managed_false. apply negb_true_iff, mem_false.
    rewrite !not_elem_of_cons. pose proof (not_elem_of_nil f). tauto.
Qed.

Lemma dget_app_r f d d' : f ∉ keys d -> dget f (d ++ d') = dget f d'.
Proof.
  induction d as [|[k' v] d IH]; [done|]. cbn. rewrite not_elem_of_cons. intros [Hne Hni].
  rewrite bool_decide_eq_false_2 by done. auto.
Qed.

Lemma dget_app_event f d :
  mem f MANAGED_FIELDS = true -> dget f (ev ++ d) = dget f d.
Proof. intros Hf. by apply dget_app_r, event_no_managed. Qed.

Context (seq : Z) (prev : pystr) (sg : bytes).
Hypothesis Hseq : 0 <= seq < 2 ^ 63.
Hypothesis Hprev : is_lower_hex_n 64 prev = true.
Hypothesis Hsg : bytes_ok sg.
Hypothesis Hlen : length sg = 64%nat.

Local Notation unsigned := (ev ++ seq_fields seq prev).
Local Notation sealed hash := (ev ++ seq_fields seq prev ++ seal_fields hash sg).

Lemma sig_hex : is_lower_hex_n 128 (bytes_hex sg) = true.
Proof. unfold is_lower_hex_n. rewrite bytes_hex_length, Hlen. cbn. by apply bytes_hex_lower. Qed.

(** Appending managed fields keeps a dictionary well formed. *)
Lemma wf_dict_app (d d' : pydict) :
  wf_dict d -> wf_dict d' -> (forall f, f ∈ keys d -> f ∉ keys d') -> wf_dict (d ++ d').
Proof.
  rewrite !wf_dict_spec. intros [Hn Hf] [Hn' Hf'] Hd. split; [|by apply Forall_app].
  unfold keys. rewrite map_app. apply NoDup_app. split_and!; try done.
Qed.

Lemma wf_managed_app (d : pydict) :
  wf_dict d -> forallb (fun f => mem f MANAGED_FIELDS) (keys d) = true -> wf_dict (ev ++ d).
Proof.
  intros Hd Hm. apply wf_dict_app; [done..|]. intros f Hf Hf'.
  rewrite forallb_forall in Hm. apply list_elem_of_In, Hm in Hf'. by apply event_no_managed in Hf'.
Qed.

Lemma nodup_seq_seal : NoDup [u "seq"; u "prev_hash"; u "record_hash"; u "signature"].
Proof. apply (bool_decide_unpack _). by vm_compute. Qed.

Lemma wf_unsigned : wf_dict unsigned.
Proof using Hev Hwf Hseq Hprev.
  apply wf_managed_app; [|done]. apply wf_dict_spec. split.
  - by apply (NoDup_app _ [u "record_hash"; u "signature"]), nodup_seq_seal.
  - pose proof (hex_str_ok _ _ Hprev) as Hp%str_okb_spec.
    repeat constructor; cbn; try done; by apply str_okb_spec.
Qed.

Lemma wf_sealed hash : is_lower_hex_n 64 hash = true -> wf_dict (sealed hash).
Proof.
  intros Hh. apply wf_managed_app; [|done]. apply wf_dict_spec. split; [apply nodup_seq_seal|].
  pose proof (hex_str_ok _ _ Hprev) as Hp%str_okb_spec. pose proof (hex_str_ok _ _ Hh) as Hq%str_okb_spec.
  pose proof (hex_str_ok _ _ sig_hex) as Hr%str_okb_spec.
  repeat constructor; cbn; try done; by apply str_okb_spec.
Qed.

Lemma sealed_spec hash : is_lower_hex_n 64 hash = true -> record_spec k (sealed hash).
Proof.
  intros Hh. constructor.
  - by rewrite event_part_signed.
  - exists (PInt seq). split; [by rewrite (dget_app_event (u "seq"))|by exists seq].
  - exists (PStr prev). split; [by rewrite (dget_app_event (u "prev_hash"))|by exists prev].
  - exists (PStr hash). split; [by rewrite (dget_app_event (u "record_hash"))|by exists hash].
  - exists (PStr (bytes_hex sg)). split; [by rewrite (dget_app_event (u "signature"))|].
    exists (bytes_hex sg). split; [done|apply sig_hex].
Qed.

Lemma unsigned_json : json_value (to_dict unsigned).
Proof using Hev Hwf Hseq Hprev.
  clear Hlen. apply json_value_dict. apply Forall_app. split; [by eapply event_json; [apply event_keys_nodup|]|].
  apply Forall_cons_2; [split; [done|apply json_int; lia]|].
  apply Forall_cons_2; [split; [done|apply json_str; by eapply hex_scalars]|apply Forall_nil_2].
Qed.

Lemma unsigned_bytes : exists signed, canonical_json_bytes unsigned = Ok signed.
Proof using Hev Hwf Hseq Hprev. apply canonical_bytes_total; [apply wf_unsigned|apply unsigned_json]. Qed.

(** The line that the writer appends stores the record, in key order. *)
Lemma sealed_line signed :
  canonical_json_bytes unsigned = Ok signed ->
  exists line, canonical_json_bytes (sealed (sha256_hex signed)) = Ok line /\
    stored k seq prev (norm_pydict (sealed (sha256_hex signed))) signed line /\
    Forall (fun c => c <> LF) line /\ bytes_ok line.
Proof.
  intros Hs. set (r := sealed (sha256_hex signed)).
  assert (Hr : record_spec k r) by apply sealed_spec, sha256_hex_lower.
  assert (Hw : wf_dict r) by apply wf_sealed, sha256_hex_lower.
  assert (Hnd : NoDup (keys r)) by by apply wf_dict_spec in Hw as [? _].
  destruct (canonical_bytes_total r Hw (record_json k r Hnd Hr)) as [line Hl].
  exists line. split; [done|]. pose proof (canonical_bytes r line Hw Hl) as Hc. split; [constructor|].
  - by apply record_spec_norm.
  - by apply cb_loads.
  - by apply (cb_norm r).
  - rewrite dget_norm_pydict by done. unfold r. by rewrite (dget_app_event (u "seq")).
  - rewrite dget_norm_pydict by done. unfold r. by rewrite (dget_app_event (u "prev_hash")).
  - unfold unsigned_part. rewrite dfilter_norm_pydict by done.
    change (dfilter _ r) with (unsigned_part r). unfold r. rewrite unsigned_part_signed.
    apply (cb_norm unsigned), canonical_bytes; [apply wf_unsigned|done].
  - rewrite dget_norm_pydict by done. unfold r. by rewrite (dget_app_event (u "record_hash")).
  - split; [|by apply (cb_bytes _ _ Hc)].
    eapply Forall_impl; [apply (cb_visible _ _ Hc)|]. unfold LF. cbn. lia.
Qed.
End build.

(** ** Chains grow at the end *)

Lemma linked_app v seq prev lines entries lines' entries' :
  linked v seq prev lines entries ->
  linked v (seq + Z.of_nat (length entries)) (tip_from prev entries) lines' entries' ->
  linked v seq prev (lines ++ lines') (entries ++ entries').
Proof.
  induction 1 as [|k seq prev r signed line lines entries Hv Hs Hl IH]; cbn [length tip_from app].
  - by rewrite Z.add_0_r.
  - intros Hl'. econstructor; [done..|]. apply IH.
    by replace (seq + 1 + Z.of_nat (length entries)) with (seq + Z.of_nat (S (length entries))) by lia.
Qed.

Lemma linked_last v seq prev lines entries :
  linked v seq prev lines entries -> lines <> [] -> exists l, List.last lines [] = l ++ [LF].
Proof.
  induction 1 as [|k seq prev r signed line lines entries Hv Hs Hl IH]; [done|]. intros _.
  destruct lines as [|l lines]; [by exists line|]. cbn [List.last] in *. auto.
Qed.

Lemma linked_ends v seq prev content entries :
  linked v seq prev (physical_lines content) entries -> content = [] \/ ends_with_lf content = true.
Proof.
  intros H. destruct (physical_lines content) as [|l ls] eqn:E.
  - left. by rewrite <- (physical_lines_concat content), E.
  - right. apply linked_last in H as [l' Hl']; [|done].
    rewrite <- (physical_lines_concat content), E.
    rewrite (app_removelast_last [] (l := l :: ls)) by done. rewrite Hl', concat_app. cbn.
    rewrite app_nil_r. apply ends_with_lf_spec. exists (concat (removelast (l :: ls)) ++ l').
    by rewrite <- app_assoc.
Qed.

Lemma tip_from_hex prev entries :
  is_lower_hex_n 64 prev = true -> is_lower_hex_n 64 (tip_from prev entries) = true.
Proof.
  revert prev; induction entries as [|[r signed] entries IH]; intros prev Hp; cbn; [done|].
  apply IH, sha256_hex_lower.
Qed.

Lemma tip_of_hex entries : is_lower_hex_n 64 (tip_of entries) = true.
Proof. apply tip_from_hex. by vm_compute. Qed.

Lemma tip_from_app prev entries entries' :
  tip_from prev (entries ++ entries') = tip_from (tip_from prev entries) entries'.
Proof.
  revert prev; induction entries as [|[r signed] entries IH]; intros prev; cbn; [done|]. apply IH.
Qed.

(** A chain may change its version number only while it is empty. *)
Lemma chain_store_empty v w store : chain_store v store [] -> chain_store w store [].
Proof.
  destruct store as [content|]; [|done]. cbn. intros H. inversion H. constructor.
Qed.

Lemma chain_store_grow k store entries r signed line :
  chain_store (kind_version k) store entries ->
  stored k (Z.of_nat (length entries)) (tip_of entries) r signed line ->
  Forall (fun c => c <> LF) line ->
  chain_store (kind_version k) (Some (default [] store ++ line ++ [LF])) (entries ++ [(r, signed)]).
Proof.
  intros Hc Hs Hlf. unfold chain_store.
  assert (Hl : linked (kind_version k) 0 GENESIS_PREV_HASH (physical_lines (default [] store)) entries)
    by (destruct store; [done|]; cbn in Hc; subst; constructor).
  rewrite physical_lines_app by by eapply linked_ends.
  eapply linked_app; [done|]. rewrite physical_lines_line by done. cbn [physical_lines].
  econstructor; [done|exact Hs|constructor].
Qed.

(** ** [log_event] *)

Lemma chain_tip_version k store n h :
  chain_tip store (Some (kind_version k)) = Ok (n, h) <->
  exists entries, chain_store (kind_version k) store entries /\
    n = Z.of_nat (length entries) /\ h = tip_of entries.
Proof.
  rewrite chain_tip_Ok. split.
  - intros (v & entries & Hc & Ha & -> & ->). exists entries. split; [|done].
    destruct Ha as [->| ->]; [by eapply chain_store_empty|done].
  - intros (entries & Hc & -> & ->). exists (kind_version k), entries.
    split; [done|]. split; [by right|done].
Qed.

Section log_event.
Context (sign : bytes -> sign_result).

Lemma checked_signature_Ok data sg :
  checked_signature sign data = Ok sg <-> sign data = SignBytes sg /\ length sg = 64%nat.
Proof.
  unfold checked_signature. destruct (sign data); [|naive_solver..].
  rewrite then_Ok, ensure_Ok, Nat.eqb_eq. naive_solver.
Qed.

(** The record and the line that the writer makes of an event behind [entries]. *)
Record made (ev : pydict) (entries : list (pydict * bytes)) (sg : bytes)
  (record : pydict) (signed line : bytes) : Prop := Made {
  mk_signed : canonical_json_bytes (ev ++ seq_fields (Z.of_nat (length entries)) (tip_of entries))
              = Ok signed;
  mk_sign : sign signed = SignBytes sg;
  mk_length : length sg = 64%nat;
  mk_record : record = ev ++ seq_fields (Z.of_nat (length entries)) (tip_of entries)
                       ++ seal_fields (sha256_hex signed) sg;
  mk_line : canonical_json_bytes record = Ok line
}.

Lemma prepare_record_Ok k ev store record line' :
  event_spec k ev ->
  prepare_record sign ev store = Ok (record, line') <->
  exists entries sg signed line, chain_store (kind_version k) store entries /\
    made ev entries sg record signed line /\ line' = line ++ [LF].
Proof.
  intros Hev. unfold prepare_record. rewrite (tag_version k ev) by apply Hev. split.
  - intros H. apply bind_Ok in H as ([n h] & Ht%map_err_Ok & H).
    apply chain_tip_version in Ht as (entries & Hc & -> & ->).
    apply bind_Ok in H as ([signed hash] & [Hs ->]%map_err_Ok%hash_unsigned_record_Ok & H).
    apply bind_Ok in H as (sg & [Hsg Hlen]%checked_signature_Ok & H).
    apply bind_Ok in H as (line & Hl%map_err_Ok & [= <- <-]).
    exists entries, sg, signed, line. split; [done|]. split; [|done].
    rewrite (unsigned_part_unsigned k ev Hev) in Hs.
    constructor; [exact Hs|done|done| |done].
    by rewrite (signed_record_app k ev Hev).
  - intros (entries & sg & signed & line & Hc & [Hs Hsg Hlen Hr Hl] & ->).
    assert (Ht : chain_tip store (Some (kind_version k)) = Ok (Z.of_nat (length entries), tip_of entries))
      by (apply chain_tip_version; eauto).
    rewrite Ht. cbn [map_err]. rewrite Ok_bind. cbn beta iota.
    assert (Hu : hash_unsigned_record (unsigned_record ev (Z.of_nat (length entries)) (tip_of entries))
                 = Ok (signed, sha256_hex signed)).
    { apply hash_unsigned_record_Ok. by rewrite (unsigned_part_unsigned k ev Hev). }
    rewrite Hu. cbn [map_err]. rewrite Ok_bind. cbn beta iota.
    rewrite (proj2 (checked_signature_Ok signed sg)) by done. rewrite Ok_bind.
    rewrite (signed_record_app k ev Hev), <- Hr, Hl. done.
Qed.

(** On every well-formed event, chain store and good signature the record exists. *)
Lemma made_total k ev entries :
  event_spec k ev -> wf_dict ev -> Z.of_nat (length entries) < 2 ^ 63 ->
  (forall data, exists sg, sign data = SignBytes sg /\ length sg = 64%nat /\ bytes_ok sg) ->
  exists sg record signed line, made ev entries sg record signed line.
Proof.
  intros Hev Hwf Hn Hsign.
  assert (Hseq : 0 <= Z.of_nat (length entries) < 2 ^ 63) by lia.
  destruct (unsigned_bytes k ev Hev Hwf _ _ Hseq (tip_of_hex entries)) as [signed Hs].
  destruct (Hsign signed) as (sg & Hsg & Hlen & Hok).
  destruct (sealed_line k ev Hev Hwf _ _ sg Hseq (tip_of_hex entries) Hok Hlen signed Hs)
    as (line & Hl & _). by exists sg, (ev ++ seq_fields (Z.of_nat (length entries)) (tip_of entries)
      ++ seal_fields (sha256_hex signed) sg), signed, line.
Qed.

Lemma made_octets k ev entries sg record signed line :
  event_spec k ev -> wf_dict ev -> Z.of_nat (length entries) < 2 ^ 63 -> bytes_ok sg ->
  made ev entries sg record signed line -> bytes_ok line.
Proof.
  intros Hev Hwf Hn Hok [Hs Hsg Hlen -> Hl].
  assert (Hseq : 0 <= Z.of_nat (length entries) < 2 ^ 63) by lia.
  destruct (sealed_line k ev Hev Hwf _ _ sg Hseq (tip_of_hex entries) Hok Hlen signed Hs) as (line' & Hl' & _ & _ & Hb).
  rewrite Hl in Hl'. by injection Hl' as <-.
Qed.

Lemma made_stored k ev entries sg record signed line :
  event_spec k ev -> wf_dict ev -> Z.of_nat (length entries) < 2 ^ 63 -> bytes_ok sg ->
  made ev entries sg record signed line ->
  stored k (Z.of_nat (length entries)) (tip_of entries) (norm_pydict record) signed line /\
  Forall (fun c => c <> LF) line /\ event_part (norm_pydict record) = norm_pydict ev.
Proof.
  intros Hev Hwf Hn Hok [Hs Hsg Hlen -> Hl].
  assert (Hseq : 0 <= Z.of_nat (length entries) < 2 ^ 63) by lia.
  destruct (sealed_line k ev Hev Hwf _ _ sg Hseq (tip_of_hex entries) Hok Hlen signed Hs)
    as (line' & Hl' & Hst & Hlf & _).
  rewrite Hl in Hl'. injection Hl' as <-. split; [done|]. split; [done|].
  unfold event_part. rewrite dfilter_norm_pydict.
  - change (dfilter _ ?d) with (event_part d). by rewrite (event_part_signed k ev Hev).
  - apply wf_dict_spec. apply (wf_sealed k); try done; [apply tip_of_hex|apply sha256_hex_lower].
Qed.

Definition good_environment : environment := Environment true true AppendComplete.

Lemma log_event_Ok env event store record store' :
  log_event sign env event store = (Ok record, store') <->
  env = good_environment /\
  exists k ev entries sg signed line,
    event = to_dict ev /\ event_spec k ev /\ chain_store (kind_version k) store entries /\
    made ev entries sg record signed line /\
    store' = Some (default [] store ++ line ++ [LF]).
Proof.
  unfold log_event, good_environment. split.
  - destruct (validate_event event) as [ev|] eqn:Ev; [|done].
    apply validate_event_Ok in Ev as (-> & k & Hev).
    destruct env as [[] [] ap]; cbn [negb env_mkdir env_lock env_append]; [|done..].
    destruct (prepare_record sign ev store) as [[r l]|] eqn:Ep; [|done].
    apply (prepare_record_Ok k) in Ep as (entries & sg & signed & line & Hc & Hm & ->); [|done].
    destruct ap; cbn; try done. intros [= <- <-]. split; [done|].
    by exists k, ev, entries, sg, signed, line.
  - intros (-> & k & ev & entries & sg & signed & line & -> & Hev & Hc & Hm & ->).
    rewrite (proj2 (validate_event_Ok _ ev)) by eauto. cbn [negb env_mkdir env_lock env_append].
    rewrite (proj2 (prepare_record_Ok k ev store record (line ++ [LF]) Hev)); [done|].
    by exists entries, sg, signed, line.
Qed.
End log_event.

Lemma log_event_total sign k ev store entries :
  event_spec k ev -> wf_dict ev -> chain_store (kind_version k) store entries ->
  Z.of_nat (length entries) < 2 ^ 63 ->
  (forall data, exists sg, sign data = SignBytes sg /\ length sg = 64%nat /\ bytes_ok sg) ->
  exists record store', log_event sign good_environment (to_dict ev) store = (Ok record, store').
Proof.
  intros Hev Hwf Hc Hn Hsign.
  destruct (made_total sign k ev entries Hev Hwf Hn Hsign) as (sg & record & signed & line & Hm).
  exists record, (Some (default [] store ++ line ++ [LF])). apply log_event_Ok. split; [done|].
  by exists k, ev, entries, sg, signed, line.
Qed.

(** A successful call extends the chain by the record, in key order. *)
Lemma log_event_grows sign env ev store record store' :
  wf_dict ev -> (forall data sg, sign data = SignBytes sg -> bytes_ok sg) ->
  (forall v entries, chain_store v store entries -> Z.of_nat (length entries) < 2 ^ 63) ->
  log_event sign env (to_dict ev) store = (Ok record, store') ->
  exists k entries sg signed line,
    event_spec k ev /\ chain_store (kind_version k) store entries /\
    made sign ev entries sg record signed line /\
    Forall (fun c => c <> LF) line /\ store' = Some (default [] store ++ line ++ [LF]) /\
    event_part (norm_pydict record) = norm_pydict ev /\
    chain_store (kind_version k) store' (entries ++ [(norm_pydict record, signed)]).
Proof.
  intros Hwf Hsg Hn (_ & k & ev' & entries & sg & signed & line & He & Hev & Hc & Hm & ->)%log_event_Ok.
  apply to_dict_inj in He as <-.
  destruct (made_stored sign k ev entries sg record signed line) as (Hs & Hlf & Hp);
    [done|done|by eapply Hn|by eapply Hsg, mk_sign|done|].
  exists k, entries, sg, signed, line. split_and!; try done. by apply chain_store_grow.
Qed.

(** The file of a call that returns is a file of octets. *)
Lemma log_event_octets sign env ev store record store' :
  wf_dict ev -> (forall data sg, sign data = SignBytes sg -> bytes_ok sg) ->
  (forall v entries, chain_store v store entries -> Z.of_nat (length entries) < 2 ^ 63) ->
  log_event sign env (to_dict ev) store = (Ok record, store') -> bytes_ok (default [] store) ->
  exists content, store' = Some content /\ bytes_ok content.
Proof.
  intros Hwf Hsg Hn (_ & k & ev' & entries & sg & signed & line & He & Hev & Hc & Hm & ->)%log_event_Ok Hb.
  apply to_dict_inj in He as <-. eexists. split; [done|]. apply Forall_app_2; [done|]. apply Forall_app_2; [|by repeat constructor].
  eapply made_octets; [done|done|by eapply Hn|by eapply Hsg, mk_sign|done].
Qed.

(** What a call can do to the file, whatever it returns. *)
Lemma log_event_file sign env event store result store' :
  log_event sign env event store = (result, store') ->
  store' = store \/
  exists ev record line, validate_event event = Ok ev /\
    prepare_record sign ev store = Ok (record, line) /\
    ((env_append env = AppendComplete /\ result = Ok record /\ store' = Some (default [] store ++ line)) \/
     (exists n, env_append env = WriteFailed n /\ result = Err (AppendError AppendOSError) /\
        store' = Some (default [] store ++ take n line))).
Proof.
  unfold log_event. destruct (validate_event event) as [ev|e]; [|intros [= <- <-]; by left].
  destruct env as [[] [] ap]; cbn; try (intros [= <- <-]; by left).
  destruct (prepare_record sign ev store) as [[r l]|e] eqn:Ep; [|intros [= <- <-]; by left].
  destruct ap as [| |n]; cbn; intros [= <- <-]; [right|by left|right].
  - exists ev, r, l. split; [done|]. split; [done|]. by left.
  - exists ev, r, l. split; [done|]. split; [done|]. right. by exists n.
Qed.
