(* ===== verification/CheckFacts.v ===== *)
(** The verifier: what [verify_chain] accepts, and what a chain commits to. *)

From stdpp Require Import sorting.
From S2P Require Import Prelude.
From S2P Require Import PyText.
From S2P Require Import Binary64.
From S2P Require Import PyValue.
From S2P Require Import JsonDumps.
From S2P Require Import JsonLoads.
From S2P Require Import JsonLoadsFacts.
From S2P Require Import Sha256.
From S2P Require Import Timestamp.
From S2P Require Import RecordFormat.
From S2P Require Import EventSpec.
From S2P Require Import RecordFacts.
From S2P Require Import CanonicalBytes.
From S2P Require Import RecordLaws.
From S2P Require Import ChainStore.
From S2P Require Import ChainSpec.
From S2P Require Import ChainLogger.
From S2P Require Import ChainCheck.
From S2P Require Import LoggerFacts.

(** ** Reading a whole chain *)

(** [list(iter_validated_records(path))], without the line numbers. *)
Definition read_chain (store : file) : res store_exn (list (pydict * bytes)) :=
  iter_validated_records (fun e => e)
    (fun entries _ record signed => Ok (entries ++ [(record, signed)])) store [].

Lemma run_collect {E} n entries acc :
  run_entries (E := E) (fun es _ r s => Ok (es ++ [(r, s)])) n entries acc = Ok (acc ++ entries).
Proof.
  revert n acc; induction entries as [|[r s] entries IH]; intros n acc; cbn [run_entries].
  - by rewrite app_nil_r.
  - rewrite Ok_bind, IH. by rewrite <- app_assoc.
Qed.

Lemma read_chain_Ok store entries :
  read_chain store = Ok entries <-> exists v, chain_store v store entries.
Proof.
  unfold read_chain. rewrite iter_validated_records_Ok. split.
  - intros (v & es & Hc & Hr). rewrite run_collect in Hr. injection Hr as <-. eauto.
  - intros (v & Hc). exists v, entries. by rewrite run_collect.
Qed.

(** ** [verify_chain] *)

Section verify.
Context (verify : bytes -> bytes -> bool).

(** The signature text of the record decodes and verifies. *)
Definition signature_ok (entry : pydict * bytes) : Prop :=
  exists sg, bytes_fromhex (str_item entry.1 (u "signature")) = Some sg /\
    verify sg entry.2 = true.

Definition last_hash (entries : list (pydict * bytes)) : option pystr :=
  match entries with [] => None | _ => Some (tip_of entries) end.

Lemma verify_body_Ok s n r signed s' :
  verify_body verify s n r signed = Ok s' <->
  signature_ok (r, signed) /\
  s' = {| records_verified := records_verified s + 1;
          tip_hash := Some (str_item r (u "record_hash")) |}.
Proof.
  unfold verify_body, signature_ok. cbn [fst snd].
  destruct (bytes_fromhex _) as [sg|]; [|naive_solver].
  rewrite then_Ok, ensure_Ok. naive_solver.
Qed.

(** The result when the loop started from [s] behind the hash [prev]. *)
Definition verified (s : VerificationResult) (prev : pystr) (entries : list (pydict * bytes)) :=
  {| records_verified := records_verified s + Z.of_nat (length entries);
     tip_hash := match entries with [] => tip_hash s | _ => Some (tip_from prev entries) end |}.

Lemma verified_cons s prev r signed entries :
  verified {| records_verified := records_verified s + 1; tip_hash := Some (sha256_hex signed) |}
    (sha256_hex signed) entries = verified s prev ((r, signed) :: entries).
Proof.
  unfold verified. cbn [records_verified tip_hash length tip_from]. f_equal; [lia|].
  by destruct entries.
Qed.

Lemma run_verify v seq prev lines entries n s s' :
  linked v seq prev lines entries ->
  run_entries (verify_body verify) n entries s = Ok s' <->
  Forall signature_ok entries /\ s' = verified s prev entries.
Proof.
  intros Hl. revert n s. induction Hl as [|k seq prev r signed line lines entries Hv Hs Hl IH];
    intros n s; cbn [run_entries].
  - unfold verified. cbn [length]. rewrite Z.add_0_r. destruct s. cbn.
    split; [by intros [= <-]|]. by intros [_ ->].
  - rewrite bind_Ok, Forall_cons, <- (verified_cons s prev r).
    setoid_rewrite verify_body_Ok. unfold str_item. rewrite (st_hash _ _ _ _ _ _ Hs). split.
    + intros (s1 & [H1 ->] & H). apply IH in H as [Hf ->]. tauto.
    + intros [[H1 Hf] ->]. eexists. split; [split; [exact H1|reflexivity]|]. by apply IH.
Qed.

Lemma verify_chain_Ok is_key lock store result :
  verify_chain verify is_key lock store = Ok result <->
  is_key = true /\ lock = true /\ exists content v entries,
    store = Some content /\ chain_store v store entries /\ Forall signature_ok entries /\
    result = {| records_verified := Z.of_nat (length entries); tip_hash := last_hash entries |}.
Proof.
  unfold verify_chain. rewrite !then_Ok, !ensure_Ok, iter_validated_records_Ok. split.
  - intros (-> & Hs & -> & v & entries & Hc & Hr). destruct store as [content|]; [|done].
    split; [done|]. split; [done|]. apply (run_verify _ _ _ _ _ _ _ _ Hc) in Hr as [Hf ->].
    exists content, v, entries. done.
  - intros (-> & -> & content & v & entries & -> & Hc & Hf & ->). split_and!; try done.
    exists v, entries. split; [done|]. apply (run_verify _ _ _ _ _ _ _ _ Hc).
    split; [done|]. by destruct entries.
Qed.
End verify.

(** ** Positions of a chain *)

Lemma linked_lookup v seq prev lines entries i r signed :
  linked v seq prev lines entries -> entries !! i = Some (r, signed) ->
  exists k line, kind_version k = v /\ lines !! i = Some (line ++ [LF]) /\
    stored k (seq + Z.of_nat i) (tip_from prev (take i entries)) r signed line.
Proof.
  intros Hl. revert i. induction Hl as [|k seq prev r' signed' line lines entries Hv Hs Hl IH];
    intros [|i] Hi; try done.
  - injection Hi as -> ->. exists k, line. rewrite Z.add_0_r. split; [done|]. split; [done|done].
  - apply IH in Hi as (k' & line' & Hv' & Hin & Hs'). exists k', line'. split; [done|].
    split; [done|]. cbn [take tip_from].
    by replace (seq + Z.of_nat (S i)) with (seq + 1 + Z.of_nat i) by lia.
Qed.

Lemma chain_lookup v store entries i r signed :
  chain_store v store entries -> entries !! i = Some (r, signed) ->
  exists k line, kind_version k = v /\ physical_lines (default [] store) !! i = Some (line ++ [LF]) /\
    stored k (Z.of_nat i) (tip_of (take i entries)) r signed line.
Proof.
  intros Hc Hi. destruct store as [content|]; cbn in Hc; [|by subst].
  by apply (linked_lookup _ _ _ _ _ i r signed Hc).
Qed.

Lemma physical_lines_ok b line : bytes_ok b -> line ∈ physical_lines b -> bytes_ok line.
Proof.
  intros Hb Hl. rewrite <- (physical_lines_concat b) in Hb. unfold bytes_ok in *.
  rewrite Forall_concat in Hb. rewrite Forall_forall in Hb. auto.
Qed.

Lemma stored_wf k seq prev r signed line :
  bytes_ok line -> stored k seq prev r signed line -> wf_dict r /\ norm_pydict r = r.
Proof.
  intros Hb Hs. assert (Hw : wf_dict r) by (eapply loads_bytes_wf; [done|apply Hs]).
  split; [done|]. pose proof (canonical_bytes r line Hw (st_line _ _ _ _ _ _ Hs)) as Hc.
  pose proof (cb_loads _ _ Hc) as Hl. rewrite (st_loads _ _ _ _ _ _ Hs) in Hl.
  injection Hl as Hl. symmetry. by apply of_str_keys_inj.
Qed.

(** The signed bytes determine the unsigned record, so its position and its link. *)
Lemma stored_signed_inj k k' seq seq' prev prev' r r' signed line line' :
  bytes_ok line -> bytes_ok line' ->
  stored k seq prev r signed line -> stored k' seq' prev' r' signed line' ->
  unsigned_part r = unsigned_part r' /\ seq = seq' /\ prev = prev'.
Proof.
  intros Hb Hb' Hs Hs'. destruct (stored_wf _ _ _ _ _ _ Hb Hs) as [Hw Hn].
  destruct (stored_wf _ _ _ _ _ _ Hb' Hs') as [Hw' Hn'].
  assert (Hu : unsigned_part r = unsigned_part r').
  { rewrite <- Hn, <- Hn'. unfold unsigned_part. rewrite !dfilter_norm_pydict
      by (by apply wf_dict_spec in Hw as [? _]; apply wf_dict_spec in Hw' as [? _]).
    apply (canonical_bytes_inj _ _ signed); try apply wf_dict_dfilter; try done; [apply Hs|apply Hs']. }
  assert (Hg : forall f, mem f [u "record_hash"; u "signature"] = false -> dget f r = dget f r').
  { intros f Hf. apply (f_equal (dget f)) in Hu. unfold unsigned_part in Hu.
    by rewrite !dget_dfilter, Hf in Hu. }
  split; [done|]. split.
  - pose proof (Hg (u "seq") eq_refl) as E.
    rewrite (st_seq _ _ _ _ _ _ Hs), (st_seq _ _ _ _ _ _ Hs') in E. by injection E.
  - pose proof (Hg (u "prev_hash") eq_refl) as E.
    rewrite (st_prev _ _ _ _ _ _ Hs), (st_prev _ _ _ _ _ _ Hs') in E. by injection E.
Qed.

(** ** Two chains with the same tip *)

Lemma chain_length v seq prev lines entries :
  linked v seq prev lines entries -> length lines = length entries.
Proof. induction 1; cbn; congruence. Qed.

(** Two different octet strings with the same digest, among the signed bytes. *)
Definition collision (e1 e2 : list (pydict * bytes)) : Prop :=
  exists a b, a ∈ map snd e1 /\ b ∈ map snd e2 /\ a <> b /\ sha256 a = sha256 b.

Lemma collision_mono e1 e2 e1' e2' :
  (forall x, x ∈ e1 -> x ∈ e1') -> (forall x, x ∈ e2 -> x ∈ e2') ->
  collision e1 e2 -> collision e1' e2'.
Proof.
  intros H1 H2 (a & b & Ha & Hb & Hne & Heq). exists a, b.
  apply list_elem_of_fmap in Ha as (x & -> & Hx). apply list_elem_of_fmap in Hb as (y & -> & Hy).
  split_and!; try done; apply (list_elem_of_fmap_2 snd); auto.
Qed.

(** The facts about the last entry of a chain. *)
Lemma linked_last_entry v lines entries r signed :
  Forall bytes_ok lines -> linked v 0 GENESIS_PREV_HASH lines (entries ++ [(r, signed)]) ->
  exists k line, bytes_ok line /\ stored k (Z.of_nat (length entries)) (tip_of entries) r signed line.
Proof.
  intros Hb Hc. destruct (linked_lookup _ _ _ _ _ (length entries) r signed Hc) as (k & line & _ & Hl & Hs).
  { rewrite lookup_app_r by lia. by rewrite Nat.sub_diag. }
  exists k, line. rewrite take_app_length in Hs. split; [|done].
  apply list_elem_of_lookup_2 in Hl. rewrite Forall_forall in Hb. apply Hb in Hl.
  by apply Forall_app in Hl as [? _].
Qed.

Lemma tip_of_snoc entries r signed : tip_of (entries ++ [(r, signed)]) = sha256_hex signed.
Proof. unfold tip_of. by rewrite tip_from_app. Qed.

Definition same_signed (e1 e2 : list (pydict * bytes)) : Prop :=
  map snd e1 = map snd e2 /\
  map (fun e => unsigned_part e.1) e1 = map (fun e => unsigned_part e.1) e2.

(** A prefix of the entries of a chain is a chain of the first lines. *)
Lemma linked_take v seq prev lines entries i :
  linked v seq prev lines entries -> linked v seq prev (take i lines) (take i entries).
Proof.
  intros H. revert i. induction H; intros [|i]; cbn [take]; try constructor.
  econstructor; eauto.
Qed.

Lemma last_entries_agree v1 v2 l1 l2 e1 e2 r1 r2 s1 s2 :
  Forall bytes_ok l1 -> Forall bytes_ok l2 ->
  linked v1 0 GENESIS_PREV_HASH l1 (e1 ++ [(r1, s1)]) ->
  linked v2 0 GENESIS_PREV_HASH l2 (e2 ++ [(r2, s2)]) ->
  sha256_hex s1 = sha256_hex s2 ->
  (s1 = s2 /\ unsigned_part r1 = unsigned_part r2 /\ length e1 = length e2 /\ tip_of e1 = tip_of e2)
  \/ collision (e1 ++ [(r1, s1)]) (e2 ++ [(r2, s2)]).
Proof.
  intros B1 B2 H1 H2 Ht. destruct (decide (s1 = s2)) as [->|Hne].
  - left. destruct (linked_last_entry _ _ _ _ _ B1 H1) as (k1 & n1 & Hb1 & Hs1).
    destruct (linked_last_entry _ _ _ _ _ B2 H2) as (k2 & n2 & Hb2 & Hs2).
    destruct (stored_signed_inj _ _ _ _ _ _ _ _ _ _ _ Hb1 Hb2 Hs1 Hs2) as (Hu & Hq & Hp).
    split_and!; try done. lia.
  - right. exists s1, s2. rewrite !map_app, !elem_of_app. split_and!; try done.
    1-2: right; left. by apply sha256_hex_inj.
Qed.

Lemma tips_agree v1 v2 l1 l2 e1 e2 :
  Forall bytes_ok l1 -> Forall bytes_ok l2 ->
  linked v1 0 GENESIS_PREV_HASH l1 e1 -> linked v2 0 GENESIS_PREV_HASH l2 e2 ->
  length e1 = length e2 -> tip_of e1 = tip_of e2 -> same_signed e1 e2 \/ collision e1 e2.
Proof.
  revert l1 l2 e2. induction e1 as [|[r1 s1] e1 IH] using rev_ind; intros l1 l2 e2 B1 B2 H1 H2 Hlen Ht.
  { destruct e2; [by left|done]. }
  destruct e2 as [|[r2 s2] e2 _] using rev_ind; [rewrite length_app in Hlen; cbn in Hlen; lia|].
  rewrite !tip_of_snoc in Ht.
  destruct (last_entries_agree _ _ _ _ _ _ _ _ _ _ B1 B2 H1 H2 Ht) as [(-> & Hu & Hl & Hp)|]; [|by right].
  apply (linked_take _ _ _ _ _ (length e1)) in H1. rewrite take_app_length in H1.
  apply (linked_take _ _ _ _ _ (length e2)) in H2. rewrite take_app_length in H2.
  destruct (IH _ _ e2 (Forall_take _ _ _ B1) (Forall_take _ _ _ B2) H1 H2 Hl Hp) as [[Hs Hus]|Hc].
  - left. split; rewrite !map_app; cbn [map fst snd]; congruence.
  - right. eapply collision_mono; [| |exact Hc]; intros x Hx; apply elem_of_app; by left.
Qed.

(** Non-empty chains with the same tip have the same length, or collide. *)
Lemma tips_commit v1 v2 l1 l2 e1 e2 :
  Forall bytes_ok l1 -> Forall bytes_ok l2 ->
  linked v1 0 GENESIS_PREV_HASH l1 e1 -> linked v2 0 GENESIS_PREV_HASH l2 e2 ->
  last_hash e1 = last_hash e2 -> same_signed e1 e2 \/ collision e1 e2.
Proof.
  intros B1 B2 H1 H2 Ht.
  destruct e1 as [|[r1 s1] e1 _] using rev_ind.
  { destruct e2 as [|x e2]; [by left|done]. }
  destruct e2 as [|[r2 s2] e2 _] using rev_ind; [by destruct e1|].
  assert (Ht' : sha256_hex s1 = sha256_hex s2).
  { rewrite <- (tip_of_snoc e1 r1), <- (tip_of_snoc e2 r2).
    unfold last_hash in Ht. destruct e1, e2; cbn [app] in *; by injection Ht. }
  destruct (last_entries_agree _ _ _ _ _ _ _ _ _ _ B1 B2 H1 H2 Ht') as [(-> & _ & Hl & _)|]; [|by right].
  apply (tips_agree v1 v2 l1 l2); try done; [rewrite !length_app; cbn; lia|by rewrite !tip_of_snoc].
Qed.

(** ** Chains made of the signed bytes of another chain *)

Lemma lookup_snd i (es : list (pydict * bytes)) s :
  map snd es !! i = Some s <-> exists r, es !! i = Some (r, s).
Proof.
  rewrite list_lookup_fmap. destruct (es !! i) as [[r' s']|]; cbn; naive_solver.
Qed.

Lemma signed_subset_prefix v v0 l l0 e e0 :
  Forall bytes_ok l -> Forall bytes_ok l0 ->
  linked v 0 GENESIS_PREV_HASH l e -> linked v0 0 GENESIS_PREV_HASH l0 e0 ->
  (forall r s, (r, s) ∈ e -> s ∈ map snd e0) -> same_signed e (take (length e) e0).
Proof.
  intros B B0 H H0 Hsub.
  assert (Hpt : forall i r s, e !! i = Some (r, s) ->
    exists r', e0 !! i = Some (r', s) /\ unsigned_part r = unsigned_part r').
  { intros i r s Hi. destruct (linked_lookup _ _ _ _ _ _ _ _ H Hi) as (k & n & _ & Hn & Hs).
    pose proof (Hsub r s (list_elem_of_lookup_2 _ _ _ Hi)) as Hin.
    apply list_elem_of_lookup in Hin as [j [r' Hj]%lookup_snd].
    destruct (linked_lookup _ _ _ _ _ _ _ _ H0 Hj) as (k0 & n0 & _ & Hn0 & Hs0).
    assert (Hb : forall ls x, Forall bytes_ok ls -> x ++ [LF] ∈ ls -> bytes_ok x).
    { intros ls x Hls Hx. rewrite Forall_forall in Hls. apply Hls in Hx. by apply Forall_app in Hx as [? _]. }
    destruct (stored_signed_inj _ _ _ _ _ _ _ _ _ _ _
      (Hb _ _ B (list_elem_of_lookup_2 _ _ _ Hn)) (Hb _ _ B0 (list_elem_of_lookup_2 _ _ _ Hn0)) Hs Hs0)
      as (Hu & Hij & _).
    exists r'. split; [|done]. by replace i with j by lia. }
  assert (Hgen : forall (A : Type) (f : pydict * bytes -> A),
    (forall i x, e !! i = Some x -> exists y, e0 !! i = Some y /\ f x = f y) ->
    map f e = map f (take (length e) e0)).
  { intros A f Hf. apply list_eq. intros i. rewrite !list_lookup_fmap.
    destruct (e !! i) as [x|] eqn:Ei.
    - apply lookup_lt_Some in Ei as Hlt. destruct (Hf i x Ei) as (y & Hy & Hxy).
      rewrite lookup_take_lt, Hy by done. cbn. by rewrite Hxy.
    - apply lookup_ge_None in Ei. by rewrite lookup_take_ge by done. }
  split; apply Hgen; intros i [r s] Hi; destruct (Hpt i r s Hi) as (r' & Hr' & Hu);
    exists (r', s); auto.
Qed.

(** ** The entries determine the file *)

Lemma linked_lines v v' seq prev l l' entries :
  linked v seq prev l entries -> linked v' seq prev l' entries -> l = l'.
Proof.
  intros H. revert v' l'. induction H as [|k seq prev r signed line lines entries Hv Hs Hl IH];
    intros v' l' H'; inversion H' as [|k' ? ? ? ? line' lines' ? Hv' Hs' Hl']; subst; [done|].
  pose proof (st_line _ _ _ _ _ _ Hs) as E. rewrite (st_line _ _ _ _ _ _ Hs') in E.
  injection E as ->. f_equal. eauto.
Qed.

(** ** Where reading stops *)

Definition errs_at {A} (n : Z) (m : res store_exn A) : Prop :=
  match m with Err (StoreError k _) => k = n | _ => True end.

Lemma errs_at_bind {A B} n (m : res store_exn A) (f : A -> res store_exn B) :
  errs_at n m -> (forall a, errs_at n (f a)) -> errs_at n (m ≫= f).
Proof. destruct m as [a|e]; cbn; auto. Qed.

Lemma errs_at_ensure n b reason : errs_at n (ensure b (StoreError n reason)).
Proof. by destruct b. Qed.

Lemma errs_at_format {A} n (m : fres A) : errs_at n (map_err StoreFormat m).
Proof. by destruct m. Qed.

Lemma errs_at_parse n line : errs_at n (parse_record n line).
Proof. unfold parse_record. by repeat case_match. Qed.

(** A [StoreError] names the line being read. *)
Lemma check_line_number st n pl : errs_at n (check_line st n pl).
Proof.
  unfold check_line. repeat first [apply errs_at_ensure|apply errs_at_format|apply errs_at_parse
    |apply errs_at_bind; [|intros ?]|case_match]; done.
Qed.

Lemma collect_Err o seq prev lines n acc e :
  iterate (fun e => e) (fun es _ r s => Ok (es ++ [(r, s)])) (state_at o seq prev) n lines acc = Err e ->
  exists v i entries pl, version_fits o v /\ lines !! i = Some pl /\
    linked v seq prev (take i lines) entries /\
    check_line (state_at (if decide (i = O) then o else Some v) (seq + Z.of_nat i) (tip_from prev entries))
      (n + Z.of_nat i) pl = Err e.
Proof.
  revert o seq prev n acc. induction lines as [|pl lines IH]; intros o seq prev n acc; [done|].
  cbn [iterate]. intros H. apply bind_Err in H as [(e' & H & ->)%map_err_Err|([[r s] st] & H & H')].
  - exists (default 0 o), O, [], pl. split; [by destruct o|]. split; [done|]. split; [constructor|].
    cbn. by rewrite !Z.add_0_r.
  - apply map_err_Ok, check_line_Ok in H as (k & line & -> & Hs & Hv & _ & ->).
    rewrite Ok_bind in H'. apply IH in H' as (v & i & entries & pl & Hv' & Hi & Hl & Hc).
    cbn in Hv'. subst v. exists (kind_version k), (S i), ((r, s) :: entries), pl.
    split; [done|]. split; [done|]. split; [by econstructor|]. cbn [decide tip_from].
    replace (seq + Z.of_nat (S i)) with (seq + 1 + Z.of_nat i) by lia.
    replace (n + Z.of_nat (S i)) with (n + 1 + Z.of_nat i) by lia.
    by destruct (decide (i = O)).
Qed.

(** ** The writer's records pass the verifier *)

Lemma made_signature_ok sign verify k ev entries sg record signed line :
  event_spec k ev -> wf_dict ev -> Z.of_nat (length entries) < 2 ^ 63 -> bytes_ok sg ->
  (forall data sg, sign data = SignBytes sg -> length sg = 64%nat -> verify sg data = true) ->
  made sign ev entries sg record signed line -> signature_ok verify (norm_pydict record, signed).
Proof.
  intros Hev Hwf Hn Hok Hver [Hs Hsg Hlen -> Hl]. exists sg. cbn [fst snd]. split; [|by apply Hver].
  unfold str_item. rewrite dget_norm_pydict.
  - rewrite (dget_app_event k ev Hev (u "signature")) by done. cbn.
    by apply bytes_fromhex_hex.
  - assert (Hw : wf_dict (ev ++ seq_fields (Z.of_nat (length entries)) (tip_of entries)
                    ++ seal_fields (sha256_hex signed) sg))
      by (apply (wf_sealed k); try done; [apply tip_of_hex|apply sha256_hex_lower]).
    by apply wf_dict_spec in Hw as [? _].
Qed.

Lemma made_line_ok sign k ev entries sg record signed line :
  event_spec k ev -> wf_dict ev -> Z.of_nat (length entries) < 2 ^ 63 -> bytes_ok sg ->
  made sign ev entries sg record signed line -> bytes_ok (line ++ [LF]).
Proof.
  intros Hev Hwf Hn Hok Hm. apply Forall_app_2; [|by repeat constructor].
  destruct Hm as [Hs Hsg Hlen -> Hl].
  apply (cb_bytes _ _ (canonical_bytes _ line (wf_sealed k ev Hev Hwf _ _ sg (tip_of_hex entries) Hok Hlen
    _ (sha256_hex_lower signed)) Hl)).
Qed.

(** ** One call of the writer *)

Definition no_torn_write (env : environment) : bool :=
  match env_append env with WriteFailed _ => false | _ => true end.

(** A signer whose signatures are octets that the key verifies. *)
Definition good_signer (verify : bytes -> bytes -> bool) (sign : bytes -> sign_result) : Prop :=
  forall data sg, sign data = SignBytes sg -> bytes_ok sg /\ (length sg = 64%nat -> verify sg data = true).

(** Without a torn write, a call grows a verified chain by what it returned. *)
Lemma log_event_step sign verify env event store v entries result store' :
  (forall ev, event = to_dict ev -> wf_dict ev) -> no_torn_write env = true -> good_signer verify sign ->
  Z.of_nat (length entries) < 2 ^ 63 -> chain_store v store entries -> Forall (signature_ok verify) entries ->
  log_event sign env event store = (result, store') ->
  exists v' new, chain_store v' store' (entries ++ new) /\ Forall (signature_ok verify) (entries ++ new) /\
    map fst new = match result with Ok r => [norm_pydict r] | Err _ => [] end.
Proof.
  intros Hwf Htorn Hsign Hn Hc Hf E. destruct result as [record|e].
  - assert (Hev : exists ev, event = to_dict ev)
      by (apply log_event_Ok in E as (_ & _ & ev & _ & _ & _ & _ & -> & _); by exists ev).
    destruct Hev as [ev ->]. specialize (Hwf ev eq_refl).
    assert (Hbound : forall v0 es, chain_store v0 store es -> Z.of_nat (length es) < 2 ^ 63).
    { intros v0 es He. destruct (chain_store_fun _ _ _ _ _ He Hc) as [-> _]. lia. }
    destruct (log_event_grows sign env ev store record store' Hwf (fun d g H => proj1 (Hsign d g H)) Hbound E)
      as (k & es & sg & signed & line & Hev & Hc0 & Hm & _ & _ & _ & Hc1).
    destruct (chain_store_fun _ _ _ _ _ Hc0 Hc) as [-> _].
    exists (kind_version k), [(norm_pydict record, signed)]. split; [done|]. split; [|done].
    apply Forall_app_2; [done|]. constructor; [|constructor].
    eapply made_signature_ok; [exact Hev|exact Hwf|exact Hn|eapply Hsign, mk_sign, Hm| |exact Hm].
    intros data g Hg. by apply (Hsign data g Hg).
  - assert (store' = store) as ->.
    { apply log_event_file in E as [->|(ev' & r & l & _ & _ & [(_ & [=] & _)|(n & Hw & _)])]; [done|].
      unfold no_torn_write in Htorn. by rewrite Hw in Htorn. }
    exists v, []. by rewrite app_nil_r.
Qed.
