(* ===== verification/Samples.v ===== *)
(** Concrete events, a signer and a verification key, used to show that the
    hypotheses of the theorems can hold. *)

From S2P Require Import Prelude.
From S2P Require Import PyText.
From S2P Require Import Binary64.
From S2P Require Import PyValue.
From S2P Require Import JsonDumps.
From S2P Require Import Sha256.
From S2P Require Import Timestamp.
From S2P Require Import RecordFormat.
From S2P Require Import EventSpec.
From S2P Require Import RecordFacts.
From S2P Require Import CanonicalBytes.
From S2P Require Import RecordLaws.
From S2P Require Import ChainStore.
From S2P Require Import ChainSpec.
From S2P Require Import ChainLogger.
From S2P Require Import ChainCheck.
From S2P Require Import LoggerFacts.
From S2P Require Import CheckFacts.

(** The event of the interoperability vector of [forensics/CHAIN_FORMAT.md]. *)
Definition vector_event : pydict := Eval vm_compute in
  [ (u "format_version", PInt 2);
    (u "event_type", PStr (u "classification_decision"));
    (u "ts_utc", PStr (u "2026-07-13T12:00:00Z"));
    (u "node_id", PStr (u "node-01"));
    (u "raw_csi_hash", PStr (repeat 49 64));
    (u "features_hash", PStr (repeat 50 64));
    (u "model_id", PStr (u "model-v1"));
    (u "model_config_hash", PStr (repeat 51 64));
    (u "class", PStr (u "normal"));
    (u "confidence", PFloat (dec_to_float false 875 (-3)));
    (u "top_shap", PList []) ].

(** An accepted packet, and an event of version 1. *)
Definition ingestion_event : pydict := Eval vm_compute in
  [ (u "format_version", PInt 2);
    (u "event_type", PStr (u "ingestion_accepted"));
    (u "ts_utc", PStr (u "2026-07-13T12:00:00.5Z"));
    (u "node_id", PStr (u "node-01"));
    (u "raw_csi_hash", PStr (repeat 49 64));
    (u "collector_schema_version", PStr (u "1.0.0"));
    (u "collector_sequence_number", PInt 7) ].

Definition v1_event : pydict := Eval vm_compute in
  List.filter (fun kv => negb (mem kv.1 [u "format_version"; u "event_type"])) vector_event.

(** A signer whose signature of any data is 64 fixed octets, and its key. *)
Definition toy_signature : bytes := repeat 7 64.
Definition toy_sign (data : bytes) : sign_result := SignBytes toy_signature.
Definition toy_verify (signature data : bytes) : bool := bool_decide (signature = toy_signature).

Lemma toy_sign_ok data sg : toy_sign data = SignBytes sg -> bytes_ok sg /\ length sg = 64%nat.
Proof. intros [= <-]. split; [by repeat constructor|done]. Qed.

Lemma toy_sign_total data : exists sg, toy_sign data = SignBytes sg /\ length sg = 64%nat /\ bytes_ok sg.
Proof. exists toy_signature. by pose proof (toy_sign_ok data toy_signature eq_refl) as [??]. Qed.

Lemma vector_event_spec : event_spec V2Classification vector_event.
Proof.
  assert (H : validate_event (to_dict vector_event) = Ok vector_event) by (vm_compute; reflexivity).
  apply validate_event_Ok in H as [_ (k & Hk)]. destruct k; [| |done];
    exfalso; destruct (spec_tag _ _ Hk) as [H1 H2]; vm_compute in H1, H2; congruence.
Qed.

Lemma ingestion_event_spec : event_spec V2Ingestion ingestion_event.
Proof.
  assert (H : validate_event (to_dict ingestion_event) = Ok ingestion_event) by (vm_compute; reflexivity).
  apply validate_event_Ok in H as [_ (k & Hk)]. destruct k; [|done|];
    exfalso; destruct (spec_tag _ _ Hk) as [H1 H2]; vm_compute in H1, H2; congruence.
Qed.

Lemma v1_event_spec : event_spec V1Event v1_event.
Proof.
  assert (H : validate_event (to_dict v1_event) = Ok v1_event) by (vm_compute; reflexivity).
  apply validate_event_Ok in H as [_ (k & Hk)]. destruct k; [done| |];
    exfalso; destruct (spec_tag _ _ Hk) as [H1 H2]; vm_compute in H1, H2; congruence.
Qed.

Lemma vector_event_wf : wf_dict vector_event.
Proof. by vm_compute. Qed.
Lemma ingestion_event_wf : wf_dict ingestion_event.
Proof. by vm_compute. Qed.
Lemma v1_event_wf : wf_dict v1_event.
Proof. by vm_compute. Qed.

(** A chain of one record. *)
Lemma one_record_chain k ev :
  event_spec k ev -> wf_dict ev ->
  exists content r s, chain_store (kind_version k) (Some content) [(r, s)] /\
    record_format_version r = kind_version k /\ signature_ok toy_verify (r, s) /\ bytes_ok content.
Proof.
  intros Hev Hwf.
  destruct (made_total toy_sign k ev [] Hev Hwf eq_refl toy_sign_total) as (sg & r & s & line & Hm).
  assert (Hsg : bytes_ok sg) by (eapply toy_sign_ok, mk_sign, Hm).
  destruct (made_stored toy_sign k ev [] sg r s line Hev Hwf eq_refl Hsg Hm) as (Hs & Hlf & _).
  exists (line ++ [LF]), (norm_pydict r), s. split; [|split; [|split]].
  - by apply (chain_store_grow k None []).
  - apply record_version, Hs.
  - eapply made_signature_ok; [exact Hev|exact Hwf| |exact Hsg| |exact Hm]; [done|].
    intros data sg' [= <-] _. by apply bool_decide_eq_true.
  - eapply made_line_ok; [exact Hev|exact Hwf| |exact Hsg|exact Hm]. done.
Qed.
