(* ===== verification/FormatTheorems.v ===== *)
(** The properties of the record format: which events and records are valid,
    the canonical encoding, and its interoperability vectors. *)

From stdpp Require Import sorting.
From S2P Require Import Prelude.
From S2P Require Import PyText.
From S2P Require Import Binary64.
From S2P Require Import PyValue.
From S2P Require Import JsonDumps.
From S2P Require Import JsonLoads.
From S2P Require Import JsonRoundTrip.
From S2P Require Import JsonLoadsFacts.
From S2P Require Import Sha256.
From S2P Require Import Timestamp.
From S2P Require Import RecordFormat.
From S2P Require Import EventSpec.
From S2P Require Import RecordFacts.
From S2P Require Import CanonicalBytes.
From S2P Require Import RecordLaws.
From S2P Require Import ChainLogger.
From S2P Require Import Samples.

(** ** Validation *)

(** C25: [validate_event] returns exactly on the mappings that satisfy the
    declarative specification of one of the three kinds of event (exact field
    set, tags, hashes, UTC time, confidence in [0, 1], JSON data), and returns
    the mapping itself, fields in the order of the caller. *)
Theorem validate_event_exact value event :
  validate_event value = Ok event <-> value = to_dict event /\ exists k, event_spec k event.
Proof. apply validate_event_Ok. Qed.

(** C26: [validate_stored_record] returns exactly on the dictionaries that are a
    valid event with the four managed fields in their ranges, and returns the
    dictionary itself. *)
Theorem validate_stored_record_exact value record :
  validate_stored_record value = Ok record <->
  value = to_dict record /\ exists k, record_spec k record.
Proof. apply validate_stored_record_Ok. Qed.

(** A mapping with string keys and known tags whose field set is not the
    expected one is refused with the sorted list of the missing fields, or, when
    none is missing, with the sorted list of the unknown ones. *)
Theorem validate_event_field_errors event expected :
  _event_fields event = Ok expected ->
  (forall f, f ∈ keys event <-> f ∈ expected) \/
  exists names, StronglySorted (key_le (fun x => x)) names /\
    ((validate_event (to_dict event) = Err (FormatError (EventMissingFields names)) /\
      names <> [] /\ forall f, f ∈ names <-> f ∈ expected /\ f ∉ keys event) \/
     (validate_event (to_dict event) = Err (FormatError (EventUnknownFields names)) /\
      names <> [] /\ forall f, f ∈ names <-> f ∈ keys event /\ f ∉ expected)).
Proof.
  intros Hf. cbn [validate_event to_dict]. rewrite str_keys_to_dict. unfold validate_event_dict.
  rewrite Hf, Ok_bind.
  assert (Hel : forall a b f, f ∈ sorted_names (set_diff a b) <-> f ∈ a /\ f ∉ b).
  { intros a b f. unfold sorted_names. rewrite sort_by_perm. unfold set_diff.
    by rewrite elem_of_lfilter, negb_true_iff, mem_false. }
  assert (Hne : forall l, l <> [] -> sorted_names l <> []).
  { intros l Hl Hn. apply Hl. apply Permutation_nil_r. rewrite <- Hn. symmetry. apply sort_by_perm. }
  destruct (decide (set_diff expected (keys event) = [])) as [Hm|Hm].
  - rewrite (bool_decide_eq_true_2 _ Hm). cbn [ensure]. rewrite Ok_bind.
    destruct (decide (set_diff (keys event) expected = [])) as [Hu|Hu].
    + left. rewrite set_diff_nil in Hm, Hu. intros f. split; auto.
    + right. rewrite (bool_decide_eq_false_2 _ Hu). exists (sorted_names (set_diff (keys event) expected)).
      split; [apply sort_by_sorted|]. right. split; [done|]. split; [by apply Hne|apply Hel].
  - right. rewrite (bool_decide_eq_false_2 _ Hm). exists (sorted_names (set_diff expected (keys event))).
    split; [apply sort_by_sorted|]. left. split; [done|]. split; [by apply Hne|apply Hel].
Qed.

Lemma validate_event_field_errors_witness :
  exists names, validate_event (to_dict [(u "node_id", PNone)]) = Err (FormatError (EventMissingFields names)) /\
    names <> [].
Proof.
  destruct (validate_event_field_errors [(u "node_id", PNone)] V1_EVENT_FIELDS eq_refl)
    as [H|(names & _ & [(H & Hne & _)|(H & _ & _)])].
  - exfalso. specialize (H (u "ts_utc")). destruct H as [_ H].
    assert (Hin : u "ts_utc" ∈ V1_EVENT_FIELDS) by (by left). apply H in Hin.
    by apply mem_spec in Hin.
  - exists names. split; [exact H|exact Hne].
  - exfalso. discriminate H.
Defined.

(** The format version that the store enforces is the version of the kind
    of event that was validated. *)
Theorem validated_version_is_kind value event :
  validate_event value = Ok event ->
  exists k, event_spec k event /\ record_format_version event = kind_version k /\
    (forall k', event_spec k' event -> k' = k).
Proof.
  intros [_ (k & Hk)]%validate_event_Ok. exists k. split; [done|].
  split; [apply tag_version, Hk|]. intros k' Hk'. eapply kind_tag_fun; [apply Hk'|apply Hk].
Qed.

Lemma validated_version_is_kind_witness :
  exists k, event_spec k ingestion_event /\ record_format_version ingestion_event = kind_version k.
Proof.
  destruct (validated_version_is_kind (to_dict ingestion_event) ingestion_event) as (k & Hk & Hv & _).
  - vm_compute. reflexivity.
  - exists k. split; [exact Hk|exact Hv].
Defined.

(** ** Canonical encoding *)

(** [canonical_json_bytes] never raises on a validated event. *)
Theorem validated_event_encodes value event :
  wf_val value = true -> validate_event value = Ok event ->
  exists b, canonical_json_bytes event = Ok b.
Proof.
  intros Hwf [-> (k & Hk)]%validate_event_Ok. apply canonical_bytes_total; [done|].
  apply json_value_dict. eapply event_json; [|done]. by apply wf_dict_spec in Hwf as [? _].
Qed.

Lemma validated_event_encodes_witness : exists b, canonical_json_bytes v1_event = Ok b.
Proof.
  apply (validated_event_encodes (to_dict v1_event) v1_event).
  - apply v1_event_wf.
  - vm_compute. reflexivity.
Defined.

(** C32: [json.loads] of the canonical bytes of a dictionary is the dictionary
    with its keys, and those of the dictionaries inside it, in order; encoding
    that again gives the same bytes, which hold no control octet. *)
Theorem canonical_bytes_roundtrip d b :
  wf_dict d -> canonical_json_bytes d = Ok b ->
  loads_bytes b = Ok (to_dict (norm_pydict d)) /\ canonical_json_bytes (norm_pydict d) = Ok b /\
  Forall (fun x => 32 <= x < 256) b.
Proof.
  intros Hwf H%canonical_bytes; [|done]. split; [apply H|]. split; [apply H|].
  pose proof (cb_visible _ _ H) as Hv. pose proof (cb_bytes _ _ H) as Hb. unfold bytes_ok in Hb.
  rewrite Forall_forall in Hv, Hb |- *. intros x Hx. specialize (Hv x Hx). specialize (Hb x Hx).
  unfold is_byte in Hb. cbn in Hv. zbool. lia.
Qed.

Lemma canonical_bytes_roundtrip_witness :
  exists b, canonical_json_bytes vector_event = Ok b /\
    loads_bytes b = Ok (to_dict (norm_pydict vector_event)).
Proof.
  destruct (canonical_json_bytes vector_event) as [b|e] eqn:E; [|vm_compute in E; discriminate E].
  exists b. split; [reflexivity|]. apply (canonical_bytes_roundtrip vector_event b); [|exact E].
  apply vector_event_wf.
Defined.

(** Two dictionaries with the same canonical bytes are the same up to the
    order of keys, so the record hash covers every value of a record: no two
    different values, an integer and a float included, share an encoding. *)
Theorem canonical_bytes_injective d d' b :
  wf_dict d -> wf_dict d' -> canonical_json_bytes d = Ok b -> canonical_json_bytes d' = Ok b ->
  norm_pydict d = norm_pydict d'.
Proof. apply canonical_bytes_inj. Qed.

Lemma canonical_bytes_injective_witness :
  norm_pydict [(u "b", PInt 1); (u "a", PNone)] = norm_pydict [(u "a", PNone); (u "b", PInt 1)].
Proof.
  apply (canonical_bytes_injective _ _
    [123; 34; 97; 34; 58; 110; 117; 108; 108; 44; 34; 98; 34; 58; 49; 125]); vm_compute; reflexivity.
Defined.

(** Key order is irrelevant: permuting the members of a dictionary does not
    change its canonical bytes. *)
Theorem canonical_bytes_ignore_order d d' :
  NoDup (keys d) -> d ≡ₚ d' -> canonical_json_bytes d = canonical_json_bytes d'.
Proof.
  intros Hnd Hp. unfold canonical_json_bytes, to_dict.
  change (map _ d) with (of_str_keys d). change (map _ d') with (of_str_keys d').
  rewrite !dumps_dict, !(proj2 (str_keys_Some _ _) eq_refl).
  by rewrite (sort_by_keys_perm d d').
Qed.

Lemma canonical_bytes_ignore_order_witness :
  canonical_json_bytes [(u "b", PInt 1); (u "a", PNone)]
  = canonical_json_bytes [(u "a", PNone); (u "b", PInt 1)].
Proof.
  apply (canonical_bytes_ignore_order _ _).
  - apply (bool_decide_unpack _). vm_compute. exact I.
  - apply Permutation_swap.
Defined.

(** [json.loads] as used by the chain reader and the collector is total:
    the scanner's fuel, the length of the text plus one, never runs out, and
    what it returns is a well-formed value. *)
Theorem json_loads_total b :
  loads_bytes b <> Err ScanOutOfFuel /\
  (bytes_ok b -> forall v, loads_bytes b = Ok v -> wf_val v = true).
Proof. split; [apply loads_bytes_fuel|]. intros Hb v. by apply loads_bytes_wf. Qed.

(** ** Interoperability *)

(** Text written with apostrophes for quotation marks. *)
Definition quoted (s : pystr) : pystr := map (fun c => if c =? 39 then 34 else c) s.

(** The [record_bytes] of the vector in [forensics/CHAIN_FORMAT.md]. *)
Definition vector_record_bytes : bytes := Eval vm_compute in quoted (
  u "{'class':'normal'," ++
  u "'confidence':0.875," ++
  u "'event_type':'classification_decision'," ++
  u "'features_hash':'2222222222222222222222222222222222222222222222222222222222222222'," ++
  u "'format_version':2," ++
  u "'model_config_hash':'3333333333333333333333333333333333333333333333333333333333333333'," ++
  u "'model_id':'model-v1'," ++
  u "'node_id':'node-01'," ++
  u "'prev_hash':'0000000000000000000000000000000000000000000000000000000000000000'," ++
  u "'raw_csi_hash':'1111111111111111111111111111111111111111111111111111111111111111'," ++
  u "'seq':0," ++
  u "'top_shap':[]," ++
  u "'ts_utc':'2026-07-13T12:00:00Z'}").

(** The unsigned genesis record of the interoperability vector has exactly
    the published octets and the published SHA-256. *)
Theorem interoperability_vector :
  hash_unsigned_record (unsigned_record vector_event 0 GENESIS_PREV_HASH)
  = Ok (vector_record_bytes, u "a3cf276f603ad38d4c36c6319a47f1aaf618ace6c00a5da65d33cbd3caaa6efb").
Proof. vm_compute. reflexivity. Qed.
