(* ===== verification/FloatTheorems.v ===== *)
(** The properties of float canonicalization. *)

From S2P Require Import Prelude.
From S2P Require Import PyText.
From S2P Require Import Binary64.
From S2P Require Import PyValue.
From S2P Require Import JsonDumps.
From S2P Require Import JsonLoads.
From S2P Require Import JsonRoundTrip.
From S2P Require Import FloatCanonical.

(** Every finite binary64 number has a canonical text, and [json.loads] of
    the text is the same number, bit for bit: sign of zero included. *)
Theorem canonical_float_roundtrip f :
  valid_float f = true -> is_finite f = true ->
  exists t, canonicalize_float (PFloat f) = Ok t /\ loads_str t = Ok (PFloat f).
Proof.
  intros Hv Hf. exists (float_repr f). split; [apply canonicalize_Ok; eauto|].
  assert (Hd : dumps (PFloat f) = Ok (float_repr f)) by (cbn; by rewrite Hf).
  assert (Hl : decode (float_repr f) = Ok (PFloat f)) by by apply (decode_dumps (PFloat f)).
  assert (Hp : Forall printable (float_repr f)) by by apply (dumps_printable (PFloat f)).
  unfold loads_str. destruct (float_token f Hv Hf) as (tk & Htk & Hok & _).
  destruct (token_head tk Hok) as (c & s & Hcs & Hc). rewrite Htk, Hcs in *.
  destruct (decide (c = 0xFEFF)) as [->|Hne]; [|by rewrite <- Hl; repeat case_match; try done; congruence].
  lia.
Qed.

Lemma canonical_float_roundtrip_witness :
  exists t, canonicalize_float (PFloat (float_of_bits 0x3fd3333333333334)) = Ok t /\
    loads_str t = Ok (PFloat (float_of_bits 0x3fd3333333333334)).
Proof. apply canonical_float_roundtrip; vm_compute; reflexivity. Defined.

(** [canonicalize_float] refuses what is not a [float] with [TypeError],
    an integer or a boolean included, refuses NaN and the infinities with
    [ValueError], and never fails otherwise. *)
Theorem canonicalize_float_errors value :
  match value with
  | PFloat f => canonicalize_float value = if is_finite f then Ok (float_repr f) else Err NotFinite
  | _ => canonicalize_float value = Err NotFloat
  end.
Proof.
  destruct value; try done. destruct (is_finite f) eqn:E.
  - apply canonicalize_Ok. eauto.
  - cbn [canonicalize_float]. by rewrite E.
Qed.

(** Different finite binary64 numbers have different canonical texts. *)
Theorem canonical_float_injective b b' t :
  canonicalize_float (PFloat (float_of_bits b)) = Ok t ->
  canonicalize_float (PFloat (float_of_bits b')) = Ok t -> float_of_bits b = float_of_bits b'.
Proof.
  intros (f & [= <-] & Hf & ->)%canonicalize_Ok (f' & [= <-] & Hf' & Heq)%canonicalize_Ok.
  assert (Hd : decode (float_repr (float_of_bits b)) = Ok (PFloat (float_of_bits b)))
    by (apply (decode_dumps (PFloat (float_of_bits b))); [apply float_bits_valid|cbn; by rewrite Hf]).
  assert (Hd' : decode (float_repr (float_of_bits b')) = Ok (PFloat (float_of_bits b')))
    by (apply (decode_dumps (PFloat (float_of_bits b'))); [apply float_bits_valid|cbn; by rewrite Hf']).
  rewrite Heq, Hd' in Hd. by injection Hd.
Qed.

Lemma canonical_float_injective_witness :
  float_of_bits 0x3ff0000000000000 = float_of_bits 0x3ff0000000000000.
Proof.
  apply (canonical_float_injective 0x3ff0000000000000 0x3ff0000000000000 (u "1.0"));
    vm_compute; reflexivity.
Defined.

(** The vectors of [tests/vectors/float_canonicalization.json] whose magnitude
    is moderate, and the three that must be rejected. *)
Definition float_vectors : list vector := Eval vm_compute in
  [ (u "3ff0000000000000", Some (u "1.0"));
    (u "3fd3333333333334", Some (u "0.30000000000000004"));
    (u "8000000000000000", Some (u "-0.0"));
    (u "0000000000000000", Some (u "0.0"));
    (u "3ee4f8b588e368f1", Some (u "1e-05"));
    (u "444b1ae4d6e2ef50", Some (u "1e+21"));
    (u "4340000000000000", Some (u "9007199254740992.0"));
    (u "4005666666666666", Some (u "2.675"));
    (u "3fda3d70a3d70a3d", Some (u "0.41"));
    (u "3ff3c0ca428c59fb", Some (u "1.2345678901234567"));
    (u "bfc0000000000000", Some (u "-0.125"));
    (u "4045000000000000", Some (u "42.0"));
    (u "3f1a36e2eb1c432d", Some (u "0.0001"));
    (u "4341c37937e08000", Some (u "1e+16"));
    (u "c0c81cd6e631f8a1", Some (u "-12345.6789"));
    (u "7ff8000000000000", None);
    (u "7ff0000000000000", None);
    (u "fff0000000000000", None) ].

(** On these vectors of the repository the Python side of the
    cross-language check produces exactly the expected lines. *)
Theorem float_vectors_pass : _python_lines float_vectors = Some (_expected_lines float_vectors).
Proof. vm_compute. reflexivity. Qed.
