(* ===== verification/ChainTheorems.v ===== *)
(** The properties of the forensic chain: what the writer guarantees, what the
    verifier accepts, and what a verified chain commits to. *)

From stdpp Require Import sorting.
From S2P Require Import Prelude.
From S2P Require Import PyText.
From S2P Require Import Binary64.
From S2P Require Import PyValue.
From S2P Require Import JsonDumps.
From S2P Require Import JsonLoads.
From S2P Require Import Sha256.
From S2P Require Import Timestamp.
From S2P Require Import RecordFormat.
From S2P Require Import EventSpec.
From S2P Require Import RecordFacts.
From S2P Require Import CanonicalBytes.
From S2P Require Import RecordLaws.
From S2P Require Import ChainStore.
From S2P Require Import ChainSpec.
From S2P Require Import ChainLogger.
From S2P Require Import ChainCheck.
From S2P Require Import LoggerFacts.
From S2P Require Import CheckFacts.
From S2P Require Import Samples.

(** ** The writer refines an append-only log *)

(** C1: a [log_event] call that returns has appended exactly one line to the
    store; reading the store back gives the records from before and then the
    returned record (in key order), whose event part is the event of the
    caller, whose sequence number is the number of earlier records, whose
    [prev_hash] is the previous tip and whose hash and signature are those of
    its own unsigned bytes. *)
Theorem log_event_appends_record sign env event ev store record store' :
  event = to_dict ev -> wf_val event = true ->
  (forall data sg, sign data = SignBytes sg -> bytes_ok sg) ->
  (forall entries, read_chain store = Ok entries -> Z.of_nat (length entries) < 2 ^ 63) ->
  log_event sign env event store = (Ok record, store') ->
  exists entries signed sg line,
    read_chain store = Ok entries /\
    read_chain store' = Ok (entries ++ [(norm_pydict record, signed)]) /\
    event_part (norm_pydict record) = norm_pydict ev /\
    record = ev ++ [(u "seq", PInt (Z.of_nat (length entries)));
                    (u "prev_hash", PStr (tip_of entries));
                    (u "record_hash", PStr (sha256_hex signed));
                    (u "signature", PStr (bytes_hex sg))] /\
    sign signed = SignBytes sg /\ hash_unsigned_record record = Ok (signed, sha256_hex signed) /\
    canonical_json_bytes record = Ok line /\ store' = Some (default [] store ++ line ++ [LF]).
Proof.
  intros -> Hwf Hsg Hn H.
  destruct (log_event_grows sign env ev store record store' Hwf Hsg) as
    (k & entries & sg & signed & line & Hev & Hc & [Hs Hsign Hlen Hr Hl] & Hlf & -> & Hp & Hc');
    [|done|].
  { intros v entries Hc. apply Hn. apply read_chain_Ok. eauto. }
  exists entries, signed, sg, line. split; [apply read_chain_Ok; eauto|].
  split; [apply read_chain_Ok; eauto|]. split; [done|]. split; [done|]. split; [done|].
  split; [|done]. apply hash_unsigned_record_Ok. split; [|done].
  rewrite Hr. by rewrite (unsigned_part_signed k ev Hev).
Qed.

Lemma log_event_appends_record_witness :
  exists record store' entries,
    log_event toy_sign good_environment (to_dict vector_event) None = (Ok record, store') /\
    read_chain store' = Ok entries /\ length entries = 1%nat.
Proof.
  destruct (log_event_total toy_sign V2Classification vector_event None []) as (record & store' & H);
    [apply vector_event_spec|apply vector_event_wf|done|done|apply toy_sign_total|].
  destruct (log_event_appends_record toy_sign good_environment (to_dict vector_event) vector_event
              None record store' eq_refl vector_event_wf
              (fun d s Hs => proj1 (toy_sign_ok d s Hs))
              ltac:(intros es Hes; injection Hes as <-; done) H)
    as (entries & signed & sg & line & He & He' & _).
  injection He as <-. exists record, store', [(norm_pydict record, signed)].
  split; [exact H|]. split; [exact He'|reflexivity].
Defined.

(** [log_event] succeeds on every valid event when the store is a chain of
    the event's format version, the signer returns 64 octets, and the file
    system and the lock do their part: no later step can refuse it. *)
Theorem log_event_accepts sign ev store entries :
  validate_event (to_dict ev) = Ok ev -> wf_dict ev ->
  read_chain store = Ok entries ->
  Forall (fun e => record_format_version e.1 = record_format_version ev) entries ->
  Z.of_nat (length entries) < 2 ^ 63 ->
  (forall data, exists sg, sign data = SignBytes sg /\ length sg = 64%nat /\ bytes_ok sg) ->
  exists record store',
    log_event sign (Environment true true AppendComplete) (to_dict ev) store = (Ok record, store').
Proof.
  intros [_ (k & Hev)]%validate_event_Ok Hwf [v Hc]%read_chain_Ok Hver Hn Hsign.
  apply (log_event_total sign k ev store entries); try done.
  rewrite (tag_version k ev) in Hver by apply Hev.
  destruct entries as [|[r s] entries]; [by eapply chain_store_empty|].
  apply Forall_cons in Hver as [Hver _]. cbn in Hver.
  destruct store as [content|]; [|done]. rewrite (linked_record _ _ _ _ _ _ _ Hc) in Hver. by subst.
Qed.

Lemma log_event_accepts_witness :
  exists record store',
    log_event toy_sign (Environment true true AppendComplete) (to_dict ingestion_event) None
    = (Ok record, store').
Proof.
  apply (log_event_accepts toy_sign ingestion_event None []).
  - vm_compute. reflexivity.
  - apply ingestion_event_wf.
  - reflexivity.
  - constructor.
  - reflexivity.
  - apply toy_sign_total.
Defined.

(** Whatever a [log_event] call returns, it never changes or removes an
    octet of the store: it appends nothing, unless it returns or reports an
    [OSError] of the append. *)
Theorem log_event_append_only sign env event store :
  exists rest,
    default [] (log_event sign env event store).2 = default [] store ++ rest /\
    (rest = [] \/ is_ok (log_event sign env event store).1 = true \/
     (log_event sign env event store).1 = Err (AppendError AppendOSError)).
Proof.
  destruct (log_event sign env event store) as [result store'] eqn:E. cbn [fst snd].
  apply log_event_file in E as [->|(ev & r & line & _ & _ & [(_ & -> & ->)|(n & _ & -> & ->)])].
  - exists []. rewrite app_nil_r. auto.
  - exists line. auto.
  - exists (take n line). auto.
Qed.

(** A store that is not a chain is never extended: [log_event] raises and
    leaves the file as it is. *)
Theorem invalid_chain_refused sign env event store :
  is_ok (read_chain store) = false ->
  is_ok (log_event sign env event store).1 = false /\ (log_event sign env event store).2 = store.
Proof.
  intros Hbad. destruct (log_event sign env event store) as [result store'] eqn:E. cbn [fst snd].
  assert (Hno : forall k entries, ~ chain_store (kind_version k) store entries).
  { intros k entries Hc. assert (H : read_chain store = Ok entries) by (apply read_chain_Ok; eauto).
    by rewrite H in Hbad. }
  split.
  - destruct result as [record|]; [|done].
    apply log_event_Ok in E as (_ & k & ev & entries & sg & signed & line & _ & _ & Hc & _).
    by apply Hno in Hc.
  - apply log_event_file in E as [->|(ev & r & line & Hv & Hp & _)]; [done|].
    apply validate_event_Ok in Hv as (_ & k & Hev).
    apply (prepare_record_Ok sign k) in Hp as (entries & sg & signed & l & Hc & _); [|done].
    by apply Hno in Hc.
Qed.

Lemma invalid_chain_refused_witness :
  is_ok (log_event toy_sign good_environment (to_dict vector_event) (Some (u "{}"))).1 = false.
Proof.
  apply (invalid_chain_refused toy_sign good_environment (to_dict vector_event) (Some (u "{}"))).
  vm_compute. reflexivity.
Defined.

(** A store whose last line is torn: no call extends it, no verifier accepts it. *)
Definition stuck (store : file) : Prop :=
  (forall sign env event, exists e, log_event sign env event store = (Err e, store)) /\
  (forall verify is_key lock, is_ok (verify_chain verify is_key lock store) = false).

Lemma not_chain_stuck content :
  (forall v entries, ~ chain_store v (Some content) entries) -> stuck (Some content).
Proof.
  intros Hno. split.
  - intros sign env event. destruct (log_event sign env event _) as [[r|e] s] eqn:E.
    + apply log_event_Ok in E as (_ & k & ev & es & sg & signed & l & _ & _ & Hc & _).
      by apply Hno in Hc.
    + exists e. f_equal. apply log_event_file in E as [->|(ev & r & l & Hv & Hp & _)]; [done|].
      apply validate_event_Ok in Hv as (_ & k & Hev).
      apply (prepare_record_Ok sign k) in Hp as (es & sg & signed & l' & Hc & _); [|done].
      by apply Hno in Hc.
  - intros verify is_key lock. destruct (verify_chain _ _ _ _) eqn:E; [|done].
    apply verify_chain_Ok in E as (_ & _ & c & v & es & [= <-] & Hc & _). by apply Hno in Hc.
Qed.

Lemma torn_line_no_chain content line v entries :
  line <> [] -> Forall (fun c => c <> LF) line -> ~ chain_store v (Some (content ++ line)) entries.
Proof.
  intros Hne Hlf [Hnil|(l & Hl)%ends_with_lf_spec]%linked_ends.
  - by apply app_eq_nil in Hnil as [_ ?].
  - destruct line as [|c line _] using rev_ind; [done|]. rewrite app_assoc in Hl.
    apply app_inj_tail in Hl as [_ ->]. apply Forall_app in Hlf as [_ Hlf].
    by apply Forall_cons in Hlf as [? _].
Qed.

(** C21: when an [OSError] interrupts the append, then either no octet reached
    the file, or the whole record did and the store is a chain with it, or the
    torn line makes every later call raise without touching the file and every
    verification fail: a torn record is never buried under new ones. *)
Theorem torn_write_is_detected sign n ev store entries :
  wf_dict ev -> (forall data sg, sign data = SignBytes sg -> bytes_ok sg) ->
  read_chain store = Ok entries -> Z.of_nat (length entries) < 2 ^ 63 ->
  let store' := (log_event sign (Environment true true (WriteFailed n)) (to_dict ev) store).2 in
  default [] store' = default [] store \/
  (exists entry, read_chain store' = Ok (entries ++ [entry])) \/
  stuck store'.
Proof.
  intros Hwf Hsg Hr Hn store'. subst store'.
  destruct (log_event _ _ _ _) as [result store'] eqn:E. cbn [snd].
  apply log_event_file in E as [->|(ev' & r & line & Hv & Hp & [([=] & _)|(m & [= <-] & _ & ->)])];
    [by left|].
  apply validate_event_Ok in Hv as (<-%to_dict_inj & k & Hev).
  apply (prepare_record_Ok sign k) in Hp as (es & sg & signed & l & Hc & Hm & ->); [|done].
  assert (es = entries) as ->.
  { apply read_chain_Ok in Hr as [v Hr]. by apply (chain_store_fun _ _ _ _ _ Hc Hr). }
  destruct (made_stored sign k ev entries sg r signed l) as (Hs & Hlf & _);
    [done|done|done|by eapply Hsg, mk_sign|done|].
  destruct n as [|n]; [left; cbn; by rewrite app_nil_r|right].
  destruct (Nat.le_gt_cases (length (l ++ [LF])) (S n)) as [Hge|Hlt].
  - left. exists (norm_pydict r, signed). rewrite take_ge by done. apply read_chain_Ok.
    exists (kind_version k). by apply chain_store_grow.
  - right. apply not_chain_stuck. intros v es. rewrite length_app in Hlt. cbn [length] in Hlt.
    rewrite take_app_le by lia. apply torn_line_no_chain; [by destruct l; [cbn in Hlt; lia|]|].
    by apply Forall_take.
Qed.

Lemma torn_write_is_detected_witness :
  let store' := (log_event toy_sign (Environment true true (WriteFailed 5))
                   (to_dict vector_event) None).2 in
  default [] store' = [] \/
  (exists entry, read_chain store' = Ok [entry]) \/ stuck store'.
Proof.
  apply (torn_write_is_detected toy_sign 5 vector_event None []).
  - apply vector_event_wf.
  - apply toy_sign_ok.
  - reflexivity.
  - reflexivity.
Defined.

(** A call whose event has another format version than the records of the
    store raises [AppendError] and leaves the store as it is. *)
Theorem version_mixing_refused sign ev store entry entries :
  validate_event (to_dict ev) = Ok ev -> read_chain store = Ok (entry :: entries) ->
  record_format_version entry.1 <> record_format_version ev ->
  log_event sign good_environment (to_dict ev) store
  = (Err (AppendError (InvalidChain 1 CannotAppendVersion)), store).
Proof.
  intros Hv [v Hc]%read_chain_Ok Hne. unfold log_event. rewrite Hv. cbn [negb env_mkdir env_lock].
  destruct store as [content|]; [|done]. destruct entry as [r s]. cbn [fst] in Hne.
  unfold prepare_record, chain_tip, iter_validated_records.
  change initial_iter_state with (state_at None 0 GENESIS_PREV_HASH).
  rewrite (iterate_linked _ _ v None _ _ _ _ _ _ I Hc). cbn [run_entries].
  assert (Hb : chain_tip_body (Some (record_format_version ev)) (0, GENESIS_PREV_HASH) 1 r s
               = Err (StoreError 1 CannotAppendVersion)).
  { unfold chain_tip_body. by rewrite (proj2 (Z.eqb_neq _ _) Hne). }
  by rewrite Hb.
Qed.

Lemma version_mixing_refused_witness :
  exists store, log_event toy_sign good_environment (to_dict vector_event) store
    = (Err (AppendError (InvalidChain 1 CannotAppendVersion)), store).
Proof.
  destruct (one_record_chain V1Event v1_event v1_event_spec v1_event_wf) as (content & r & s & Hc & Hv & _).
  exists (Some content). apply (version_mixing_refused toy_sign vector_event (Some content) (r, s) []).
  - vm_compute. reflexivity.
  - apply read_chain_Ok. eauto.
  - cbn [fst]. rewrite Hv. vm_compute. discriminate.
Defined.

(** ** Sessions of the writer *)

(** Calls of [log_event] one after the other, with their results. *)
Fixpoint log_session (sign : bytes -> sign_result) (calls : list (environment * pydict)) (store : file)
  : list (res logger_exn pydict) * file :=
  match calls with
  | [] => ([], store)
  | (env, ev) :: calls =>
      let '(result, store) := log_event sign env (to_dict ev) store in
      let '(results, store) := log_session sign calls store in
      (result :: results, store)
  end.

(** The records that the successful calls returned. *)
Definition returned (results : list (res logger_exn pydict)) : list pydict :=
  omap (fun result => match result with Ok r => Some r | Err _ => None end) results.

Lemma session_chain sign verify calls : forall store v entries results store',
  Forall (fun c => wf_dict c.2 /\ no_torn_write c.1 = true) calls ->
  (forall data sg, sign data = SignBytes sg -> bytes_ok sg) ->
  (forall data sg, sign data = SignBytes sg -> length sg = 64%nat -> verify sg data = true) ->
  Z.of_nat (length entries + length calls) < 2 ^ 63 ->
  chain_store v store entries -> Forall (signature_ok verify) entries ->
  log_session sign calls store = (results, store') ->
  exists v' new, chain_store v' store' (entries ++ new) /\
    Forall (signature_ok verify) (entries ++ new) /\
    map fst new = map norm_pydict (returned results).
Proof.
  induction calls as [|[env ev] calls IH]; intros store v entries results store' Hcalls Hsg Hver Hn Hc Hf H.
  { injection H as <- <-. exists v, []. by rewrite app_nil_r. }
  apply Forall_cons in Hcalls as [[Hwf Htorn] Hcalls]. cbn [fst snd] in Hwf, Htorn.
  cbn [log_session] in H. cbn [length] in Hn.
  destruct (log_event sign env (to_dict ev) store) as [result store1] eqn:E.
  destruct (log_session sign calls store1) as [results1 store2] eqn:E1. injection H as <- <-.
  assert (Hev : forall ev', to_dict ev = to_dict ev' -> wf_dict ev') by (by intros ev' <-%to_dict_inj).
  assert (Hsign : good_signer verify sign) by (intros d g Hg; split; [by eapply Hsg|by apply Hver]).
  destruct (log_event_step sign verify env (to_dict ev) store v entries result store1 Hev Htorn Hsign ltac:(lia) Hc Hf E)
    as (v1 & new1 & Hc1 & Hf1 & Hm1).
  assert (Hlen : (length new1 <= 1)%nat)
    by (rewrite <- (length_map fst), Hm1; destruct result; cbn; lia).
  destruct (IH store1 v1 (entries ++ new1) results1 store2) as (v' & new & Hc' & Hf' & Hm'); try done.
  { rewrite length_app. lia. }
  exists v', (new1 ++ new). rewrite app_assoc. split; [done|]. split; [done|].
  rewrite map_app, Hm1, Hm'. by destruct result.
Qed.

(** Any session of calls that begins without a store file and has no torn
    write leaves a chain that [verify_chain] accepts with the number of records
    that were returned; its records are the returned ones in key order, in the
    order of the calls. *)
Theorem session_verifies sign verify calls results content :
  Forall (fun c => wf_dict c.2 /\ no_torn_write c.1 = true) calls ->
  (forall data sg, sign data = SignBytes sg -> bytes_ok sg) ->
  (forall data sg, sign data = SignBytes sg -> length sg = 64%nat -> verify sg data = true) ->
  Z.of_nat (length calls) < 2 ^ 63 ->
  log_session sign calls None = (results, Some content) ->
  exists entries, read_chain (Some content) = Ok entries /\
    map fst entries = map norm_pydict (returned results) /\
    verify_chain verify true true (Some content)
    = Ok {| records_verified := Z.of_nat (length (returned results)); tip_hash := last_hash entries |}.
Proof.
  intros Hcalls Hsg Hver Hn H.
  destruct (session_chain sign verify calls None 1 [] results (Some content)) as (v & entries & Hc & Hf & Hm);
    try done.
  exists entries. split; [apply read_chain_Ok; eauto|]. split; [done|].
  apply verify_chain_Ok. split; [done|]. split; [done|]. exists content, v, entries.
  split; [done|]. split; [done|]. split; [done|].
  do 2 f_equal. rewrite <- (length_map norm_pydict), <- Hm. by rewrite length_map.
Qed.

Lemma session_verifies_witness :
  exists content entries, read_chain (Some content) = Ok entries /\
    verify_chain toy_verify true true (Some content)
    = Ok {| records_verified := 1; tip_hash := last_hash entries |}.
Proof.
  destruct (log_event_total toy_sign V1Event v1_event None []) as (record & store' & H);
    [apply v1_event_spec|apply v1_event_wf|done|done|apply toy_sign_total|].
  assert (H' := H). apply log_event_Ok in H' as (_ & k & ev & es & sg & signed & line & _ & _ & _ & _ & ->).
  exists ([] ++ line ++ [LF]).
  destruct (session_verifies toy_sign toy_verify [(good_environment, v1_event)] [Ok record]
              ([] ++ line ++ [LF])) as (entries & Hr & _ & Hver).
  - repeat constructor.
  - apply toy_sign_ok.
  - intros data sg' Hd _. injection Hd as <-. by apply bool_decide_eq_true.
  - reflexivity.
  - cbn [log_session]. rewrite H. reflexivity.
  - exists entries. split; [exact Hr|exact Hver].
Defined.

(** ** The verifier *)

(** C23: [verify_chain] returns exactly when the store exists and is a readable
    chain whose every signature verifies over its signed bytes, and then
    returns the number of records and the last record hash. *)
Theorem verify_chain_exact verify content result :
  verify_chain verify true true (Some content) = Ok result <->
  exists entries, read_chain (Some content) = Ok entries /\
    Forall (fun entry => exists sg,
      bytes_fromhex (str_item entry.1 (u "signature")) = Some sg /\ verify sg entry.2 = true) entries /\
    result = {| records_verified := Z.of_nat (length entries); tip_hash := last_hash entries |}.
Proof.
  rewrite verify_chain_Ok. split.
  - intros (_ & _ & c & v & entries & [= <-] & Hc & Hf & ->). exists entries.
    split; [apply read_chain_Ok; eauto|done].
  - intros (entries & [v Hc]%read_chain_Ok & Hf & ->). split; [done|]. split; [done|].
    by exists content, v, entries.
Qed.

(** The hash that the record at position [i] must link to. *)
Definition expected_link (entries : list (pydict * bytes)) (i : nat) : pystr :=
  match i with
  | O => GENESIS_PREV_HASH
  | S j => match entries !! j with Some (_, signed) => sha256_hex signed | None => [] end
  end.

(** C20: in a store that reads as a chain, record [i] has sequence number [i],
    links to the hash of record [i - 1] (the genesis for the first), carries the
    SHA-256 of its own unsigned bytes, is a valid record of the one format
    version of the chain, and is stored as its canonical bytes and one LF. *)
Theorem chain_invariant content entries :
  read_chain (Some content) = Ok entries ->
  length (physical_lines content) = length entries /\
  exists version, forall i record signed, entries !! i = Some (record, signed) ->
    (exists k, record_spec k record /\ kind_version k = version) /\
    dget (u "seq") record = Some (PInt (Z.of_nat i)) /\
    dget (u "prev_hash") record = Some (PStr (expected_link entries i)) /\
    dget (u "record_hash") record = Some (PStr (sha256_hex signed)) /\
    canonical_json_bytes (unsigned_part record) = Ok signed /\
    exists line, canonical_json_bytes record = Ok line /\
      physical_lines content !! i = Some (line ++ [LF]).
Proof.
  intros [v Hc]%read_chain_Ok. split; [by eapply chain_length|]. exists v. intros i r s Hi.
  destruct (chain_lookup _ _ _ _ _ _ Hc Hi) as (k & line & Hv & Hl & [Hk _ Hcb Hseq Hprev Hs Hh]).
  split; [eauto|]. split; [done|]. split; [|by eauto 6].
  rewrite Hprev. do 2 f_equal. destruct i as [|j]; [done|]. cbn [expected_link].
  destruct (entries !! j) as [[r' s']|] eqn:Ej.
  - rewrite (take_S_r _ _ _ Ej). by rewrite tip_of_snoc.
  - apply lookup_ge_None in Ej. apply lookup_lt_Some in Hi. lia.
Qed.

Lemma chain_invariant_witness :
  exists content r s, read_chain (Some content) = Ok [(r, s)] /\
    dget (u "prev_hash") r = Some (PStr GENESIS_PREV_HASH).
Proof.
  destruct (one_record_chain V2Ingestion ingestion_event ingestion_event_spec ingestion_event_wf)
    as (content & r & s & Hc & _). exists content, r, s.
  assert (Hr : read_chain (Some content) = Ok [(r, s)]) by (apply read_chain_Ok; eauto).
  split; [exact Hr|].
  destruct (chain_invariant content [(r, s)] Hr) as (_ & v & H).
  apply (H O r s eq_refl).
Defined.

(** C24: the store reader accepts exactly the well-formed chains: the inductive
    specification of a chain (canonical lines of valid records of one format
    version, numbered from 0, linked from the genesis hash, with the right
    hashes) has a derivation for a store if and only if reading it raises
    nothing, and the entries are those of the derivation. *)
Theorem store_reader_refines_spec store entries :
  read_chain store = Ok entries <-> exists version, chain_store version store entries.
Proof. apply read_chain_Ok. Qed.

(** C34: when reading raises [StoreError] at line [n], the [n - 1] lines before
    it form a chain, and line [n] is the one that was checked and refused. *)
Theorem store_error_names_first_bad_line content n reason :
  read_chain (Some content) = Err (StoreError n reason) ->
  exists i version entries line st, n = Z.of_nat i + 1 /\
    physical_lines content !! i = Some line /\
    linked version 0 GENESIS_PREV_HASH (take i (physical_lines content)) entries /\
    length entries = i /\
    expected_seq st = Z.of_nat i /\ expected_prev_hash st = tip_of entries /\
    check_line st n line = Err (StoreError n reason).
Proof.
  unfold read_chain, iter_validated_records.
  change initial_iter_state with (state_at None 0 GENESIS_PREV_HASH).
  intros (v & i & entries & pl & _ & Hi & Hl & Hc)%collect_Err.
  pose proof (check_line_number (state_at (if decide (i = O) then None else Some v) (0 + Z.of_nat i)
    (tip_from GENESIS_PREV_HASH entries)) (1 + Z.of_nat i) pl) as Hn.
  rewrite Hc in Hn. cbn in Hn. subst n. eexists i, v, entries, pl, _.
  split; [lia|]. split; [done|]. split; [done|]. split.
  { apply chain_length in Hl. rewrite length_take in Hl. apply lookup_lt_Some in Hi. lia. }
  split; [|split; [|exact Hc]]; done.
Qed.

Lemma store_error_names_first_bad_line_witness :
  exists i line st, physical_lines [LF] !! i = Some line /\
    check_line st 1 line = Err (StoreError 1 BlankLine).
Proof.
  destruct (store_error_names_first_bad_line [LF] 1 BlankLine eq_refl)
    as (i & v & entries & line & st & _ & Hi & _ & _ & _ & _ & Hc).
  exists i, line, st. split; [exact Hi|exact Hc].
Defined.

(** ** What a verified chain commits to *)

Lemma file_lines_ok content : bytes_ok content -> Forall bytes_ok (physical_lines content).
Proof. intros Hb. rewrite Forall_forall. intros l Hl. by eapply physical_lines_ok. Qed.

(** C17: two stores that verify, under any keys, with the same tip hash hold the
    same signed bytes and the same unsigned records, or else two different
    signed bytes of theirs have the same SHA-256 digest: the tip hash commits
    to the whole history. *)
Theorem tip_hash_commits_history verify verify' content content' result result' :
  bytes_ok content -> bytes_ok content' ->
  verify_chain verify true true (Some content) = Ok result ->
  verify_chain verify' true true (Some content') = Ok result' ->
  tip_hash result = tip_hash result' ->
  exists entries entries',
    read_chain (Some content) = Ok entries /\ read_chain (Some content') = Ok entries' /\
    ((map snd entries = map snd entries' /\
      map (fun e => unsigned_part e.1) entries = map (fun e => unsigned_part e.1) entries') \/
     exists a b, a ∈ map snd entries /\ b ∈ map snd entries' /\ a <> b /\ sha256 a = sha256 b).
Proof.
  intros Hb Hb' (_ & _ & c & v & es & [= <-] & Hc & _ & ->)%verify_chain_Ok
    (_ & _ & c' & v' & es' & [= <-] & Hc' & _ & ->)%verify_chain_Ok Ht.
  exists es, es'. split; [apply read_chain_Ok; eauto|]. split; [apply read_chain_Ok; eauto|].
  by apply (tips_commit v v' (physical_lines content) (physical_lines content'));
    auto using file_lines_ok.
Qed.

Lemma tip_hash_commits_history_witness :
  exists content r s, read_chain (Some content) = Ok [(r, s)] /\
    (map snd [(r, s)] = [s] \/ exists a b : bytes, a <> b /\ sha256 a = sha256 b).
Proof.
  destruct (one_record_chain V2Ingestion ingestion_event ingestion_event_spec ingestion_event_wf)
    as (content & r & s & Hc & _ & Hs & Hb). exists content, r, s.
  assert (Hv : verify_chain toy_verify true true (Some content)
               = Ok {| records_verified := 1; tip_hash := last_hash [(r, s)] |}).
  { apply verify_chain_Ok. split; [done|]. split; [done|]. exists content, 2, [(r, s)].
    split; [done|]. split; [done|]. split; [by constructor|done]. }
  destruct (tip_hash_commits_history toy_verify toy_verify content content _ _ Hb Hb Hv Hv eq_refl)
    as (es & es' & He & _ & _).
  split; [apply read_chain_Ok; eauto|by left].
Defined.

(** C19: if the only messages that verify under a key are the signed bytes of
    one honest chain (no forgery), then every store that verifies under it is a
    prefix of the honest chain: cutting records off the end is the only change
    that verification with the key alone cannot see. *)
Theorem verified_chain_is_prefix verify content honest content' honest_entries result :
  bytes_ok content -> bytes_ok content' ->
  honest = Some content' -> read_chain honest = Ok honest_entries ->
  (forall sg data, verify sg data = true -> data ∈ map snd honest_entries) ->
  verify_chain verify true true (Some content) = Ok result ->
  exists entries, read_chain (Some content) = Ok entries /\
    map snd entries = take (length entries) (map snd honest_entries) /\
    map (fun e => unsigned_part e.1) entries
    = take (length entries) (map (fun e => unsigned_part e.1) honest_entries).
Proof.
  intros Hb Hb' -> [v' Hc']%read_chain_Ok Hforge (_ & _ & c & v & es & [= <-] & Hc & Hf & _)%verify_chain_Ok.
  exists es. split; [apply read_chain_Ok; eauto|]. rewrite !firstn_map.
  apply (signed_subset_prefix v v' (physical_lines content) (physical_lines content'));
    auto using file_lines_ok.
  intros r s Hrs. rewrite Forall_forall in Hf. destruct (Hf _ Hrs) as (sg & _ & Hsg).
  by eapply Hforge.
Qed.

Lemma verified_chain_is_prefix_witness :
  exists (content : bytes) (r : pydict) (s : bytes) result,
    verify_chain (fun _ data : bytes => bool_decide (data = s)) true true (Some content) = Ok result /\
    exists entries, read_chain (Some content) = Ok entries /\ map snd entries = take (length entries) [s].
Proof.
  destruct (one_record_chain V2Ingestion ingestion_event ingestion_event_spec ingestion_event_wf)
    as (content & r & s & Hc & _ & (sg & Hsg & _) & Hb). exists content, r, s.
  exists {| records_verified := 1; tip_hash := last_hash [(r, s)] |}.
  assert (Hv : verify_chain (fun _ data => bool_decide (data = s)) true true (Some content)
               = Ok {| records_verified := 1; tip_hash := last_hash [(r, s)] |}).
  { apply verify_chain_Ok. split; [done|]. split; [done|]. exists content, 2, [(r, s)].
    split; [done|]. split; [done|]. split; [|done]. constructor; [|constructor].
    exists sg. split; [done|]. by apply bool_decide_eq_true. }
  split; [exact Hv|].
  destruct (verified_chain_is_prefix (fun _ data => bool_decide (data = s)) content (Some content) content
              [(r, s)] {| records_verified := 1; tip_hash := last_hash [(r, s)] |} Hb Hb eq_refl)
    as (es & He & Hm & _); [| |exact Hv|].
  - apply read_chain_Ok. eauto.
  - intros sg' data Hd. apply bool_decide_eq_true in Hd as ->. left.
  - exists es. split; [exact He|exact Hm].
Defined.

(** A chain has one encoding: two store files that read as the same
    records are the same octets. *)
Theorem store_bytes_unique content content' entries :
  read_chain (Some content) = Ok entries -> read_chain (Some content') = Ok entries ->
  content = content'.
Proof.
  intros [v Hc]%read_chain_Ok [v' Hc']%read_chain_Ok. cbn in Hc, Hc'.
  rewrite <- (physical_lines_concat content), <- (physical_lines_concat content').
  f_equal. by eapply linked_lines.
Qed.

Lemma store_bytes_unique_witness : exists entries, read_chain (Some []) = Ok entries /\ @nil Z = [].
Proof. exists []. split; [reflexivity|]. exact (store_bytes_unique [] [] [] eq_refl eq_refl). Defined.
