(* ===== verification/Calendar.v ===== *)
(** The proleptic Gregorian calendar of [datetime] and the UTC text of
    [forensics/anchor_worker.py], [_utc_text].

    An aware [datetime] is its UTC instant: the microseconds since
    0001-01-01T00:00:00Z.  [ord2ymd] and [ymd2ord] are the algorithms of
    CPython's [datetime]. *)

From S2P Require Import Prelude.
From S2P Require Import PyText.
From S2P Require Import Timestamp.

(** Linear arithmetic with [/] and [mod]. *)
Ltac zdiv := Z.to_euclidean_division_equations; lia.

(** ** Days *)

Definition days_before_year (y : Z) : Z :=
  let y := y - 1 in y * 365 + y / 4 - y / 100 + y / 400.

Definition month_starts : list Z := [0; 0; 31; 59; 90; 120; 151; 181; 212; 243; 273; 304; 334].

Definition days_before_month (leap : bool) (m : Z) : Z :=
  nth (Z.to_nat m) month_starts 0 + (if leap && (2 <? m) then 1 else 0).

Definition ymd2ord (y m d : Z) : Z := days_before_year y + days_before_month (is_leap y) m + d.

(** The month and day of the [n]-th day of a year, from 0. *)
Definition month_day (leap : bool) (n : Z) : Z * Z :=
  let month := (n + 50) / 32 in
  let preceding := days_before_month leap month in
  if n <? preceding
  then (month - 1, n - days_before_month leap (month - 1) + 1)
  else (month, n - preceding + 1).

Definition ord2ymd (ordinal : Z) : Z * Z * Z :=
  let n := ordinal - 1 in
  let n400 := n / 146097 in let n := n mod 146097 in
  let n100 := n / 36524 in let n := n mod 36524 in
  let n4 := n / 1461 in let n := n mod 1461 in
  let n1 := n / 365 in let n := n mod 365 in
  let year := n400 * 400 + 1 + n100 * 100 + n4 * 4 + n1 in
  if (n1 =? 4) || (n100 =? 4) then (year - 1, 12, 31)
  else
    let leap := (n1 =? 3) && (negb (n4 =? 24) || (n100 =? 3)) in
    let '(m, d) := month_day leap n in (year, m, d).

(** ** Instants *)

Definition us_per_second : Z := 1000000.
Definition us_per_day : Z := 86400000000.

(** The instants of the years 1 to 9999. *)
Definition max_instant : Z := 3652059 * us_per_day.
Definition instant_ok (t : Z) : Prop := 0 <= t < max_instant.

(** [when + timedelta(microseconds=us)]: [None] is [OverflowError]. *)
Definition add_us (t us : Z) : option Z :=
  if (0 <=? t + us) && (t + us <? max_instant) then Some (t + us) else None.

(** Zero-padded decimal of [w] digits. *)
Fixpoint pad (w : nat) (n : Z) : pystr :=
  match w with
  | O => []
  | S w => pad w (n / 10) ++ [48 + n mod 10]
  end.

(** [value.astimezone(UTC).isoformat(timespec="microseconds").replace("+00:00", "Z")] *)
Definition _utc_text (t : Z) : pystr :=
  let '(y, m, d) := ord2ymd (t / us_per_day + 1) in
  let r := t mod us_per_day in
  let s := r / us_per_second in
  pad 4 y ++ 45 :: pad 2 m ++ 45 :: pad 2 d ++ 84 :: pad 2 (s / 3600) ++ 58 :: pad 2 (s / 60 mod 60)
  ++ 58 :: pad 2 (s mod 60) ++ 46 :: pad 6 (r mod us_per_second) ++ [90].

(** ** The calendar is a bijection *)

(** The days of one year, checked one by one. *)
Definition year_days_ok (leap : bool) : bool :=
  forallb (fun n =>
    let '(m, d) := month_day leap (Z.of_nat n) in
    (1 <=? m) && (m <=? 12) && (1 <=? d)
    && (d <=? (if m =? 2 then if leap then 29 else 28
               else if (m =? 4) || (m =? 6) || (m =? 9) || (m =? 11) then 30 else 31))
    && (days_before_month leap m + d =? Z.of_nat n + 1))
    (seq 0 (if leap then 366 else 365)).

Lemma month_day_spec y n m d :
  0 <= n < (if is_leap y then 366 else 365) -> month_day (is_leap y) n = (m, d) ->
  1 <= m <= 12 /\ 1 <= d <= days_in_month y m /\ days_before_month (is_leap y) m + d = n + 1.
Proof.
  intros Hn Hmd.
  assert (Hall : year_days_ok (is_leap y) = true) by (destruct (is_leap y); vm_compute; reflexivity).
  unfold year_days_ok in Hall. rewrite forallb_forall in Hall.
  specialize (Hall (Z.to_nat n)). rewrite Z2Nat.id in Hall by lia. rewrite Hmd in Hall.
  assert (Hin : In (Z.to_nat n) (seq 0 (if is_leap y then 366 else 365)))
    by (apply in_seq; destruct (is_leap y); lia).
  apply Hall in Hin. unfold days_in_month. zbool.
  destruct Hin as ((((H1 & H2) & H3) & H4) & H5). split; [lia|]. split; [|lia]. split; [lia|].
  destruct (m =? 2); [by destruct (is_leap y); lia|]. by destruct (_ || _); lia.
Qed.

Lemma month_in_seq m : 1 <= m <= 12 -> In (Z.to_nat m) (seq 1 12).
Proof. intros Hm. apply in_seq. lia. Qed.

Lemma days_before_month_bound y m d :
  1 <= m <= 12 -> 1 <= d <= days_in_month y m ->
  0 <= days_before_month (is_leap y) m /\
  (m < 12 -> days_before_month (is_leap y) m + d <= days_before_month (is_leap y) (m + 1)) /\
  days_before_month (is_leap y) m + d <= (if is_leap y then 366 else 365).
Proof.
  intros Hm Hd.
  set (len (leap : bool) (k : Z) := if k =? 2 then if leap then 29 else 28
    else if (k =? 4) || (k =? 6) || (k =? 9) || (k =? 11) then 30 else 31) in *.
  change (days_in_month y m) with (len (is_leap y) m) in Hd.
  assert (Hall : forallb (fun k => let k := Z.of_nat k in
    (0 <=? days_before_month (is_leap y) k)
    && ((12 <=? k) || (days_before_month (is_leap y) k + len (is_leap y) k
                       <=? days_before_month (is_leap y) (k + 1)))
    && (days_before_month (is_leap y) k + len (is_leap y) k <=? (if is_leap y then 366 else 365)))
    (seq 1 12) = true) by (unfold len; destruct (is_leap y); vm_compute; reflexivity).
  rewrite forallb_forall in Hall. specialize (Hall (Z.to_nat m) (month_in_seq m ltac:(lia))).
  rewrite Z2Nat.id in Hall by lia. cbv zeta in Hall. zbool. lia.
Qed.

Lemma days_before_month_mono leap m m' :
  1 <= m -> m <= m' -> m' <= 12 -> days_before_month leap m <= days_before_month leap m'.
Proof.
  intros H1 H2 H3.
  assert (Hall : forallb (fun a => forallb (fun b => (b <? a)%nat ||
    (days_before_month leap (Z.of_nat a) <=? days_before_month leap (Z.of_nat b))) (seq 1 12)) (seq 1 12)
    = true) by (destruct leap; vm_compute; reflexivity).
  rewrite forallb_forall in Hall. specialize (Hall (Z.to_nat m) (month_in_seq m ltac:(lia))).
  rewrite forallb_forall in Hall. specialize (Hall (Z.to_nat m') (month_in_seq m' ltac:(lia))).
  rewrite !Z2Nat.id in Hall by lia. apply orb_true_iff in Hall as [Hlt|Hle].
  - apply Nat.ltb_lt in Hlt. lia.
  - by apply Z.leb_le.
Qed.

Lemma is_leap_cycle n400 n100 n4 n1 :
  0 <= n100 <= 3 -> 0 <= n4 <= 24 -> 0 <= n1 <= 3 ->
  is_leap (n400 * 400 + 1 + n100 * 100 + n4 * 4 + n1)
  = (n1 =? 3) && (negb (n4 =? 24) || (n100 =? 3)).
Proof.
  intros H100 H4 H1. unfold is_leap.
  assert (E4 : (n400 * 400 + 1 + n100 * 100 + n4 * 4 + n1) mod 4 = (1 + n1) mod 4).
  { rewrite <- (Z.mod_add (1 + n1) (n400 * 100 + n100 * 25 + n4) 4) by lia. f_equal. lia. }
  assert (E100 : (n400 * 400 + 1 + n100 * 100 + n4 * 4 + n1) mod 100 = (1 + n4 * 4 + n1) mod 100).
  { rewrite <- (Z.mod_add (1 + n4 * 4 + n1) (n400 * 4 + n100) 100) by lia. f_equal. lia. }
  assert (E400 : (n400 * 400 + 1 + n100 * 100 + n4 * 4 + n1) mod 400
                 = (1 + n100 * 100 + n4 * 4 + n1) mod 400).
  { rewrite <- (Z.mod_add (1 + n100 * 100 + n4 * 4 + n1) n400 400) by lia. f_equal. lia. }
  rewrite E4, E100, E400. clear E4 E100 E400.
  assert (Hall : forallb (fun a => forallb (fun b => forallb (fun c =>
    let a := Z.of_nat a in let b := Z.of_nat b in let c := Z.of_nat c in
    eqb (((1 + c) mod 4 =? 0) && (negb ((1 + b * 4 + c) mod 100 =? 0)
         || ((1 + a * 100 + b * 4 + c) mod 400 =? 0)))
      ((c =? 3) && (negb (b =? 24) || (a =? 3))))
    (seq 0 4)) (seq 0 25)) (seq 0 4) = true) by (vm_compute; reflexivity).
  rewrite forallb_forall in Hall.
  specialize (Hall (Z.to_nat n100) (proj2 (in_seq 4 0 (Z.to_nat n100)) ltac:(lia))).
  rewrite forallb_forall in Hall.
  specialize (Hall (Z.to_nat n4) (proj2 (in_seq 25 0 (Z.to_nat n4)) ltac:(lia))).
  rewrite forallb_forall in Hall.
  specialize (Hall (Z.to_nat n1) (proj2 (in_seq 4 0 (Z.to_nat n1)) ltac:(lia))).
  cbv zeta in Hall. rewrite !Z2Nat.id in Hall by lia. by apply eqb_prop.
Qed.

Lemma days_before_year_cycle n400 n100 n4 n1 :
  0 <= n100 <= 3 -> 0 <= n4 <= 24 -> 0 <= n1 <= 3 ->
  days_before_year (n400 * 400 + 1 + n100 * 100 + n4 * 4 + n1)
  = n400 * 146097 + n100 * 36524 + n4 * 1461 + n1 * 365.
Proof.
  intros H100 H4 H1. unfold days_before_year.
  replace (n400 * 400 + 1 + n100 * 100 + n4 * 4 + n1 - 1)
    with (n400 * 400 + n100 * 100 + n4 * 4 + n1) by lia.
  assert (E4 : (n400 * 400 + n100 * 100 + n4 * 4 + n1) / 4 = n400 * 100 + n100 * 25 + n4)
    by (symmetry; apply (Z.div_unique _ _ _ n1); lia).
  assert (E100 : (n400 * 400 + n100 * 100 + n4 * 4 + n1) / 100 = n400 * 4 + n100)
    by (symmetry; apply (Z.div_unique _ _ _ (n4 * 4 + n1)); lia).
  assert (E400 : (n400 * 400 + n100 * 100 + n4 * 4 + n1) / 400 = n400)
    by (symmetry; apply (Z.div_unique _ _ _ (n100 * 100 + n4 * 4 + n1)); lia).
  lia.
Qed.

(** [ord2ymd] gives a valid date whose ordinal is the argument. *)
Lemma ord2ymd_spec n y m d :
  1 <= n -> ord2ymd n = (y, m, d) ->
  1 <= y /\ 1 <= m <= 12 /\ 1 <= d <= days_in_month y m /\ ymd2ord y m d = n.
Proof.
  intros Hn. unfold ord2ymd.
  set (n400 := (n - 1) / 146097). set (r400 := (n - 1) mod 146097).
  set (n100 := r400 / 36524). set (r100 := r400 mod 36524).
  set (n4 := r100 / 1461). set (r4 := r100 mod 1461).
  set (n1 := r4 / 365). set (r1 := r4 mod 365).
  assert (B400 : n - 1 = 146097 * n400 + r400 /\ 0 <= r400 < 146097 /\ 0 <= n400)
    by (unfold n400, r400; zdiv).
  assert (B100 : r400 = 36524 * n100 + r100 /\ 0 <= r100 < 36524 /\ 0 <= n100 <= 4)
    by (unfold n100, r100; zdiv).
  assert (B4 : r100 = 1461 * n4 + r4 /\ 0 <= r4 < 1461 /\ 0 <= n4 <= 24) by (unfold n4, r4; zdiv).
  assert (B1 : r4 = 365 * n1 + r1 /\ 0 <= r1 < 365 /\ 0 <= n1 <= 4) by (unfold n1, r1; zdiv).
  clearbody n400 r400 n100 r100 n4 r4 n1 r1.
  destruct ((n1 =? 4) || (n100 =? 4)) eqn:E.
  - intros [= <- <- <-].
    assert (Hlast : exists a b, 0 <= a <= 3 /\ 0 <= b <= 24 /\ (b <> 24 \/ a = 3) /\
      n400 * 400 + 1 + n100 * 100 + n4 * 4 + n1 - 1 = n400 * 400 + 1 + a * 100 + b * 4 + 3 /\
      n = n400 * 146097 + a * 36524 + b * 1461 + 3 * 365 + 366).
    { zbool. destruct (Z.eq_dec n100 4) as [->|Hne]; [exists 3, 24; lia|].
      destruct E as [->|?]; [|done]. exists n100, n4. lia. }
    destruct Hlast as (a & b & Ha & Hb & Hab & -> & ->). unfold ymd2ord.
    rewrite days_before_year_cycle, is_leap_cycle by lia.
    replace ((3 =? 3) && (negb (b =? 24) || (a =? 3))) with true
      by (symmetry; rewrite andb_true_l, orb_true_iff, negb_true_iff, Z.eqb_neq, Z.eqb_eq; done).
    change (days_before_month true 12) with 335.
    assert (Hd : days_in_month (n400 * 400 + 1 + a * 100 + b * 4 + 3) 12 = 31) by done.
    rewrite Hd. lia.
  - rewrite orb_false_iff, !Z.eqb_neq in E. destruct E as [E1 E100].
    rewrite <- (is_leap_cycle n400 n100 n4 n1) by lia.
    set (year := n400 * 400 + 1 + n100 * 100 + n4 * 4 + n1).
    destruct (month_day (is_leap year) r1) as [m' d'] eqn:Emd. intros [= <- <- <-].
    apply month_day_spec in Emd as (Hm & Hd & Hs); [|destruct (is_leap year); lia].
    split; [unfold year; lia|]. split; [done|]. split; [done|]. unfold ymd2ord.
    unfold year in Hs |- *. rewrite days_before_year_cycle by lia. lia.
Qed.

(** ** Order *)

Lemma days_before_year_next y : days_before_year (y + 1) = days_before_year y + (if is_leap y then 366 else 365).
Proof.
  unfold days_before_year, is_leap. replace (y + 1 - 1) with y by lia.
  destruct (Z.eqb_spec (y mod 4) 0), (Z.eqb_spec (y mod 100) 0), (Z.eqb_spec (y mod 400) 0); cbn; zdiv.
Qed.

Lemma days_before_year_mono y y' : y <= y' -> days_before_year y <= days_before_year y'.
Proof. unfold days_before_year. intros H. zdiv. Qed.

Definition date_valid (y m d : Z) : Prop := 1 <= m <= 12 /\ 1 <= d <= days_in_month y m.

(** Lexicographic order of the fields is the order of the ordinals. *)
Lemma ymd2ord_lt y m d y' m' d' :
  date_valid y m d -> date_valid y' m' d' ->
  (y < y' \/ (y = y' /\ (m < m' \/ (m = m' /\ d < d')))) -> ymd2ord y m d < ymd2ord y' m' d'.
Proof.
  intros [Hm Hd] [Hm' Hd'] Hlex. unfold ymd2ord.
  destruct (days_before_month_bound y m d Hm Hd) as (H1 & H2 & H3).
  destruct (days_before_month_bound y' m' d' Hm' Hd') as (H1' & H2' & H3').
  destruct Hlex as [Hy|(<- & [Hlt|(<- & Hlt)])].
  - pose proof (days_before_year_next y). pose proof (days_before_year_mono (y + 1) y' ltac:(lia)). lia.
  - pose proof (days_before_month_mono (is_leap y) (m + 1) m' ltac:(lia) ltac:(lia) ltac:(lia)). lia.
  - lia.
Qed.

(** ** The text of an instant *)

Lemma str_leb_same c r s : str_leb (c :: r) (c :: s) = str_leb r s.
Proof. cbn. by rewrite Z.ltb_irrefl, Z.eqb_refl. Qed.

Lemma str_leb_pad w a b r s :
  0 <= a < 10 ^ Z.of_nat w -> 0 <= b < 10 ^ Z.of_nat w ->
  str_leb (pad w a ++ r) (pad w b ++ s) = (a <? b) || ((a =? b) && str_leb r s).
Proof.
  revert a b r s. induction w as [|w IH]; intros a b r s Ha Hb.
  - cbn in *. assert (a = 0) as -> by lia. assert (b = 0) as -> by lia. done.
  - rewrite Nat2Z.inj_succ, Z.pow_succ_r in Ha, Hb by lia.
    cbn [pad]. rewrite <- !app_assoc. cbn [app].
    rewrite IH by (split; [apply Z.div_pos; lia|apply Z.div_lt_upper_bound; lia]).
    cbn [str_leb]. apply eq_true_iff_eq. rewrite !orb_true_iff, !andb_true_iff, !orb_true_iff, !andb_true_iff.
    rewrite !Z.ltb_lt, !Z.eqb_eq.
    pose proof (Z.div_mod a 10 ltac:(lia)). pose proof (Z.mod_pos_bound a 10 ltac:(lia)).
    pose proof (Z.div_mod b 10 ltac:(lia)). pose proof (Z.mod_pos_bound b 10 ltac:(lia)).
    split.
    + intros [?|[? [?|[? ?]]]]; [left; lia|left; lia|right; split; [lia|done]].
    + intros [?|[-> ?]]; [|right; split; [done|right; by split; [lia|]]].
      destruct (Z.lt_trichotomy (a / 10) (b / 10)) as [?|[?|?]]; [by left|right; split; [done|left; lia]|lia].
Qed.

(** The numeric fields of an instant, most significant first. *)
Definition utc_fields (t : Z) : list Z :=
  let '(y, m, d) := ord2ymd (t / us_per_day + 1) in
  let r := t mod us_per_day in
  let s := r / us_per_second in
  [y; m; d; s / 3600; s / 60 mod 60; s mod 60; r mod us_per_second].

Lemma utc_date t y m d :
  instant_ok t -> ord2ymd (t / us_per_day + 1) = (y, m, d) ->
  1 <= y <= 9999 /\ date_valid y m d /\ ymd2ord y m d = t / us_per_day + 1.
Proof.
  unfold instant_ok, max_instant, us_per_day. intros Ht H.
  assert (Hd : 0 <= t / 86400000000 < 3652059) by zdiv.
  apply ord2ymd_spec in H as (Hy & Hm & Hdd & Ho); [|lia].
  split; [|done]. split; [done|]. destruct (Z.le_gt_cases y 9999) as [|Hgt]; [done|exfalso].
  pose proof (days_before_year_mono 10000 y ltac:(lia)) as Hmono.
  change (days_before_year 10000) with 3652059 in Hmono. unfold ymd2ord in Ho.
  pose proof (days_before_month_bound y m d Hm Hdd). lia.
Qed.

Lemma utc_time t :
  let r := t mod us_per_day in let s := r / us_per_second in
  0 <= s / 3600 < 24 /\ 0 <= s / 60 mod 60 < 60 /\ 0 <= s mod 60 < 60 /\
  0 <= r mod us_per_second < us_per_second /\
  r = ((s / 3600 * 60 + s / 60 mod 60) * 60 + s mod 60) * us_per_second + r mod us_per_second.
Proof.
  cbv zeta. unfold us_per_day, us_per_second.
  pose proof (Z.mod_pos_bound t 86400000000 ltac:(lia)) as Hr.
  set (r := t mod 86400000000) in *. clearbody r.
  assert (Hs : 0 <= r / 1000000 < 86400) by zdiv.
  pose proof (Z.div_mod r 1000000 ltac:(lia)). pose proof (Z.mod_pos_bound r 1000000 ltac:(lia)).
  set (s := r / 1000000) in *. clearbody s.
  assert (E : s / 3600 = s / 60 / 60) by (rewrite Z.div_div; done || lia). rewrite E.
  pose proof (Z.div_mod s 60 ltac:(lia)). pose proof (Z.mod_pos_bound s 60 ltac:(lia)).
  set (q := s / 60) in *. assert (0 <= q < 1440) by lia. clearbody q.
  pose proof (Z.div_mod q 60 ltac:(lia)). pose proof (Z.mod_pos_bound q 60 ltac:(lia)). lia.
Qed.

Lemma utc_text_fields a b :
  instant_ok a -> instant_ok b ->
  str_leb (_utc_text a) (_utc_text b) = str_leb (utc_fields a) (utc_fields b).
Proof.
  intros Ha Hb. unfold _utc_text, utc_fields.
  destruct (ord2ymd (a / us_per_day + 1)) as [[y m] d] eqn:Ea.
  destruct (ord2ymd (b / us_per_day + 1)) as [[y' m'] d'] eqn:Eb.
  destruct (utc_date a y m d Ha Ea) as (Hy & [Hm Hd] & _).
  destruct (utc_date b y' m' d' Hb Eb) as (Hy' & [Hm' Hd'] & _).
  assert (Hlen : forall y m, days_in_month y m <= 31)
    by (intros ? ?; unfold days_in_month; repeat case_match; lia).
  pose proof (Hlen y m). pose proof (Hlen y' m').
  pose proof (utc_time a) as Ta. pose proof (utc_time b) as Tb. cbv zeta in Ta, Tb.
  cbv zeta.
  rewrite str_leb_pad by (change (10 ^ Z.of_nat 4) with 10000; lia).
  rewrite str_leb_same, str_leb_pad by (change (10 ^ Z.of_nat 2) with 100; lia).
  rewrite str_leb_same, str_leb_pad by (change (10 ^ Z.of_nat 2) with 100; lia).
  rewrite str_leb_same, str_leb_pad by (change (10 ^ Z.of_nat 2) with 100; lia).
  rewrite str_leb_same, str_leb_pad by (change (10 ^ Z.of_nat 2) with 100; lia).
  rewrite str_leb_same, str_leb_pad by (change (10 ^ Z.of_nat 2) with 100; lia).
  rewrite str_leb_same, str_leb_pad
    by (change (10 ^ Z.of_nat 6) with us_per_second; lia).
  done.
Qed.

Lemma utc_fields_inj a b : instant_ok a -> instant_ok b -> utc_fields a = utc_fields b -> a = b.
Proof.
  intros Ha Hb. unfold utc_fields.
  destruct (ord2ymd (a / us_per_day + 1)) as [[y m] d] eqn:Ea.
  destruct (ord2ymd (b / us_per_day + 1)) as [[y' m'] d'] eqn:Eb.
  destruct (utc_date a y m d Ha Ea) as (_ & _ & Ho). destruct (utc_date b y' m' d' Hb Eb) as (_ & _ & Ho').
  pose proof (utc_time a) as (_ & _ & _ & _ & Ta). pose proof (utc_time b) as (_ & _ & _ & _ & Tb).
  cbv zeta in *. intros H. injection H as -> -> -> H1 H2 H3 H4.
  rewrite H1, H2, H3, H4 in Ta. unfold us_per_day in *.
  pose proof (Z.div_mod a 86400000000). pose proof (Z.div_mod b 86400000000). lia.
Qed.

(** Two lists compare as their first difference does. *)
Lemma str_leb_cons_lt x y a b : x < y -> str_leb (x :: a) (y :: b) = true.
Proof. intros H. cbn. by rewrite (proj2 (Z.ltb_lt _ _) H). Qed.

Lemma str_leb_cons_le x y a b :
  (x < y \/ (x = y /\ str_leb a b = true)) -> str_leb (x :: a) (y :: b) = true.
Proof. intros [H|[-> H]]; [by apply str_leb_cons_lt|by rewrite str_leb_same]. Qed.

Lemma utc_fields_lt a b :
  instant_ok a -> instant_ok b -> a < b -> str_leb (utc_fields a) (utc_fields b) = true.
Proof.
  intros Ha Hb Hlt. unfold utc_fields.
  destruct (ord2ymd (a / us_per_day + 1)) as [[y m] d] eqn:Ea.
  destruct (ord2ymd (b / us_per_day + 1)) as [[y' m'] d'] eqn:Eb.
  destruct (utc_date a y m d Ha Ea) as (_ & Hv & Ho). destruct (utc_date b y' m' d' Hb Eb) as (_ & Hv' & Ho').
  pose proof (utc_time a) as (A1 & A2 & A3 & A4 & Ta). pose proof (utc_time b) as (B1 & B2 & B3 & B4 & Tb).
  cbv zeta in *. unfold us_per_second, us_per_day in *.
  pose proof (Z.div_mod a 86400000000 ltac:(lia)) as Da. pose proof (Z.div_mod b 86400000000 ltac:(lia)) as Db.
  pose proof (Z.mod_pos_bound a 86400000000 ltac:(lia)) as Ma.
  pose proof (Z.mod_pos_bound b 86400000000 ltac:(lia)) as Mb.
  pose proof (ymd2ord_lt y' m' d' y m d Hv' Hv) as Hgt.
  pose proof (ymd2ord_lt y m d y' m' d' Hv Hv') as Hlt'.
  assert (Hday : a / 86400000000 < b / 86400000000 \/ (a / 86400000000 = b / 86400000000 /\
    a mod 86400000000 < b mod 86400000000)) by lia.
  clear Da Db Hlt.
  set (ra := a mod 86400000000) in *. set (rb := b mod 86400000000) in *.
  set (ha := ra / 1000000 / 3600) in *. set (hb := rb / 1000000 / 3600) in *.
  set (ma := ra / 1000000 / 60 mod 60) in *. set (mb := rb / 1000000 / 60 mod 60) in *.
  set (sa := ra / 1000000 mod 60) in *. set (sb := rb / 1000000 mod 60) in *.
  set (ua := ra mod 1000000) in *. set (ub := rb mod 1000000) in *.
  clearbody ra rb ha hb ma mb sa sb ua ub.
  apply str_leb_cons_le. destruct (Z.lt_trichotomy y y') as [?|[?|?]]; [by left| |lia].
  right. split; [done|]. subst y'.
  apply str_leb_cons_le. destruct (Z.lt_trichotomy m m') as [?|[?|?]]; [by left| |lia].
  right. split; [done|]. subst m'.
  apply str_leb_cons_le. destruct (Z.lt_trichotomy d d') as [?|[?|?]]; [by left| |lia].
  right. split; [done|]. subst d'. destruct Hday as [?|[_ Hr]]; [lia|].
  apply str_leb_cons_le. destruct (Z.lt_trichotomy ha hb) as [?|[?|?]]; [by left| |lia].
  right. split; [done|].
  apply str_leb_cons_le. destruct (Z.lt_trichotomy ma mb) as [?|[?|?]]; [by left| |lia].
  right. split; [done|].
  apply str_leb_cons_le. destruct (Z.lt_trichotomy sa sb) as [?|[?|?]]; [by left| |lia].
  right. split; [done|]. apply str_leb_cons_lt. lia.
Qed.

(** The text order of [_utc_text] is the order of time. *)
Lemma utc_text_order a b :
  instant_ok a -> instant_ok b -> str_leb (_utc_text a) (_utc_text b) = (a <=? b).
Proof.
  intros Ha Hb. rewrite utc_text_fields by done. destruct (Z.leb_spec a b) as [Hle|Hgt].
  - destruct (Z.eq_dec a b) as [->|]; [apply str_leb_refl|]. apply utc_fields_lt; [done..|lia].
  - apply not_true_iff_false. intros H.
    assert (a = b); [|lia]. apply utc_fields_inj; [done..|].
    apply str_leb_antisym; [done|]. by apply utc_fields_lt.
Qed.
