(* ===== verification/FloatOps.v ===== *)
(** Arithmetic of Python floats: each operation is the exact result, correctly
    rounded.  Every finite binary64 number is an integer multiple of
    [2 ^ -1074], so [fixed] gives exact values as integers of that unit. *)

From S2P Require Import Prelude.
From S2P Require Import PyText.
From S2P Require Import Binary64.

Definition sign_of (x : spec_float) : bool :=
  match x with S754_zero s | S754_infinity s | S754_finite s _ _ => s | S754_nan => false end.

Definition unit_exp : Z := 1074.

(** The exact value of a finite float, in units of [2 ^ -1074]. *)
Definition fixed (x : spec_float) : Z :=
  match x with
  | S754_finite s m e => (if s then -1 else 1) * (Zpos m * 2 ^ (e + unit_exp))
  | _ => 0
  end.

(** The float nearest to [num / den], [zero_sign] for a zero result. *)
Definition round_signed (zero_sign : bool) (num den : Z) : spec_float :=
  if num =? 0 then S754_zero zero_sign else round_ratio (num <? 0) (Z.abs num) den.

Definition float_mul (x y : spec_float) : spec_float :=
  let s := xorb (sign_of x) (sign_of y) in
  match x, y with
  | S754_nan, _ | _, S754_nan => S754_nan
  | S754_infinity _, S754_zero _ | S754_zero _, S754_infinity _ => S754_nan
  | S754_infinity _, _ | _, S754_infinity _ => S754_infinity s
  | _, _ => round_signed s (fixed x * fixed y) (2 ^ (2 * unit_exp))
  end.

Definition float_add (x y : spec_float) : spec_float :=
  match x, y with
  | S754_nan, _ | _, S754_nan => S754_nan
  | S754_infinity s, S754_infinity s' => if eqb s s' then x else S754_nan
  | S754_infinity _, _ => x
  | _, S754_infinity _ => y
  | _, _ => round_signed (sign_of x && sign_of y) (fixed x + fixed y) (2 ^ unit_exp)
  end.

(** [float(z)]: [None] is [OverflowError]. *)
Definition float_of_int (z : Z) : option spec_float :=
  let f := dec_to_float (z <? 0) (Z.abs z) 0 in if is_finite f then Some f else None.

(** [x < y] and [x <= y]: finite floats by their exact values, NaN never. *)
Definition float_lt (x y : spec_float) : bool :=
  match x, y with
  | S754_nan, _ | _, S754_nan => false
  | S754_infinity s, S754_infinity s' => s && negb s'
  | S754_infinity s, _ => s
  | _, S754_infinity s => negb s
  | _, _ => fixed x <? fixed y
  end.

Definition float_le (x y : spec_float) : bool :=
  match x, y with
  | S754_nan, _ | _, S754_nan => false
  | _, _ => negb (float_lt y x)
  end.

(** [min(x, y)]: the first unless the second is smaller. *)
Definition float_min (x y : spec_float) : spec_float := if float_lt y x then y else x.

(** ** Rounding is monotone between floats *)

Lemma mk_float_fixed s m e :
  0 <= m <= 2 ^ 53 -> e_min <= e ->
  match mk_float s m e with
  | S754_infinity _ => 2 ^ 53 * 2 ^ (e_max + unit_exp) <= m * 2 ^ (e + unit_exp) \/ e_max < e
  | x => is_finite x = true /\ fixed x = (if s then -1 else 1) * (m * 2 ^ (e + unit_exp))
  end.
Proof.
  intros Hm He. unfold mk_float, e_min, e_max, unit_exp in *.
  destruct (Z.eqb_spec m (2 ^ 53)) as [->|Hne].
  - destruct (Z.leb_spec (e + 1) 971).
    + split; [done|]. unfold fixed, unit_exp. f_equal.
      replace (e + 1 + 1074) with (Z.succ (e + 1074)) by lia. rewrite Z.pow_succ_r by lia.
      change (2 ^ 53) with (2 * 2 ^ 52). lia.
    + destruct (Z.eq_dec e 971) as [->|]; [left; lia|right; lia].
  - destruct m as [|m|m]; [split; [done|]; cbn; destruct s; lia| |lia].
    destruct (Z.leb_spec e 971); [done|right; lia].
Qed.

(** The comparison of the scaled ratio with an integer, in units. *)
Lemma scaled_unit num den e :
  e_min <= e ->
  exists c, 0 < c /\ num * 2 ^ Z.max 0 (- e) * c = num * 2 ^ unit_exp /\
    den * 2 ^ Z.max 0 (- - e) * c = den * 2 ^ (e + unit_exp).
Proof.
  intros He. unfold e_min, unit_exp in *. exists (2 ^ (1074 - Z.max 0 (- e))).
  split; [apply Z.pow_pos_nonneg; lia|].
  rewrite <- !Z.mul_assoc, <- !Z.pow_add_r by lia. split; f_equal; f_equal; lia.
Qed.

Lemma round_half_even_ge k n d : 0 < d -> k * d <= n -> k <= round_half_even n d.
Proof. intros Hd H. pose proof (round_half_even_bounds n d Hd). nia. Qed.

Lemma round_half_even_le k n d : 0 < d -> n <= k * d -> round_half_even n d <= k.
Proof. intros Hd H. pose proof (round_half_even_bounds n d Hd). nia. Qed.

Definition float_bound (c : spec_float) : Prop :=
  exists m e, c = S754_finite false m e /\ valid_float c = true.

Lemma float_bound_spec m e :
  valid_float (S754_finite false m e) = true ->
  Zpos m < 2 ^ 53 /\ e_min <= e <= e_max /\ (2 ^ 52 <= Zpos m \/ e = e_min).
Proof.
  intros [H1 H2]%bounded_spec. unfold e_min, e_max in *.
  split; [apply Z.log2_lt_pow2; lia|]. split; [lia|].
  destruct (Z.eq_dec e (-1074)) as [|]; [by right|left]. apply Z.log2_le_pow2; lia.
Qed.

Lemma pow2_split a b : 0 <= b <= a -> 2 ^ a = 2 ^ b * 2 ^ (a - b).
Proof. intros H. rewrite <- Z.pow_add_r by lia. f_equal. lia. Qed.

Lemma scale_gap mc m t p :
  mc < 2 ^ 53 -> 2 ^ 52 <= m -> 2 <= t -> 0 < p -> mc * p <= m * (p * t).
Proof.
  intros H1 H2 H3 H4. replace (m * (p * t)) with (m * t * p) by ring.
  apply Z.mul_le_mono_nonneg_r; [lia|].
  assert (m * 2 <= m * t) by (apply Z.mul_le_mono_nonneg_l; lia). lia.
Qed.

Lemma scale_gap_lt mc t p : mc < 2 ^ 53 -> 2 <= t -> 0 < p -> mc * p < 2 ^ 52 * (p * t).
Proof.
  intros H1 H3 H4. replace (2 ^ 52 * (p * t)) with (2 ^ 52 * t * p) by ring.
  apply Z.mul_lt_mono_pos_r; lia.
Qed.

(** The exponent of a ratio that a float bounds is at most that of the float. *)
Lemma ratio_exponent num den n d e k mc ec :
  0 < den -> 0 < k -> n * k = num * 2 ^ unit_exp -> d * k = den * 2 ^ (e + unit_exp) ->
  mc < 2 ^ 53 -> -1074 <= ec -> (ec < e -> 2 ^ 52 * d <= n) ->
  num * 2 ^ unit_exp <= mc * 2 ^ (ec + unit_exp) * den -> e <= ec.
Proof.
  unfold unit_exp. intros Hd Hk E1 E2 Hmc Hec Hlow Hc. destruct (Z.le_gt_cases e ec) as [|Hgt]; [done|exfalso].
  pose proof (Hlow Hgt) as H52. apply (Z.mul_le_mono_pos_r _ _ k) in H52; [|exact Hk].
  rewrite <- Z.mul_assoc, E2, E1 in H52.
  assert (Hgap : mc * 2 ^ (ec + 1074) < 2 ^ 52 * 2 ^ (e + 1074)).
  { rewrite (pow2_split (e + 1074) (ec + 1074)) by lia.
    assert (Ht : 2 <= 2 ^ (e + 1074 - (ec + 1074))) by (apply (Z.pow_le_mono_r 2 1); lia).
    apply scale_gap_lt; [done|done|apply Z.pow_pos_nonneg; lia]. }
  apply (Z.mul_lt_mono_pos_r den) in Hgap; [|exact Hd].
  apply (Z.lt_irrefl (mc * 2 ^ (ec + 1074) * den)).
  eapply Z.lt_le_trans; [exact Hgap|]. etrans; [|exact Hc].
  rewrite <- Z.mul_assoc, (Z.mul_comm _ den). exact H52.
Qed.

(** Rounding the ratio [num / den] up to a float it exceeds, or down to one it
    does not. *)
Lemma round_ratio_ge num den c :
  0 < num -> 0 < den -> float_bound c -> fixed c * den <= num * 2 ^ unit_exp ->
  match round_ratio false num den with
  | S754_infinity s => s = false
  | x => is_finite x = true /\ fixed c <= fixed x
  end.
Proof.
  intros Hn Hd (mc & ec & -> & Hv) Hc. destruct (float_bound_spec mc ec Hv) as (Hmc & Hec & Hnorm).
  assert (Hfc : fixed (S754_finite false mc ec) = Zpos mc * 2 ^ (ec + unit_exp)) by (unfold fixed; lia).
  rewrite Hfc in Hc. unfold round_ratio, scale2. destruct (round_frame num den Hn Hd) as (Hn0 & Hd0 & Hup & Hlow).
  cbv zeta in *. set (e := Z.max (log2_ratio num den - 52) e_min) in *.
  assert (He : e_min <= e) by (unfold e; lia). clearbody e.
  set (n := num * 2 ^ Z.max 0 (- e)) in *. set (d := den * 2 ^ Z.max 0 (- - e)) in *.
  pose proof (round_half_even_bounds n d Hd0) as Hr.
  assert (Hm : 0 <= round_half_even n d <= 2 ^ 53) by nia.
  pose proof (mk_float_fixed false (round_half_even n d) e Hm He) as Hmk.
  assert (Hle : Zpos mc * 2 ^ (ec + unit_exp) <= round_half_even n d * 2 ^ (e + unit_exp)).
  { unfold e_min, unit_exp in *.
    destruct (Z.le_gt_cases e ec).
    - rewrite (pow2_split (ec + 1074) (e + 1074)) in Hc |- * by lia.
      replace (ec + 1074 - (e + 1074)) with (ec - e) in * by lia.
      rewrite Z.mul_assoc, (Z.mul_comm (Zpos mc)), <- Z.mul_assoc, Z.mul_comm.
      apply Z.mul_le_mono_nonneg_r; [apply Z.pow_nonneg; lia|].
      apply round_half_even_ge; [exact Hd0|].
      destruct (scaled_unit num den e He) as (k & Hk & E1 & E2). unfold unit_exp in *.
      apply (Z.mul_le_mono_pos_r _ _ k); [exact Hk|]. fold n d in E1, E2. rewrite <- Z.mul_assoc, E2, E1. nia.
    - assert (H52 : 2 ^ 52 <= round_half_even n d) by (apply round_half_even_ge; [done|apply Hlow; lia]).
      rewrite (pow2_split (e + 1074) (ec + 1074)) by lia.
      assert (2 <= 2 ^ (e + 1074 - (ec + 1074))) by (apply (Z.pow_le_mono_r 2 1); lia).
      pose proof (Z.pow_pos_nonneg 2 (ec + 1074) ltac:(lia) ltac:(lia)) as HP.
      apply (scale_gap (Zpos mc)); [lia|exact H52|done|exact HP]. }
  rewrite Hfc. destruct (mk_float false _ e) as [s|s| |s m' e'] eqn:Ef;
    try (destruct Hmk as [Hf Hmk]; split; [exact Hf|rewrite Hmk; lia]).
  unfold mk_float in Ef. repeat case_match; by simplify_eq.
Qed.

Lemma round_ratio_le num den c :
  0 < num -> 0 < den -> float_bound c -> num * 2 ^ unit_exp <= fixed c * den ->
  is_finite (round_ratio false num den) = true /\ 0 <= fixed (round_ratio false num den) <= fixed c.
Proof.
  intros Hn Hd (mc & ec & -> & Hv) Hc. destruct (float_bound_spec mc ec Hv) as (Hmc & Hec & Hnorm).
  assert (Hfc : fixed (S754_finite false mc ec) = Zpos mc * 2 ^ (ec + unit_exp)) by (unfold fixed; lia).
  rewrite Hfc in *. unfold e_min, e_max, unit_exp in *.
  unfold round_ratio, scale2. destruct (round_frame num den Hn Hd) as (Hn0 & Hd0 & Hup & Hlow).
  cbv zeta in *. set (e := Z.max (log2_ratio num den - 52) e_min) in *.
  assert (He : -1074 <= e) by (unfold e, e_min; lia). clearbody e.
  set (n := num * 2 ^ Z.max 0 (- e)) in *. set (d := den * 2 ^ Z.max 0 (- - e)) in *.
  pose proof (round_half_even_bounds n d Hd0) as Hr.
  assert (Hm : 0 <= round_half_even n d <= 2 ^ 53) by nia.
  pose proof (mk_float_fixed false (round_half_even n d) e Hm He) as Hmk.
  destruct (scaled_unit num den e He) as (k & Hk & E1 & E2). fold n d in E1, E2.
  assert (Hec' : e <= ec) by (apply (ratio_exponent num den n d e k (Zpos mc) ec); try done; [lia|intros ?; apply Hlow; unfold e_min; lia]).
  assert (Hle : round_half_even n d * 2 ^ (e + 1074) <= Zpos mc * 2 ^ (ec + 1074)).
  { rewrite (pow2_split (ec + 1074) (e + 1074)) in Hc |- * by lia.
    replace (ec + 1074 - (e + 1074)) with (ec - e) in * by lia.
    rewrite (Z.mul_comm (2 ^ (e + 1074))), Z.mul_assoc.
    apply Z.mul_le_mono_nonneg_r; [apply Z.pow_nonneg; lia|].
    apply round_half_even_le; [exact Hd0|]. apply (Z.mul_le_mono_pos_r _ _ k); [exact Hk|].
    rewrite <- (Z.mul_assoc _ d k), E1, E2. unfold unit_exp. etrans; [exact Hc|].
    apply Z.eq_le_incl. ring. }
  unfold unit_exp in Hmk. destruct (mk_float false _ e) as [s|s| |s m' e'] eqn:Ef;
    try (destruct Hmk as [Hf Hmk]; split; [exact Hf|]; rewrite Hmk;
         assert (0 <= round_half_even n d * 2 ^ (e + 1074)) by (apply Z.mul_nonneg_nonneg; [lia|apply Z.pow_nonneg; lia]);
         lia).
  - exfalso. unfold e_max in Hmk. destruct Hmk as [Hmk|?]; [|lia].
    assert (2 ^ (ec + 1074) <= 2 ^ (971 + 1074)) by (apply Z.pow_le_mono_r; lia).
    assert (Zpos mc * 2 ^ (ec + 1074) < 2 ^ 53 * 2 ^ (971 + 1074)); [|lia].
    apply Z.lt_le_trans with (2 ^ 53 * 2 ^ (ec + 1074)).
    + apply Z.mul_lt_mono_pos_r; [apply Z.pow_pos_nonneg; lia|done].
    + apply Z.mul_le_mono_nonneg_l; [lia|done].
Qed.

(** ** Exact values of the operations *)

Lemma fixed_nonneg x : sign_of x = false -> 0 <= fixed x.
Proof.
  destruct x as [| | |[] m e]; cbn [sign_of fixed]; try done; intros _.
  apply Z.mul_nonneg_nonneg; [lia|]. apply Z.mul_nonneg_nonneg; [lia|apply Z.pow_nonneg; lia].
Qed.

(** A non-negative ratio at most a float rounds to a finite float in between. *)
Lemma round_signed_le z num den c :
  0 <= num -> 0 < den -> float_bound c -> num * 2 ^ unit_exp <= fixed c * den ->
  is_finite (round_signed z num den) = true /\ 0 <= fixed (round_signed z num den) <= fixed c.
Proof.
  intros Hn Hd Hc Hle. unfold round_signed. destruct (Z.eqb_spec num 0) as [->|].
  - split; [done|]. destruct Hc as (m & e & -> & Hv). split; [done|]. by apply fixed_nonneg.
  - rewrite (proj2 (Z.ltb_ge num 0)), Z.abs_eq by lia. apply round_ratio_le; [lia|done..].
Qed.

Lemma round_signed_ge z num den c :
  0 < num -> 0 < den -> float_bound c -> fixed c * den <= num * 2 ^ unit_exp ->
  match round_signed z num den with
  | S754_infinity s => s = false
  | x => is_finite x = true /\ fixed c <= fixed x
  end.
Proof.
  intros Hn Hd Hc Hle. unfold round_signed. rewrite (proj2 (Z.eqb_neq num 0)) by lia.
  rewrite (proj2 (Z.ltb_ge num 0)), Z.abs_eq by lia. by apply round_ratio_ge.
Qed.

Lemma round_signed_valid z num den : 0 < den -> valid_float (round_signed z num den) = true.
Proof.
  intros Hd. unfold round_signed. destruct (Z.eqb_spec num 0); [done|].
  apply round_ratio_valid; lia.
Qed.

Lemma round_signed_sign num den : 0 <= num -> sign_of (round_signed false num den) = false.
Proof.
  intros Hn. unfold round_signed. destruct (num =? 0); [done|].
  rewrite (proj2 (Z.ltb_ge num 0)) by lia. unfold round_ratio.
  destruct (scale2 _ _ _) as [n d]. unfold mk_float. by repeat case_match.
Qed.

(** A non-negative finite float is zero or a bound. *)
Lemma finite_bound x :
  valid_float x = true -> is_finite x = true -> sign_of x = false -> fixed x = 0 \/ float_bound x.
Proof.
  destruct x as [| | |s m e]; cbn [is_finite sign_of]; try done; [by left|].
  intros Hv _ ->. right. by exists m, e.
Qed.
