(* ===== verification/FloatCheck.v ===== *)
(** [forensics/check_float_canonicalization.py]: the whole check.  [cargo] runs
    a program outside the Python sources: what it does with its arguments is a
    parameter. *)

From S2P Require Import Prelude.
From S2P Require Import PyText.
From S2P Require Import Binary64.
From S2P Require Import FloatOps.
From S2P Require Import PyValue.
From S2P Require Import JsonDumps.
From S2P Require Import JsonLoads.
From S2P Require Import FloatCanonical.

(** What [main] does: [return], [SystemExit], or an exception. *)
Inductive check_result :=
| ExitCode (code : Z)
| ExitMessage (message : pystr)
| CheckRaised.

(** [subprocess.run(..., check=True, capture_output=True, text=True)]. *)
Inductive cargo_outcome :=
| CargoMissing
| CargoFailed (code : Z)
| CargoOutput (stdout : pystr).

(** ** [_vectors] *)

(** [value == 1] of a number; [None] when [document.get] fails or gives none. *)
Definition is_version_1 (v : pyval) : bool :=
  match v with
  | PInt z => z =? 1
  | PBool b => b
  | PFloat f => is_finite f && (fixed f =? 2 ^ unit_exp)
  | _ => false
  end.

(** A vector has a text for its bits and a text or [null] for its canonical
    form; [None] for any other shape. *)
Definition read_vector (v : pyval) : option vector :=
  match v with
  | PDict d =>
      d ← str_keys d;
      bits_hex ← dget (u "binary64_hex") d;
      canonical ← dget (u "canonical") d;
      match bits_hex, canonical with
      | PStr h, PStr c => Some (h, Some c)
      | PStr h, PNone => Some (h, None)
      | _, _ => None
      end
  | _ => None
  end.

Definition vector_list (v : option pyval) : option (list vector) :=
  match v with Some (PList l) => mapM read_vector l | _ => None end.

Definition _vectors (document : pyval) : option (list vector) :=
  match document with
  | PDict d =>
      d ← str_keys d;
      if is_version_1 (default PNone (dget (u "format_version") d)) then
        valid ← vector_list (dget (u "valid_vectors") d);
        invalid ← vector_list (dget (u "invalid_vectors") d);
        Some (valid ++ invalid)
      else None
  | _ => None
  end.

(** ** [_rust_lines] *)

(** [str.splitlines()] on the characters it breaks at; a pair CR LF is one
    break, and the last line needs none. *)
Definition is_line_break (c : Z) : bool :=
  existsb (Z.eqb c) [10; 11; 12; 13; 28; 29; 30; 0x85; 0x2028; 0x2029].

Fixpoint splitlines_from (line : pystr) (s : pystr) : list pystr :=
  match s with
  | [] => match line with [] => [] | _ => [line] end
  | c :: s' =>
      if is_line_break c then
        line :: match s' with
                | 10 :: s'' => if c =? 13 then splitlines_from [] s'' else splitlines_from [] s'
                | _ => splitlines_from [] s'
                end
      else splitlines_from (line ++ [c]) s'
  end.
Definition splitlines (s : pystr) : list pystr := splitlines_from [] s.

(** [toolchain]: the variable [VESTRIX_RUST_TOOLCHAIN]; [manifest] the path of
    [Cargo.toml]. *)
Definition cargo_command (toolchain : option pystr) (manifest : pystr) (vectors : list vector) : list pystr :=
  u "cargo" :: (match toolchain with Some (c :: t) => [u "+" ++ c :: t] | _ => [] end)
  ++ [u "run"; u "--quiet"; u "--manifest-path"; manifest; u "--example"; u "canonicalize_float"; u "--"]
  ++ map fst vectors.

Definition _rust_lines (cargo : list pystr -> cargo_outcome) (toolchain : option pystr) (manifest : pystr)
  (vectors : list vector) : check_result + list pystr :=
  match cargo (cargo_command toolchain manifest vectors) with
  | CargoMissing => inl (ExitMessage (u "cargo is required for the cross-language check"))
  | CargoFailed code => inl (ExitCode code)
  | CargoOutput stdout => inr (splitlines stdout)
  end.

(** ** [main] *)

(** The differences it prints are not modelled. *)
Definition _diff (expected actual : list pystr) : bool := bool_decide (actual = expected).

Definition main (cargo : list pystr -> cargo_outcome) (toolchain : option pystr) (manifest text : pystr) : check_result :=
  match loads_str text with
  | Err _ => CheckRaised
  | Ok document =>
      match _vectors document with
      | None => CheckRaised
      | Some vectors =>
          let expected := _expected_lines vectors in
          match _python_lines vectors with
          | None => CheckRaised
          | Some python_lines =>
              match _rust_lines cargo toolchain manifest vectors with
              | inl result => result
              | inr rust_lines =>
                  if _diff expected python_lines && _diff expected rust_lines && _diff python_lines rust_lines
                  then ExitCode 0 else ExitCode 1
              end
          end
      end
  end.
