(* ===== verification/FloatCheckTheorems.v ===== *)
(** The cross-language check: its exit code says exactly whether both
    implementations agree with the vectors. *)

From S2P Require Import Prelude.
From S2P Require Import PyText.
From S2P Require Import Binary64.
From S2P Require Import PyValue.
From S2P Require Import JsonDumps.
From S2P Require Import JsonLoads.
From S2P Require Import FloatCanonical.
From S2P Require Import FloatCheck.

(** ** Lines *)

Definition no_break (s : pystr) : Prop := Forall (fun c => is_line_break c = false) s.

Lemma splitlines_line line rest cur : no_break line ->
  splitlines_from cur (line ++ 10 :: rest) = (cur ++ line) :: splitlines_from [] rest.
Proof.
  intros Hl. revert cur. induction Hl as [|c line Hc _ IH]; intros cur.
  - rewrite app_nil_r. cbn. repeat (case_match; try done).
  - cbn [app splitlines_from]. rewrite Hc, IH. by rewrite <- app_assoc.
Qed.

Lemma splitlines_lines ls : Forall no_break ls -> splitlines (concat (map (fun l => l ++ [10]) ls)) = ls.
Proof.
  unfold splitlines. induction 1 as [|l ls Hl _ IH]; [done|]. cbn [map concat].
  rewrite <- app_assoc. cbn [app]. by rewrite splitlines_line, IH.
Qed.

(** ** The Python side *)

(** The text a vector expects. *)
Definition expected_text (v : vector) : pystr := match v.2 with Some (c :: s) => c :: s | _ => REJECTED end.
Definition expected_line (v : vector) : pystr := v.1 ++ [9] ++ expected_text v.

(** The text of a number, or the mark of a refusal. *)
Definition rendered (f : spec_float) : pystr := if is_finite f then float_repr f else REJECTED.

Lemma python_line_Some v l :
  python_line v = Some l <->
  exists b f, bytes_fromhex v.1 = Some b /\ unpack_double b = Some f /\ l = v.1 ++ [9] ++ rendered f.
Proof.
  unfold python_line, rendered. split.
  - intros (b & Hb & (f & Hf & H)%bind_Some)%bind_Some. exists b, f. split; [done|]. split; [done|].
    unfold canonicalize_float in H. cbn [dumps] in H. destruct (is_finite f); cbn in H; by injection H as <-.
  - intros (b & f & -> & Hf & ->). cbn. rewrite Hf. cbn. unfold canonicalize_float. cbn [dumps].
    destruct (is_finite f); reflexivity.
Qed.

Lemma python_lines_Forall2 vectors ls : _python_lines vectors = Some ls <-> Forall2 (fun v l => python_line v = Some l) vectors ls.
Proof.
  revert ls. induction vectors as [|v vectors IH]; intros ls; cbn.
  - split; [intros [= <-]; constructor|by inversion 1].
  - split.
    + intros (l & Hl & (ls' & Hls & [= <-])%bind_Some)%bind_Some. constructor; [done|]. by apply IH.
    + inversion_clear 1 as [|? ? ? ? Hl Hls]. apply IH in Hls. rewrite Hl. cbn. by rewrite Hls.
Qed.

Lemma lines_eq (f g : vector -> pystr) vectors :
  map (fun v => v.1 ++ [9] ++ f v) vectors = map (fun v => v.1 ++ [9] ++ g v) vectors <->
  Forall (fun v => f v = g v) vectors.
Proof.
  induction vectors as [|v vectors IH]; cbn [map]; [by split|]. rewrite Forall_cons. split.
  - intros [= H%(inj (app v.1)) H2]. injection H as ?. split; [done|]. by apply IH.
  - intros [-> H%IH]. by f_equal.
Qed.

Lemma python_lines_expected vectors :
  _python_lines vectors = Some (map expected_line vectors) <->
  Forall (fun v => exists b f, bytes_fromhex v.1 = Some b /\ unpack_double b = Some f /\ expected_text v = rendered f) vectors.
Proof.
  assert (Hv : forall v, python_line v = Some (expected_line v) <->
    exists b f, bytes_fromhex v.1 = Some b /\ unpack_double b = Some f /\ expected_text v = rendered f).
  { intros v. rewrite python_line_Some. unfold expected_line. split.
    - intros (b & f & Hb & Hf & H%(inj (app v.1))). injection H as H. eauto.
    - intros (b & f & Hb & Hf & ->). eauto. }
  rewrite python_lines_Forall2. induction vectors as [|v vectors IH]; cbn [map]; [by split; constructor|].
  rewrite Forall2_cons, Forall_cons. by rewrite Hv, IH.
Qed.

(** C33: on a document of vectors, with a Rust program that prints one line for
    each of its arguments, the check returns 0 exactly when for every vector the
    hexadecimal text is that of eight octets, and the expected text is the
    canonical text of that number in Python, or the mark of a refusal where the
    number is not finite, and is what the Rust program printed; otherwise it
    returns 1 or raises, so a disagreement never passes. *)
Theorem check_passes_exact cargo toolchain manifest text document vectors (rust : pystr -> pystr)
  (Htext : loads_str text = Ok document) (Hvectors : _vectors document = Some vectors)
  (Hbreaks : Forall (fun v => no_break v.1 /\ no_break (rust v.1)) vectors)
  (Hcargo : cargo (cargo_command toolchain manifest vectors) =
    CargoOutput (concat (map (fun v => (v.1 ++ [9] ++ rust v.1) ++ [10]) vectors))) :
  (main cargo toolchain manifest text = ExitCode 0 <->
   Forall (fun v => exists b f, bytes_fromhex v.1 = Some b /\ unpack_double b = Some f /\
             expected_text v = rendered f /\ rust v.1 = expected_text v) vectors) /\
  (main cargo toolchain manifest text = ExitCode 0 \/ main cargo toolchain manifest text = ExitCode 1 \/
   main cargo toolchain manifest text = CheckRaised).
Proof.
  assert (Hrust : _rust_lines cargo toolchain manifest vectors = inr (map (fun v => v.1 ++ [9] ++ rust v.1) vectors)).
  { unfold _rust_lines. rewrite Hcargo. f_equal. rewrite <- (map_map (fun v => v.1 ++ [9] ++ rust v.1) (fun l => l ++ [10])).
    apply splitlines_lines, Forall_map. eapply Forall_impl; [exact Hbreaks|]. intros v [H1 H2].
    apply Forall_app_2; [done|]. by constructor. }
  assert (Hspec : Forall (fun v => exists b f, bytes_fromhex v.1 = Some b /\ unpack_double b = Some f /\
             expected_text v = rendered f /\ rust v.1 = expected_text v) vectors <->
           _python_lines vectors = Some (map expected_line vectors) /\
           map (fun v => v.1 ++ [9] ++ rust v.1) vectors = map expected_line vectors).
  { unfold expected_line at 2. rewrite python_lines_expected, lines_eq, <- Forall_and, !Forall_forall. naive_solver. }
  rewrite Hspec. unfold main. rewrite Htext, Hvectors. unfold _diff.
  change (_expected_lines vectors) with (map expected_line vectors).
  destruct (_python_lines vectors) as [ls|]; [|split; [split; [done|by intros [? _]]|by right; right]].
  rewrite Hrust. set (rl := map (fun v => v.1 ++ [9] ++ rust v.1) vectors). set (el := map expected_line vectors).
  case_bool_decide as H1; cbn [andb].
  2:{ split; [split; [done|]; by intros [[= ?] _]|right; by left]. }
  case_bool_decide as H2; cbn [andb].
  2:{ split; [split; [done|]; by intros [_ ?]|right; by left]. }
  subst ls. rewrite H2, bool_decide_eq_true_2 by done. split; [by split|by left].
Qed.

(** One number and one that is not finite, and a program that knows both. *)
Definition check_document : pystr := Eval vm_compute in
  map (fun c => if c =? 39 then 34 else c)
    (u "{'format_version':1,'valid_vectors':[{'binary64_hex':'3ff0000000000000','canonical':'1.0'}],'invalid_vectors':[{'binary64_hex':'7ff8000000000000','canonical':null}]}").
Definition check_vectors : list vector := [(u "3ff0000000000000", Some (u "1.0")); (u "7ff8000000000000", None)].
Definition sample_rust (bits : pystr) : pystr := if bool_decide (bits = u "3ff0000000000000") then u "1.0" else REJECTED.
Definition sample_cargo (_ : list pystr) : cargo_outcome :=
  CargoOutput (concat (map (fun v => (v.1 ++ [9] ++ sample_rust v.1) ++ [10]) check_vectors)).

Lemma check_passes_exact_witness : main sample_cargo None [] check_document = ExitCode 0.
Proof.
  assert (Hl : exists document, loads_str check_document = Ok document /\ _vectors document = Some check_vectors).
  { eexists. split; [vm_compute; reflexivity|vm_compute; reflexivity]. }
  destruct Hl as (document & Hl & Hv).
  apply (check_passes_exact sample_cargo None [] check_document document check_vectors sample_rust Hl Hv).
  - repeat constructor.
  - reflexivity.
  - constructor; [|constructor; [|constructor]]; (eexists _, _; split; [vm_compute; reflexivity|]);
      (split; [vm_compute; reflexivity|]); (split; vm_compute; reflexivity).
Defined.
