(* ===== verification/Anchor.v ===== *)
(** [forensics/anchor.py]: proofs of existence for the chain tip.

    The OpenTimestamps library is not part of the repository: [OpenTimestamps]
    is the interface to it.  Proof files are a finite map from path texts to
    octets; what the operating system does during one write is a parameter. *)

From stdpp Require Import gmap.
From S2P Require Import Prelude.
From S2P Require Import PyText.
From S2P Require Import PyValue.
From S2P Require Import Sha256.
From S2P Require Import RecordFormat.
From S2P Require Import ChainStore.

Notation files := (@gmap (list Z) (@list_eq_dec Z Z.eq_dec) (@list_countable Z Z.eq_dec Z_countable) (list Z))
  (only parsing).

(** ** Errors *)

Inductive integrity_reason :=
| EmptyProof
| BadDigestLength
| MalformedProof
| NotSha256
| DigestMismatch.

Inductive plain_reason :=
| BadInputLength
| BadNonce
| EmptyBackendProof
| TargetExists
| OSErrorRaised
| StoreMissing
| EmptyChain
| LockTimeout
| SerializeFailed
| MissingProofFile
| OtherException.

(** The three classes of [anchor.py], the exceptions of the chain reader, and
    every other [Exception]. *)
Inductive anchor_exn :=
| AnchorIntegrityError (r : integrity_reason)
| AnchorTransientError
| AnchorConfigurationError
| ChainError (e : store_exn)
| PlainError (r : plain_reason).

(** ** The OpenTimestamps library *)

Inductive attestation :=
| PendingAttestation (uri : pystr)
| BitcoinBlockHeaderAttestation (height : Z)
| OtherAttestation.

(** [ots_nonce digest nonce sub] is the timestamp of [digest] after
    [ops.add(OpAppend(nonce)).ops.add(OpSHA256())], whose last node has become
    [sub].  Serialization raises ([None]) on a tree without attestations. *)
Class OpenTimestamps := {
  Timestamp : Type;
  ots_msg : Timestamp -> bytes;
  ots_all_attestations : Timestamp -> list attestation;
  ots_nonce : bytes -> bytes -> Timestamp -> Timestamp;
  ots_serialize : Timestamp -> option bytes;
  (* [DetachedTimestampFile.deserialize] and [assert_eof]: whether the file
     hash operation is SHA-256, and the timestamp *)
  ots_deserialize : bytes -> option (bool * Timestamp)
}.

(** What a backend returns where [bytes] are expected. *)
Inductive proof_object :=
| ProofBytes (b : bytes)
| ProofOther.

(** [isinstance(proof, bytes) and proof]. *)
Definition proof_bytes (p : proof_object) : option bytes :=
  match p with ProofBytes (c :: b) => Some (c :: b) | _ => None end.

Record ProofInspection := { inspected_digest : bytes; has_bitcoin_attestation : bool }.

(** How a submitter or an upgrader ends: [SystemExit] is not an [Exception]. *)
Inductive client_exn :=
| ClientConfiguration
| ClientTransient
| ClientSystemExit
| ClientOther.

Section anchor.
Context `{OpenTimestamps}.

(** ** Inspection *)

Definition _validated_detached (proof : proof_object) (expected_digest : bytes) : res anchor_exn Timestamp :=
  match proof_bytes proof with
  | None => Err (AnchorIntegrityError EmptyProof)
  | Some b =>
      _ ← ensure (Nat.eqb (length expected_digest) 32) (AnchorIntegrityError BadDigestLength);
      match ots_deserialize b with
      | None => Err (AnchorIntegrityError MalformedProof)
      | Some (is_sha256, timestamp) =>
          _ ← ensure is_sha256 (AnchorIntegrityError NotSha256);
          _ ← ensure (bool_decide (ots_msg timestamp = expected_digest)) (AnchorIntegrityError DigestMismatch);
          Ok timestamp
      end
  end.

Definition is_bitcoin (a : attestation) : bool :=
  match a with BitcoinBlockHeaderAttestation _ => true | _ => false end.

Definition inspect_proof (proof : proof_object) (expected_digest : bytes) : res anchor_exn ProofInspection :=
  timestamp ← _validated_detached proof expected_digest;
  Ok {| inspected_digest := ots_msg timestamp;
        has_bitcoin_attestation := existsb is_bitcoin (ots_all_attestations timestamp) |}.

(** ** [OpenTimestampsBackend] *)

Definition _serialize_detached (timestamp : Timestamp) : res anchor_exn proof_object :=
  match ots_serialize timestamp with
  | Some b => Ok (ProofBytes b)
  | None => Err (PlainError SerializeFailed)
  end.

(** [nonce] is what the nonce factory returned, [None] for no [bytes]; the
    submitter sees the commitment and leaves its timestamp, or raises. *)
Definition stamp (nonce : option bytes) (submitter : bytes -> res client_exn Timestamp) (digest : bytes)
  : res anchor_exn proof_object :=
  _ ← ensure (Nat.eqb (length digest) 32) (PlainError BadInputLength);
  match nonce with
  | None => Err (PlainError BadNonce)
  | Some nonce =>
      _ ← ensure (Nat.eqb (length nonce) 16) (PlainError BadNonce);
      let calendar_commitment := sha256 (digest ++ nonce) in
      match submitter calendar_commitment with
      | Err ClientConfiguration => Err AnchorConfigurationError
      | Err _ => Err AnchorTransientError
      | Ok submitted => _serialize_detached (ots_nonce digest nonce submitted)
      end
  end.

(** The upgrader mutates the timestamp and says whether it changed. *)
Definition upgrade (upgrader : Timestamp -> res client_exn (bool * Timestamp)) (proof : proof_object)
  (digest : bytes) : res anchor_exn (option proof_object) :=
  detached ← _validated_detached proof digest;
  match upgrader detached with
  | Err _ => Err AnchorTransientError
  | Ok (changed, upgraded) =>
      if changed then p ← _serialize_detached upgraded; Ok (Some p) else Ok None
  end.
End anchor.

(** ** [write_proof_atomic] *)

(** The step at which an [OSError] comes; [FailWrite n] after [n] octets, the
    [fsync] included. *)
Inductive write_failure :=
| NoFailure
| FailMkdir
| FailMkstemp
| FailWrite (written : nat)
| FailReplace.

(** The states the file system goes through, oldest first, and the result.
    [temporary] is the name [mkstemp] makes; [finally] unlinks it. *)
Definition write_proof_atomic (failure : write_failure) (temporary target : pystr) (proof : proof_object)
  (replace : bool) (fs : files) : list files * res anchor_exn unit :=
  match proof_bytes proof with
  | None => ([fs], Err (PlainError EmptyBackendProof))
  | Some proof =>
      match failure with
      | FailMkdir => ([fs], Err (PlainError OSErrorRaised))
      | _ =>
          if negb replace && bool_decide (is_Some (fs !! target))
          then ([fs], Err (PlainError TargetExists))
          else match failure with
          | FailMkstemp => ([fs], Err (PlainError OSErrorRaised))
          | FailWrite n =>
              ([fs; <[temporary := []]> fs; <[temporary := take n proof]> fs; delete temporary fs],
               Err (PlainError OSErrorRaised))
          | FailReplace =>
              ([fs; <[temporary := []]> fs; <[temporary := proof]> fs; delete temporary fs],
               Err (PlainError OSErrorRaised))
          | _ =>
              ([fs; <[temporary := []]> fs; <[temporary := proof]> fs;
                <[target := proof]> (delete temporary fs)], Ok tt)
          end
      end
  end.

(** The file system after the call. *)
Definition final_files (trace : list files) (fs : files) : files := List.last trace fs.

(** ** [anchor_chain_tip] *)

Record AnchorReceipt := { receipt_sequence : Z; receipt_tip_hash : pystr; receipt_proof_path : pystr }.

(** [chain_tip] under the lock, and the test for an empty chain. *)
Definition locked_tip (lock_acquired : bool) (store : file) : res anchor_exn (Z * pystr) :=
  match store with
  | None => Err (PlainError StoreMissing)
  | Some _ =>
      _ ← ensure lock_acquired (PlainError LockTimeout);
      '(next_seq, tip_hash) ← map_err ChainError (chain_tip store None);
      _ ← ensure (negb (next_seq =? 0)) (PlainError EmptyChain);
      Ok (next_seq - 1, tip_hash)
  end.

Definition anchor_chain_tip (backend_stamp : bytes -> res anchor_exn proof_object) (lock_acquired : bool)
  (failure : write_failure) (temporary target : pystr) (store : file) (fs : files)
  : files * res anchor_exn AnchorReceipt :=
  match locked_tip lock_acquired store with
  | Err e => (fs, Err e)
  | Ok (sequence, tip_hash) =>
      match backend_stamp (default [] (bytes_fromhex tip_hash)) with
      | Err e => (fs, Err e)
      | Ok proof =>
          match proof_bytes proof with
          | None => (fs, Err (PlainError EmptyBackendProof))
          | Some _ =>
              let '(trace, result) := write_proof_atomic failure temporary target proof false fs in
              (final_files trace fs,
               _ ← result;
               Ok {| receipt_sequence := sequence; receipt_tip_hash := tip_hash;
                     receipt_proof_path := target |})
          end
      end
  end.
