(* ===== verification/AnchorStore.v ===== *)
(** [forensics/anchor_worker.py], the lifecycle table: [LifecycleStore].

    The table [anchors] is the list of its rows in the order of their [id].
    Each operation is one transaction; [job] is the row as the caller read it,
    which may be older than the table. *)

From S2P Require Import Prelude.
From S2P Require Import PyText.
From S2P Require Import PyValue.

(** ** Rows *)

Inductive anchor_state :=
| QUEUED
| SUBMITTED_PENDING
| UPGRADED_UNVERIFIED
| INDEPENDENTLY_VERIFIED
| RETRY_FAILED.

#[global] Instance anchor_state_eq_dec : EqDecision anchor_state.
Proof. solve_decision. Defined.

Definition is_state (a b : anchor_state) : bool := bool_decide (a = b).

Definition RETRY_SOURCES : list anchor_state := [QUEUED; SUBMITTED_PENDING; UPGRADED_UNVERIFIED].

Definition ALLOWED_TRANSITIONS (s : anchor_state) : list anchor_state :=
  match s with
  | QUEUED => [SUBMITTED_PENDING; UPGRADED_UNVERIFIED; RETRY_FAILED]
  | SUBMITTED_PENDING => [UPGRADED_UNVERIFIED; RETRY_FAILED]
  | UPGRADED_UNVERIFIED => [RETRY_FAILED]
  | RETRY_FAILED => RETRY_SOURCES
  | INDEPENDENTLY_VERIFIED => []
  end.

Inductive failure_class := Transient | Integrity.

#[global] Instance failure_class_eq_dec : EqDecision failure_class.
Proof. solve_decision. Defined.

(** The columns [verified_*] are never written by the worker. *)
Record row := Row {
  id : Z;
  sequence_no : Z;
  tip : pystr;
  state : anchor_state;
  proof_path : pystr;
  attempt_count : Z;
  last_attempt : option pystr;
  next_attempt : option pystr;
  last_error : option pystr;
  retry_from : option anchor_state;
  failure : option failure_class;
  interval_minutes : Z;
  confirmation_threshold : Z
}.

Notation table := (list row) (only parsing).

Inductive lifecycle_exn :=
| ForbiddenTransition (from to : anchor_state)
| CannotFailFrom (from : anchor_state)
| NoRetrySource
| ChangedConcurrently
| NoSuchRow.

(** ** The schema *)

(** The [CHECK] constraints of a row; the state is one of [STATES] and the
    failure class one of the two by their types. *)
Definition row_checks (r : row) : bool :=
  (0 <=? attempt_count r)
  && match retry_from r with None => true | Some s => bool_decide (s ∈ RETRY_SOURCES) end.

(** The primary key, [UNIQUE (sequence, tip_hash)] and the constraints: SQLite
    raises [IntegrityError] rather than commit another table. *)
Definition schema_ok (t : table) : bool :=
  bool_decide (NoDup (map id t)) && bool_decide (NoDup (map (fun r => (sequence_no r, tip r)) t))
  && forallb row_checks t.

(** [LifecycleStore.__init__]: [CREATE TABLE IF NOT EXISTS] on the database as
    it is, [None] for one without the table. *)
Definition open_store (database : option table) : table := default [] database.

(** ** SQL *)

(** [UPDATE anchors SET ... WHERE id = ? AND state = ?], with the row count. *)
Definition update_where (i : Z) (s : anchor_state) (f : row -> row) (t : table) : table * nat :=
  let hit r := (id r =? i) && is_state (state r) s in
  (map (fun r => if hit r then f r else r) t, length (List.filter hit t)).

(** [SELECT * FROM anchors WHERE sequence = ? AND tip_hash = ?], first row. *)
Definition get (sequence : Z) (tip_hash : pystr) (t : table) : option row :=
  List.find (fun r => (sequence_no r =? sequence) && bool_decide (tip r = tip_hash)) t.

Definition count (sequence : Z) (tip_hash : pystr) (t : table) : nat :=
  length (List.filter (fun r => (sequence_no r =? sequence) && bool_decide (tip r = tip_hash)) t).

(** The [id] SQLite gives to a new row: one more than the largest. *)
Definition next_id (t : table) : Z := 1 + fold_right Z.max 0 (map id t).

(** [INSERT OR IGNORE]: the pair of sequence and tip hash is unique. *)
Definition track_tip (sequence : Z) (tip_hash path : pystr) (interval threshold : Z) (t : table)
  : table * bool :=
  match get sequence tip_hash t with
  | Some _ => (t, false)
  | None =>
      (t ++ [Row (next_id t) sequence tip_hash QUEUED path 0 None None None None None interval threshold],
       true)
  end.

(** The update, then the row count test, commit or rollback, and the new row. *)
Definition guarded_update (job : row) (s : anchor_state) (f : row -> row) (t : table)
  : table * res lifecycle_exn row :=
  let '(t', n) := update_where (id job) s f t in
  if Nat.eqb n 1
  then (t', match get (sequence_no job) (tip job) t' with
            | Some r => Ok r
            | None => Err NoSuchRow
            end)
  else (t, Err ChangedConcurrently).

Definition set_transition (s : anchor_state) (now : pystr) (next : option pystr) (r : row) : row :=
  Row (id r) (sequence_no r) (tip r) s (proof_path r) (attempt_count r) (Some now) next None None None
    (interval_minutes r) (confirmation_threshold r).

Definition transition (job : row) (s : anchor_state) (now : pystr) (next : option pystr) (t : table)
  : table * res lifecycle_exn row :=
  if bool_decide (s ∈ ALLOWED_TRANSITIONS (state job))
  then guarded_update job (state job) (set_transition s now next) t
  else (t, Err (ForbiddenTransition (state job) s)).

Definition set_pending (now next : pystr) (r : row) : row :=
  Row (id r) (sequence_no r) (tip r) (state r) (proof_path r) (attempt_count r) (Some now) (Some next)
    None None None (interval_minutes r) (confirmation_threshold r).

Definition pending_checked (job : row) (now next : pystr) (t : table) : table * res lifecycle_exn row :=
  guarded_update job SUBMITTED_PENDING (set_pending now next) t.

Definition set_failure (job : row) (c : failure_class) (error now : pystr) (next : option pystr) (r : row) : row :=
  Row (id r) (sequence_no r) (tip r) RETRY_FAILED (proof_path r) (attempt_count job + 1) (Some now) next
    (Some error) (Some (state job)) (Some c) (interval_minutes r) (confirmation_threshold r).

Definition record_failure (job : row) (c : failure_class) (error now : pystr) (next : option pystr)
  (t : table) : table * res lifecycle_exn row :=
  if bool_decide (state job ∈ RETRY_SOURCES)
  then guarded_update job (state job) (set_failure job c error now next) t
  else (t, Err (CannotFailFrom (state job))).

Definition set_resumed (s : anchor_state) (r : row) : row :=
  Row (id r) (sequence_no r) (tip r) s (proof_path r) (attempt_count r) (last_attempt r) None
    (last_error r) (retry_from r) None (interval_minutes r) (confirmation_threshold r).

Definition resume_retry (job : row) (t : table) : table * res lifecycle_exn row :=
  match retry_from job with
  | Some source =>
      if is_state (state job) RETRY_FAILED && bool_decide (source ∈ RETRY_SOURCES)
      then guarded_update job RETRY_FAILED (set_resumed source) t
      else (t, Err NoRetrySource)
  | None => (t, Err NoRetrySource)
  end.

(** [next_attempt <= ?] on texts, false on [NULL]. *)
Definition due_by (next : option pystr) (now : pystr) : bool :=
  match next with Some n => str_leb n now | None => false end.

Definition is_due (now : pystr) (r : row) : bool :=
  is_state (state r) QUEUED
  || (is_state (state r) SUBMITTED_PENDING
      && match next_attempt r with None => true | n => due_by n now end)
  || (is_state (state r) RETRY_FAILED && bool_decide (failure r = Some Transient)
      && due_by (next_attempt r) now).

(** [ORDER BY sequence]; rows of one sequence in the order of their [id]. *)
Fixpoint insert_row (r : row) (l : list row) : list row :=
  match l with
  | [] => [r]
  | x :: l' => if sequence_no r <=? sequence_no x then r :: l else x :: insert_row r l'
  end.

Definition due_jobs (now : pystr) (t : table) : list row :=
  fold_right insert_row [] (List.filter (is_due now) t).
