(* ===== verification/AnchorWorker.v ===== *)
(** [forensics/anchor_worker.py]: the backoff, the job processing and one run
    of the worker.

    Times are UTC instants in microseconds ([Calendar]).  What the backend, the
    file system and the random generator do while one job is processed is a
    [job_env]. *)

From stdpp Require Import gmap.
From S2P Require Import Prelude.
From S2P Require Import PyText.
From S2P Require Import Binary64.
From S2P Require Import FloatOps.
From S2P Require Import PyValue.
From S2P Require Import Calendar.
From S2P Require Import ChainStore.
From S2P Require Import Anchor.
From S2P Require Import AnchorStore.

(** ** Backoff *)

Definition BACKOFF_BASE_SECONDS : Z := 15 * 60.
Definition BACKOFF_MAX_SECONDS : Z := 24 * 60 * 60.
Definition BACKOFF_JITTER_RATIO : spec_float := Eval vm_compute in dec_to_float false 25 (-2).
Definition BACKOFF_FINAL_MAX_SECONDS : spec_float := Eval vm_compute in dec_to_float false 108000 0.

(** [0.0 <= jitter_sample <= 1.0] *)
Definition float_zero_one (f : spec_float) : bool :=
  float_le (S754_zero false) f && float_le f (S754_finite false 4503599627370496 (-52)).

Inductive delay_exn := BadAttemptCount | BadJitterSample | DelayOverflow.

Definition to_float (z : Z) : res delay_exn spec_float :=
  match float_of_int z with Some f => Ok f | None => Err DelayOverflow end.

Definition retry_delay_seconds (attempt_count : Z) (jitter_sample : spec_float) : res delay_exn spec_float :=
  _ ← ensure (1 <=? attempt_count) BadAttemptCount;
  _ ← ensure (float_zero_one jitter_sample) BadJitterSample;
  let raw_delay := BACKOFF_BASE_SECONDS * 2 ^ (attempt_count - 1) in
  let capped_delay := Z.min raw_delay BACKOFF_MAX_SECONDS in
  raw ← to_float raw_delay;
  let jitter := float_mul (float_mul raw BACKOFF_JITTER_RATIO) jitter_sample in
  capped ← to_float capped_delay;
  Ok (float_min (float_add capped jitter) BACKOFF_FINAL_MAX_SECONDS).

(** [timedelta(seconds=f)] in microseconds, for a finite float: the whole
    seconds, and the fraction times [1e6] as a float, rounded half to even. *)
Definition timedelta_seconds (f : spec_float) : option Z :=
  if is_finite f then
    let seconds := Z.quot (fixed f) (2 ^ unit_exp) in
    let fraction := Z.rem (fixed f) (2 ^ unit_exp) in
    let micro := round_signed false (1000000 * fraction) (2 ^ unit_exp) in
    Some (seconds * us_per_second + round_half_even (fixed micro) (2 ^ unit_exp))
  else None.

(** ** One job *)

Record job_env := JobEnv {
  je_stamp : bytes -> res anchor_exn proof_object;
  je_upgrade : proof_object -> bytes -> res anchor_exn (option proof_object);
  je_write : write_failure;
  je_temporary : pystr;
  je_read : bool;             (* reading an existing proof file succeeds *)
  je_jitter : spec_float;
  je_error : pystr            (* [str(exc)] *)
}.

(** The state the worker changes. *)
Record world := World { w_table : list row; w_files : files }.

(** What a job raises: an exception of the steps, or one of the table. *)
Inductive job_exn :=
| StepError (e : anchor_exn)
| TableError (e : lifecycle_exn)
| TimeOverflow              (* [OverflowError] of [now + timedelta] *)
| DelayError (e : delay_exn).

(** A step: the world after it, and what it returned or raised. *)
Definition step_result (A : Type) : Type := world * res job_exn A.

Definition on_table {A} (w : world) (r : table * res lifecycle_exn A) : step_result A :=
  (World r.1 (w_files w), map_err TableError r.2).

Definition then_step {A B} (m : step_result A) (k : world -> A -> step_result B) : step_result B :=
  match m with
  | (w, Ok a) => k w a
  | (w, Err e) => (w, Err e)
  end.

Definition raise_step {A} (w : world) (e : anchor_exn) : step_result A := (w, Err (StepError e)).

Section worker.
Context `{OpenTimestamps}.

Definition minutes_us (m : Z) : Z := m * 60 * us_per_second.

Definition _next_pending_attempt (job : row) (now : Z) : res job_exn pystr :=
  match add_us now (minutes_us (interval_minutes job)) with
  | Some t => Ok (_utc_text t)
  | None => Err TimeOverflow
  end.

Definition _target_state (proof : proof_object) (digest : bytes) : res anchor_exn anchor_state :=
  inspection ← inspect_proof proof digest;
  Ok (if has_bitcoin_attestation inspection then UPGRADED_UNVERIFIED else SUBMITTED_PENDING).

(** The transition both branches of [_process_queued] end with. *)
Definition leave_queue (job : row) (target_state : anchor_state) (now : Z) (w : world) : step_result row :=
  let next := if is_state target_state SUBMITTED_PENDING
              then Some <$> _next_pending_attempt job now else Ok None in
  match next with
  | Err e => (w, Err e)
  | Ok next => on_table w (transition job target_state (_utc_text now) next (w_table w))
  end.

Definition write_step (env : job_env) (path : pystr) (proof : proof_object) (replace : bool) (w : world)
  : step_result unit :=
  let '(trace, r) := write_proof_atomic (je_write env) (je_temporary env) path proof replace (w_files w) in
  (World (w_table w) (final_files trace (w_files w)), map_err StepError r).

(** [bytes.fromhex(job["tip_hash"])]: another text raises [ValueError]. *)
Definition tip_digest (job : row) (w : world) : step_result bytes :=
  match bytes_fromhex (tip job) with
  | Some b => (w, Ok b)
  | None => raise_step w (PlainError OtherException)
  end.

Definition _process_queued (env : job_env) (job : row) (now : Z) (w : world) : step_result row :=
  then_step (tip_digest job w) (fun w digest =>
  match w_files w !! proof_path job with
  | Some proof =>
      if je_read env then
        match _target_state (ProofBytes proof) digest with
        | Err e => raise_step w e
        | Ok target_state => leave_queue job target_state now w
        end
      else raise_step w (PlainError OSErrorRaised)
  | None =>
      match je_stamp env digest with
      | Err e => raise_step w e
      | Ok proof =>
          match _target_state proof digest with
          | Err e => raise_step w e
          | Ok target_state =>
              then_step (write_step env (proof_path job) proof false w)
                (fun w _ => leave_queue job target_state now w)
          end
      end
  end).

Definition keep_pending (job : row) (now : Z) (w : world) : step_result row :=
  match _next_pending_attempt job now with
  | Err e => (w, Err e)
  | Ok next => on_table w (pending_checked job (_utc_text now) next (w_table w))
  end.

Definition _process_pending (env : job_env) (job : row) (now : Z) (w : world) : step_result row :=
  then_step (tip_digest job w) (fun w digest =>
  match w_files w !! proof_path job with
  | None => raise_step w (PlainError MissingProofFile)
  | Some current_proof =>
      if je_read env then
        match inspect_proof (ProofBytes current_proof) digest with
        | Err e => raise_step w e
        | Ok inspection =>
            if has_bitcoin_attestation inspection
            then on_table w (transition job UPGRADED_UNVERIFIED (_utc_text now) None (w_table w))
            else
              match je_upgrade env (ProofBytes current_proof) digest with
              | Err e => raise_step w e
              | Ok None => keep_pending job now w
              | Ok (Some upgraded) =>
                  match _target_state upgraded digest with
                  | Err e => raise_step w e
                  | Ok target_state =>
                      then_step (write_step env (proof_path job) upgraded true w) (fun w _ =>
                        if is_state target_state UPGRADED_UNVERIFIED
                        then on_table w (transition job target_state (_utc_text now) None (w_table w))
                        else keep_pending job now w)
                  end
              end
        end
      else raise_step w (PlainError OSErrorRaised)
  end).

(** The [try] block of [_process_job]. *)
Definition process_by_state (env : job_env) (job : row) (now : Z) (w : world) : step_result unit :=
  if is_state (state job) QUEUED
  then then_step (_process_queued env job now w) (fun w _ => (w, Ok tt))
  else if is_state (state job) SUBMITTED_PENDING
  then then_step (_process_pending env job now w) (fun w _ => (w, Ok tt))
  else (w, Ok tt).

(** [except Exception]: the retry is scheduled. *)
Definition schedule_retry (env : job_env) (job : row) (now : Z) (w : world) : step_result unit :=
  match retry_delay_seconds (attempt_count job + 1) (je_jitter env) with
  | Err e => (w, Err (DelayError e))
  | Ok delay =>
      match timedelta_seconds delay ≫= add_us now with
      | None => (w, Err TimeOverflow)
      | Some at_ =>
          then_step (on_table w (record_failure job Transient (je_error env) (_utc_text now)
                                   (Some (_utc_text at_)) (w_table w)))
            (fun w _ => (w, Ok tt))
      end
  end.

Definition handle_failure (env : job_env) (job : row) (now : Z) (m : step_result unit) : step_result unit :=
  match m with
  | (w, Ok _) => (w, Ok tt)
  | (w, Err (StepError AnchorConfigurationError)) => m
  | (w, Err (StepError (AnchorIntegrityError _))) =>
      then_step (on_table w (record_failure job Integrity (je_error env) (_utc_text now) None (w_table w)))
        (fun w _ => (w, Ok tt))
  | (w, Err _) => schedule_retry env job now w
  end.

Definition _process_job (env : job_env) (job : row) (now : Z) (w : world) : step_result unit :=
  if is_state (state job) RETRY_FAILED
  then then_step (on_table w (resume_retry job (w_table w)))
         (fun w job => handle_failure env job now (process_by_state env job now w))
  else handle_failure env job now (process_by_state env job now w).

(** ** One run *)

Definition WorkerConfig_ok (interval threshold : Z) : bool := (0 <? interval) && (0 <? threshold).

Definition snapshot_tip := locked_tip.

(** [config.proof_directory / f"{sequence}-{tip_hash}.ots"], resolved. *)
Definition proof_file (directory : pystr) (sequence : Z) (tip_hash : pystr) : pystr :=
  directory ++ u "/" ++ dec sequence ++ u "-" ++ tip_hash ++ u ".ots".

(** The loop over the due jobs: an exception that escapes stops it. *)
Fixpoint process_jobs (envs : Z -> job_env) (now : Z) (jobs : list row) (w : world) : step_result unit :=
  match jobs with
  | [] => (w, Ok tt)
  | job :: jobs =>
      then_step (_process_job (envs (id job)) job now w) (fun w _ => process_jobs envs now jobs w)
  end.

Definition run_once (interval threshold : Z) (directory : pystr) (lock_acquired : bool) (store : file)
  (envs : Z -> job_env) (now : Z) (w : world) : step_result Z :=
  match snapshot_tip lock_acquired store with
  | Err e => raise_step w e
  | Ok (sequence, tip_hash) =>
      let '(t, _) := track_tip sequence tip_hash (proof_file directory sequence tip_hash)
                       interval threshold (w_table w) in
      let due := due_jobs (_utc_text now) t in
      then_step (process_jobs envs now due (World t (w_files w)))
        (fun w _ => (w, Ok (Z.of_nat (length due))))
  end.
End worker.
