(* ===== verification/BackoffFacts.v ===== *)
(** The retry delay of the worker: it exists for every attempt count whose raw
    delay is a float, and lies between 900 and 108000 seconds. *)

From S2P Require Import Prelude.
From S2P Require Import PyText.
From S2P Require Import Binary64.
From S2P Require Import FloatOps.
From S2P Require Import Calendar.
From S2P Require Import AnchorWorker.

(** The exact value of a whole number of seconds. *)
Definition seconds_fixed (s : Z) : Z := s * 2 ^ unit_exp.

(** ** The capped delay takes eight values *)

Definition capped_values : list Z := [900; 1800; 3600; 7200; 14400; 28800; 57600; 86400].

Lemma capped_delay_values n :
  1 <= n -> In (Z.min (BACKOFF_BASE_SECONDS * 2 ^ (n - 1)) BACKOFF_MAX_SECONDS) capped_values.
Proof.
  intros Hn. unfold BACKOFF_BASE_SECONDS, BACKOFF_MAX_SECONDS. destruct (Z.le_gt_cases n 7).
  - assert (Hc : n = 1 \/ n = 2 \/ n = 3 \/ n = 4 \/ n = 5 \/ n = 6 \/ n = 7) by lia.
    destruct_or! Hc; subst n; vm_compute; tauto.
  - assert (2 ^ 7 <= 2 ^ (n - 1)) by (apply Z.pow_le_mono_r; lia).
    rewrite Z.min_r by lia. vm_compute. tauto.
Qed.

Lemma capped_float z :
  In z capped_values ->
  exists f, to_float z = Ok f /\ float_bound f /\ is_finite f = true /\ fixed f = seconds_fixed z /\
    900 <= z <= 86400.
Proof.
  intros Hz. cbn in Hz.
  destruct_or! Hz; try done; subst z; (eexists; split; [vm_compute; reflexivity|]);
    (split; [by eexists _, _; split; [reflexivity|]|]); (split; [done|]); (split; [by vm_compute|lia]).
Qed.

(** ** The jitter *)

Lemma to_float_Ok z f :
  0 <= z -> to_float z = Ok f -> is_finite f = true /\ valid_float f = true /\ sign_of f = false.
Proof.
  unfold to_float, float_of_int. intros Hz. rewrite (proj2 (Z.ltb_ge z 0)), Z.abs_eq by lia.
  destruct (is_finite _) eqn:Ef; [|done]. intros [= <-]. split; [done|].
  split; [by apply dec_to_float_valid|]. unfold dec_to_float. destruct (z =? 0); [done|].
  unfold scale10, round_ratio. destruct (scale2 _ _ _). unfold mk_float. by repeat case_match.
Qed.

(** The product of a non-negative float with one of [0, 1] is finite and not larger. *)
Lemma float_mul_shrinks x y :
  valid_float x = true -> is_finite x = true -> sign_of x = false ->
  is_finite y = true -> 0 <= fixed y <= 2 ^ unit_exp ->
  let p := float_mul x y in
  is_finite p = true /\ 0 <= fixed p <= fixed x.
Proof.
  intros Hv Hf Hs Hfy Hy. cbv zeta. pose proof (fixed_nonneg x Hs) as Hx.
  set (z := xorb (sign_of x) (sign_of y)).
  assert (Hp : float_mul x y = round_signed z (fixed x * fixed y) (2 ^ (2 * unit_exp)))
    by (unfold float_mul; by destruct x, y).
  rewrite Hp. assert (Hpos : 0 < 2 ^ (2 * unit_exp)) by (by apply Z.pow_pos_nonneg).
  assert (Hn : 0 <= fixed x * fixed y) by (apply Z.mul_nonneg_nonneg; lia).
  destruct (finite_bound x Hv Hf Hs) as [Hz|Hb]; [rewrite Hz; unfold round_signed; done|].
  apply round_signed_le; [exact Hn|exact Hpos|exact Hb|].
  change (2 ^ (2 * unit_exp)) with (2 ^ unit_exp * 2 ^ unit_exp).
  rewrite Z.mul_assoc. apply Z.mul_le_mono_nonneg_r; [by apply Z.pow_nonneg|].
  apply Z.mul_le_mono_nonneg_l; lia.
Qed.

Lemma float_zero_one_spec j :
  float_zero_one j = true -> is_finite j = true /\ 0 <= fixed j <= 2 ^ unit_exp.
Proof.
  unfold float_zero_one. intros [H0 H1]%andb_true_iff.
  assert (E1 : fixed (S754_finite false 4503599627370496 (-52)) = 2 ^ unit_exp) by (by vm_compute).
  destruct j as [s|[]| |s m e]; try done.
  unfold float_le, float_lt in H0, H1. rewrite E1 in H1.
  change (fixed (S754_zero false)) with 0 in H0. zbool. done.
Qed.

(** The jitter term: two products. *)
Lemma jitter_nonneg raw j :
  valid_float raw = true -> is_finite raw = true -> sign_of raw = false -> float_zero_one j = true ->
  let p := float_mul (float_mul raw BACKOFF_JITTER_RATIO) j in is_finite p = true /\ 0 <= fixed p.
Proof.
  intros Hv Hf Hs Hj. cbv zeta. apply float_zero_one_spec in Hj as [Hfj Hj].
  assert (Hq : 0 <= fixed BACKOFF_JITTER_RATIO <= 2 ^ unit_exp) by (by vm_compute).
  destruct (float_mul_shrinks raw BACKOFF_JITTER_RATIO Hv Hf Hs eq_refl Hq) as [Hf1 H1].
  assert (Hp : float_mul raw BACKOFF_JITTER_RATIO
    = round_signed false (fixed raw * fixed BACKOFF_JITTER_RATIO) (2 ^ (2 * unit_exp)))
    by (unfold float_mul; rewrite Hs; by destruct raw).
  assert (Hv1 : valid_float (float_mul raw BACKOFF_JITTER_RATIO) = true)
    by (rewrite Hp; by apply round_signed_valid, Z.pow_pos_nonneg).
  assert (Hs1 : sign_of (float_mul raw BACKOFF_JITTER_RATIO) = false).
  { rewrite Hp. apply round_signed_sign. apply Z.mul_nonneg_nonneg; [by apply fixed_nonneg|lia]. }
  destruct (float_mul_shrinks _ j Hv1 Hf1 Hs1 Hfj Hj) as [Hf2 H2]. split; [exact Hf2|lia].
Qed.

(** ** The bounds of the delay *)

Lemma float_min_bounds x c lo :
  float_bound c -> lo <= fixed c ->
  match x with S754_infinity s => s = false | _ => is_finite x = true /\ lo <= fixed x end ->
  is_finite (float_min x c) = true /\ lo <= fixed (float_min x c) <= fixed c.
Proof.
  intros (m & e & -> & Hv) Hlo Hx. unfold float_min, float_lt.
  destruct x as [s|[]| |s m' e']; try done; try by destruct Hx.
  - destruct (Z.ltb_spec (fixed (S754_finite false m e)) (fixed (S754_zero s))); [by split|].
    destruct Hx. by split.
  - destruct (Z.ltb_spec (fixed (S754_finite false m e)) (fixed (S754_finite s m' e'))); [by split|].
    destruct Hx. by split.
Qed.

Lemma retry_delay_bounds n j f :
  retry_delay_seconds n j = Ok f ->
  is_finite f = true /\ seconds_fixed 900 <= fixed f <= seconds_fixed 108000.
Proof.
  unfold retry_delay_seconds. rewrite !then_Ok, !ensure_Ok. intros (Hn & Hj & H). apply Z.leb_le in Hn.
  apply bind_Ok in H as (raw & Hraw & H). apply bind_Ok in H as (capped & Hcap & [= <-]).
  destruct (capped_float _ (capped_delay_values n Hn)) as (c & Hc & Hb & Hfc & Hv & Hrange).
  rewrite Hc in Hcap. injection Hcap as <-.
  apply to_float_Ok in Hraw as (Hfr & Hvr & Hsr).
  2:{ apply Z.mul_nonneg_nonneg; [done|apply Z.pow_nonneg; lia]. }
  destruct (jitter_nonneg raw j Hvr Hfr Hsr Hj) as [Hfp Hp]. cbv zeta in *.
  set (p := float_mul (float_mul raw BACKOFF_JITTER_RATIO) j) in *.
  assert (Hsum : float_add c p = round_signed (sign_of c && sign_of p) (fixed c + fixed p) (2 ^ unit_exp)).
  { unfold float_add. destruct Hb as (m & e & -> & _). by destruct p. }
  assert (HE : 0 < 2 ^ unit_exp) by (by apply Z.pow_pos_nonneg).
  assert (Hge : seconds_fixed 900 <= fixed c).
  { rewrite Hv. unfold seconds_fixed. apply Z.mul_le_mono_nonneg_r; lia. }
  assert (H900 : 0 < seconds_fixed 900) by (by vm_compute).
  apply (float_min_bounds (float_add c p) BACKOFF_FINAL_MAX_SECONDS (seconds_fixed 900)).
  - by eexists _, _.
  - by vm_compute.
  - rewrite Hsum.
    pose proof (round_signed_ge (sign_of c && sign_of p) (fixed c + fixed p) (2 ^ unit_exp) c) as Hr.
    assert (Hr' := Hr ltac:(lia) HE Hb ltac:(apply Z.mul_le_mono_nonneg_r; lia)). clear Hr.
    destruct (round_signed _ _ _) as [| | |]; try done; destruct Hr' as [? Hr']; split; try done;
      (etrans; [exact Hge|exact Hr']).
Qed.

(** ** The scheduled time *)

Definition million : spec_float := Eval vm_compute in dec_to_float false 1000000 0.

Lemma timedelta_bounds f lo hi :
  is_finite f = true -> 0 <= lo -> seconds_fixed lo <= fixed f <= seconds_fixed hi ->
  exists us, timedelta_seconds f = Some us /\ lo * us_per_second <= us <= hi * us_per_second.
Proof.
  intros Hf Hlo0 [Hlo Hhi]. unfold timedelta_seconds. rewrite Hf. unfold seconds_fixed in *.
  assert (HE : 0 < 2 ^ unit_exp) by (by apply Z.pow_pos_nonneg).
  assert (Hpos : 0 <= fixed f) by (etrans; [|exact Hlo]; apply Z.mul_nonneg_nonneg; lia).
  rewrite Z.quot_div_nonneg, Z.rem_mod_nonneg by done.
  pose proof (Z.div_mod (fixed f) (2 ^ unit_exp) ltac:(lia)) as Hdm.
  pose proof (Z.mod_pos_bound (fixed f) (2 ^ unit_exp) HE) as Hm.
  set (q := fixed f / 2 ^ unit_exp) in *. set (r := fixed f mod 2 ^ unit_exp) in *.
  assert (Hmil : float_bound million) by (by eexists _, _).
  assert (Hfm : fixed million = 1000000 * 2 ^ unit_exp) by (by vm_compute).
  set (micro := round_signed false (1000000 * r) (2 ^ unit_exp)).
  assert (Hmic : is_finite micro = true /\ 0 <= fixed micro <= fixed million).
  { apply round_signed_le; [lia|exact HE|exact Hmil|]. rewrite Hfm.
    apply Z.mul_le_mono_nonneg_r; lia. }
  destruct Hmic as [_ [Hm0 Hm1]]. rewrite Hfm in Hm1.
  eexists; split; [reflexivity|].
  assert (H0 : 0 <= round_half_even (fixed micro) (2 ^ unit_exp))
    by (apply round_half_even_ge; [exact HE|by rewrite Z.mul_0_l]).
  assert (H1 : round_half_even (fixed micro) (2 ^ unit_exp) <= 1000000)
    by (apply round_half_even_le; [exact HE|exact Hm1]).
  assert (Hqlo : lo <= q).
  { apply Z.div_le_lower_bound; [exact HE|]. by rewrite Z.mul_comm. }
  assert (Hq : q < hi \/ (q = hi /\ r = 0)).
  { destruct (Z.lt_ge_cases q hi) as [|Hge]; [by left|right].
    assert (hi * 2 ^ unit_exp <= q * 2 ^ unit_exp) by (apply Z.mul_le_mono_nonneg_r; lia).
    assert (Hr0 : r = 0) by lia. split; [|done].
    apply (Z.mul_cancel_r _ _ (2 ^ unit_exp)); lia. }
  unfold us_per_second. destruct Hq as [?|[-> Hr0]]; [lia|].
  assert (Hz : round_half_even (fixed micro) (2 ^ unit_exp) = 0).
  { unfold micro. rewrite Hr0. by vm_compute. }
  lia.
Qed.

(** A retry is scheduled between 15 minutes and 30 hours ahead. *)
Lemma retry_time_bounds n j f now t :
  retry_delay_seconds n j = Ok f -> timedelta_seconds f ≫= add_us now = Some t ->
  now + 900 * us_per_second <= t <= now + 108000 * us_per_second /\ instant_ok t.
Proof.
  intros [Hf Hb]%retry_delay_bounds H.
  destruct (timedelta_bounds f 900 108000 Hf ltac:(lia) Hb) as (us & Hus & Hlo & Hhi).
  rewrite Hus in H. cbn in H. unfold add_us in H. destruct (_ && _) eqn:E; [|done].
  injection H as <-. unfold instant_ok. zbool. lia.
Qed.

(** ** The delay exists up to the 1015th attempt *)

Definition max_float : spec_float := S754_finite false 9007199254740991 971.

Lemma retry_delay_total n j :
  1 <= n <= 1015 -> float_zero_one j = true -> exists f, retry_delay_seconds n j = Ok f.
Proof.
  intros Hn Hj. unfold retry_delay_seconds. rewrite (proj2 (Z.leb_le 1 n)) by lia. rewrite Hj.
  cbn [ensure]. rewrite !Ok_bind.
  destruct (capped_float _ (capped_delay_values n ltac:(lia))) as (c & Hc & _). rewrite Hc.
  assert (Hraw : exists raw, to_float (BACKOFF_BASE_SECONDS * 2 ^ (n - 1)) = Ok raw).
  { set (z := BACKOFF_BASE_SECONDS * 2 ^ (n - 1)).
    assert (Hz : 0 < z) by (unfold z, BACKOFF_BASE_SECONDS; pose proof (Z.pow_pos_nonneg 2 (n - 1)); lia).
    assert (Hle : z <= 900 * 2 ^ 1014)
      by (unfold z, BACKOFF_BASE_SECONDS; apply Z.mul_le_mono_nonneg_l; [lia|apply Z.pow_le_mono_r; lia]).
    unfold to_float, float_of_int. rewrite (proj2 (Z.ltb_ge z 0)), Z.abs_eq by lia.
    assert (Hd : dec_to_float false z 0 = round_ratio false z 1).
    { unfold dec_to_float. rewrite (proj2 (Z.eqb_neq z 0)) by lia. unfold scale10.
      change (10 ^ Z.max 0 0) with 1. change (10 ^ Z.max 0 (- 0)) with 1. by rewrite !Z.mul_1_r. }
    rewrite Hd. destruct (round_ratio_le z 1 max_float) as [-> _]; [lia|done|by eexists _, _| |eauto].
    rewrite Z.mul_1_r. etrans; [apply Z.mul_le_mono_nonneg_r; [by apply Z.pow_nonneg|exact Hle]|].
    by vm_compute. }
  destruct Hraw as [raw ->]. rewrite !Ok_bind. eauto.
Qed.
