(* ===== verification/AnchorStoreFacts.v ===== *)
(** The lifecycle table: every transaction keeps it well formed and moves each
    row along the allowed transitions, whatever snapshots the callers hold. *)

From stdpp Require Import relations.
From S2P Require Import Prelude.
From S2P Require Import PyText.
From S2P Require Import PyValue.
From S2P Require Import AnchorStore.

(** ** Well-formed rows and tables *)

(** What identifies a row and is never written again. *)
Definition identity (r : row) : Z * Z * pystr * pystr * Z * Z :=
  (id r, sequence_no r, tip r, proof_path r, interval_minutes r, confirmation_threshold r).

Definition unique_key (r : row) : Z * pystr := (sequence_no r, tip r).

(** A failed row knows where to resume; a transient failure has a time for it
    and an integrity failure none. *)
Record row_ok (r : row) : Prop := RowOk {
  ro_attempts : 0 <= attempt_count r;
  ro_unverified : state r <> INDEPENDENTLY_VERIFIED;
  ro_failed : state r = RETRY_FAILED -> exists s, retry_from r = Some s /\ s ∈ RETRY_SOURCES /\
    ((failure r = Some Transient /\ is_Some (next_attempt r)) \/
     (failure r = Some Integrity /\ next_attempt r = None));
  ro_live : state r <> RETRY_FAILED -> failure r = None;
  ro_retry : forall s, retry_from r = Some s -> s ∈ RETRY_SOURCES
}.

Record table_ok (t : list row) : Prop := TableOk {
  to_ids : NoDup (map id t);
  to_keys : NoDup (map unique_key t);
  to_rows : Forall row_ok t
}.

(** A well-formed table is one that the schema accepts. *)
Lemma table_ok_schema t : table_ok t -> schema_ok t = true.
Proof.
  intros [Hi Hk Hr]. unfold schema_ok. rewrite !andb_true_iff, !bool_decide_eq_true, forallb_forall. split_and!; try done.
  intros r Hin%list_elem_of_In. rewrite Forall_forall in Hr. destruct (Hr r Hin) as [Ha _ _ _ Hs]. unfold row_checks.
  rewrite andb_true_iff, Z.leb_le. split; [done|]. destruct (retry_from r); [|done]. by apply bool_decide_eq_true, Hs.
Qed.

(** One row moved as the state machine allows. *)
Definition moves (r r' : row) : Prop :=
  identity r' = identity r /\ (state r' = state r \/ state r' ∈ ALLOWED_TRANSITIONS (state r)).

Lemma moves_refl r : moves r r.
Proof. split; auto. Qed.

Lemma is_state_true a b : is_state a b = true <-> a = b.
Proof. unfold is_state. apply bool_decide_eq_true. Qed.

Lemma is_state_refl a : is_state a a = true.
Proof. by apply is_state_true. Qed.

Lemma retry_source_live s : s ∈ RETRY_SOURCES -> s <> INDEPENDENTLY_VERIFIED /\ s <> RETRY_FAILED.
Proof. unfold RETRY_SOURCES. rewrite !elem_of_cons, elem_of_nil. intros Hs. destruct_or! Hs; by subst. Qed.

(** ** Updates *)

Definition hits (job : row) (s : anchor_state) (r : row) : bool := (id r =? id job) && is_state (state r) s.

Definition updated (job : row) (s : anchor_state) (f : row -> row) (t : list row) : list row :=
  map (fun r => if hits job s r then f r else r) t.

Lemma guarded_update_cases job s f t :
  (guarded_update job s f t).1 = t \/ (guarded_update job s f t).1 = updated job s f t.
Proof. unfold guarded_update, update_where. destruct (Nat.eqb _ 1); cbn; [by right|by left]. Qed.

Lemma updated_moves job s f t :
  (forall r, state r = s -> moves r (f r)) -> Forall2 moves t (updated job s f t).
Proof.
  intros Hf. unfold updated. induction t as [|r t IH]; cbn; constructor; [|done].
  destruct (hits job s r) eqn:E; [|apply moves_refl]. unfold hits in E.
  apply andb_true_iff in E as [_ E%is_state_true]. auto.
Qed.

Lemma updated_rows job s f t :
  (forall r, state r = s -> row_ok r -> row_ok (f r)) -> Forall row_ok t -> Forall row_ok (updated job s f t).
Proof.
  intros Hf. unfold updated. induction 1 as [|r t Hr _ IH]; cbn; constructor; [|done].
  destruct (hits job s r) eqn:E; [|done]. unfold hits in E.
  apply andb_true_iff in E as [_ E%is_state_true]. auto.
Qed.


Lemma identity_key r r' : identity r' = identity r -> id r' = id r /\ unique_key r' = unique_key r.
Proof. unfold identity, unique_key. intros [= -> -> -> _ _ _]. done. Qed.

Lemma moves_ids t t' : Forall2 moves t t' -> map id t' = map id t /\ map unique_key t' = map unique_key t.
Proof.
  induction 1 as [|r r' t t' [Hi _] _ [IH1 IH2]]; [done|]. cbn. rewrite IH1, IH2.
  apply identity_key in Hi as [-> ->]. done.
Qed.

Lemma moves_table_ok t t' : Forall2 moves t t' -> Forall row_ok t' -> table_ok t -> table_ok t'.
Proof.
  intros Hm Hr [Hi Hk _]. destruct (moves_ids t t' Hm) as [Ei Ek].
  constructor; [by rewrite Ei|by rewrite Ek|done].
Qed.

Lemma moves_same t : Forall2 moves t t.
Proof. induction t; constructor; auto using moves_refl. Qed.

(** An update that moves the rows it hits and keeps them well formed. *)
Lemma guarded_update_ok job s f t :
  (forall r, state r = s -> moves r (f r)) -> (forall r, state r = s -> row_ok r -> row_ok (f r)) ->
  table_ok t ->
  table_ok (guarded_update job s f t).1 /\ Forall2 moves t (guarded_update job s f t).1.
Proof.
  intros Hf Hr Ht. destruct (guarded_update_cases job s f t) as [-> | ->]; [auto using moves_same|].
  pose proof (updated_moves job s f t Hf) as Hm. split; [|done].
  eapply moves_table_ok; [done| |done]. apply updated_rows; [done|apply Ht].
Qed.

(** ** The operations *)

(** The states [transition] is called with. *)
Definition target_states : list anchor_state := [SUBMITTED_PENDING; UPGRADED_UNVERIFIED].

(** What each update does to the rows it hits. *)
Lemma set_transition_moves s now next r : s ∈ ALLOWED_TRANSITIONS (state r) -> moves r (set_transition s now next r).
Proof. intros Hs. split; [done|by right]. Qed.

Lemma set_transition_row s now next r : s ∈ target_states -> row_ok r -> row_ok (set_transition s now next r).
Proof.
  unfold target_states. rewrite !elem_of_cons, elem_of_nil. intros Hs [Hc _ _ _ _].
  destruct_or! Hs; try done; subst s; by constructor.
Qed.

Lemma set_pending_row now next r : state r = SUBMITTED_PENDING -> row_ok r -> row_ok (set_pending now next r).
Proof. intros Hr [Hc _ _ _ _]. constructor; cbn; try done; by rewrite Hr. Qed.

Lemma set_failure_moves job c error now next r :
  state job ∈ RETRY_SOURCES -> state r = state job -> moves r (set_failure job c error now next r).
Proof.
  unfold RETRY_SOURCES. rewrite !elem_of_cons, elem_of_nil. intros Ha Hr. split; [done|]. right. cbn. rewrite Hr.
  destruct_or! Ha; try done; rewrite Ha; apply (bool_decide_unpack _); by vm_compute.
Qed.

(** A time to retry comes with a transient failure, and with no other. *)
Definition failure_time (c : failure_class) (next : option pystr) : Prop :=
  (c = Transient -> is_Some next) /\ (c = Integrity -> next = None).

Lemma set_failure_row job c error now next r :
  0 <= attempt_count job -> failure_time c next -> state job ∈ RETRY_SOURCES -> row_ok (set_failure job c error now next r).
Proof.
  intros Hc [Ht Hi] Ha. constructor; cbn; [lia|done| |done|by intros s [= <-]].
  intros _. exists (state job). split; [done|]. split; [done|].
  destruct c; [left; split; [done|by apply Ht]|right; split; [done|by apply Hi]].
Qed.

Lemma set_resumed_moves s r : s ∈ RETRY_SOURCES -> state r = RETRY_FAILED -> moves r (set_resumed s r).
Proof. intros Hs Hr. split; [done|]. right. cbn. by rewrite Hr. Qed.

Lemma set_resumed_row s r : s ∈ RETRY_SOURCES -> row_ok r -> row_ok (set_resumed s r).
Proof. intros Hs [Hc _ _ _ Hf]. destruct (retry_source_live s Hs). constructor; cbn; done. Qed.

Lemma transition_ok job s now next t :
  s ∈ target_states -> table_ok t ->
  table_ok (transition job s now next t).1 /\ Forall2 moves t (transition job s now next t).1.
Proof.
  intros Hs Ht. unfold transition. case_bool_decide as Ha; [|auto using moves_same].
  apply guarded_update_ok; [| |done].
  - intros r Hr. apply set_transition_moves. by rewrite Hr.
  - intros r _. by apply set_transition_row.
Qed.

Lemma pending_checked_ok job now next t :
  table_ok t ->
  table_ok (pending_checked job now next t).1 /\ Forall2 moves t (pending_checked job now next t).1.
Proof.
  intros Ht. unfold pending_checked. apply guarded_update_ok; [| |done].
  - intros r Hr. split; [done|]. by left.
  - intros r. apply set_pending_row.
Qed.

Lemma record_failure_ok job c error now next t :
  0 <= attempt_count job -> failure_time c next -> table_ok t ->
  table_ok (record_failure job c error now next t).1 /\
  Forall2 moves t (record_failure job c error now next t).1.
Proof.
  intros Hc Ht Htab. unfold record_failure. case_bool_decide as Ha; [|auto using moves_same].
  apply guarded_update_ok; [| |done].
  - intros r Hr. by apply set_failure_moves.
  - intros r _ _. by apply set_failure_row.
Qed.

Lemma resume_retry_ok job t :
  table_ok t -> table_ok (resume_retry job t).1 /\ Forall2 moves t (resume_retry job t).1.
Proof.
  intros Ht. unfold resume_retry. destruct (retry_from job) as [s|]; [|auto using moves_same].
  destruct (is_state (state job) RETRY_FAILED && bool_decide (s ∈ RETRY_SOURCES)) eqn:E;
    [|auto using moves_same].
  apply andb_true_iff in E as [_ Hs%bool_decide_eq_true].
  apply guarded_update_ok; [| |done].
  - intros r Hr. by apply set_resumed_moves.
  - intros r _. by apply set_resumed_row.
Qed.

(** ** New rows *)

Lemma next_id_fresh t : next_id t ∉ map id t.
Proof.
  assert (Hle : forall i, i ∈ map id t -> i <= fold_right Z.max 0 (map id t)).
  { intros i. induction (map id t) as [|x l IH]; [by intros ?%not_elem_of_nil|].
    intros [->|Hi]%elem_of_cons; cbn; [lia|]. specialize (IH Hi). lia. }
  intros Hin%Hle. unfold next_id in Hin. lia.
Qed.

Lemma get_None seq tip_hash t : get seq tip_hash t = None <-> (seq, tip_hash) ∉ map unique_key t.
Proof.
  unfold get. induction t as [|r t IH]; cbn [List.find map]; [split; [intros _; apply not_elem_of_nil|done]|].
  rewrite not_elem_of_cons. unfold unique_key at 1.
  destruct ((sequence_no r =? seq) && bool_decide (tip r = tip_hash)) eqn:E.
  - rewrite andb_true_iff, bool_decide_eq_true, Z.eqb_eq in E. destruct E as [-> ->].
    split; [done|]. by intros [[] _].
  - rewrite IH. split; [|by intros [_ ?]]. intros Hn. split; [|done]. intros [= -> ->].
    by rewrite Z.eqb_refl, bool_decide_eq_true_2 in E.
Qed.

Lemma get_Some seq tip_hash t r : get seq tip_hash t = Some r -> r ∈ t /\ unique_key r = (seq, tip_hash).
Proof.
  unfold get. intros H. apply find_some in H as [Hin H]. split; [by apply list_elem_of_In|].
  rewrite andb_true_iff, bool_decide_eq_true, Z.eqb_eq in H. destruct H as [<- <-]. done.
Qed.

(** [track_tip] adds one queued row, or leaves the table alone when the tip is
    already tracked. *)
Lemma track_tip_cases seq tip_hash path interval threshold t :
  (exists r, r ∈ t /\ unique_key r = (seq, tip_hash) /\
     track_tip seq tip_hash path interval threshold t = (t, false)) \/
  ((seq, tip_hash) ∉ map unique_key t /\
   track_tip seq tip_hash path interval threshold t
   = (t ++ [Row (next_id t) seq tip_hash QUEUED path 0 None None None None None interval threshold], true)).
Proof.
  unfold track_tip. destruct (get seq tip_hash t) as [r|] eqn:E.
  - apply get_Some in E as [??]. left. eauto.
  - apply get_None in E. by right.
Qed.

Lemma track_tip_ok seq tip_hash path interval threshold t :
  table_ok t -> table_ok (track_tip seq tip_hash path interval threshold t).1.
Proof.
  intros Ht. destruct (track_tip_cases seq tip_hash path interval threshold t)
    as [(r & _ & _ & ->)|[Hk ->]]; [done|]. destruct Ht as [Hi Hu Hr]. cbn. constructor.
  - rewrite map_app. apply NoDup_app. split; [done|]. split; [|by apply NoDup_singleton].
    intros x Hx ->%list_elem_of_singleton. by apply next_id_fresh in Hx.
  - rewrite map_app. apply NoDup_app. split; [done|]. split; [|by apply NoDup_singleton].
    intros x Hx ->%list_elem_of_singleton. done.
  - apply Forall_app_2; [done|]. constructor; [|constructor]. by constructor.
Qed.

(** ** Interleaved workers: snapshots may be stale *)

(** The table and every row that some worker has read so far. *)
Record lifecycle := Lifecycle { lc_table : list row; lc_seen : list row }.

(** One transaction of some worker.  [transition] is called with the two target
    states, a transient failure with a time for the retry, an integrity failure
    without, and every call with a row that was read before. *)
Inductive lifecycle_step : lifecycle -> lifecycle -> Prop :=
| step_read t seen r : r ∈ t -> lifecycle_step (Lifecycle t seen) (Lifecycle t (r :: seen))
| step_track t seen seq tip_hash path interval threshold :
    lifecycle_step (Lifecycle t seen)
      (Lifecycle (track_tip seq tip_hash path interval threshold t).1 seen)
| step_transition t seen job s now next : job ∈ seen -> s ∈ target_states ->
    lifecycle_step (Lifecycle t seen) (Lifecycle (transition job s now next t).1 seen)
| step_pending t seen job now next : job ∈ seen ->
    lifecycle_step (Lifecycle t seen) (Lifecycle (pending_checked job now next t).1 seen)
| step_transient t seen job error now next : job ∈ seen ->
    lifecycle_step (Lifecycle t seen)
      (Lifecycle (record_failure job Transient error now (Some next) t).1 seen)
| step_integrity t seen job error now : job ∈ seen ->
    lifecycle_step (Lifecycle t seen) (Lifecycle (record_failure job Integrity error now None t).1 seen)
| step_resume t seen job : job ∈ seen ->
    lifecycle_step (Lifecycle t seen) (Lifecycle (resume_retry job t).1 seen).

Definition lifecycle_reachable (l : lifecycle) : Prop := rtc lifecycle_step (Lifecycle [] []) l.

Definition lifecycle_inv (l : lifecycle) : Prop :=
  table_ok (lc_table l) /\ Forall row_ok (lc_seen l) /\
  Forall (fun job => identity job ∈ map identity (lc_table l)) (lc_seen l).

(** The rows after a step: the old ones moved, then new queued ones. *)
Definition table_evolves (t t' : list row) : Prop :=
  exists moved new, t' = moved ++ new /\ Forall2 moves t moved /\
    Forall (fun r => state r = QUEUED /\ attempt_count r = 0) new.

Lemma evolves_moves t t' : Forall2 moves t t' -> table_evolves t t'.
Proof. intros H. exists t', []. rewrite app_nil_r. split; [done|]. split; [done|constructor]. Qed.

Lemma moves_identities t t' : Forall2 moves t t' -> map identity t' = map identity t.
Proof. induction 1 as [|r r' t t' [Hi _] _ IH]; [done|]. cbn. by rewrite Hi, IH. Qed.

Lemma lifecycle_step_ok l l' :
  lifecycle_inv l -> lifecycle_step l l' ->
  table_ok (lc_table l') /\ table_evolves (lc_table l) (lc_table l').
Proof.
  intros (Ht & Hs & _) H. destruct H as [t seen r|t seen q h p i th|t seen job s now next Hj Hst
    |t seen job now next Hj|t seen job e now next Hj|t seen job e now Hj|t seen job Hj]; cbn in *.
  - split; [done|]. apply evolves_moves, moves_same.
  - split; [by apply track_tip_ok|].
    destruct (track_tip_cases q h p i th t) as [(_ & _ & _ & ->)|[_ ->]];
      [apply evolves_moves, moves_same|].
    eexists t, [_]. split; [done|]. split; [apply moves_same|by constructor].
  - destruct (transition_ok job s now next t Hst Ht). split; [done|by apply evolves_moves].
  - destruct (pending_checked_ok job now next t Ht). split; [done|by apply evolves_moves].
  - rewrite Forall_forall in Hs. destruct (record_failure_ok job Transient e now (Some next) t) as [? ?];
      [apply Hs, Hj|by split|done|split; [done|by apply evolves_moves]].
  - rewrite Forall_forall in Hs. destruct (record_failure_ok job Integrity e now None t) as [? ?];
      [apply Hs, Hj|by split|done|split; [done|by apply evolves_moves]].
  - destruct (resume_retry_ok job t Ht). split; [done|by apply evolves_moves].
Qed.

Lemma evolves_identities t t' :
  table_evolves t t' -> forall i, i ∈ map identity t -> i ∈ map identity t'.
Proof.
  intros (moved & new & -> & Hm & _) i Hi. rewrite map_app, (moves_identities _ _ Hm).
  apply elem_of_app. by left.
Qed.

Lemma lifecycle_step_inv l l' : lifecycle_inv l -> lifecycle_step l l' -> lifecycle_inv l'.
Proof.
  intros Hinv Hstep. destruct (lifecycle_step_ok l l' Hinv Hstep) as [Ht He].
  pose proof (evolves_identities _ _ He) as Hid. destruct Hinv as (Ht0 & Hs & Hp).
  split; [done|].
  assert (Hold : Forall row_ok (lc_seen l) /\
    Forall (fun job => identity job ∈ map identity (lc_table l')) (lc_seen l)).
  { split; [done|]. eapply Forall_impl; [exact Hp|]. intros job. apply Hid. }
  destruct Hold as [Hs' Hp']. destruct Hstep as [t seen r Hr| | | | | |]; cbn in *; try done.
  split; constructor; try done.
  - destruct Ht0 as [_ _ Hrows]. rewrite Forall_forall in Hrows. by apply Hrows.
  - by apply (list_elem_of_fmap_2 identity).
Qed.

Lemma lifecycle_reachable_inv l : lifecycle_reachable l -> lifecycle_inv l.
Proof.
  intros H. apply (rtc_invariant lifecycle_step lifecycle_inv _ l lifecycle_step_inv H).
  split; [|split]; repeat constructor.
Qed.

(** ** An update by a row of the table *)

Lemma filter_none {A} (p : A -> bool) l : (forall x, x ∈ l -> p x = false) -> List.filter p l = [].
Proof.
  induction l as [|x l IH]; [done|]. intros H. cbn. rewrite H by left. apply IH. intros y Hy. apply H. by right.
Qed.

Lemma filter_one (p : row -> bool) (t : list row) (job : row) :
  NoDup (map id t) -> job ∈ t -> p job = true -> (forall r, p r = true -> id r = id job) ->
  List.filter p t = [job].
Proof.
  induction t as [|r t IH]; [by intros _ ?%not_elem_of_nil|]. cbn [map List.filter].
  intros [Hni Hnd]%NoDup_cons Hin Hp Hid.
  apply elem_of_cons in Hin as [->|Hin].
  - rewrite Hp. f_equal. apply filter_none. intros x Hx. apply not_true_iff_false. intros Hpx.
    apply Hni. rewrite <- (Hid x Hpx). by apply (list_elem_of_fmap_2 id).
  - destruct (p r) eqn:E; [|auto]. exfalso. apply Hni. rewrite (Hid r E).
    by apply (list_elem_of_fmap_2 id).
Qed.

(** The table with the row [job] replaced. *)
Definition replace_row (job r' : row) (t : list row) : list row :=
  map (fun r => if id r =? id job then r' else r) t.

Lemma same_id_same_row (t : list row) r job : NoDup (map id t) -> r ∈ t -> job ∈ t -> id r = id job -> r = job.
Proof.
  induction t as [|x t IH]; [by intros _ ?%not_elem_of_nil|]. cbn. intros [Hni Hnd]%NoDup_cons.
  intros [->|Hr]%elem_of_cons [->|Hj]%elem_of_cons Hid; auto; exfalso; apply Hni;
    [rewrite Hid|rewrite <- Hid]; by apply (list_elem_of_fmap_2 id).
Qed.

Lemma updated_replace job f t :
  NoDup (map id t) -> job ∈ t -> updated job (state job) f t = replace_row job (f job) t.
Proof.
  intros Hnd Hj. unfold updated, replace_row. apply map_ext_in. intros r Hr%list_elem_of_In.
  unfold hits. destruct (Z.eqb_spec (id r) (id job)) as [E|]; [|done].
  apply (same_id_same_row t) in E as ->; [|done..]. by rewrite is_state_refl.
Qed.

Lemma get_unique t r : NoDup (map unique_key t) -> r ∈ t -> get (sequence_no r) (tip r) t = Some r.
Proof.
  unfold get. induction t as [|x t IH]; [by intros _ ?%not_elem_of_nil|]. cbn [map List.find].
  intros [Hni Hnd]%NoDup_cons [->|Hr]%elem_of_cons.
  - by rewrite Z.eqb_refl, bool_decide_eq_true_2.
  - destruct (_ && _) eqn:E; [|auto]. rewrite andb_true_iff, Z.eqb_eq, bool_decide_eq_true in E.
    destruct E as [E1 E2]. exfalso. apply Hni.
    assert (unique_key x = unique_key r) as -> by (unfold unique_key; congruence).
    by apply (list_elem_of_fmap_2 unique_key).
Qed.

Lemma replace_row_in job r' t : job ∈ t -> r' ∈ replace_row job r' t.
Proof.
  intros Hj. unfold replace_row. apply list_elem_of_fmap. exists job. by rewrite Z.eqb_refl.
Qed.

(** A guarded update by a current row replaces exactly that row and returns it. *)
Lemma guarded_update_hit job f t :
  table_ok t -> job ∈ t -> (forall r, state r = state job -> moves r (f r)) ->
  guarded_update job (state job) f t = (replace_row job (f job) t, Ok (f job)).
Proof.
  intros Ht Hj Hf. unfold guarded_update, update_where.
  change (map _ t) with (updated job (state job) f t).
  change (fun r => (id r =? id job) && is_state (state r) (state job)) with (hits job (state job)).
  rewrite (filter_one (hits job (state job)) t job).
  2: apply Ht. 2: done. 2: by unfold hits; rewrite Z.eqb_refl, is_state_refl.
  2:{ intros r Hr. unfold hits in Hr. apply andb_true_iff in Hr as [Hr _]. by apply Z.eqb_eq. }
  cbn [length Nat.eqb].
  pose proof (updated_moves job (state job) f t Hf) as Hm.
  rewrite updated_replace in * by (done || apply Ht).
  destruct (Hf job eq_refl) as [Hi _]. apply identity_key in Hi as [_ Hk].
  unfold unique_key in Hk. injection Hk as Hk1 Hk2. rewrite <- Hk1, <- Hk2.
  rewrite get_unique; [done| |by apply replace_row_in].
  destruct (moves_ids _ _ Hm) as [_ ->]. apply Ht.
Qed.
