(* ===== verification/WorkerFacts.v ===== *)
(** One job of the worker: every outcome, and the proof file behind it. *)

From stdpp Require Import gmap.
From S2P Require Import Prelude.
From S2P Require Import PyText.
From S2P Require Import PyValue.
From S2P Require Import Binary64.
From S2P Require Import FloatOps.
From S2P Require Import Calendar.
From S2P Require Import ChainStore.
From S2P Require Import Anchor.
From S2P Require Import AnchorStore.
From S2P Require Import AnchorStoreFacts.
From S2P Require Import AnchorWorker.
From S2P Require Import BackoffFacts.

(** ** Writing a proof *)

(** All or nothing, when the temporary name is fresh. *)
Lemma write_proof_final (wf : write_failure) (tmp target : pystr) (proof : proof_object) (repl : bool)
  (fs : files) trace r :
  fs !! tmp = None -> write_proof_atomic wf tmp target proof repl fs = (trace, r) ->
  (exists b, proof_bytes proof = Some b /\ r = Ok tt /\ final_files trace fs = <[target := b]> fs) \/
  ((exists e, r = Err (PlainError e)) /\ final_files trace fs = fs).
Proof.
  intros Hf. unfold write_proof_atomic, final_files.
  destruct (proof_bytes proof) as [b|]; [|intros [= <- <-]; right; by eauto].
  destruct wf as [| | |n|]; try (destruct (negb repl && _)); intros [= <- <-]; cbn;
    try (right; split; [by eauto|]; try done; by apply delete_id).
  left. exists b. split; [done|]. split; [done|]. by rewrite delete_id.
Qed.

Lemma proof_bytes_Some p b : proof_bytes p = Some b -> p = ProofBytes b.
Proof. unfold proof_bytes. destruct p as [[|c l]|]; try done. by intros [= <-]. Qed.

Section worker.
Context `{OpenTimestamps}.

Lemma inspect_bytes p digest i : inspect_proof p digest = Ok i -> exists b, proof_bytes p = Some b.
Proof.
  unfold inspect_proof, _validated_detached. destruct (proof_bytes p) as [b|]; [eauto|done].
Qed.

(** The file of the job holds a proof of its tip hash; [bitcoin] says whether
    it has a Bitcoin attestation. *)
Definition proof_of (fs : files) (job : row) (bitcoin : bool) : Prop :=
  exists digest proof i, bytes_fromhex (tip job) = Some digest /\
    fs !! proof_path job = Some proof /\ inspect_proof (ProofBytes proof) digest = Ok i /\
    has_bitcoin_attestation i = bitcoin.

(** ** The [try] block *)

(** What a job becomes when its step returns, with the files. *)
Inductive advanced (now : Z) (job : row) (fs : files) : row -> Prop :=
| adv_upgraded : state job ∈ [QUEUED; SUBMITTED_PENDING] -> proof_of fs job true ->
    advanced now job fs (set_transition UPGRADED_UNVERIFIED (_utc_text now) None job)
| adv_pending t : state job = QUEUED -> proof_of fs job false ->
    add_us now (minutes_us (interval_minutes job)) = Some t ->
    advanced now job fs (set_transition SUBMITTED_PENDING (_utc_text now) (Some (_utc_text t)) job)
| adv_kept t : state job = SUBMITTED_PENDING -> proof_of fs job false ->
    add_us now (minutes_us (interval_minutes job)) = Some t ->
    advanced now job fs (set_pending (_utc_text now) (_utc_text t) job).

(** The files: only the proof file of the job may differ, and then it holds a
    proof of the tip. *)
Definition files_frame (job : row) (fs fs' : files) : Prop :=
  fs' = fs \/
  ((forall p, p <> proof_path job -> fs' !! p = fs !! p) /\ exists bitcoin, proof_of fs' job bitcoin).

(** A step ends with the row advanced, or raises with the table as it was. *)
Definition step_spec (now : Z) (job : row) (w : world) {A} (m : step_result A) : Prop :=
  files_frame job (w_files w) (w_files m.1) /\
  match m.2 with
  | Ok _ => exists job', advanced now job (w_files m.1) job' /\
      w_table m.1 = replace_row job job' (w_table w)
  | Err e => w_table m.1 = w_table w
  end.

Lemma transition_hit job s now next t :
  table_ok t -> job ∈ t -> s ∈ ALLOWED_TRANSITIONS (state job) ->
  transition job s now next t
  = (replace_row job (set_transition s now next job) t, Ok (set_transition s now next job)).
Proof.
  intros Ht Hj Hs. unfold transition. rewrite bool_decide_eq_true_2 by done.
  apply guarded_update_hit; [done..|]. intros r Hr. split; [done|]. right. cbn. by rewrite Hr.
Qed.

Lemma pending_checked_hit job now next t :
  table_ok t -> job ∈ t -> state job = SUBMITTED_PENDING ->
  pending_checked job now next t = (replace_row job (set_pending now next job) t, Ok (set_pending now next job)).
Proof.
  intros Ht Hj Hs. unfold pending_checked. rewrite <- Hs.
  apply guarded_update_hit; [done..|]. intros r Hr. split; [done|by left].
Qed.

Lemma record_failure_hit job c error now next t :
  table_ok t -> job ∈ t -> state job ∈ RETRY_SOURCES ->
  record_failure job c error now next t
  = (replace_row job (set_failure job c error now next job) t, Ok (set_failure job c error now next job)).
Proof.
  intros Ht Hj Hs. unfold record_failure. rewrite bool_decide_eq_true_2 by done.
  apply guarded_update_hit; [done..|]. intros r Hr. split; [done|]. right. cbn. rewrite Hr.
  unfold RETRY_SOURCES in Hs. rewrite !elem_of_cons, elem_of_nil in Hs.
  destruct_or! Hs; try done; rewrite Hs; apply (bool_decide_unpack _); by vm_compute.
Qed.

Lemma resume_retry_hit job s t :
  table_ok t -> job ∈ t -> state job = RETRY_FAILED -> retry_from job = Some s -> s ∈ RETRY_SOURCES ->
  resume_retry job t = (replace_row job (set_resumed s job) t, Ok (set_resumed s job)).
Proof.
  intros Ht Hj Hst Hr Hs. unfold resume_retry. rewrite Hr, (proj2 (is_state_true _ _) Hst).
  rewrite bool_decide_eq_true_2 by done. cbn [andb]. rewrite <- Hst at 1.
  apply guarded_update_hit; [done..|]. intros r Hr'. split; [done|]. right. cbn. rewrite Hr', Hst. done.
Qed.

(** Steps that raise without having touched the world. *)
Lemma raise_spec now job w {A} e : step_spec now job w (raise_step (A := A) w e).
Proof. split; [by left|done]. Qed.

(** The write of a proof, then a continuation. *)
Lemma write_then_spec {A} env now job proof (repl : bool) w (k : world -> unit -> step_result A) :
  w_files w !! je_temporary env = None ->
  (forall b, proof = ProofBytes b ->
     step_spec now job w (k (World (w_table w) (<[proof_path job := b]> (w_files w))) tt)) ->
  step_spec now job w (then_step (write_step env (proof_path job) proof repl w) k).
Proof.
  intros Hf Hk. unfold write_step.
  destruct (write_proof_atomic _ _ _ _ _ _) as [trace r] eqn:E.
  apply write_proof_final in E as [(b & Hb & -> & ->)|[(e & ->) ->]]; [| |done].
  - cbn. apply Hk. by apply proof_bytes_Some.
  - cbn. destruct w. split; [by left|done].
Qed.

Lemma insert_frame job (b : bytes) (fs : files) digest i :
  bytes_fromhex (tip job) = Some digest -> inspect_proof (ProofBytes b) digest = Ok i ->
  files_frame job fs (<[proof_path job := b]> fs).
Proof.
  intros Hd Hi. right. split; [intros p Hp; by rewrite lookup_insert_ne|].
  exists (has_bitcoin_attestation i), digest, b, i. by rewrite lookup_insert_eq.
Qed.

Lemma frame_refl job (fs : files) : files_frame job fs fs.
Proof. by left. Qed.

(** The last table operation of a step. *)
Lemma leave_queue_spec job now w fs target digest proof i :
  table_ok (w_table w) -> job ∈ w_table w -> state job = QUEUED ->
  files_frame job (w_files w) fs -> bytes_fromhex (tip job) = Some digest ->
  fs !! proof_path job = Some proof -> inspect_proof (ProofBytes proof) digest = Ok i ->
  target = (if has_bitcoin_attestation i then UPGRADED_UNVERIFIED else SUBMITTED_PENDING) ->
  step_spec now job w (leave_queue job target now (World (w_table w) fs)).
Proof.
  intros Ht Hj Hq Hfr Hd Hp Hi ->. unfold leave_queue.
  destruct (has_bitcoin_attestation i) eqn:Hb.
  - change (is_state UPGRADED_UNVERIFIED SUBMITTED_PENDING) with false. cbn [w_table].
    rewrite transition_hit; [|done..|rewrite Hq; apply (bool_decide_unpack _); by vm_compute].
    split; [done|]. eexists; split; [|done]. apply adv_upgraded; [rewrite Hq; by left|].
    by exists digest, proof, i.
  - rewrite is_state_refl. unfold _next_pending_attempt.
    destruct (add_us now _) as [t|] eqn:Et; [|by split]. cbn [fmap res_fmap w_table].
    rewrite transition_hit; [|done..|rewrite Hq; apply (bool_decide_unpack _); by vm_compute].
    split; [done|]. eexists; split; [|done]. apply adv_pending; [done| |done].
    by exists digest, proof, i.
Qed.

(** The state a proof asks for. *)
Lemma target_state_Ok proof digest s :
  _target_state proof digest = Ok s ->
  exists i, inspect_proof proof digest = Ok i /\
    s = (if has_bitcoin_attestation i then UPGRADED_UNVERIFIED else SUBMITTED_PENDING).
Proof. intros H1. apply bind_Ok in H1 as (i & Hi & [= <-]). eauto. Qed.

(** The row is kept pending. *)
Lemma keep_pending_spec job now w fs digest proof i :
  table_ok (w_table w) -> job ∈ w_table w -> state job = SUBMITTED_PENDING ->
  files_frame job (w_files w) fs -> bytes_fromhex (tip job) = Some digest ->
  fs !! proof_path job = Some proof -> inspect_proof (ProofBytes proof) digest = Ok i ->
  has_bitcoin_attestation i = false ->
  step_spec now job w (keep_pending job now (World (w_table w) fs)).
Proof.
  intros Ht Hj Hq Hfr Hd Hp Hi Hb. unfold keep_pending, _next_pending_attempt.
  destruct (add_us now _) as [t|] eqn:Et; [|by split]. cbn [w_table].
  rewrite pending_checked_hit by done. split; [done|].
  eexists; split; [|done]. apply adv_kept; [done| |done]. by exists digest, proof, i.
Qed.

(** The row has a Bitcoin attestation. *)
Lemma upgrade_spec job now w fs digest proof i :
  table_ok (w_table w) -> job ∈ w_table w -> state job = SUBMITTED_PENDING ->
  files_frame job (w_files w) fs -> bytes_fromhex (tip job) = Some digest ->
  fs !! proof_path job = Some proof -> inspect_proof (ProofBytes proof) digest = Ok i ->
  has_bitcoin_attestation i = true ->
  step_spec now job w (on_table (World (w_table w) fs)
    (transition job UPGRADED_UNVERIFIED (_utc_text now) None (w_table w))).
Proof.
  intros Ht Hj Hq Hfr Hd Hp Hi Hb.
  rewrite transition_hit; [|done..|rewrite Hq; apply (bool_decide_unpack _); by vm_compute].
  split; [done|]. eexists; split; [|done]. apply adv_upgraded; [rewrite Hq; right; by left|].
  by exists digest, proof, i.
Qed.

Lemma process_queued_spec env job now w :
  table_ok (w_table w) -> job ∈ w_table w -> state job = QUEUED ->
  w_files w !! je_temporary env = None ->
  step_spec now job w (_process_queued env job now w).
Proof.
  intros Ht Hj Hq Hf. unfold _process_queued, tip_digest.
  destruct (bytes_fromhex (tip job)) as [digest|] eqn:Hd; [|apply raise_spec]. cbn [then_step].
  destruct (w_files w !! proof_path job) as [proof|] eqn:Hp.
  - destruct (je_read env); [|apply raise_spec].
    destruct (_target_state _ digest) as [s|e] eqn:Es; [|apply raise_spec].
    apply target_state_Ok in Es as (i & Hi & ->). destruct w as [t fs]. eapply leave_queue_spec; eauto.
    apply frame_refl.
  - destruct (je_stamp env digest) as [proof|e]; [|apply raise_spec].
    destruct (_target_state proof digest) as [s|e] eqn:Es; [|apply raise_spec].
    apply target_state_Ok in Es as (i & Hi & ->).
    apply write_then_spec; [done|]. intros b ->. eapply leave_queue_spec; eauto.
    + by eapply insert_frame.
    + by rewrite lookup_insert_eq.
Qed.

Lemma process_pending_spec env job now w :
  table_ok (w_table w) -> job ∈ w_table w -> state job = SUBMITTED_PENDING ->
  w_files w !! je_temporary env = None ->
  step_spec now job w (_process_pending env job now w).
Proof.
  intros Ht Hj Hq Hf. unfold _process_pending, tip_digest.
  destruct (bytes_fromhex (tip job)) as [digest|] eqn:Hd; [|apply raise_spec]. cbn [then_step].
  destruct (w_files w !! proof_path job) as [current|] eqn:Hp; [|apply raise_spec].
  destruct (je_read env); [|apply raise_spec].
  destruct (inspect_proof _ digest) as [i|e] eqn:Hi; [|apply raise_spec].
  destruct (has_bitcoin_attestation i) eqn:Hb.
  { destruct w as [t fs]. eapply upgrade_spec; eauto. apply frame_refl. }
  destruct (je_upgrade env _ digest) as [[upgraded|]|e]; [| |apply raise_spec].
  2:{ destruct w as [t fs]. eapply keep_pending_spec; eauto. apply frame_refl. }
  destruct (_target_state upgraded digest) as [s|e] eqn:Es; [|apply raise_spec].
  apply target_state_Ok in Es as (i' & Hi' & ->).
  apply write_then_spec; [done|]. intros b ->. destruct (has_bitcoin_attestation i') eqn:Hb'.
  - rewrite is_state_refl. cbn [w_table]. eapply upgrade_spec; eauto; [by eapply insert_frame|by rewrite lookup_insert_eq].
  - change (is_state SUBMITTED_PENDING UPGRADED_UNVERIFIED) with false. eapply keep_pending_spec; eauto; [by eapply insert_frame|by rewrite lookup_insert_eq].
Qed.
End worker.

(** ** A whole job *)

(** The row after [resume_retry]. *)
Definition resumed (job : row) : row :=
  if is_state (state job) RETRY_FAILED
  then match retry_from job with Some s => set_resumed s job | None => job end
  else job.

Lemma resumed_ok job : row_ok job ->
  identity (resumed job) = identity job /\ attempt_count (resumed job) = attempt_count job /\
  state (resumed job) ∈ RETRY_SOURCES.
Proof.
  intros [_ Hu Hf _]. unfold resumed. destruct (is_state (state job) RETRY_FAILED) eqn:E.
  - apply is_state_true, Hf in E as (s & -> & Hs & _). done.
  - split; [done|]. split; [done|]. unfold RETRY_SOURCES. rewrite !elem_of_cons.
    destruct (state job) eqn:Es; auto; [done|]. by rewrite is_state_refl in E.
Qed.

Lemma replace_twice job r r' t : id r = id job -> replace_row r r' (replace_row job r t) = replace_row job r' t.
Proof.
  intros Hi. unfold replace_row. rewrite map_map. apply map_ext. intros x. rewrite Hi.
  destruct (Z.eqb_spec (id x) (id job)) as [E|E]; [by rewrite Hi, Z.eqb_refl|].
  by rewrite (proj2 (Z.eqb_neq _ _) E).
Qed.

Lemma replace_same job t : table_ok t -> job ∈ t -> replace_row job job t = t.
Proof.
  intros [Hi _ _] Hj. unfold replace_row. rewrite <- (map_id t) at 2. apply map_ext_in.
  intros r Hr%list_elem_of_In. destruct (Z.eqb_spec (id r) (id job)); [|done].
  symmetry. by eapply same_id_same_row.
Qed.

Section worker.
Context `{OpenTimestamps}.

(** The exceptions that the last handler of [_process_job] catches. *)
Definition retried (e : job_exn) : Prop :=
  e <> StepError AnchorConfigurationError /\ forall r, e <> StepError (AnchorIntegrityError r).

(** What the row of a job becomes and what [_process_job] returns, when the
    steps of the job ended with [raised]. *)
Inductive job_outcome (env : job_env) (now : Z) (job : row) (fs : files)
  : res job_exn unit -> res job_exn unit -> row -> Prop :=
| out_advanced job' : advanced now (resumed job) fs job' ->
    job_outcome env now job fs (Ok tt) (Ok tt) job'
| out_idle : state (resumed job) = UPGRADED_UNVERIFIED ->
    job_outcome env now job fs (Ok tt) (Ok tt) (resumed job)
| out_configuration :
    job_outcome env now job fs (Err (StepError AnchorConfigurationError))
      (Err (StepError AnchorConfigurationError)) (resumed job)
| out_integrity r :
    job_outcome env now job fs (Err (StepError (AnchorIntegrityError r))) (Ok tt)
      (set_failure (resumed job) Integrity (je_error env) (_utc_text now) None (resumed job))
| out_transient e delay t :
    retried e -> retry_delay_seconds (attempt_count job + 1) (je_jitter env) = Ok delay ->
    timedelta_seconds delay ≫= add_us now = Some t ->
    now + 900 * us_per_second <= t <= now + 108000 * us_per_second -> instant_ok t ->
    job_outcome env now job fs (Err e) (Ok tt)
      (set_failure (resumed job) Transient (je_error env) (_utc_text now) (Some (_utc_text t)) (resumed job))
| out_delay e e' : retried e -> retry_delay_seconds (attempt_count job + 1) (je_jitter env) = Err e' ->
    job_outcome env now job fs (Err e) (Err (DelayError e')) (resumed job)
| out_calendar e delay : retried e -> retry_delay_seconds (attempt_count job + 1) (je_jitter env) = Ok delay ->
    timedelta_seconds delay ≫= add_us now = None -> ~ instant_ok (now + 108000 * us_per_second) ->
    job_outcome env now job fs (Err e) (Err TimeOverflow) (resumed job).

(** The world when the [try] block starts. *)
Definition started (job : row) (w : world) : world :=
  World (replace_row job (resumed job) (w_table w)) (w_files w).

Lemma process_by_state_spec env job now w :
  table_ok (w_table w) -> job ∈ w_table w -> state job ∈ RETRY_SOURCES ->
  w_files w !! je_temporary env = None ->
  step_spec now job w (process_by_state env job now w) \/
  (state job = UPGRADED_UNVERIFIED /\ process_by_state env job now w = (w, Ok tt)).
Proof.
  intros Ht Hj Hs Hf. unfold process_by_state.
  assert (Hthen : forall (m : step_result row), step_spec now job w m ->
    step_spec now job w (then_step m (fun w _ => (w, Ok tt)))).
  { intros [w' [r|e]] [??]; by split. }
  destruct (is_state (state job) QUEUED) eqn:E1; [apply is_state_true in E1; left|].
  { apply Hthen. by apply process_queued_spec. }
  destruct (is_state (state job) SUBMITTED_PENDING) eqn:E2; [apply is_state_true in E2; left|].
  { apply Hthen. by apply process_pending_spec. }
  right. split; [|done]. unfold RETRY_SOURCES in Hs. rewrite !elem_of_cons, elem_of_nil in Hs.
  destruct_or! Hs; try done; by rewrite Hs, is_state_refl in *.
Qed.

(** The time of a retry exists unless the calendar ends before it. *)
Lemma retry_time_total n j f now :
  retry_delay_seconds n j = Ok f -> instant_ok now -> instant_ok (now + 108000 * us_per_second) ->
  exists t, timedelta_seconds f ≫= add_us now = Some t.
Proof.
  intros [Hf Hb]%retry_delay_bounds H0 H1.
  destruct (timedelta_bounds f 900 108000 Hf ltac:(lia) Hb) as (us & -> & Hus).
  exists (now + us). cbn. unfold add_us. unfold instant_ok, us_per_second in *.
  rewrite (proj2 (Z.leb_le _ _)), (proj2 (Z.ltb_lt _ _)) by lia. done.
Qed.

(** The failure branch. *)
Lemma schedule_retry_spec env job now fs w e :
  table_ok (w_table w) -> resumed job ∈ w_table w -> state (resumed job) ∈ RETRY_SOURCES ->
  attempt_count (resumed job) = attempt_count job -> instant_ok now -> retried e ->
  exists job', job_outcome env now job fs (Err e) (schedule_retry env (resumed job) now w).2 job' /\
    w_table (schedule_retry env (resumed job) now w).1 = replace_row (resumed job) job' (w_table w) /\
    w_files (schedule_retry env (resumed job) now w).1 = w_files w.
Proof.
  intros Ht Hj Hs Ha Hnow He. unfold schedule_retry. rewrite Ha.
  destruct (retry_delay_seconds _ _) as [f|e'] eqn:Ed.
  2:{ exists (resumed job). cbn. rewrite replace_same by done. split; [by eapply out_delay|done]. }
  destruct (timedelta_seconds f ≫= add_us now) as [t|] eqn:Et.
  - pose proof (retry_time_bounds _ _ _ _ _ Ed Et) as [Hb Hok]. rewrite record_failure_hit by done.
    eexists; split; [by eapply out_transient|]. done.
  - exists (resumed job). cbn. rewrite replace_same by done. split; [|done]. eapply out_calendar; [done..|].
    intros Hc. destruct (retry_time_total _ _ _ _ Ed Hnow Hc) as [t Ht']. congruence.
Qed.

Lemma handle_failure_spec env job now w m :
  table_ok (w_table w) -> resumed job ∈ w_table w -> state (resumed job) ∈ RETRY_SOURCES ->
  attempt_count (resumed job) = attempt_count job -> instant_ok now ->
  step_spec now (resumed job) w m \/ (state (resumed job) = UPGRADED_UNVERIFIED /\ m = (w, Ok tt)) ->
  exists job', job_outcome env now job (w_files m.1) m.2 (handle_failure env (resumed job) now m).2 job' /\
    w_table (handle_failure env (resumed job) now m).1 = replace_row (resumed job) job' (w_table w) /\
    files_frame (resumed job) (w_files w) (w_files (handle_failure env (resumed job) now m).1) /\
    w_files (handle_failure env (resumed job) now m).1 = w_files m.1.
Proof.
  intros Ht Hj Hs Ha Hnow [Hm|[Hi ->]].
  2:{ exists (resumed job). cbn. rewrite replace_same by done. split; [by apply out_idle|]. split; [done|]. split; [by left|done]. }
  destruct m as [w' r], Hm as [Hfr Hm]. cbn [fst snd] in Hm, Hfr.
  destruct r as [[]|e].
  { destruct Hm as (job' & Hadv & Htab). exists job'. split; [by apply out_advanced|done]. }
  destruct w' as [t' fs']. cbn [w_table w_files] in Hm, Hfr. subst t'.
  assert (Hretry : retried e -> let w' := World (w_table w) fs' in
    exists job', job_outcome env now job fs' (Err e) (schedule_retry env (resumed job) now w').2 job' /\
      w_table (schedule_retry env (resumed job) now w').1 = replace_row (resumed job) job' (w_table w) /\
      files_frame (resumed job) (w_files w) (w_files (schedule_retry env (resumed job) now w').1) /\
      w_files (schedule_retry env (resumed job) now w').1 = fs').
  { intros He. destruct (schedule_retry_spec env job now fs' (World (w_table w) fs') e)
      as (job' & Ho & Htab & Hfs); try done. exists job'. cbv zeta. by rewrite Hfs. }
  destruct e as [[r| | |e|r]|e| |e]; cbn [fst snd w_files] in *; try by apply Hretry; split.
  - cbn. rewrite record_failure_hit by done. eexists; split; [apply out_integrity|done].
  - exists (resumed job). cbn. rewrite replace_same by done. split; [apply out_configuration|done].
Qed.

(** What [_process_job] does after the row has been resumed. *)
Lemma process_job_started env job now w :
  table_ok (w_table w) -> job ∈ w_table w ->
  table_ok (w_table (started job w)) /\ resumed job ∈ w_table (started job w) /\
  _process_job env job now w
  = handle_failure env (resumed job) now (process_by_state env (resumed job) now (started job w)).
Proof.
  intros Ht Hj.
  assert (Hrow : row_ok job) by (destruct Ht as [_ _ Hr]; rewrite Forall_forall in Hr; auto).
  split; [|split; [by apply replace_row_in|]]; unfold _process_job, started, resumed;
    destruct (is_state (state job) RETRY_FAILED) eqn:E.
  - pose proof E as Ef. apply is_state_true in Ef. destruct (ro_failed _ Hrow Ef) as (s & Hr & Hrs & _).
    rewrite Hr. pose proof (resume_retry_ok job (w_table w) Ht) as [Hok _].
    by rewrite (resume_retry_hit job s) in Hok by done.
  - cbn [w_table]. by rewrite replace_same.
  - pose proof E as Ef. apply is_state_true in Ef. destruct (ro_failed _ Hrow Ef) as (s & Hr & Hrs & _).
    rewrite Hr. by rewrite (resume_retry_hit job s) by done.
  - rewrite replace_same by done. by destruct w.
Qed.

(** A job whose row is current: its row moves to the outcome of its steps, no
    other row and no other proof file changes. *)
Lemma process_job_spec env job now w :
  table_ok (w_table w) -> job ∈ w_table w -> instant_ok now ->
  w_files w !! je_temporary env = None ->
  let m := process_by_state env (resumed job) now (started job w) in
  let out := _process_job env job now w in
  w_files out.1 = w_files m.1 /\
  exists job', job_outcome env now job (w_files out.1) m.2 out.2 job' /\
    w_table out.1 = replace_row job job' (w_table w) /\
    files_frame job (w_files w) (w_files out.1).
Proof.
  intros Ht Hj Hnow Hf. cbv zeta.
  assert (Hrow : row_ok job) by (destruct Ht as [_ _ Hr]; rewrite Forall_forall in Hr; auto).
  destruct (resumed_ok job Hrow) as (Hid & Ha & Hs).
  pose proof (identity_key _ _ Hid) as [Hi _].
  assert (Hpath : proof_path (resumed job) = proof_path job)
    by (unfold identity in Hid; congruence).
  destruct (process_job_started env job now w Ht Hj) as (Ht1 & Hj1 & ->).
  destruct (handle_failure_spec env job now (started job w)
    (process_by_state env (resumed job) now (started job w))) as (job' & Ho & Htab & Hfr & Hfs); try done.
  { by apply process_by_state_spec. }
  split; [done|]. exists job'. rewrite Hfs. split; [done|]. rewrite <- Hfs, Htab. cbn [w_table started].
  rewrite replace_twice by done. split; [done|].
  assert (Htip : tip (resumed job) = tip job) by (unfold identity in Hid; congruence).
  unfold files_frame, proof_of in *. by rewrite Hpath, Htip in Hfr.
Qed.
End worker.
