(* ===== verification/JobSpec.v ===== *)
(** What the steps of one job may do, as an inductive specification: one rule
    for each way the [try] block of [_process_job] ends, and the proof that
    [process_by_state] ends in one of them. *)

From stdpp Require Import gmap.
From S2P Require Import Prelude.
From S2P Require Import PyText.
From S2P Require Import PyValue.
From S2P Require Import Calendar.
From S2P Require Import ChainStore.
From S2P Require Import Anchor.
From S2P Require Import AnchorStore.
From S2P Require Import AnchorStoreFacts.
From S2P Require Import AnchorWorker.
From S2P Require Import WorkerFacts.

#[export] Instance write_failure_eq_dec : EqDecision write_failure.
Proof. solve_decision. Defined.

Section spec.
Context `{OpenTimestamps}.

Definition raises (e : anchor_exn) : res job_exn unit := Err (StepError e).

(** Leaving with a proof that has a Bitcoin attestation ([true]) needs no next
    time; without one the time of the next look must exist. *)
Inductive scheduled (now : Z) (job : row) : bool -> res job_exn unit -> Prop :=
| sch_bitcoin : scheduled now job true (Ok tt)
| sch_next t : add_us now (minutes_us (interval_minutes job)) = Some t -> scheduled now job false (Ok tt)
| sch_overflow : add_us now (minutes_us (interval_minutes job)) = None -> scheduled now job false (Err TimeOverflow).

(** A pending job whose proof [f] has no Bitcoin attestation, when the calendars
    answer: the file after, and what the steps returned or raised. *)
Inductive upgraded (env : job_env) (now : Z) (job : row)
  : bytes -> bytes -> res anchor_exn (option proof_object) -> option bytes -> res job_exn unit -> Prop :=
| up_failed digest f e : upgraded env now job digest f (Err e) (Some f) (raises e)
| up_none digest f r : scheduled now job false r -> upgraded env now job digest f (Ok None) (Some f) r
| up_invalid digest f p e :
    inspect_proof p digest = Err e -> upgraded env now job digest f (Ok (Some p)) (Some f) (raises e)
| up_unwritten digest f p i :
    inspect_proof p digest = Ok i -> je_write env <> NoFailure ->
    upgraded env now job digest f (Ok (Some p)) (Some f) (raises (PlainError OSErrorRaised))
| up_written digest f b i r :
    inspect_proof (ProofBytes b) digest = Ok i -> je_write env = NoFailure ->
    scheduled now job (has_bitcoin_attestation i) r ->
    upgraded env now job digest f (Ok (Some (ProofBytes b))) (Some b) r.

(** The file at the path of the job before, the file after, and what the steps
    returned or raised, for the library, the calendars and the file system of
    [env]. *)
Inductive attempt (env : job_env) (now : Z) (job : row) : option bytes -> option bytes -> res job_exn unit -> Prop :=
| at_idle before :
    state job = UPGRADED_UNVERIFIED -> attempt env now job before before (Ok tt)
| at_bad_digest before :
    state job ∈ [QUEUED; SUBMITTED_PENDING] -> bytes_fromhex (tip job) = None ->
    attempt env now job before before (raises (PlainError OtherException))
| at_unreadable digest f :
    state job ∈ [QUEUED; SUBMITTED_PENDING] -> bytes_fromhex (tip job) = Some digest -> je_read env = false ->
    attempt env now job (Some f) (Some f) (raises (PlainError OSErrorRaised))
| at_invalid digest f e :
    state job ∈ [QUEUED; SUBMITTED_PENDING] -> bytes_fromhex (tip job) = Some digest -> je_read env = true ->
    inspect_proof (ProofBytes f) digest = Err e -> attempt env now job (Some f) (Some f) (raises e)
(* a queued job whose proof is already there: it is adopted *)
| at_adopted digest f i r :
    state job = QUEUED -> bytes_fromhex (tip job) = Some digest -> je_read env = true ->
    inspect_proof (ProofBytes f) digest = Ok i -> scheduled now job (has_bitcoin_attestation i) r ->
    attempt env now job (Some f) (Some f) r
(* a queued job without a proof: it is stamped *)
| at_stamp_failed digest e :
    state job = QUEUED -> bytes_fromhex (tip job) = Some digest -> je_stamp env digest = Err e ->
    attempt env now job None None (raises e)
| at_stamp_invalid digest p e :
    state job = QUEUED -> bytes_fromhex (tip job) = Some digest -> je_stamp env digest = Ok p ->
    inspect_proof p digest = Err e -> attempt env now job None None (raises e)
| at_stamp_unwritten digest p i :
    state job = QUEUED -> bytes_fromhex (tip job) = Some digest -> je_stamp env digest = Ok p ->
    inspect_proof p digest = Ok i -> je_write env <> NoFailure ->
    attempt env now job None None (raises (PlainError OSErrorRaised))
| at_stamped digest b i r :
    state job = QUEUED -> bytes_fromhex (tip job) = Some digest -> je_stamp env digest = Ok (ProofBytes b) ->
    inspect_proof (ProofBytes b) digest = Ok i -> je_write env = NoFailure ->
    scheduled now job (has_bitcoin_attestation i) r -> attempt env now job None (Some b) r
(* a pending job *)
| at_missing digest :
    state job = SUBMITTED_PENDING -> bytes_fromhex (tip job) = Some digest ->
    attempt env now job None None (raises (PlainError MissingProofFile))
| at_confirmed digest f i :
    state job = SUBMITTED_PENDING -> bytes_fromhex (tip job) = Some digest -> je_read env = true ->
    inspect_proof (ProofBytes f) digest = Ok i -> has_bitcoin_attestation i = true ->
    attempt env now job (Some f) (Some f) (Ok tt)
| at_asked digest f i after r :
    state job = SUBMITTED_PENDING -> bytes_fromhex (tip job) = Some digest -> je_read env = true ->
    inspect_proof (ProofBytes f) digest = Ok i -> has_bitcoin_attestation i = false ->
    upgraded env now job digest f (je_upgrade env (ProofBytes f) digest) after r ->
    attempt env now job (Some f) after r.

(** The rules exclude each other: what the job finds and what the calendars and
    the file system do determine the file and the exception. *)
Lemma scheduled_unique now job b r r' : scheduled now job b r -> scheduled now job b r' -> r = r'.
Proof. intros [] Hr; inversion Hr; congruence. Qed.

(** Two equations of one call. *)
Ltac same_calls :=
  repeat match goal with
  | E : ?x = Ok (ProofBytes ?a), E' : ?x = Ok (ProofBytes ?b) |- _ => assert (a = b) as -> by congruence; clear E'
  | E : ?x = Ok ?a, E' : ?x = Ok ?b |- _ => assert (a = b) as -> by congruence; clear E'
  | E : ?x = Err ?a, E' : ?x = Err ?b |- _ => assert (a = b) as -> by congruence; clear E'
  end.

Lemma upgraded_unique env now job digest f u after after' r r' :
  upgraded env now job digest f u after r -> upgraded env now job digest f u after' r' -> after = after' /\ r = r'.
Proof.
  intros [] Hr; inversion Hr; simplify_eq; try congruence; same_calls; split; try congruence;
    by eapply scheduled_unique.
Qed.

Lemma attempt_unique env now job before after after' r r' :
  attempt env now job before after r -> attempt env now job before after' r' -> after = after' /\ r = r'.
Proof.
  intros Ha Hb.
  destruct Ha; inversion Hb; simplify_eq; try congruence;
    repeat match goal with
    | E : _ ∈ [QUEUED; SUBMITTED_PENDING] |- _ => apply elem_of_cons in E as [E|E%list_elem_of_singleton]
    end; try congruence; same_calls; try (split; congruence); try (split; [congruence|by eapply scheduled_unique]).
  by eapply upgraded_unique.
Qed.

(** ** The steps satisfy it *)

(** The write of an inspected proof: the whole proof, or an [OSError] and the
    files as they were. *)
Lemma write_step_exact env path proof b (repl : bool) w :
  proof_bytes proof = Some b -> w_files w !! je_temporary env = None -> (repl = false -> w_files w !! path = None) ->
  write_step env path proof repl w
  = (if bool_decide (je_write env = NoFailure) then (World (w_table w) (<[path := b]> (w_files w)), Ok tt)
     else (w, raises (PlainError OSErrorRaised))).
Proof.
  intros Hb Hf Hp. unfold write_step, write_proof_atomic. rewrite Hb.
  assert (Hfree : negb repl && bool_decide (is_Some (w_files w !! path)) = false).
  { destruct repl; [done|]. rewrite Hp by done. apply bool_decide_eq_false_2. by intros []. }
  destruct w as [t fs]. cbn in Hf, Hp, Hfree |- *.
  destruct (je_write env) eqn:E; rewrite ?Hfree;
    first [rewrite bool_decide_eq_true_2 by done|rewrite bool_decide_eq_false_2 by done];
    cbn; rewrite ?delete_id by done; done.
Qed.

(** What an attempt says of a computation of the step monad. *)
Definition ends {A} (R : option bytes -> res job_exn unit -> Prop) (job : row) (m : step_result A) : Prop :=
  R (w_files m.1 !! proof_path job) (_ ← m.2; Ok tt).

Lemma transition_ends job s now next w :
  table_ok (w_table w) -> job ∈ w_table w -> s ∈ ALLOWED_TRANSITIONS (state job) ->
  on_table w (transition job s now next (w_table w))
  = (World (replace_row job (set_transition s now next job) (w_table w)) (w_files w), Ok (set_transition s now next job)).
Proof. intros Ht Hj Hs. by rewrite transition_hit. Qed.

Lemma leave_queue_ends job now w b :
  table_ok (w_table w) -> job ∈ w_table w -> state job = QUEUED ->
  ends (fun after r => after = w_files w !! proof_path job /\ scheduled now job b r) job
    (leave_queue job (if b then UPGRADED_UNVERIFIED else SUBMITTED_PENDING) now w).
Proof.
  intros Ht Hj Hq. unfold leave_queue, _next_pending_attempt, ends.
  assert (Hs : forall b : bool, (if b then UPGRADED_UNVERIFIED else SUBMITTED_PENDING) ∈ ALLOWED_TRANSITIONS (state job))
    by (intros []; rewrite Hq; apply (bool_decide_unpack _); by vm_compute).
  destruct b; [change (is_state UPGRADED_UNVERIFIED SUBMITTED_PENDING) with false|rewrite is_state_refl].
  - cbv iota beta. rewrite transition_ends by (done || apply (Hs true)). split; [done|constructor].
  - destruct (add_us now _) as [t|] eqn:Et; cbn [fmap res_fmap].
    + rewrite transition_ends by (done || apply (Hs false)). split; [done|by eapply sch_next].
    + split; [done|by apply sch_overflow].
Qed.

Lemma keep_pending_ends job now w :
  table_ok (w_table w) -> job ∈ w_table w -> state job = SUBMITTED_PENDING ->
  ends (fun after r => after = w_files w !! proof_path job /\ scheduled now job false r) job (keep_pending job now w).
Proof.
  intros Ht Hj Hp. unfold keep_pending, _next_pending_attempt, ends.
  destruct (add_us now _) as [t|] eqn:Et; [|split; [done|by apply sch_overflow]].
  rewrite pending_checked_hit by done. split; [done|by eapply sch_next].
Qed.

Lemma upgrade_ends job now w :
  table_ok (w_table w) -> job ∈ w_table w -> state job = SUBMITTED_PENDING ->
  ends (fun after r => after = w_files w !! proof_path job /\ r = Ok tt) job
    (on_table w (transition job UPGRADED_UNVERIFIED (_utc_text now) None (w_table w))).
Proof.
  intros Ht Hj Hs. rewrite transition_ends; [done|done|done|].
  rewrite Hs. apply (bool_decide_unpack _). by vm_compute.
Qed.

Lemma ends_weaken {A} (R R' : option bytes -> res job_exn unit -> Prop) job (m : step_result A) :
  ends R job m -> (forall after r, R after r -> R' after r) -> ends R' job m.
Proof. unfold ends. auto. Qed.

Lemma target_state_Err proof digest e :
  _target_state proof digest = Err e -> inspect_proof proof digest = Err e.
Proof. intros [H1|(i & _ & [=])]%bind_Err. done. Qed.

Lemma inspected_bytes proof digest i :
  inspect_proof proof digest = Ok i -> exists b, proof = ProofBytes b /\ proof_bytes proof = Some b.
Proof. intros (b & Hb)%inspect_bytes. exists b. split; [by apply proof_bytes_Some|done]. Qed.

Lemma process_queued_ends env job now w :
  table_ok (w_table w) -> job ∈ w_table w -> state job = QUEUED -> w_files w !! je_temporary env = None ->
  ends (attempt env now job (w_files w !! proof_path job)) job (_process_queued env job now w).
Proof.
  intros Ht Hj Hq Hf. unfold _process_queued, tip_digest.
  destruct (bytes_fromhex (tip job)) as [digest|] eqn:Hd; [|apply at_bad_digest; [rewrite Hq; by left|done]]. cbn [then_step].
  destruct (w_files w !! proof_path job) as [f|] eqn:Hp.
  - unfold ends. destruct (je_read env) eqn:Hr.
    2:{ cbn. rewrite Hp. eapply at_unreadable; [rewrite Hq; by left|done|done]. }
    destruct (_target_state _ digest) as [s|e] eqn:Es.
    + apply target_state_Ok in Es as (i & Hi & ->).
      apply (ends_weaken _ _ _ _ (leave_queue_ends job now w (has_bitcoin_attestation i) Ht Hj Hq)).
      intros after r [-> Hs]. rewrite Hp. by eapply at_adopted.
    + apply target_state_Err in Es. cbn. rewrite Hp. eapply at_invalid; [rewrite Hq; by left|done..].
  - destruct (je_stamp env digest) as [p|e] eqn:Hs; unfold ends; [|cbn; rewrite Hp; by eapply at_stamp_failed].
    destruct (_target_state p digest) as [s|e] eqn:Es.
    2:{ apply target_state_Err in Es. cbn. rewrite Hp. by eapply at_stamp_invalid. }
    apply target_state_Ok in Es as (i & Hi & ->). destruct (inspected_bytes _ _ _ Hi) as (b & -> & Hb).
    rewrite (write_step_exact env _ _ b) by done. case_bool_decide as Hw.
    + apply (ends_weaken _ _ _ _ (leave_queue_ends job now
        (World (w_table w) (<[proof_path job := b]> (w_files w))) (has_bitcoin_attestation i) Ht Hj Hq)).
      intros after r [-> Hsch]. cbn [w_files]. rewrite lookup_insert_eq. by eapply at_stamped.
    + cbn. rewrite Hp. by eapply at_stamp_unwritten.
Qed.

Lemma process_pending_ends env job now w :
  table_ok (w_table w) -> job ∈ w_table w -> state job = SUBMITTED_PENDING -> w_files w !! je_temporary env = None ->
  ends (attempt env now job (w_files w !! proof_path job)) job (_process_pending env job now w).
Proof.
  intros Ht Hj Hq Hf. unfold _process_pending, tip_digest.
  assert (Hact : state job ∈ [QUEUED; SUBMITTED_PENDING]) by (rewrite Hq; right; by left).
  destruct (bytes_fromhex (tip job)) as [digest|] eqn:Hd; [|by apply at_bad_digest]. cbn [then_step].
  destruct (w_files w !! proof_path job) as [f|] eqn:Hp; unfold ends.
  2:{ cbn. rewrite Hp. by eapply at_missing. }
  destruct (je_read env) eqn:Hr; [|cbn; rewrite Hp; by eapply at_unreadable].
  destruct (inspect_proof _ digest) as [i|e] eqn:Hi; [|cbn; rewrite Hp; by eapply at_invalid].
  destruct (has_bitcoin_attestation i) eqn:Hb.
  { apply (ends_weaken _ _ _ _ (upgrade_ends job now w Ht Hj Hq)). intros after r [-> ->]. rewrite Hp. by eapply at_confirmed. }
  destruct (je_upgrade env _ digest) as [[p|]|e] eqn:Hu.
  - destruct (_target_state p digest) as [s|e] eqn:Es.
    2:{ apply target_state_Err in Es. cbn. rewrite Hp. eapply at_asked; [done..|]. rewrite Hu. by apply up_invalid. }
    apply target_state_Ok in Es as (i' & Hi' & ->). destruct (inspected_bytes _ _ _ Hi') as (b & -> & Hpb).
    rewrite (write_step_exact env _ _ b) by done. case_bool_decide as Hw.
    2:{ cbn. rewrite Hp. eapply at_asked; [done..|]. rewrite Hu. by eapply up_unwritten. }
    cbn [then_step]. set (w' := World (w_table w) (<[proof_path job := b]> (w_files w))).
    assert (Hall : forall r, scheduled now job (has_bitcoin_attestation i') r ->
      attempt env now job (Some f) (w_files w' !! proof_path job) r).
    { intros r Hs. unfold w'. cbn [w_files]. rewrite lookup_insert_eq. eapply at_asked; [done..|]. rewrite Hu.
      by eapply up_written. }
    destruct (has_bitcoin_attestation i').
    + rewrite is_state_refl. apply (ends_weaken _ _ _ _ (upgrade_ends job now w' Ht Hj Hq)). intros after r [-> ->].
      apply Hall. constructor.
    + change (is_state SUBMITTED_PENDING UPGRADED_UNVERIFIED) with false.
      apply (ends_weaken _ _ _ _ (keep_pending_ends job now w' Ht Hj Hq)). intros after r [-> Hs]. by apply Hall.
  - apply (ends_weaken _ _ _ _ (keep_pending_ends job now w Ht Hj Hq)). intros after r [-> Hs].
    rewrite Hp. eapply at_asked; [done..|]. rewrite Hu. by apply up_none.
  - cbn. rewrite Hp. eapply at_asked; [done..|]. rewrite Hu. apply up_failed.
Qed.

Lemma process_by_state_ends env job now w :
  table_ok (w_table w) -> job ∈ w_table w -> state job ∈ RETRY_SOURCES -> w_files w !! je_temporary env = None ->
  attempt env now job (w_files w !! proof_path job) (w_files (process_by_state env job now w).1 !! proof_path job)
    (process_by_state env job now w).2.
Proof.
  intros Ht Hj Hs Hf. unfold process_by_state.
  assert (Hthen : forall m : step_result row, ends (attempt env now job (w_files w !! proof_path job)) job m ->
    let m' := then_step m (fun w _ => (w, Ok tt)) in
    attempt env now job (w_files w !! proof_path job) (w_files m'.1 !! proof_path job) m'.2)
    by (intros [w' [r|e]]; done).
  destruct (is_state (state job) QUEUED) eqn:E1; [apply is_state_true in E1; by apply Hthen, process_queued_ends|].
  destruct (is_state (state job) SUBMITTED_PENDING) eqn:E2; [apply is_state_true in E2; by apply Hthen, process_pending_ends|].
  apply at_idle. unfold RETRY_SOURCES in Hs. rewrite !elem_of_cons, elem_of_nil in Hs.
  destruct_or! Hs; try done; by rewrite Hs, is_state_refl in *.
Qed.
End spec.
