(* ===== verification/RunFacts.v ===== *)
(** One run of the worker: the loop over the due jobs, and the invariant that
    ties the table to the proof files. *)

From Stdlib Require Import Sorted.
From stdpp Require Import gmap.
From S2P Require Import Prelude.
From S2P Require Import PyText.
From S2P Require Import PyValue.
From S2P Require Import Calendar.
From S2P Require Import ChainStore.
From S2P Require Import ChainSpec.
From S2P Require Import LoggerFacts.
From S2P Require Import Sha256.
From S2P Require Import Anchor.
From S2P Require Import AnchorStore.
From S2P Require Import AnchorStoreFacts.
From S2P Require Import AnchorWorker.
From S2P Require Import BackoffFacts.
From S2P Require Import WorkerFacts.
From S2P Require Import JobSpec.

(** ** Proof paths *)

(** The proof path of a row is the one [run_once] gives to its tip. *)
Definition path_ok (r : row) : Prop :=
  exists directory, proof_path r = proof_file directory (sequence_no r) (tip r) /\
    0 <= sequence_no r /\ is_lower_hex_n 64 (tip r) = true.

Lemma split_at (c : Z) (a b x y : pystr) :
  c ∉ b -> c ∉ y -> a ++ c :: b = x ++ c :: y -> a = x /\ b = y.
Proof.
  revert x. induction a as [|d a IH]; intros [|e x] Hb Hy H; simplify_eq/=.
  - done.
  - exfalso. apply Hb. apply elem_of_app. right. by left.
  - exfalso. apply Hy. apply elem_of_app. right. by left.
  - by destruct (IH x) as [-> ->].
Qed.

Lemma hex_without c s : is_lower_hex c = false -> is_lower_hex_n 64 s = true -> c ∉ s.
Proof.
  unfold is_lower_hex_n. intros Hc [_ H]%andb_true_iff Hin. rewrite forallb_forall in H.
  rewrite H in Hc; [done|]. by apply list_elem_of_In.
Qed.

Lemma dec_without c n : is_digit c = false -> 0 <= n -> c ∉ dec n.
Proof.
  intros Hc Hn Hin. unfold dec in Hin. rewrite (proj2 (Z.ltb_ge n 0)) in Hin by done.
  pose proof (dec_nat_digits n Hn) as H. rewrite Forall_forall in H. by rewrite H in Hc.
Qed.

Lemma dec_inj n m : 0 <= n -> 0 <= m -> dec n = dec m -> n = m.
Proof.
  intros Hn Hm H. unfold dec in H. rewrite (proj2 (Z.ltb_ge n 0)), (proj2 (Z.ltb_ge m 0)) in H by done.
  rewrite <- (dec_nat_value n Hn), <- (dec_nat_value m Hm). by rewrite H.
Qed.

(** The file name determines the tip, whatever the directories. *)
Lemma proof_file_inj d d' s s' t t' :
  0 <= s -> 0 <= s' -> is_lower_hex_n 64 t = true -> is_lower_hex_n 64 t' = true ->
  proof_file d s t = proof_file d' s' t' -> s = s' /\ t = t'.
Proof.
  intros Hs Hs' Ht Ht' H. unfold proof_file in H.
  change (u "/") with [47] in H. change (u "-") with [45] in H. cbn [app] in H.
  assert (Hslash : forall s t, 0 <= s -> is_lower_hex_n 64 t = true -> 47 ∉ dec s ++ 45 :: t ++ u ".ots").
  { intros s0 t0 H0 H1 [Hin|[?|[Hin|Hin]%elem_of_app]%elem_of_cons]%elem_of_app; [|done|..].
    - by apply (dec_without 47) in Hin.
    - by apply (hex_without 47) in Hin.
    - revert Hin. by apply (bool_decide_unpack _). }
  assert (H2 : d = d' /\ dec s ++ 45 :: t ++ u ".ots" = dec s' ++ 45 :: t' ++ u ".ots")
    by (apply (split_at 47); auto).
  destruct H2 as [_ H2].
  assert (Hdash : forall t, is_lower_hex_n 64 t = true -> 45 ∉ t ++ u ".ots").
  { intros t0 H1 [Hin|Hin]%elem_of_app.
    - by apply (hex_without 45) in Hin.
    - revert Hin. by apply (bool_decide_unpack _). }
  apply (split_at 45) in H2 as [H2 H3]; auto. apply dec_inj in H2; try done. split; [done|].
  by apply app_inv_tail in H3.
Qed.

Lemma path_key r r' : path_ok r -> path_ok r' -> proof_path r = proof_path r' -> unique_key r = unique_key r'.
Proof.
  intros (d & -> & Hs & Ht) (d' & -> & Hs' & Ht') H.
  apply proof_file_inj in H as [E1 E2]; try done. unfold unique_key. congruence.
Qed.

(** Rows of a table with one proof path are one row. *)
Lemma path_row t r r' :
  table_ok t -> Forall path_ok t -> r ∈ t -> r' ∈ t -> proof_path r = proof_path r' -> r = r'.
Proof.
  intros [_ Hk _] Hp Hr Hr' E. rewrite Forall_forall in Hp.
  apply path_key in E; [|auto..]. pose proof (get_unique t r Hk Hr) as G1.
  pose proof (get_unique t r' Hk Hr') as G2. unfold unique_key in E.
  injection E as E1 E2. rewrite E1, E2 in G1. congruence.
Qed.

Lemma path_ok_identity r r' : identity r' = identity r -> path_ok r -> path_ok r'.
Proof. unfold identity, path_ok. intros [= _ -> -> -> _ _]. done. Qed.

(** The name [mkstemp] makes ends in [.tmp]; no proof path does. *)
Definition temporary_ok (tmp : pystr) : Prop := exists stem, tmp = stem ++ u ".tmp".

Lemma temporary_not_path tmp r : temporary_ok tmp -> path_ok r -> tmp <> proof_path r.
Proof.
  intros [stem ->] (d & -> & _) H. unfold proof_file in H.
  assert (E : stem ++ u ".tmp" = (d ++ u "/" ++ dec (sequence_no r) ++ u "-" ++ tip r) ++ u ".ots")
    by (rewrite H; by rewrite <- !app_assoc).
  by apply app_inj_2 in E as [_ E].
Qed.

(** ** The table and the proof files *)

(** The state a row has, or had when it failed. *)
Definition effective (r : row) : anchor_state :=
  if is_state (state r) RETRY_FAILED then default RETRY_FAILED (retry_from r) else state r.

Lemma effective_resumed r : row_ok r -> effective r = state (resumed r).
Proof.
  intros [_ _ Hf _]. unfold effective, resumed. destruct (is_state (state r) RETRY_FAILED) eqn:E; [|done].
  apply is_state_true, Hf in E as (s & -> & _). done.
Qed.

Lemma resumed_identity r : identity (resumed r) = identity r.
Proof. unfold resumed. destruct (is_state _ _); [by destruct (retry_from r)|done]. Qed.

Section run.
Context `{OpenTimestamps}.

(** A pending row has a proof file for its tip, an upgraded one a proof with a
    Bitcoin attestation, failures in between included. *)
Definition proof_ok (fs : files) (r : row) : Prop :=
  match effective r with
  | SUBMITTED_PENDING => exists bitcoin, proof_of fs r bitcoin
  | UPGRADED_UNVERIFIED => proof_of fs r true
  | _ => True
  end.

Record worker_inv (w : world) : Prop := WorkerInv {
  wi_table : table_ok (w_table w);
  wi_paths : Forall path_ok (w_table w);
  wi_proofs : Forall (proof_ok (w_files w)) (w_table w)
}.

(** A proof depends on the file at the path of the row only. *)
Lemma proof_of_files fs fs' r r' b :
  identity r' = identity r -> fs' !! proof_path r = fs !! proof_path r -> proof_of fs r b -> proof_of fs' r' b.
Proof.
  unfold identity. intros [= _ _ Ht Hp _ _] Hfs (digest & proof & i & Hd & Hf & Hi).
  exists digest, proof, i. rewrite Ht, Hp, Hfs. done.
Qed.

Lemma proof_ok_files fs fs' r r' :
  identity r' = identity r -> effective r' = effective r -> fs' !! proof_path r = fs !! proof_path r ->
  proof_ok fs r -> proof_ok fs' r'.
Proof.
  unfold proof_ok. intros Hid -> Hfs. destruct (effective r); try done.
  - intros [b Hb]. exists b. by eapply proof_of_files.
  - by apply proof_of_files.
Qed.

Lemma advanced_identity now job fs job' : advanced now job fs job' -> identity job' = identity job.
Proof. by destruct 1. Qed.

Lemma advanced_files now job fs fs' job' :
  fs' !! proof_path job = fs !! proof_path job -> advanced now job fs job' -> advanced now job fs' job'.
Proof.
  intros Hfs []; [apply adv_upgraded|apply adv_pending|apply adv_kept]; try done; by eapply proof_of_files.
Qed.

Lemma outcome_identity env now job fs raised ret job' :
  job_outcome env now job fs raised ret job' -> identity job' = identity job.
Proof.
  rewrite <- (resumed_identity job). intros []; try done. by eapply advanced_identity.
Qed.

Lemma outcome_files env now job fs fs' raised ret job' :
  fs' !! proof_path job = fs !! proof_path job -> job_outcome env now job fs raised ret job' ->
  job_outcome env now job fs' raised ret job'.
Proof.
  intros Hfs. assert (Hp : proof_path (resumed job) = proof_path job).
  { pose proof (resumed_identity job) as Hid. unfold identity in Hid. congruence. }
  intros []; try by econstructor; eauto. apply out_advanced. eapply advanced_files; [by rewrite Hp|done].
Qed.

(** A job that resumes in [UPGRADED_UNVERIFIED] has nothing to do. *)
Lemma process_job_idle env job now w :
  table_ok (w_table w) -> job ∈ w_table w -> state (resumed job) = UPGRADED_UNVERIFIED ->
  w_files (_process_job env job now w).1 = w_files w.
Proof.
  intros Ht Hj Hs. destruct (process_job_started env job now w Ht Hj) as (_ & _ & ->).
  unfold process_by_state. by rewrite Hs.
Qed.

Lemma proof_ok_outcome env now job fs raised ret job' :
  row_ok job -> (proof_ok fs (resumed job)) -> job_outcome env now job fs raised ret job' -> proof_ok fs job'.
Proof.
  intros Hrow Hp Ho. destruct (resumed_ok job Hrow) as (_ & _ & Hs).
  assert (Hfail : forall c e t nx, proof_ok fs (set_failure (resumed job) c e t nx (resumed job))).
  { intros c e t nx. apply (proof_ok_files fs fs (resumed job)); try done.
    unfold effective. cbn [state retry_from set_failure]. rewrite is_state_refl. cbn.
    destruct (is_state (state (resumed job)) RETRY_FAILED) eqn:E; [|done].
    apply is_state_true in E. by apply retry_source_live in Hs as [_ ?]. }
  destruct Ho as [job' Ha| | | | | |]; try done; try apply Hfail.
  destruct Ha as [Hs1 Hp1|t Hs1 Hp1 Ht1|t Hs1 Hp1 Ht1].
  - by apply (proof_of_files fs fs (resumed job)).
  - exists false. by apply (proof_of_files fs fs (resumed job)).
  - unfold proof_ok, effective. cbn [state set_pending]. rewrite Hs1.
    exists false. by apply (proof_of_files fs fs (resumed job)).
Qed.

Lemma replace_row_elem job job' (t : list row) r :
  r ∈ replace_row job job' t <-> (r = job' /\ exists x, x ∈ t /\ id x = id job) \/ (r ∈ t /\ id r <> id job).
Proof.
  unfold replace_row. rewrite list_elem_of_fmap. split.
  - intros (x & -> & Hx). destruct (Z.eqb_spec (id x) (id job)); [left|right]; eauto.
  - intros [(-> & x & Hx & E)|[Hr E]].
    + exists x. by rewrite E, Z.eqb_refl.
    + exists r. by rewrite (proj2 (Z.eqb_neq _ _) E).
Qed.

Lemma replace_row_ids job job' t : id job' = id job -> map id (replace_row job job' t) = map id t.
Proof.
  intros E. unfold replace_row. rewrite map_map. apply map_ext. intros r.
  destruct (Z.eqb_spec (id r) (id job)); congruence.
Qed.

(** The files a job leaves alone. *)
Lemma files_frame_other job fs fs' p : files_frame job fs fs' -> p <> proof_path job -> fs' !! p = fs !! p.
Proof. intros [->|[Hf _]] Hp; [done|auto]. Qed.

Lemma replace_table_ok job job' t :
  table_ok t -> job ∈ t -> identity job' = identity job -> row_ok job' -> table_ok (replace_row job job' t).
Proof.
  intros [Hi Hk Hrows] Hj Hid Hr. pose proof (identity_key _ _ Hid) as [E1 E2].
  constructor; [by rewrite replace_row_ids| |].
  - assert (map unique_key (replace_row job job' t) = map unique_key t) as ->; [|done].
    unfold replace_row. rewrite map_map. apply map_ext_in. intros r Hr'%list_elem_of_In.
    destruct (Z.eqb_spec (id r) (id job)) as [E|]; [|done].
    by rewrite (same_id_same_row t r job).
  - rewrite Forall_forall in *. intros r [[-> _]|[Hr' _]]%replace_row_elem; auto.
Qed.

Lemma outcome_row_ok env now job fs raised ret job' :
  row_ok job -> job_outcome env now job fs raised ret job' -> row_ok job'.
Proof.
  intros Hrow Ho. destruct (resumed_ok job Hrow) as (_ & Ha & Hs).
  pose proof (ro_attempts _ Hrow) as Hc.
  assert (Hres : row_ok (resumed job)).
  { unfold resumed in *. destruct (is_state (state job) RETRY_FAILED) eqn:E; [|done].
    destruct (retry_from job) as [s|]; [|done]. cbn in Hs. unfold RETRY_SOURCES in Hs.
    rewrite !elem_of_cons, elem_of_nil in Hs. destruct_or! Hs; try done; subst s; constructor; try done; try exact (ro_retry _ Hrow). }
  destruct Ho as [job' Had| | |r|e t| |]; try done.
  - destruct Had as [Hs1 _|t Hs1 _ _|t Hs1 _ _]; constructor; cbn; try done; try lia; rewrite Hs1; done.
  - constructor; cbn; [lia|done| |done|by intros s [= <-]]. intros _. exists (state (resumed job)). auto.
  - constructor; cbn; [lia|done| |done|by intros s [= <-]]. intros _. exists (state (resumed job)). eauto 6.
Qed.

(** A job was handled: its steps did what [attempt] allows to its file, and its
    row and the return of [_process_job] follow from what they raised. *)
Definition handled (env : job_env) (now : Z) (fs fs' : files) (job : row) (ret : res job_exn unit) (job' : row) : Prop :=
  exists raised, attempt env now (resumed job) (fs !! proof_path job) (fs' !! proof_path job) raised /\
    job_outcome env now job fs' raised ret job'.

Lemma handled_identity env now fs fs' job ret job' : handled env now fs fs' job ret job' -> identity job' = identity job.
Proof. intros (raised & _ & Ho). by eapply outcome_identity. Qed.

(** Only the file of the job matters. *)
Lemma handled_files env now fs1 fs1' fs2 fs2' job ret job' :
  fs2 !! proof_path job = fs1 !! proof_path job -> fs2' !! proof_path job = fs1' !! proof_path job ->
  handled env now fs1 fs1' job ret job' -> handled env now fs2 fs2' job ret job'.
Proof.
  intros E E' (raised & Ha & Ho). exists raised. rewrite E, E'. split; [done|by eapply outcome_files].
Qed.

Lemma process_job_inv env job now w :
  worker_inv w -> job ∈ w_table w -> instant_ok now -> w_files w !! je_temporary env = None ->
  worker_inv (_process_job env job now w).1 /\
  exists job', handled env now (w_files w) (w_files (_process_job env job now w).1) job
      (_process_job env job now w).2 job' /\
    w_table (_process_job env job now w).1 = replace_row job job' (w_table w) /\
    files_frame job (w_files w) (w_files (_process_job env job now w).1).
Proof.
  intros [Ht Hp Hpr] Hj Hnow Hf.
  destruct (process_job_spec env job now w Ht Hj Hnow Hf) as (Hfs & job' & Ho & Htab & Hfr). cbv zeta in *.
  pose proof (resumed_identity job) as Hrid.
  split; [|exists job'; split; [|done]; eexists; split; [|exact Ho]; rewrite Hfs].
  2:{ destruct (process_job_started env job now w Ht Hj) as (Ht1 & Hj1 & _).
      replace (proof_path job) with (proof_path (resumed job)) by (unfold identity in Hrid; congruence).
      change (w_files w) with (w_files (started job w)). apply process_by_state_ends; try done.
      apply resumed_ok. destruct Ht as [_ _ Hr]. rewrite Forall_forall in Hr. auto. }
  pose proof (outcome_identity _ _ _ _ _ _ _ Ho) as Hid.
  assert (Hrows : Forall row_ok (w_table w)) by apply Ht.
  rewrite Forall_forall in Hp, Hpr, Hrows.
  assert (Hres : proof_ok (w_files (_process_job env job now w).1) (resumed job)).
  { pose proof (Hpr job Hj) as Hpj. pose proof (Hrows job Hj) as Hrow. unfold proof_ok in Hpj |- *.
    assert (Heff : effective (resumed job) = effective job).
    { rewrite (effective_resumed job Hrow). pose proof (resumed_ok job Hrow) as (_ & _ & Hs).
      unfold effective. destruct (is_state (state (resumed job)) RETRY_FAILED) eqn:E; [|done].
      apply is_state_true in E. by apply retry_source_live in Hs as [_ ?]. }
    rewrite Heff. destruct (effective job) eqn:Eff; try done.
    - destruct Hfr as [Hsame|[_ [b Hb]]]; [|exists b; eapply proof_of_files; [|done|done]; apply resumed_identity].
      destruct Hpj as [b Hb]. exists b. eapply proof_of_files; [apply resumed_identity|by rewrite Hsame|done].
    - rewrite (effective_resumed job Hrow) in Eff. rewrite process_job_idle by done.
      eapply proof_of_files; [apply resumed_identity|done|done]. }
  constructor; rewrite Htab.
  - apply replace_table_ok; auto. eapply outcome_row_ok; eauto.
  - apply Forall_forall. intros r [[-> _]|[Hr _]]%replace_row_elem; [|auto].
    eapply path_ok_identity; eauto.
  - apply Forall_forall. intros r [[-> _]|[Hr Hne]]%replace_row_elem.
    + eapply proof_ok_outcome; eauto.
    + eapply (proof_ok_files _ _ r r); [done..| |by apply Hpr].
      eapply files_frame_other; [done|]. intros E. apply Hne.
      assert (r = job) as ->; [|done]. eapply path_row; eauto. by apply Forall_forall.
Qed.

(** ** The loop *)

(** The job whose exception escaped. *)
Definition stopped_job (stopped : option (row * job_exn)) : list row :=
  match stopped with Some (job, _) => [job] | None => [] end.

(** What the loop does to a row: the jobs in [finished] were handled, one after
    the other; [stopped] was handled and its exception escaped, if there is one;
    every other row is as it was. *)
Inductive processed (envs : Z -> job_env) (now : Z) (fs fs' : files) (finished : list row)
  (stopped : option (row * job_exn)) (r : row) : row -> Prop :=
| pr_finished r' :
    r ∈ finished -> handled (envs (id r)) now fs fs' r (Ok tt) r' -> processed envs now fs fs' finished stopped r r'
| pr_stopped e r' :
    stopped = Some (r, e) -> handled (envs (id r)) now fs fs' r (Err e) r' ->
    processed envs now fs fs' finished stopped r r'
| pr_untouched : id r ∉ map id (finished ++ stopped_job stopped) -> processed envs now fs fs' finished stopped r r.

(** The whole loop over [jobs], from one table and files to others: the jobs it
    reached are the first ones, all of them unless an exception escaped, and no
    other file changed. *)
Definition looped (envs : Z -> job_env) (now : Z) (jobs : list row) (w w' : world) (r : res job_exn unit) : Prop :=
  exists finished stopped rest,
    jobs = finished ++ stopped_job stopped ++ rest /\
    match stopped with Some (_, e) => r = Err e | None => r = Ok tt /\ rest = [] end /\
    Forall2 (processed envs now (w_files w) (w_files w') finished stopped) (w_table w) (w_table w') /\
    forall p, p ∉ map proof_path (finished ++ stopped_job stopped) -> w_files w' !! p = w_files w !! p.

Definition temporaries_ok (envs : Z -> job_env) (jobs : list row) (fs : files) : Prop :=
  Forall (fun j => temporary_ok (je_temporary (envs (id j))) /\ fs !! je_temporary (envs (id j)) = None) jobs.

Lemma path_ids w r job :
  worker_inv w -> r ∈ w_table w -> job ∈ w_table w -> id r <> id job -> proof_path r <> proof_path job.
Proof.
  intros [Ht Hp _] Hr Hj Hne E. apply Hne. by rewrite (path_row (w_table w) r job Ht Hp Hr Hj E).
Qed.

Lemma worker_row w r j : worker_inv w -> r ∈ w_table w -> j ∈ w_table w -> id r = id j -> r = j.
Proof. intros [[Hi _ _] _ _]. by apply same_id_same_row. Qed.

Lemma Forall2_map_in {A} (R : A -> A -> Prop) f l : (forall x, x ∈ l -> R x (f x)) -> Forall2 R l (map f l).
Proof.
  induction l as [|x l IH]; intros Hl; constructor; [apply Hl; by left|].
  apply IH. intros y Hy. apply Hl. by right.
Qed.

Lemma Forall2_map_l_in {A B C} (R : B -> C -> Prop) (S : A -> C -> Prop) (f : A -> B) l k :
  (forall x y, x ∈ l -> R (f x) y -> S x y) -> Forall2 R (map f l) k -> Forall2 S l k.
Proof.
  revert k. induction l as [|x l IH]; intros k Hl HR; inversion HR; subst; constructor.
  - apply Hl; [by left|done].
  - apply IH; [|done]. intros a c Ha. apply Hl. by right.
Qed.

(** The rows when the first job raises: the loop stops. *)
Lemma stopped_rows envs now job w fs fs' e job' :
  worker_inv w -> job ∈ w_table w -> handled (envs (id job)) now fs fs' job (Err e) job' ->
  Forall2 (processed envs now fs fs' [] (Some (job, e))) (w_table w) (replace_row job job' (w_table w)).
Proof.
  intros Hw Hj Ho. apply Forall2_map_in. intros r Hr.
  destruct (Z.eqb_spec (id r) (id job)) as [E|E].
  - rewrite (worker_row w r job Hw Hr Hj E). by eapply pr_stopped.
  - apply pr_untouched. cbn. by rewrite list_elem_of_singleton.
Qed.

(** The rows when the loop goes on after a job. *)
Lemma continued_rows envs now job finished stopped w fs fs1 fs2 job' t :
  worker_inv w -> job ∈ w_table w -> (forall j, j ∈ finished ++ stopped_job stopped -> j ∈ w_table w /\ id j <> id job) ->
  (forall p, p <> proof_path job -> fs1 !! p = fs !! p) -> fs2 !! proof_path job = fs1 !! proof_path job ->
  handled (envs (id job)) now fs fs1 job (Ok tt) job' ->
  Forall2 (processed envs now fs1 fs2 finished stopped) (replace_row job job' (w_table w)) t ->
  Forall2 (processed envs now fs fs2 (job :: finished) stopped) (w_table w) t.
Proof.
  intros Hw Hj Hin Hfr Hfs Ho. pose proof (identity_key _ _ (handled_identity _ _ _ _ _ _ _ Ho)) as [Hid _].
  assert (Hne : id job ∉ map id (finished ++ stopped_job stopped)).
  { intros (j & E & Hj')%list_elem_of_fmap. by apply (Hin j Hj'). }
  assert (Hfs1 : forall r, r ∈ finished ++ stopped_job stopped -> fs !! proof_path r = fs1 !! proof_path r).
  { intros r Hr. destruct (Hin r Hr) as [Hrt Hri]. rewrite Hfr; [done|]. intros E.
    by apply (path_ids w r job Hw Hrt Hj Hri). }
  apply Forall2_map_l_in. intros r r' Hr HR. destruct (Z.eqb_spec (id r) (id job)) as [E|E].
  - rewrite (worker_row w r job Hw Hr Hj E) in *. destruct HR as [r' Hf _|e r' -> _|_].
    + exfalso. apply Hne. rewrite <- Hid. apply (list_elem_of_fmap_2 id), elem_of_app. by left.
    + exfalso. apply Hne. rewrite <- Hid. apply (list_elem_of_fmap_2 id), elem_of_app. right. by left.
    + apply pr_finished; [by left|]. by eapply handled_files; [| |exact Ho].
  - destruct HR as [r' Hf Hh|e r' -> Hh|Hn].
    + apply pr_finished; [by right|]. eapply handled_files; [|done|exact Hh]. apply Hfs1, elem_of_app. by left.
    + eapply pr_stopped; [done|]. eapply handled_files; [|done|exact Hh]. apply Hfs1, elem_of_app. right. by left.
    + apply pr_untouched. cbn. by rewrite not_elem_of_cons.
Qed.

(** What the loop may rely on after a job. *)
Lemma after_job envs now job jobs w :
  worker_inv w -> id job ∉ map id jobs -> (forall j, j ∈ job :: jobs -> j ∈ w_table w) -> instant_ok now ->
  temporaries_ok envs (job :: jobs) (w_files w) ->
  let w1 := (_process_job (envs (id job)) job now w).1 in
  worker_inv w1 /\ (forall j, j ∈ jobs -> j ∈ w_table w1) /\ temporaries_ok envs jobs (w_files w1).
Proof.
  intros Hw Hni Hin Hnow [[Htj Hfj] Htmp]%Forall_cons. cbv zeta.
  assert (Hj : job ∈ w_table w) by (apply Hin; by left).
  destruct (process_job_inv (envs (id job)) job now w Hw Hj Hnow Hfj) as [Hw1 (job' & _ & Htab & Hfr)].
  split; [done|]. split.
  - intros r Hr. rewrite Htab. apply replace_row_elem. right. split; [apply Hin; by right|]. intros E. apply Hni.
    rewrite <- E. by apply (list_elem_of_fmap_2 id).
  - apply Forall_forall. intros r Hr. rewrite Forall_forall in Htmp. destruct (Htmp r Hr) as [Ht1 Ht2]. split; [done|].
    rewrite (files_frame_other _ _ _ _ Hfr); [done|]. apply temporary_not_path; [done|].
    pose proof (wi_paths _ Hw) as Hp. rewrite Forall_forall in Hp. auto.
Qed.

Lemma process_jobs_spec envs now jobs w :
  worker_inv w -> NoDup (map id jobs) -> (forall j, j ∈ jobs -> j ∈ w_table w) -> instant_ok now ->
  temporaries_ok envs jobs (w_files w) ->
  let out := process_jobs envs now jobs w in
  worker_inv out.1 /\ looped envs now jobs w out.1 out.2.
Proof.
  revert w. induction jobs as [|job jobs IH]; intros w Hw Hnd Hin Hnow Htmp; cbn [process_jobs].
  { split; [done|]. exists [], None, []. do 2 (split; [done|]). split; [|done].
    apply Forall2_same_length_lookup_2; [done|]. intros i r r' Hr Hr'. cbn [fst] in Hr'.
    assert (r' = r) as -> by congruence. apply pr_untouched, not_elem_of_nil. }
  cbn [map] in Hnd. apply NoDup_cons in Hnd as [Hni Hnd].
  pose proof (after_job envs now job jobs w Hw Hni Hin Hnow Htmp) as Hafter. cbv zeta in Hafter.
  apply Forall_cons in Htmp as [[Htj Hfj] Htmp].
  assert (Hj : job ∈ w_table w) by (apply Hin; by left).
  destruct (process_job_inv (envs (id job)) job now w Hw Hj Hnow Hfj) as [Hw1 (job' & Ho & Htab & Hfr)].
  destruct (_process_job (envs (id job)) job now w) as [w1 r1]. cbn [fst snd] in *.
  destruct r1 as [[]|e]; cbn [then_step].
  2:{ split; [done|]. exists [], (Some (job, e)), jobs. do 2 (split; [done|]). cbn [fst app stopped_job].
      split; [rewrite Htab; by apply stopped_rows|].
      intros p Hp. eapply files_frame_other; [done|]. by apply list_elem_of_singleton in Hp || (intros ->; apply Hp; by left). }
  destruct Hafter as (_ & Hin1 & Htmp1).
  destruct (IH w1) as (Hw2 & finished & stopped & rest & -> & Hres & Hrows & Hfiles); try done.
  split; [done|]. exists (job :: finished), stopped, rest. do 2 (split; [done|]).
  assert (Hother : forall r, r ∈ finished ++ stopped_job stopped -> r ∈ w_table w /\ id r <> id job).
  { intros r Hr. assert (Hr' : r ∈ finished ++ stopped_job stopped ++ rest) by (rewrite app_assoc; apply elem_of_app; by left).
    split; [apply Hin; by right|]. intros E. apply Hni. rewrite <- E. by apply (list_elem_of_fmap_2 id). }
  split.
  - rewrite Htab in Hrows. eapply continued_rows; [done|done|exact Hother| | |exact Ho|exact Hrows].
    + intros p Hp. by eapply files_frame_other.
    + apply Hfiles. intros Hp. apply list_elem_of_fmap in Hp as (r & E & Hr). destruct (Hother r Hr) as [Hrt Hne].
      by apply (path_ids w r job Hw Hrt Hj Hne).
  - intros p Hp. cbn in Hp. apply not_elem_of_cons in Hp as [Hp1 Hp2]. rewrite Hfiles by done. by eapply files_frame_other.
Qed.

(** ** The due jobs *)

Lemma insert_row_perm r l : insert_row r l ≡ₚ r :: l.
Proof.
  induction l as [|x l IH]; [done|]. cbn. destruct (_ <=? _); [done|]. rewrite IH. by constructor.
Qed.

Lemma due_jobs_perm now t : due_jobs now t ≡ₚ List.filter (is_due now) t.
Proof.
  unfold due_jobs. induction (List.filter (is_due now) t) as [|r l IH]; [done|].
  cbn. by rewrite insert_row_perm, IH.
Qed.

Lemma due_jobs_in now t r : r ∈ due_jobs now t <-> r ∈ t /\ is_due now r = true.
Proof. rewrite due_jobs_perm. apply elem_of_lfilter. Qed.

Lemma filter_ids (p : row -> bool) t : NoDup (map id t) -> NoDup (map id (List.filter p t)).
Proof.
  induction t as [|r t IH]; [done|]. cbn. intros [Hni Hnd]%NoDup_cons. destruct (p r); [|auto].
  cbn. apply NoDup_cons. split; [|auto]. intros (x & E & [Hx _]%elem_of_lfilter)%list_elem_of_fmap.
  apply Hni. rewrite E. by apply (list_elem_of_fmap_2 id).
Qed.

Lemma due_jobs_ids now t : NoDup (map id t) -> NoDup (map id (due_jobs now t)).
Proof.
  intros Hi. rewrite (Permutation_map id (due_jobs_perm now t)). by apply filter_ids.
Qed.

Lemma insert_row_sorted r l :
  StronglySorted (fun a b => sequence_no a <= sequence_no b) l ->
  StronglySorted (fun a b => sequence_no a <= sequence_no b) (insert_row r l).
Proof.
  induction 1 as [|x l Hs IH Hx]; cbn; [by repeat constructor|].
  destruct (Z.leb_spec (sequence_no r) (sequence_no x)) as [Hle|Hgt].
  - constructor; [by constructor|]. constructor; [done|]. eapply Forall_impl; [exact Hx|]. intros y Hy. cbn in *. lia.
  - constructor; [done|]. rewrite insert_row_perm. constructor; [lia|done].
Qed.

Lemma due_jobs_sorted now t : StronglySorted (fun a b => sequence_no a <= sequence_no b) (due_jobs now t).
Proof. unfold due_jobs. induction (List.filter _ t); cbn; [constructor|by apply insert_row_sorted]. Qed.

(** ** One run *)

Lemma locked_tip_Ok lock store sequence tip_hash :
  locked_tip lock store = Ok (sequence, tip_hash) ->
  exists v entries, chain_store v store entries /\ 0 <= sequence /\
    sequence + 1 = Z.of_nat (length entries) /\ tip_hash = tip_of entries /\
    is_lower_hex_n 64 tip_hash = true.
Proof.
  unfold locked_tip. destruct store as [content|]; [|done]. rewrite then_Ok. intros [_ H1].
  apply bind_Ok in H1 as ([n h] & H1 & H2). apply map_err_Ok, chain_tip_Ok in H1 as (v & entries & Hc & _ & -> & ->).
  rewrite then_Ok in H2. destruct H2 as [Hn [= <- <-]]. apply ensure_Ok in Hn. zbool.
  exists v, entries. split; [done|]. split; [lia|]. split; [lia|]. split; [done|].
  apply tip_of_hex.
Qed.

Lemma track_tip_inv sequence tip_hash directory interval threshold w :
  worker_inv w -> 0 <= sequence -> is_lower_hex_n 64 tip_hash = true ->
  worker_inv (World (track_tip sequence tip_hash (proof_file directory sequence tip_hash)
                       interval threshold (w_table w)).1 (w_files w)).
Proof.
  intros [Ht Hp Hf] Hs Hh. constructor; cbn [w_table w_files]; [by apply track_tip_ok|..];
    (destruct (track_tip_cases sequence tip_hash (proof_file directory sequence tip_hash) interval threshold (w_table w))
      as [(_ & _ & _ & ->)|[_ ->]]; [done|]); apply Forall_app_2; try done; constructor; try done.
  by exists directory.
Qed.

Lemma run_once_spec interval threshold directory lock store envs now w sequence tip_hash :
  worker_inv w -> instant_ok now -> locked_tip lock store = Ok (sequence, tip_hash) ->
  (forall i, temporary_ok (je_temporary (envs i)) /\ w_files w !! je_temporary (envs i) = None) ->
  let out := run_once interval threshold directory lock store envs now w in
  let t := (track_tip sequence tip_hash (proof_file directory sequence tip_hash) interval threshold (w_table w)).1 in
  let due := due_jobs (_utc_text now) t in
  worker_inv out.1 /\
  exists result, looped envs now due (World t (w_files w)) out.1 result /\
    out.2 = (_ ← result; Ok (Z.of_nat (length due))).
Proof.
  intros Hw Hnow Hl Htmp. cbv zeta. unfold run_once, snapshot_tip. rewrite Hl.
  destruct (locked_tip_Ok _ _ _ _ Hl) as (_ & _ & _ & Hs & _ & _ & Hh).
  pose proof (track_tip_inv sequence tip_hash directory interval threshold w Hw Hs Hh) as Hw1.
  destruct (track_tip _ _ _ _ _ _) as [t b]. cbn [fst] in *.
  destruct (process_jobs_spec envs now (due_jobs (_utc_text now) t) (World t (w_files w)))
    as (Hinv & Hloop); try done.
  - apply due_jobs_ids, Hw1.
  - intros j Hj%due_jobs_in. apply Hj.
  - apply Forall_forall. intros j _. apply Htmp.
  - destruct (process_jobs _ _ _ _) as [w2 [[]|e]]; cbn in *.
    + split; [done|]. exists (Ok tt). by split.
    + split; [done|]. exists (Err e). by split.
Qed.
End run.
