(* ===== verification/RunProgress.v ===== *)
(** Progress of the worker: a run leaves no job due, and returns unless the
    configuration is wrong. *)

From Stdlib Require Import Sorted.
From stdpp Require Import gmap.
From S2P Require Import Prelude.
From S2P Require Import PyText.
From S2P Require Import PyValue.
From S2P Require Import Calendar.
From S2P Require Import ChainStore.
From S2P Require Import Anchor.
From S2P Require Import AnchorStore.
From S2P Require Import AnchorStoreFacts.
From S2P Require Import AnchorWorker.
From S2P Require Import BackoffFacts.
From S2P Require Import WorkerFacts.
From S2P Require Import RunFacts.

(** ** Due times *)

Lemma due_by_time t now : instant_ok t -> instant_ok now -> due_by (Some (_utc_text t)) (_utc_text now) = (t <=? now).
Proof. apply utc_text_order. Qed.

Lemma add_us_Some t us t' : add_us t us = Some t' -> t' = t + us /\ instant_ok t'.
Proof.
  unfold add_us, instant_ok. destruct ((0 <=? t + us) && (t + us <? max_instant)) eqn:E; [|done].
  intros [= <-]. zbool. lia.
Qed.

Section progress.
Context `{OpenTimestamps}.

(** A job that was handled is not due at once. *)
Lemma outcome_not_due env now job fs raised job' :
  instant_ok now -> 0 < interval_minutes job ->
  job_outcome env now job fs raised (Ok tt) job' -> is_due (_utc_text now) job' = false.
Proof.
  intros Hnow Hint Ho.
  assert (Hi : interval_minutes (resumed job) = interval_minutes job).
  { pose proof (resumed_identity job) as Hid. unfold identity in Hid. congruence. }
  assert (Hlater : forall t, instant_ok t -> now < t -> due_by (Some (_utc_text t)) (_utc_text now) = false).
  { intros t Ht Hlt. rewrite due_by_time by done. by apply Z.leb_gt. }
  assert (Hnext : forall t, add_us now (minutes_us (interval_minutes (resumed job))) = Some t ->
    due_by (Some (_utc_text t)) (_utc_text now) = false).
  { intros t [-> Ht]%add_us_Some. apply Hlater; [done|]. rewrite Hi. unfold minutes_us, us_per_second. lia. }
  inversion Ho as [job1 Had| Hs | |r|e delay t _ _ _ Ht Hok| |]; subst; try done.
  - destruct Had as [Hs _|t Hs _ Ht|t Hs _ Ht]; unfold is_due; cbn [state next_attempt failure set_transition set_pending].
    + done.
    + rewrite Hnext by done. done.
    + rewrite Hs, Hnext by done. done.
  - unfold is_due. rewrite Hs. done.
  - unfold is_due. cbn [state next_attempt failure set_failure]. rewrite Hlater; [done..|].
    unfold us_per_second in *. lia.
Qed.

(** ** Exceptions that escape *)

Definition no_configuration_error (env : job_env) : Prop :=
  (forall digest, je_stamp env digest <> Err AnchorConfigurationError) /\
  (forall proof digest, je_upgrade env proof digest <> Err AnchorConfigurationError).

Lemma inspect_not_configuration proof digest : inspect_proof proof digest <> Err AnchorConfigurationError.
Proof.
  unfold inspect_proof, _validated_detached. destruct (proof_bytes proof); [|done].
  unfold ensure. destruct (Nat.eqb _ 32); [|done]. cbn.
  destruct (ots_deserialize l) as [[[] ts]|]; try done. cbn. by case_bool_decide.
Qed.

Lemma target_not_configuration proof digest : _target_state proof digest <> Err AnchorConfigurationError.
Proof.
  unfold _target_state. intros [Hi|(i & _ & [=])]%bind_Err. by apply inspect_not_configuration in Hi.
Qed.

Definition calm {A} (m : step_result A) : Prop := m.2 <> Err (StepError AnchorConfigurationError).

Lemma calm_table {A} w (r : list row * res lifecycle_exn A) : calm (on_table w r).
Proof. unfold calm, on_table. destruct r as [t [a|e]]; done. Qed.

Lemma calm_then {A B} (m : step_result A) (k : world -> A -> step_result B) :
  calm m -> (forall w a, calm (k w a)) -> calm (then_step m k).
Proof. unfold calm. destruct m as [w [a|e]]; cbn; [auto|]. intros He _ [= ->]. by apply He. Qed.

Lemma calm_raise {A} w e : e <> AnchorConfigurationError -> calm (raise_step (A := A) w e).
Proof. unfold calm, raise_step. cbn. congruence. Qed.

Lemma calm_write env path proof repl w : calm (write_step env path proof repl w).
Proof.
  unfold calm, write_step, write_proof_atomic. destruct (proof_bytes proof); [|done].
  destruct (je_write env); try done; by destruct (negb repl && _).
Qed.

Lemma calm_digest job w : calm (tip_digest job w).
Proof. unfold tip_digest. by destruct (bytes_fromhex _). Qed.

Lemma calm_next job now w : calm (keep_pending job now w).
Proof.
  unfold keep_pending, _next_pending_attempt. destruct (add_us _ _); [apply calm_table|done].
Qed.

Lemma calm_leave job s now w : calm (leave_queue job s now w).
Proof.
  unfold leave_queue, _next_pending_attempt.
  destruct (is_state _ _); [destruct (add_us _ _)|]; cbn; try apply calm_table. done.
Qed.

Create HintDb calm discriminated.
#[local] Hint Resolve calm_table calm_then calm_raise calm_write calm_digest calm_next calm_leave : calm.

Lemma process_queued_calm env job now w :
  no_configuration_error env -> calm (_process_queued env job now w).
Proof.
  intros [Hs _]. unfold _process_queued. apply calm_then; [auto with calm|]. intros w' digest.
  destruct (w_files w' !! proof_path job) as [proof|].
  - destruct (je_read env); [|by apply calm_raise].
    pose proof (target_not_configuration (ProofBytes proof) digest).
    destruct (_target_state _ _); [auto with calm|apply calm_raise; congruence].
  - specialize (Hs digest). destruct (je_stamp env digest) as [proof|e]; [|apply calm_raise; congruence].
    pose proof (target_not_configuration proof digest).
    destruct (_target_state _ _); [|apply calm_raise; congruence].
    apply calm_then; auto with calm.
Qed.

Lemma process_pending_calm env job now w :
  no_configuration_error env -> calm (_process_pending env job now w).
Proof.
  intros [_ Hu]. unfold _process_pending. apply calm_then; [auto with calm|]. intros w' digest.
  destruct (w_files w' !! proof_path job) as [current|]; [|by apply calm_raise].
  destruct (je_read env); [|by apply calm_raise].
  pose proof (inspect_not_configuration (ProofBytes current) digest).
  destruct (inspect_proof _ _) as [i|e]; [|apply calm_raise; congruence].
  destruct (has_bitcoin_attestation i); [apply calm_table|].
  specialize (Hu (ProofBytes current) digest).
  destruct (je_upgrade env _ digest) as [[upgraded|]|e]; [|auto with calm|apply calm_raise; congruence].
  pose proof (target_not_configuration upgraded digest).
  destruct (_target_state _ _) as [s|e]; [|apply calm_raise; congruence].
  apply calm_then; [auto with calm|]. intros w2 _. destruct (is_state s _); auto with calm.
Qed.

Lemma process_by_state_calm env job now w :
  no_configuration_error env -> calm (process_by_state env job now w).
Proof.
  intros Henv. unfold process_by_state.
  destruct (is_state _ QUEUED); [apply calm_then; [by apply process_queued_calm|done]|].
  destruct (is_state _ SUBMITTED_PENDING); [apply calm_then; [by apply process_pending_calm|done]|done].
Qed.

(** ** The loop returns *)

Definition calm_env (env : job_env) : Prop :=
  no_configuration_error env /\ float_zero_one (je_jitter env) = true.

Lemma process_job_returns env job now w :
  worker_inv w -> job ∈ w_table w -> instant_ok now -> instant_ok (now + 108000 * us_per_second) ->
  w_files w !! je_temporary env = None -> calm_env env -> attempt_count job <= 1014 ->
  (_process_job env job now w).2 = Ok tt.
Proof.
  intros Hw Hj Hnow Hlast Hf [Hc Hjit] Ha.
  destruct (process_job_spec env job now w (wi_table _ Hw) Hj Hnow Hf) as (_ & job' & Ho & _).
  pose proof (process_by_state_calm env (resumed job) now (started job w) Hc) as Hcalm. unfold calm in Hcalm.
  remember (process_by_state _ _ _ _).2 as raised. remember (_process_job _ _ _ _).2 as ret.
  destruct Ho as [| | | | |e e' _ Hd|e delay _ _ _ Hcal]; try done.
  exfalso. assert (Hn : 1 <= attempt_count job + 1 <= 1015).
  { pose proof (to_rows _ (wi_table _ Hw)) as Hr. rewrite Forall_forall in Hr.
    pose proof (ro_attempts _ (Hr job Hj)). lia. }
  destruct (retry_delay_total _ _ Hn Hjit) as [f Hf']. congruence.
Qed.

Lemma process_jobs_returns envs now jobs w :
  worker_inv w -> NoDup (map id jobs) -> (forall j, j ∈ jobs -> j ∈ w_table w) ->
  instant_ok now -> instant_ok (now + 108000 * us_per_second) ->
  temporaries_ok envs jobs (w_files w) ->
  (forall j, j ∈ jobs -> calm_env (envs (id j)) /\ attempt_count j <= 1014) ->
  (process_jobs envs now jobs w).2 = Ok tt.
Proof.
  revert w. induction jobs as [|job jobs IH]; intros w Hw Hnd Hin Hnow Hlast Htmp Hcalm; [done|].
  cbn [map] in Hnd. apply NoDup_cons in Hnd as [Hni Hnd].
  pose proof (after_job envs now job jobs w Hw Hni Hin Hnow Htmp) as Hafter. cbv zeta in Hafter.
  apply Forall_cons in Htmp as [[Htj Hfj] _].
  assert (Hj : job ∈ w_table w) by (apply Hin; by left). cbn [process_jobs].
  destruct (Hcalm job ltac:(by left)) as [Hc Ha].
  pose proof (process_job_returns _ job now w Hw Hj Hnow Hlast Hfj Hc Ha) as Hret.
  destruct (_process_job _ _ _ _) as [w1 r1]. cbn [fst snd] in *. rewrite Hret. cbn [then_step].
  destruct Hafter as (Hw1 & Hin1 & Htmp1). apply IH; try done. intros r Hr. apply Hcalm. by right.
Qed.

(** ** What is due after the loop *)

(** A loop that returned handled every job. *)
Lemma looped_handled envs now jobs w w' r :
  looped envs now jobs w w' (Ok tt) -> r ∈ jobs -> r ∈ w_table w ->
  exists r', r' ∈ w_table w' /\ handled (envs (id r)) now (w_files w) (w_files w') r (Ok tt) r'.
Proof.
  intros (finished & stopped & rest & Hjobs & Hres & HR & _) Hr Hrt.
  destruct stopped as [[j e]|]; [done|]. destruct Hres as [_ ->]. cbn in Hjobs. rewrite app_nil_r in Hjobs. subst jobs.
  apply list_elem_of_lookup in Hrt as [i Hi]. destruct (Forall2_lookup_l _ _ _ _ _ HR Hi) as (r' & Hr' & HP).
  exists r'. split; [by eapply list_elem_of_lookup_2|]. destruct HP as [r' _ Hh|e r' [=] _|Hn]; [done|].
  exfalso. apply Hn, (list_elem_of_fmap_2 id), elem_of_app. by left.
Qed.

Lemma looped_not_due envs now w w' :
  instant_ok now -> Forall (fun r => 0 < interval_minutes r) (w_table w) ->
  looped envs now (due_jobs (_utc_text now) (w_table w)) w w' (Ok tt) ->
  due_jobs (_utc_text now) (w_table w') = [].
Proof.
  intros Hnow Hint (finished & stopped & rest & Hjobs & Hres & HR & _).
  destruct stopped as [[j e]|]; [done|]. destruct Hres as [_ ->]. cbn in Hjobs. rewrite app_nil_r in Hjobs.
  assert (Hnone : forall r', r' ∈ w_table w' -> is_due (_utc_text now) r' = false).
  { intros r' Hr'. apply list_elem_of_lookup in Hr' as [i Hi].
    destruct (Forall2_lookup_r _ _ _ _ _ HR Hi) as (r & Hr & HP).
    apply list_elem_of_lookup_2 in Hr. rewrite Forall_forall in Hint.
    destruct HP as [r' _ (raised & _ & Ho)|e r' [=] _|Hni].
    - eapply outcome_not_due; eauto.
    - apply not_true_iff_false. intros Hd. apply Hni. rewrite app_nil_r, <- Hjobs.
      by apply (list_elem_of_fmap_2 id), due_jobs_in. }
  unfold due_jobs. rewrite filter_none; [done|auto].
Qed.

(** A run whose calendars and file system keep to [calm_env] returns. *)
Lemma run_once_returns interval threshold directory lock store envs now w sequence tip_hash :
  worker_inv w -> instant_ok now -> instant_ok (now + 108000 * us_per_second) ->
  locked_tip lock store = Ok (sequence, tip_hash) ->
  (forall i, temporary_ok (je_temporary (envs i)) /\ w_files w !! je_temporary (envs i) = None) ->
  (forall i, calm_env (envs i)) -> Forall (fun r => attempt_count r <= 1014) (w_table w) ->
  let out := run_once interval threshold directory lock store envs now w in
  let t := (track_tip sequence tip_hash (proof_file directory sequence tip_hash) interval threshold (w_table w)).1 in
  let due := due_jobs (_utc_text now) t in
  out.2 = Ok (Z.of_nat (length due)) /\ looped envs now due (World t (w_files w)) out.1 (Ok tt).
Proof.
  intros Hw Hnow Hlast Hl Htmp Hcalm Hrows. cbv zeta. unfold run_once, snapshot_tip. rewrite Hl.
  destruct (locked_tip_Ok _ _ _ _ Hl) as (_ & _ & _ & Hs & _ & _ & Hh).
  pose proof (track_tip_inv sequence tip_hash directory interval threshold w Hw Hs Hh) as Hw1.
  assert (Hrows1 : Forall (fun r => attempt_count r <= 1014)
    (track_tip sequence tip_hash (proof_file directory sequence tip_hash) interval threshold (w_table w)).1).
  { destruct (track_tip_cases sequence tip_hash (proof_file directory sequence tip_hash) interval threshold (w_table w))
      as [(_ & _ & _ & ->)|[_ ->]]; [done|]. apply Forall_app_2; [done|]. by constructor. }
  destruct (track_tip _ _ _ _ _ _) as [t b]. cbn [fst] in *.
  set (due := due_jobs (_utc_text now) t).
  assert (Hnd : NoDup (map id due)) by apply due_jobs_ids, Hw1.
  assert (Hin : forall j, j ∈ due -> j ∈ w_table (World t (w_files w))) by (intros j Hj%due_jobs_in; apply Hj).
  assert (Htemps : temporaries_ok envs due (w_files (World t (w_files w))))
    by (apply Forall_forall; intros j _; apply Htmp).
  destruct (process_jobs_spec envs now due (World t (w_files w)) Hw1 Hnd Hin Hnow Htemps) as (_ & HR).
  assert (Hret : (process_jobs envs now due (World t (w_files w))).2 = Ok tt).
  { apply process_jobs_returns; try done. intros j Hj%Hin. split; [apply Hcalm|].
    rewrite Forall_forall in Hrows1. by apply Hrows1. }
  rewrite Hret in HR. destruct (process_jobs _ _ _ _) as [w2 r]. cbn [fst snd] in *. by subst r.
Qed.

(** A run leaves nothing due. *)
Lemma run_once_drained interval threshold directory lock store envs now w sequence tip_hash :
  worker_inv w -> instant_ok now -> instant_ok (now + 108000 * us_per_second) ->
  locked_tip lock store = Ok (sequence, tip_hash) ->
  (forall i, temporary_ok (je_temporary (envs i)) /\ w_files w !! je_temporary (envs i) = None) ->
  (forall i, calm_env (envs i)) ->
  Forall (fun r => attempt_count r <= 1014 /\ 0 < interval_minutes r) (w_table w) ->
  WorkerConfig_ok interval threshold = true ->
  let out := run_once interval threshold directory lock store envs now w in
  (exists n, out.2 = Ok n) /\ due_jobs (_utc_text now) (w_table out.1) = [].
Proof.
  intros Hw Hnow Hlast Hl Htmp Hcalm [Ha Hint]%Forall_and Hcfg. cbv zeta.
  destruct (run_once_returns interval threshold directory lock store envs now w sequence tip_hash) as [Hr Hloop]; try done.
  split; [by eexists|]. set (t := (track_tip _ _ _ _ _ _).1) in *.
  apply (looped_not_due envs now (World t (w_files w))); [done| |exact Hloop]. cbn [w_table]. unfold t.
  destruct (track_tip_cases sequence tip_hash (proof_file directory sequence tip_hash) interval threshold (w_table w))
    as [(_ & _ & _ & ->)|[_ ->]]; [done|]. apply Forall_app_2; [done|]. constructor; [|done].
  unfold WorkerConfig_ok in Hcfg. cbn. zbool. lia.
Qed.
End progress.
