(* ===== verification/AnchorFacts.v ===== *)
(** The backend and the proof writer: what a stamp commits to, that a stamped
    proof inspects, and that a proof file appears whole or not at all. *)

From stdpp Require Import gmap.
From S2P Require Import Prelude.
From S2P Require Import PyText.
From S2P Require Import PyValue.
From S2P Require Import Sha256.
From S2P Require Import RecordFormat.
From S2P Require Import ChainStore.
From S2P Require Import ChainSpec.
From S2P Require Import LoggerFacts.
From S2P Require Import CheckFacts.
From S2P Require Import Anchor.
From S2P Require Import AnchorStore.
From S2P Require Import AnchorStoreFacts.
From S2P Require Import AnchorWorker.
From S2P Require Import BackoffFacts.
From S2P Require Import WorkerFacts.

(** What the code relies on in the OpenTimestamps library: a proof file, which
    starts with a magic header, reads back as the timestamp it was written
    from, and attaching a nonce keeps the message. *)
Class OpenTimestampsLaws `(OpenTimestamps) : Prop := {
  ots_header : forall ts b, ots_serialize ts = Some b -> b <> [];
  ots_roundtrip : forall ts b, ots_serialize ts = Some b -> ots_deserialize b = Some (true, ts);
  ots_nonce_msg : forall digest nonce ts, ots_msg (ots_nonce digest nonce ts) = digest
}.

(** A library with one attestation per timestamp: the proof file is one octet
    for its kind, then the digest. *)
#[global] Instance toy_timestamps : OpenTimestamps := {
  Timestamp := (list Z * bool)%type;
  ots_msg := fst;
  ots_all_attestations ts := if ts.2 then [BitcoinBlockHeaderAttestation 800000] else [PendingAttestation []];
  ots_nonce digest _ sub := (digest, sub.2);
  ots_serialize ts := Some ((if ts.2 then 1 else 0) :: ts.1);
  ots_deserialize b := match b with
                       | c :: m => if (c =? 0) || (c =? 1) then Some (true, (m, c =? 1)) else None
                       | [] => None
                       end
}.

#[global] Instance toy_laws : OpenTimestampsLaws toy_timestamps.
Proof.
  constructor; cbn.
  - by intros ts b [= <-].
  - by intros [m []] b [= <-].
  - done.
Qed.

Section facts.
Context `{OpenTimestamps}.

Lemma inspect_proof_Ok proof digest i :
  inspect_proof proof digest = Ok i <->
  exists b ts, proof = ProofBytes b /\ b <> [] /\ length digest = 32%nat /\
    ots_deserialize b = Some (true, ts) /\ ots_msg ts = digest /\
    i = {| inspected_digest := digest; has_bitcoin_attestation := existsb is_bitcoin (ots_all_attestations ts) |}.
Proof.
  unfold inspect_proof, _validated_detached, proof_bytes. split.
  - intros H1. apply bind_Ok in H1 as (ts & H1 & [= <-]). destruct proof as [[|c b]|]; try done.
    rewrite then_Ok, ensure_Ok in H1. destruct H1 as [Hl%Nat.eqb_eq H1].
    destruct (ots_deserialize (c :: b)) as [[sha ts']|] eqn:Ed; [|done].
    rewrite !then_Ok, !ensure_Ok, bool_decide_eq_true in H1. destruct H1 as (-> & Hm & [= ->]).
    exists (c :: b), ts. subst digest. by repeat split.
  - intros (b & ts & -> & Hb & Hl & Hd & Hm & ->). destruct b as [|c b]; [done|].
    rewrite Hd, Hl. cbn. rewrite Hm, bool_decide_eq_true_2 by done. cbn. by rewrite Hm.
Qed.

(** The bytes a proof write leaves behind at the target in every state it goes
    through: the old ones or the whole proof. *)
Lemma write_proof_states (fail : write_failure) (tmp target : pystr) proof (repl : bool) (fs : files) trace r fs' :
  fs !! tmp = None -> tmp <> target -> write_proof_atomic fail tmp target proof repl fs = (trace, r) -> fs' ∈ trace ->
  (fs' !! target = fs !! target \/ exists b, proof_bytes proof = Some b /\ fs' !! target = Some b) /\
  (forall p, p <> target -> p <> tmp -> fs' !! p = fs !! p).
Proof.
  intros Hf Hne. unfold write_proof_atomic.
  assert (Hcase : forall b, proof_bytes proof = Some b -> forall c,
    fs' ∈ [fs; <[tmp := []]> fs; <[tmp := c]> fs; delete tmp fs; <[target := b]> (delete tmp fs)] ->
    (fs' !! target = fs !! target \/ exists b, proof_bytes proof = Some b /\ fs' !! target = Some b) /\
    (forall p, p <> target -> p <> tmp -> fs' !! p = fs !! p)).
  { intros b Hb c Hin. rewrite !elem_of_cons, elem_of_nil in Hin.
    destruct_or! Hin; try done; subst fs'; (split; [|intros p Hp1 Hp2; by simplify_map_eq]).
    - by left.
    - left. by simplify_map_eq.
    - left. by simplify_map_eq.
    - left. by simplify_map_eq.
    - right. exists b. by simplify_map_eq. }
  assert (Hsame : fs' ∈ [fs] -> (fs' !! target = fs !! target \/ exists b, proof_bytes proof = Some b /\ fs' !! target = Some b) /\
    (forall p, p <> target -> p <> tmp -> fs' !! p = fs !! p)).
  { intros ->%list_elem_of_singleton. split; [by left|done]. }
  destruct (proof_bytes proof) as [b|]; [|intros [= <- <-]; done].
  specialize (Hcase b eq_refl).
  destruct fail as [| | |n|]; try (destruct (negb repl && _)); intros [= <- <-] Hin; try by apply Hsame.
  - apply (Hcase b). rewrite !elem_of_cons in *. tauto.
  - apply (Hcase (take n b)). rewrite !elem_of_cons in *. tauto.
  - apply (Hcase b). rewrite !elem_of_cons in *. tauto.
Qed.
End facts.

(** The hash a chain ends with is that of its last signed record. *)
Lemma tip_digest_bytes entries r signed :
  bytes_fromhex (tip_of (entries ++ [(r, signed)])) = Some (sha256 signed).
Proof. rewrite tip_of_snoc. apply bytes_fromhex_hex, sha256_ok. Qed.

(** [locked_tip] returns for exactly the nonempty chains. *)
Lemma locked_tip_exact lock store sequence tip_hash :
  locked_tip lock store = Ok (sequence, tip_hash) <->
  lock = true /\ is_Some store /\ exists v entries r signed,
    chain_store v store (entries ++ [(r, signed)]) /\ sequence = Z.of_nat (length entries) /\
    tip_hash = sha256_hex signed.
Proof.
  unfold locked_tip. destruct store as [content|].
  2:{ split; [done|]. by intros (_ & [? ?] & _). }
  rewrite then_Ok, ensure_Ok, bind_Ok. split.
  - intros (-> & [n h] & H1 & H2). split; [done|]. split; [done|].
    apply map_err_Ok, chain_tip_Ok in H1 as (v & entries & Hc & _ & -> & ->).
    rewrite then_Ok, ensure_Ok in H2. destruct H2 as [Hn [= <- <-]].
    destruct entries as [|e entries _] using rev_ind; [by zbool|]. destruct e as [r signed].
    exists v, entries, r, signed. rewrite tip_of_snoc. split; [done|]. split; [|done]. len.
  - intros (-> & _ & v & entries & r & signed & Hc & -> & ->). split; [done|].
    exists (Z.of_nat (length (entries ++ [(r, signed)])), sha256_hex signed). split.
    + apply map_err_Ok, chain_tip_Ok. exists v, (entries ++ [(r, signed)]). split; [done|].
      split; [done|]. by rewrite tip_of_snoc.
    + rewrite then_Ok, ensure_Ok. split; [zbool; len|]. f_equal. f_equal. len.
Qed.
