(* ===== verification/ChainSharing.v ===== *)
(** Processes that share one chain store: [log_event] of [forensics/logger.py],
    [verify_chain] of [chain_check.py] and the tip reads of [anchor.py] and
    [anchor_worker.py], all under the sidecar file lock, one system call at a
    time.  The lock of a process that dies is released by the system. *)

From stdpp Require Import relations.
From S2P Require Import Prelude.
From S2P Require Import PyText.
From S2P Require Import PyValue.
From S2P Require Import RecordFormat.
From S2P Require Import ChainStore.
From S2P Require Import ChainLogger.
From S2P Require Import ChainCheck.
From S2P Require Import LoggerFacts.
From S2P Require Import Anchor.

(** ** Calls *)

Inductive job :=
| AppendJob (sign : bytes -> sign_result) (event : pyval)
| VerifyJob (is_key : bool) (verify : bytes -> bytes -> bool)
| TipJob.

Inductive outcome :=
| Appended (r : res logger_exn pydict)
| Verified (r : res verify_exn VerificationResult)
| Tipped (r : res anchor_exn (Z * pystr)).

(** The whole call at one instant, as the sequential model has it. *)
Definition perform (j : job) (env : environment) (store : file) : outcome * file :=
  match j with
  | AppendJob sign event => let '(r, store') := log_event sign env event store in (Appended r, store')
  | VerifyJob is_key verify => (Verified (verify_chain verify is_key (env_lock env) store), store)
  | TipJob => (Tipped (locked_tip (env_lock env) store), store)
  end.

Fixpoint sequential (calls : list (job * environment)) (store : file) : list outcome * file :=
  match calls with
  | [] => ([], store)
  | (j, env) :: calls =>
      let '(o, store) := perform j env store in
      let '(os, store) := sequential calls store in (o :: os, store)
  end.

(** ** The parts of a call *)

(** What a call decides before it asks for the lock: an event is validated, and
    a reader looks for the key and the file. *)
Definition before_lock (j : job) (store : file) : option outcome :=
  match j with
  | AppendJob _ event => match validate_event event with Ok _ => None | Err e => Some (Appended (Err (LogFormat e))) end
  | VerifyJob is_key _ =>
      if is_key then match store with Some _ => None | None => Some (Verified (Err VerifyFileNotFound)) end
      else Some (Verified (Err VerifyKeyType))
  | TipJob => match store with Some _ => None | None => Some (Tipped (Err (PlainError StoreMissing))) end
  end.

Definition timed_out (j : job) : outcome :=
  match j with
  | AppendJob _ _ => Appended (Err LogLockTimeout)
  | VerifyJob _ _ => Verified (Err VerifyLockTimeout)
  | TipJob => Tipped (Err (PlainError LockTimeout))
  end.

(** What a call makes of the octets it has read: a record with the line to
    append, or what it returns. *)
Definition after_read (j : job) (seen : file) : res outcome (pydict * bytes) :=
  match j with
  | AppendJob sign event =>
      match validate_event event with
      | Ok fields => map_err (fun e => Appended (Err e)) (prepare_record sign fields seen)
      | Err e => Err (Appended (Err (LogFormat e)))
      end
  | j => Err (perform j good_environment seen).1
  end.

(** ** Processes *)

(** [Reading acc]: the lock is held and [acc] has been read; [Opening] and
    [Writing]: the line is ready, [written] octets of it are in the file. *)
Inductive stage :=
| Calling
| Waiting
| Reading (acc : bytes)
| Opening (record : pydict) (line : bytes)
| Writing (record : pydict) (line : bytes) (written : nat)
| Returned (o : outcome)
| Dead.

Record process := Process { pr_job : job; pr_stage : stage }.

Definition holds (p : process) : bool :=
  match pr_stage p with Reading _ | Opening _ _ | Writing _ _ _ => true | _ => false end.

(** A finished call that took effect: the process, its job, what the system did
    to it, and its outcome. *)
Record entry := Entry { en_process : nat; en_job : job; en_env : environment; en_outcome : outcome }.

(** [sh_history]: oldest first. *)
Record shared := Shared {
  sh_store : file;
  sh_lock : option nat;
  sh_processes : list process;
  sh_history : list entry
}.

Definition set_stage (i : nat) (p : process) (st : stage) (s : shared) : shared :=
  Shared (sh_store s) (sh_lock s) (<[i := Process (pr_job p) st]> (sh_processes s)) (sh_history s).

(** A call returns, or dies, having taken effect; the lock is free again. *)
Definition commit (i : nat) (p : process) (env : environment) (o : outcome) (st : stage) (s : shared) : shared :=
  Shared (sh_store s) None (<[i := Process (pr_job p) st]> (sh_processes s))
    (sh_history s ++ [Entry i (pr_job p) env o]).

Definition append_env (o : append_outcome) : environment := Environment true true o.

Inductive sharing_step : shared -> shared -> Prop :=
(* before the lock *)
| share_early s i p o :
    sh_processes s !! i = Some p -> pr_stage p = Calling -> before_lock (pr_job p) (sh_store s) = Some o ->
    sharing_step s
      (Shared (sh_store s) (sh_lock s) (<[i := Process (pr_job p) (Returned o)]> (sh_processes s))
         (sh_history s ++ [Entry i (pr_job p) good_environment o]))
| share_mkdir s i p sign event :
    sh_processes s !! i = Some p -> pr_stage p = Calling -> pr_job p = AppendJob sign event ->
    before_lock (pr_job p) (sh_store s) = None ->
    sharing_step s (set_stage i p (Returned (Appended (Err LogMkdir))) s)
| share_ask s i p :
    sh_processes s !! i = Some p -> pr_stage p = Calling -> before_lock (pr_job p) (sh_store s) = None ->
    sharing_step s (set_stage i p Waiting s)
| share_timeout s i p :
    sh_processes s !! i = Some p -> pr_stage p = Waiting ->
    sharing_step s (set_stage i p (Returned (timed_out (pr_job p))) s)
| share_acquire s i p :
    sh_processes s !! i = Some p -> pr_stage p = Waiting -> sh_lock s = None ->
    sharing_step s
      (Shared (sh_store s) (Some i) (<[i := Process (pr_job p) (Reading [])]> (sh_processes s)) (sh_history s))
(* under the lock *)
| share_read s i p acc chunk rest :
    sh_processes s !! i = Some p -> pr_stage p = Reading acc ->
    drop (length acc) (default [] (sh_store s)) = chunk ++ rest -> chunk <> [] ->
    sharing_step s (set_stage i p (Reading (acc ++ chunk)) s)
| share_inspected s i p acc o :
    sh_processes s !! i = Some p -> pr_stage p = Reading acc ->
    drop (length acc) (default [] (sh_store s)) = [] ->
    after_read (pr_job p) (match sh_store s with None => None | Some _ => Some acc end) = Err o ->
    sharing_step s (commit i p good_environment o (Returned o) s)
| share_prepared s i p acc record line :
    sh_processes s !! i = Some p -> pr_stage p = Reading acc ->
    drop (length acc) (default [] (sh_store s)) = [] ->
    after_read (pr_job p) (match sh_store s with None => None | Some _ => Some acc end) = Ok (record, line) ->
    sharing_step s (set_stage i p (Opening record line) s)
| share_open_failed s i p record line :
    sh_processes s !! i = Some p -> pr_stage p = Opening record line ->
    sharing_step s
      (commit i p (append_env OpenFailed) (Appended (Err (AppendError AppendOSError)))
         (Returned (Appended (Err (AppendError AppendOSError)))) s)
| share_open s i p record line :
    sh_processes s !! i = Some p -> pr_stage p = Opening record line ->
    sharing_step s
      (Shared (Some (default [] (sh_store s))) (sh_lock s)
         (<[i := Process (pr_job p) (Writing record line 0)]> (sh_processes s)) (sh_history s))
| share_write s i p record line written n :
    sh_processes s !! i = Some p -> pr_stage p = Writing record line written -> (written + n <= length line)%nat ->
    sharing_step s
      (Shared (Some (default [] (sh_store s) ++ take n (drop written line))) (sh_lock s)
         (<[i := Process (pr_job p) (Writing record line (written + n))]> (sh_processes s)) (sh_history s))
| share_synced s i p record line :
    sh_processes s !! i = Some p -> pr_stage p = Writing record line (length line) ->
    sharing_step s
      (commit i p (append_env AppendComplete) (Appended (Ok record)) (Returned (Appended (Ok record))) s)
| share_write_failed s i p record line written :
    sh_processes s !! i = Some p -> pr_stage p = Writing record line written ->
    sharing_step s
      (commit i p (append_env (WriteFailed written)) (Appended (Err (AppendError AppendOSError)))
         (Returned (Appended (Err (AppendError AppendOSError)))) s)
(* a process dies *)
| share_die s i p :
    sh_processes s !! i = Some p -> (pr_stage p = Calling \/ pr_stage p = Waiting) ->
    sharing_step s (set_stage i p Dead s)
| share_die_holding s i p :
    sh_processes s !! i = Some p -> ((exists acc, pr_stage p = Reading acc) \/ exists r l, pr_stage p = Opening r l) ->
    sharing_step s
      (Shared (sh_store s) None (<[i := Process (pr_job p) Dead]> (sh_processes s)) (sh_history s))
| share_die_writing s i p record line written :
    sh_processes s !! i = Some p -> pr_stage p = Writing record line written ->
    sharing_step s
      (commit i p (append_env (WriteFailed written)) (Appended (Err (AppendError AppendOSError))) Dead s).

Definition sharing_start (store : file) (jobs : list job) : shared :=
  Shared store None (map (fun j => Process j Calling) jobs) [].

Definition sharing_reachable (store : file) (jobs : list job) (s : shared) : Prop :=
  rtc sharing_step (sharing_start store jobs) s.
