(* ===== verification/ChainSharingFacts.v ===== *)
(** The invariant of the processes that share a chain store. *)

From stdpp Require Import relations.
From S2P Require Import Prelude.
From S2P Require Import PyText.
From S2P Require Import PyValue.
From S2P Require Import RecordFormat.
From S2P Require Import ChainStore.
From S2P Require Import ChainLogger.
From S2P Require Import ChainCheck.
From S2P Require Import LoggerFacts.
From S2P Require Import Anchor.
From S2P Require Import ChainSharing.

(** ** Sequential runs *)

Lemma sequential_app calls calls' store :
  sequential (calls ++ calls') store =
  let '(os, store1) := sequential calls store in
  let '(os', store2) := sequential calls' store1 in (os ++ os', store2).
Proof.
  revert store. induction calls as [|[j env] calls IH]; intros store; cbn.
  - by destruct (sequential calls' store).
  - destruct (perform j env store) as [o st]. rewrite IH. destruct (sequential calls st) as [os st1].
    by destruct (sequential calls' st1).
Qed.

Definition en_call (e : entry) : job * environment := (en_job e, en_env e).

(** The history, run call by call from [store], gives its own outcomes and ends in [abs]. *)
Definition committed (store : file) (h : list entry) (abs : file) : Prop :=
  sequential (map en_call h) store = (map en_outcome h, abs).

Lemma committed_snoc store h abs e abs' :
  committed store h abs -> perform (en_job e) (en_env e) abs = (en_outcome e, abs') -> committed store (h ++ [e]) abs'.
Proof.
  unfold committed. intros H1 H2. rewrite !map_app, sequential_app, H1. cbn. by rewrite H2.
Qed.

(** ** The parts make the whole *)

Lemma perform_early j store abs o :
  before_lock j store = Some o -> (store = None -> abs = None) -> perform j good_environment abs = (o, abs).
Proof.
  intros Hb Hn. unfold before_lock in Hb. destruct j as [sign event|is_key verify|]; cbn.
  - unfold log_event. destruct (validate_event event); [done|]. by injection Hb as <-.
  - unfold verify_chain. destruct is_key; [|by injection Hb as <-]. destruct store; [done|].
    injection Hb as <-. by rewrite Hn.
  - unfold locked_tip. destruct store; [done|]. injection Hb as <-. by rewrite Hn.
Qed.

Lemma before_lock_mono j c c' : before_lock j c = None -> (c <> None -> c' <> None) -> before_lock j c' = None.
Proof.
  unfold before_lock. destruct j as [|[|]|]; try done; destruct c, c'; try done; intros _ H; by destruct H.
Qed.

Lemma perform_inspected j abs o : after_read j abs = Err o -> perform j good_environment abs = (o, abs).
Proof.
  destruct j as [sign event|is_key verify|]; cbn; [|by intros [= <-]..].
  unfold log_event. destruct (validate_event event) as [fields|e]; [|by intros [= <-]]. cbn.
  destruct (prepare_record sign fields abs) as [p|e]; cbn; [done|]. by intros [= <-].
Qed.

Lemma perform_append j abs record line ap :
  after_read j abs = Ok (record, line) ->
  perform j (append_env ap) abs =
  let '(store', done) := append_file abs line ap in
  (Appended (if done then Ok record else Err (AppendError AppendOSError)), store').
Proof.
  destruct j as [sign event|is_key verify|]; cbn; [|done..].
  unfold log_event. destruct (validate_event event) as [fields|e]; [|done]. cbn.
  destruct (prepare_record sign fields abs) as [[r l]|e]; cbn; [|done]. intros [= -> ->].
  by destruct ap.
Qed.

(** ** The invariant *)

(** What the holder of the lock has done to the file that was there. *)
Definition holding (p : process) (abs store : file) : Prop :=
  match pr_stage p with
  | Reading acc => store = abs /\ exists rest, default [] abs = acc ++ rest
  | Opening record line => store = abs /\ after_read (pr_job p) abs = Ok (record, line)
  | Writing record line written =>
      (written <= length line)%nat /\ store = Some (default [] abs ++ take written line) /\
      after_read (pr_job p) abs = Ok (record, line)
  | _ => False
  end.

(** Outcomes of calls that never got the lock, and have no effect. *)
Definition gave_up (j : job) (o : outcome) : Prop := o = timed_out j \/ o = Appended (Err LogMkdir).

Definition lock_ok (l : option nat) (procs : list process) (abs store : file) : Prop :=
  match l with
  | None => store = abs
  | Some i => exists p, procs !! i = Some p /\ holding p abs store
  end.

(** The processes and the history agree. *)
Definition process_ok (store : file) (h : list entry) (i : nat) (p : process) : Prop :=
  match pr_stage p with
  | Calling => i ∉ map en_process h
  | Returned o => (exists env, Entry i (pr_job p) env o ∈ h) \/ (gave_up (pr_job p) o /\ i ∉ map en_process h)
  | Dead => True
  | _ => before_lock (pr_job p) store = None /\ i ∉ map en_process h
  end.

Record sharing_inv (store0 : file) (jobs : list job) (s : shared) : Prop := SharingInv {
  si_abs : exists abs, committed store0 (sh_history s) abs /\
           lock_ok (sh_lock s) (sh_processes s) abs (sh_store s) /\ (sh_store s = None -> abs = None);
  si_exclusive : forall i p, sh_processes s !! i = Some p -> holds p = true -> sh_lock s = Some i;
  si_processes : forall i p, sh_processes s !! i = Some p -> process_ok (sh_store s) (sh_history s) i p;
  si_jobs : map pr_job (sh_processes s) = jobs;
  si_once : NoDup (map en_process (sh_history s));
  si_entries : Forall (fun e => jobs !! en_process e = Some (en_job e)) (sh_history s)
}.

Lemma holding_holds p abs store : holding p abs store -> holds p = true.
Proof. unfold holding, holds. by destruct (pr_stage p). Qed.

(** A process that neither holds the lock before nor after a step. *)
Lemma lock_ok_other l procs abs store i p p' :
  procs !! i = Some p -> holds p = false -> lock_ok l procs abs store -> lock_ok l (<[i := p']> procs) abs store.
Proof.
  intros Hi Hh. destruct l as [k|]; [|done]. intros (q & Hk & Hq). exists q. split; [|done].
  rewrite list_lookup_insert_ne; [done|]. intros ->. apply holding_holds in Hq. congruence.
Qed.

Lemma process_ok_mono store store' h e j q :
  process_ok store h j q -> (store <> None -> store' <> None) -> en_process e <> j ->
  process_ok store' h j q /\ process_ok store' (h ++ [e]) j q.
Proof.
  intros Hq Hs He.
  assert (Hn : j ∉ map en_process h -> j ∉ map en_process (h ++ [e])).
  { intros H. rewrite map_app, elem_of_app. intros [?|Hj]; [done|]. cbn in Hj. apply list_elem_of_singleton in Hj. congruence. }
  unfold process_ok in *. destruct (pr_stage q); try done;
    try (destruct Hq as [Hb Hj]; split; (split; [by eapply before_lock_mono|auto])); [by auto|].
  split; [done|]. destruct Hq as [[env Hin]|[Hg Hj]]; [left|right; auto].
  exists env. apply elem_of_app. by left.
Qed.

Lemma map_job_insert procs i p st :
  procs !! i = Some p -> map pr_job (<[i := Process (pr_job p) st]> procs) = map pr_job procs.
Proof.
  intros Hi. change (map pr_job) with (fmap (M:=list) pr_job). rewrite list_fmap_insert. cbn.
  apply list_insert_id. by rewrite list_lookup_fmap, Hi.
Qed.

Section steps.
Context (store0 : file) (jobs : list job).

(** A step of process [i] that leaves the history as it is. *)
Lemma inv_keep s i p st store' lock' abs :
  sharing_inv store0 jobs s -> sh_processes s !! i = Some p -> committed store0 (sh_history s) abs ->
  let q := Process (pr_job p) st in
  let procs := <[i := q]> (sh_processes s) in
  lock_ok lock' procs abs store' -> (store' = None -> abs = None) -> (sh_store s <> None -> store' <> None) ->
  (holds q = true -> lock' = Some i) ->
  (forall k r, k <> i -> sh_processes s !! k = Some r -> holds r = true -> lock' = Some k) ->
  process_ok store' (sh_history s) i q ->
  sharing_inv store0 jobs (Shared store' lock' procs (sh_history s)).
Proof.
  intros [_ _ Hp Hj Ho He] Hi Habs q procs Hl Hn Hs Hq Hoth Hok. constructor; cbn; try done.
  - by exists abs.
  - intros k r Hk Hh. destruct (decide (k = i)) as [->|Hne].
    + unfold procs in Hk. rewrite list_lookup_insert_eq in Hk by (by eapply lookup_lt_Some). injection Hk as <-. auto.
    + unfold procs in Hk. rewrite list_lookup_insert_ne in Hk by done. eauto.
  - intros k r Hk. destruct (decide (k = i)) as [->|Hne].
    + unfold procs in Hk. rewrite list_lookup_insert_eq in Hk by (by eapply lookup_lt_Some). by injection Hk as <-.
    + unfold procs in Hk. rewrite list_lookup_insert_ne in Hk by done.
      by eapply (process_ok_mono _ _ _ (Entry i (pr_job p) good_environment (Tipped (Ok (0, []))))); [by apply Hp| |cbn].
  - unfold procs, q. by rewrite map_job_insert.
Qed.

(** A step of process [i] that takes effect. *)
Lemma inv_commit s i p st env o lock' abs abs' :
  sharing_inv store0 jobs s -> sh_processes s !! i = Some p -> committed store0 (sh_history s) abs ->
  let q := Process (pr_job p) st in
  let procs := <[i := q]> (sh_processes s) in
  let h := sh_history s ++ [Entry i (pr_job p) env o] in
  perform (pr_job p) env abs = (o, abs') -> i ∉ map en_process (sh_history s) ->
  lock_ok lock' procs abs' (sh_store s) -> (sh_store s = None -> abs' = None) -> holds q = false ->
  (forall k r, k <> i -> sh_processes s !! k = Some r -> holds r = true -> lock' = Some k) ->
  (st = Returned o \/ st = Dead) ->
  sharing_inv store0 jobs (Shared (sh_store s) lock' procs h).
Proof.
  intros [_ _ Hp Hj Ho He] Hi Habs q procs h Hperf Hni Hl Hn Hq Hoth Hst. constructor; cbn; try done.
  - exists abs'. split; [|done]. by eapply committed_snoc.
  - intros k r Hk Hh. destruct (decide (k = i)) as [->|Hne].
    + unfold procs in Hk. rewrite list_lookup_insert_eq in Hk by (by eapply lookup_lt_Some). injection Hk as <-. congruence.
    + unfold procs in Hk. rewrite list_lookup_insert_ne in Hk by done. eauto.
  - intros k r Hk. destruct (decide (k = i)) as [->|Hne].
    + unfold procs in Hk. rewrite list_lookup_insert_eq in Hk by (by eapply lookup_lt_Some). injection Hk as <-.
      unfold process_ok. cbn. destruct Hst as [->| ->]; [|done]. left. exists env. unfold h. apply elem_of_app. right. by left.
    + unfold procs in Hk. rewrite list_lookup_insert_ne in Hk by done.
      eapply (process_ok_mono _ _ _ (Entry i (pr_job p) env o)); [by apply Hp|done|]. cbn. congruence.
  - unfold procs, q. by rewrite map_job_insert.
  - unfold h. rewrite map_app. apply NoDup_app. split; [done|]. split; [|apply NoDup_singleton].
    intros k Hk Hk'%list_elem_of_singleton. cbn in Hk'. congruence.
  - unfold h. apply Forall_app_2; [done|]. constructor; [|done]. cbn.
    rewrite <- Hj. change (map pr_job) with (fmap (M:=list) pr_job). by rewrite list_lookup_fmap, Hi.
Qed.

Lemma holds_lock s i p abs :
  sharing_inv store0 jobs s -> sh_processes s !! i = Some p -> holds p = true ->
  lock_ok (sh_lock s) (sh_processes s) abs (sh_store s) -> holding p abs (sh_store s) /\
  (forall k r, k <> i -> sh_processes s !! k = Some r -> holds r = false).
Proof.
  intros Hinv Hi Hh Hl. pose proof (si_exclusive _ _ _ Hinv) as Hex. rewrite (Hex _ _ Hi Hh) in Hl.
  destruct Hl as (q & Hq & Hhold). rewrite Hi in Hq. injection Hq as <-. split; [done|].
  intros k r Hne Hk. destruct (holds r) eqn:Er; [|done]. pose proof (Hex _ _ Hk Er). pose proof (Hex _ _ Hi Hh). congruence.
Qed.

(** Process [i] does not hold the lock, and only its stage changes. *)
Lemma inv_aside s i p st :
  sharing_inv store0 jobs s -> sh_processes s !! i = Some p -> holds p = false -> holds (Process (pr_job p) st) = false ->
  process_ok (sh_store s) (sh_history s) i (Process (pr_job p) st) ->
  sharing_inv store0 jobs (set_stage i p st s).
Proof.
  intros Hinv Hi Hp Hq Hok. destruct (si_abs _ _ _ Hinv) as (abs & Ha & Hl & Hn).
  eapply (inv_keep s i p st); try done.
  - by eapply lock_ok_other.
  - by rewrite Hq.
  - intros k r _. apply (si_exclusive _ _ _ Hinv).
Qed.

(** Process [i] holds the lock, keeps it, and works on. *)
Lemma inv_holder s i p st store' abs :
  sharing_inv store0 jobs s -> sh_processes s !! i = Some p -> holds p = true ->
  committed store0 (sh_history s) abs -> holding (Process (pr_job p) st) abs store' ->
  (store' = None -> abs = None) -> (sh_store s <> None -> store' <> None) ->
  before_lock (pr_job p) (sh_store s) = None -> i ∉ map en_process (sh_history s) ->
  sharing_inv store0 jobs (Shared store' (sh_lock s) (<[i := Process (pr_job p) st]> (sh_processes s)) (sh_history s)).
Proof.
  intros Hinv Hi Hp Ha Hhold Hn Hs Hb Hni. pose proof (si_exclusive _ _ _ Hinv i p Hi Hp) as Hlock.
  eapply (inv_keep s i p st); try done.
  - rewrite Hlock. exists (Process (pr_job p) st). split; [|done]. apply list_lookup_insert_eq. by eapply lookup_lt_Some.
  - intros k r _. apply (si_exclusive _ _ _ Hinv).
  - pose proof (before_lock_mono _ _ _ Hb Hs). unfold holding in Hhold. unfold process_ok. by destruct st.
Qed.

(** Process [i] holds the lock, takes effect and gives the lock back. *)
Lemma inv_release s i p st env o abs abs' :
  sharing_inv store0 jobs s -> sh_processes s !! i = Some p -> holds p = true ->
  committed store0 (sh_history s) abs -> lock_ok (sh_lock s) (sh_processes s) abs (sh_store s) ->
  perform (pr_job p) env abs = (o, abs') -> sh_store s = abs' -> (st = Returned o \/ st = Dead) ->
  sharing_inv store0 jobs (commit i p env o st s).
Proof.
  intros Hinv Hi Hp Ha Hl Hperf Hs Hst. destruct (holds_lock s i p abs Hinv Hi Hp Hl) as [_ Hoth].
  unfold commit. eapply (inv_commit s i p st env o None abs abs'); try done.
  - pose proof (si_processes _ _ _ Hinv i p Hi) as Hok. unfold process_ok in Hok. unfold holds in Hp.
    destruct (pr_stage p); try done; by destruct Hok.
  - by rewrite Hs.
  - by destruct Hst as [->| ->].
  - intros k r Hne Hk Hr. by rewrite (Hoth k r Hne Hk) in Hr.
Qed.

Lemma stage_waiting s i p :
  sharing_inv store0 jobs s -> sh_processes s !! i = Some p -> (pr_stage p = Waiting \/ holds p = true) ->
  before_lock (pr_job p) (sh_store s) = None /\ i ∉ map en_process (sh_history s).
Proof.
  intros Hinv Hi Hst. pose proof (si_processes _ _ _ Hinv i p Hi) as Hok. unfold process_ok, holds in *.
  destruct Hst as [H|H]; destruct (pr_stage p); try done; by destruct Hok.
Qed.

(** A reader that has come to the end has seen the file. *)
Lemma seen_all (store : file) acc rest :
  default [] store = acc ++ rest -> drop (length acc) (default [] store) = [] ->
  match store with None => None | Some _ => Some acc end = store.
Proof.
  intros E. rewrite E, drop_app_length. intros ->. rewrite app_nil_r in E. destruct store; [|done]. cbn in E. by subst.
Qed.

End steps.

(** ** Every step keeps the invariant *)

(** The process holds the lock; what it has done is [Hhold]. *)
Ltac take_lock :=
  match goal with
  | Hinv : sharing_inv _ _ ?s, Hi : sh_processes ?s !! ?i = Some ?p, Ht : pr_stage ?p = _,
    Hl : lock_ok (sh_lock ?s) _ ?abs _ |- _ =>
      assert (Hh : holds p = true) by (unfold holds; by rewrite Ht);
      destruct (holds_lock _ _ s i p abs Hinv Hi Hh Hl) as [Hhold _];
      unfold holding in Hhold; rewrite Ht in Hhold
  end.

(** A process that dies in the critical section before it wrote anything. *)
Lemma inv_dies store0 jobs s i p abs :
  sharing_inv store0 jobs s -> sh_processes s !! i = Some p -> committed store0 (sh_history s) abs ->
  lock_ok (sh_lock s) (sh_processes s) abs (sh_store s) -> (sh_store s = None -> abs = None) ->
  (exists acc, pr_stage p = Reading acc) \/ (exists record line, pr_stage p = Opening record line) ->
  sharing_inv store0 jobs (Shared (sh_store s) None (<[i := Process (pr_job p) Dead]> (sh_processes s)) (sh_history s)).
Proof.
  intros Hinv Hi Ha Hl Hn Ht. pose proof (si_processes _ _ _ Hinv i p Hi) as Hok. unfold process_ok in Hok.
  assert (Hh : holds p = true) by (unfold holds; by destruct Ht as [(? & ->)|(? & ? & ->)]).
  destruct (holds_lock _ _ s i p abs Hinv Hi Hh Hl) as [Hhold Hoth]. unfold holding in Hhold.
  assert (Hs : sh_store s = abs) by (destruct Ht as [(? & E)|(? & ? & E)]; rewrite E in Hhold; by destruct Hhold).
  eapply (inv_keep _ _ s i p Dead (sh_store s) None abs); try done.
  intros k r Hne Hk Hr. by rewrite (Hoth k r Hne Hk) in Hr.
Qed.

Lemma sharing_step_inv store0 jobs s s' :
  sharing_inv store0 jobs s -> sharing_step s s' -> sharing_inv store0 jobs s'.
Proof.
  intros Hinv Hstep. destruct (si_abs _ _ _ Hinv) as (abs & Ha & Hl & Hn).
  destruct Hstep as [s i p o Hi Ht Hb|s i p sign event Hi Ht Hj Hb|s i p Hi Ht Hb|s i p Hi Ht|s i p Hi Ht Hlk
    |s i p acc chunk rest Hi Ht Hr Hc|s i p acc o Hi Ht Hr Hx|s i p acc record line Hi Ht Hr Hx
    |s i p record line Hi Ht|s i p record line Hi Ht|s i p record line written n Hi Ht Hw
    |s i p record line Hi Ht|s i p record line written Hi Ht|s i p Hi Ht|s i p Hi Ht|s i p record line written Hi Ht];
    pose proof (si_processes _ _ _ Hinv i p Hi) as Hok; unfold process_ok in Hok; try rewrite Ht in Hok;
    assert (Hnh : pr_stage p = Calling \/ pr_stage p = Waiting -> holds p = false)
      by (intros [E|E]; unfold holds; by rewrite E).
  - eapply (inv_commit _ _ s i p (Returned o) good_environment o (sh_lock s) abs abs); try done; [| | |by left].
    + by eapply perform_early.
    + eapply lock_ok_other; [done|by apply Hnh; left|done].
    + intros k r _. apply (si_exclusive _ _ _ Hinv).
  - apply inv_aside; try done; [by apply Hnh; left|]. right. cbn. split; [by right|done].
  - apply inv_aside; try done. by apply Hnh; left.
  - apply inv_aside; try done; [by apply Hnh; right|]. right. cbn. split; [by left|apply Hok].
  - rewrite Hlk in Hl. cbn in Hl.
    eapply (inv_keep _ _ s i p (Reading []) (sh_store s) (Some i) abs); try done.
    + exists (Process (pr_job p) (Reading [])). split; [apply list_lookup_insert_eq; by eapply lookup_lt_Some|].
      split; [done|]. by exists (default [] abs).
    + intros k r _ Hk Hh. pose proof (si_exclusive _ _ _ Hinv k r Hk Hh). congruence.
  - take_lock. destruct Hhold as [Hs (rest' & E)]. destruct Hok as [Hb Hni]. apply (inv_holder _ _ s i p _ _ abs); try done.
    split; [done|]. exists rest. rewrite Hs, E, drop_app_length in Hr. by rewrite E, Hr, app_assoc.
  - take_lock. destruct Hhold as [Hs (rest' & E)]. rewrite <- Hs in E. rewrite (seen_all _ _ _ E Hr), Hs in Hx.
    eapply (inv_release _ _ s i p _ _ _ abs abs); try done; [by apply perform_inspected|by left].
  - take_lock. destruct Hhold as [Hs (rest' & E)]. rewrite <- Hs in E. rewrite (seen_all _ _ _ E Hr), Hs in Hx.
    destruct Hok as [Hb Hni]. apply (inv_holder _ _ s i p _ _ abs); try done.
  - take_lock. destruct Hhold as [Hs Hx]. eapply (inv_release _ _ s i p _ _ _ abs abs); try done; [|by left].
    by rewrite (perform_append _ _ _ _ OpenFailed Hx).
  - take_lock. destruct Hhold as [Hs Hx]. destruct Hok as [Hb Hni]. apply (inv_holder _ _ s i p _ _ abs); try done.
    split; [lia|]. by rewrite Hs, app_nil_r.
  - take_lock. destruct Hhold as (_ & Hs & Hx). destruct Hok as [Hb Hni]. apply (inv_holder _ _ s i p _ _ abs); try done.
    split; [done|]. split; [|done]. rewrite Hs. cbn [default from_option id]. by rewrite <- app_assoc, take_take_drop.
  - take_lock. destruct Hhold as (_ & Hs & Hx). eapply (inv_release _ _ s i p _ _ _ abs (sh_store s)); try done; [|by left].
    rewrite (perform_append _ _ _ _ AppendComplete Hx). cbn. by rewrite Hs, firstn_all.
  - take_lock. destruct Hhold as (_ & Hs & Hx). eapply (inv_release _ _ s i p _ _ _ abs (sh_store s)); try done; [|by left].
    rewrite (perform_append _ _ _ _ (WriteFailed written) Hx). cbn. by rewrite Hs.
  - apply inv_aside; try done. by apply Hnh.
  - by eapply inv_dies.
  - take_lock. destruct Hhold as (_ & Hs & Hx). eapply (inv_release _ _ s i p _ _ _ abs (sh_store s)); try done; [|by right].
    rewrite (perform_append _ _ _ _ (WriteFailed written) Hx). cbn. by rewrite Hs.
Qed.

Lemma sharing_start_inv store jobs : sharing_inv store jobs (sharing_start store jobs).
Proof.
  assert (Hp : forall i p, map (fun j => Process j Calling) jobs !! i = Some p -> pr_stage p = Calling).
  { intros i p Hi. apply list_lookup_fmap_Some in Hi as (j & -> & _). done. }
  constructor; cbn; try by constructor.
  - by exists store.
  - intros i p Hi Hh. apply Hp in Hi. unfold holds in Hh. by rewrite Hi in Hh.
  - intros i p Hi. unfold process_ok. rewrite (Hp i p Hi). apply not_elem_of_nil.
  - rewrite map_map. cbn. apply map_id.
Qed.

Lemma sharing_reachable_inv store jobs s : sharing_reachable store jobs s -> sharing_inv store jobs s.
Proof.
  intros Hr. eapply (rtc_invariant sharing_step (sharing_inv store jobs)); [|exact Hr|apply sharing_start_inv].
  intros a b. apply sharing_step_inv.
Qed.
