(* ===== verification/SharingTheorems.v ===== *)
(** What the sidecar lock gives to the processes that share a chain store. *)

From stdpp Require Import relations.
From S2P Require Import Prelude.
From S2P Require Import PyText.
From S2P Require Import PyValue.
From S2P Require Import RecordFormat.
From S2P Require Import EventSpec.
From S2P Require Import RecordFacts.
From S2P Require Import CanonicalBytes.
From S2P Require Import RecordLaws.
From S2P Require Import ChainStore.
From S2P Require Import ChainSpec.
From S2P Require Import ChainLogger.
From S2P Require Import ChainCheck.
From S2P Require Import LoggerFacts.
From S2P Require Import CheckFacts.
From S2P Require Import Samples.
From S2P Require Import Anchor.
From S2P Require Import ChainSharing.
From S2P Require Import ChainSharingFacts.

(** ** The records of a history *)

Definition records_of (os : list outcome) : list pydict :=
  omap (fun o => match o with Appended (Ok r) => Some r | _ => None end) os.

(** A call whose event is a Python dict, whose signatures verify, and whose
    write was not cut short. *)
Definition sound_call (verify : bytes -> bytes -> bool) (c : job * environment) : Prop :=
  match c.1 with
  | AppendJob sign event =>
      (forall ev, event = to_dict ev -> wf_dict ev) /\ good_signer verify sign /\ no_torn_write c.2 = true
  | _ => True
  end.

Lemma sequential_chain verify calls : forall store v entries os store',
  Forall (sound_call verify) calls -> Z.of_nat (length entries + length calls) < 2 ^ 63 ->
  chain_store v store entries -> Forall (signature_ok verify) entries ->
  sequential calls store = (os, store') ->
  exists v' new, chain_store v' store' (entries ++ new) /\ Forall (signature_ok verify) (entries ++ new) /\
    map fst new = map norm_pydict (records_of os).
Proof.
  induction calls as [|[j env] calls IH]; intros store v entries os store' Hcalls Hn Hc Hf H.
  { injection H as <- <-. exists v, []. by rewrite app_nil_r. }
  apply Forall_cons in Hcalls as [Hcall Hcalls]. cbn [sequential] in H. cbn [length] in Hn.
  destruct (perform j env store) as [o store1] eqn:E. destruct (sequential calls store1) as [os1 store2] eqn:E1.
  injection H as <- <-.
  assert (Hone : exists v1 new1, chain_store v1 store1 (entries ++ new1) /\ Forall (signature_ok verify) (entries ++ new1) /\
    map fst new1 = map norm_pydict (records_of [o]) /\ (length new1 <= 1)%nat).
  { destruct j as [sign event|is_key verify'|]; cbn in E.
    - destruct Hcall as (Hwf & Hsign & Htorn). destruct (log_event sign env event store) as [r st] eqn:El.
      injection E as <- <-.
      destruct (log_event_step sign verify env event store v entries r st Hwf Htorn Hsign ltac:(lia) Hc Hf El)
        as (v1 & new1 & Hc1 & Hf1 & Hm1).
      exists v1, new1. split; [done|]. split; [done|]. rewrite <- (length_map fst), Hm1. destruct r; cbn; split; done || lia.
    - injection E as <- <-. exists v, []. rewrite app_nil_r. cbn. split_and!; done || lia.
    - injection E as <- <-. exists v, []. rewrite app_nil_r. cbn. split_and!; done || lia. }
  destruct Hone as (v1 & new1 & Hc1 & Hf1 & Hm1 & Hlen).
  destruct (IH store1 v1 (entries ++ new1) os1 store2) as (v' & new & Hc' & Hf' & Hm'); try done.
  { rewrite length_app. lia. }
  exists v', (new1 ++ new). rewrite app_assoc. split; [done|]. split; [done|].
  rewrite map_app, Hm1, Hm'. unfold records_of. cbn [omap list_omap]. destruct o as [[r|e]| |]; done.
Qed.

(** C2: every interleaving of writers, verifiers and tip readers, down to partial
    reads and writes, and with processes dying anywhere, is a sequence of whole
    calls: the history of the calls that took effect, run one after the other,
    gives the outcomes that the processes got, and, while nobody holds the lock,
    the very file that is there; no call takes effect twice; and a process that
    got an outcome outside the history has given up before the lock. *)
Theorem shared_store_linearizable store jobs s :
  sharing_reachable store jobs s ->
  exists store', sequential (map en_call (sh_history s)) store = (map en_outcome (sh_history s), store') /\
    (sh_lock s = None -> sh_store s = store') /\
    NoDup (map en_process (sh_history s)) /\
    Forall (fun e => jobs !! en_process e = Some (en_job e)) (sh_history s) /\
    (forall i p o, sh_processes s !! i = Some p -> pr_stage p = Returned o ->
       (exists env, Entry i (pr_job p) env o ∈ sh_history s) \/
       (gave_up (pr_job p) o /\ i ∉ map en_process (sh_history s))).
Proof.
  intros Hinv%sharing_reachable_inv. destruct (si_abs _ _ _ Hinv) as (abs & Ha & Hl & _). exists abs.
  split; [exact Ha|]. split; [intros E; by rewrite E in Hl|]. split; [apply Hinv|]. split; [apply Hinv|].
  intros i p o Hi Ho. pose proof (si_processes _ _ _ Hinv i p Hi) as Hok. unfold process_ok in Hok. by rewrite Ho in Hok.
Qed.

(** C3: no lost updates and no duplicate sequence numbers: starting from a store
    that the key verifies, with signers of that key and no write cut short,
    whenever the lock is free the store verifies, and its new records are, in
    key order, those of the calls that took effect, in that order; each record
    that a process was returned is one of them. *)
Theorem concurrent_writers_verify verify store v entries jobs s :
  chain_store v store entries -> Forall (signature_ok verify) entries ->
  Z.of_nat (length entries + length (sh_history s)) < 2 ^ 63 ->
  sharing_reachable store jobs s -> sh_lock s = None ->
  Forall (sound_call verify) (map en_call (sh_history s)) ->
  exists new, read_chain (sh_store s) = Ok (entries ++ new) /\
    map fst new = map norm_pydict (records_of (map en_outcome (sh_history s))) /\
    (forall content, sh_store s = Some content ->
       verify_chain verify true true (Some content)
       = Ok {| records_verified := Z.of_nat (length (entries ++ new)); tip_hash := last_hash (entries ++ new) |}) /\
    (forall i p r, sh_processes s !! i = Some p -> pr_stage p = Returned (Appended (Ok r)) ->
       norm_pydict r ∈ map fst new).
Proof.
  intros Hc Hf Hn Hinv%sharing_reachable_inv Hlock Hsound. destruct (si_abs _ _ _ Hinv) as (abs & Ha & Hl & _).
  rewrite Hlock in Hl. cbn in Hl. subst abs.
  destruct (sequential_chain verify (map en_call (sh_history s)) store v entries _ _ Hsound ltac:(by rewrite length_map) Hc Hf Ha)
    as (v' & new & Hc' & Hf' & Hm). exists new.
  split; [apply read_chain_Ok; by exists v'|]. split; [done|]. split.
  - intros content E. apply verify_chain_Ok. split; [done|]. split; [done|]. exists content, v', (entries ++ new).
    by rewrite <- E.
  - intros i p r Hi Hr. pose proof (si_processes _ _ _ Hinv i p Hi) as Hok. unfold process_ok in Hok. rewrite Hr in Hok.
    destruct Hok as [[env Hin]|[[Hg|Hg] _]]; [|by destruct (pr_job p)|done].
    rewrite Hm. apply list_elem_of_fmap. exists r. split; [done|]. unfold records_of.
    apply list_elem_of_omap. exists (Appended (Ok r)). split; [|done]. apply list_elem_of_fmap.
    by exists (Entry i (pr_job p) env (Appended (Ok r))).
Qed.

(** ** One writer, step by step *)

Definition sample_job : job := AppendJob toy_sign (to_dict v1_event).

Lemma log_event_prepared sign event store record store' :
  log_event sign good_environment event store = (Ok record, store') ->
  exists line, after_read (AppendJob sign event) store = Ok (record, line).
Proof.
  unfold log_event. cbn [after_read]. destruct (validate_event event) as [fields|e]; [|done].
  cbn [negb env_mkdir env_lock env_append good_environment]. destruct (prepare_record sign fields store) as [[r line]|e]; [|done].
  cbn. intros [= -> _]. by exists line.
Qed.

Lemma sample_prepared : exists record line, after_read sample_job None = Ok (record, line).
Proof.
  destruct (log_event_total toy_sign V1Event v1_event None []) as (record & store' & H);
    [apply v1_event_spec|apply v1_event_wf|done|done|apply toy_sign_total|].
  exists record. by apply (log_event_prepared _ _ _ _ store').
Qed.

(** A writer alone, on no file. *)
Lemma one_writer_run j record line :
  before_lock j None = None -> after_read j None = Ok (record, line) ->
  sharing_reachable None [j]
    (Shared (Some line) None [Process j (Returned (Appended (Ok record)))]
       [Entry 0 j (append_env AppendComplete) (Appended (Ok record))]).
Proof.
  intros Hb Hr.
  set (p st := Process j st).
  eapply rtc_l; [apply (share_ask (sharing_start None [j]) 0 (p Calling)); [reflexivity|reflexivity|exact Hb]|].
  eapply rtc_l; [apply (share_acquire (Shared None None [p Waiting] []) 0 (p Waiting)); reflexivity|].
  eapply rtc_l; [apply (share_prepared (Shared None (Some 0%nat) [p (Reading [])] []) 0 (p (Reading [])) [] record line);
    [reflexivity|reflexivity|reflexivity|exact Hr]|].
  eapply rtc_l; [apply (share_open (Shared None (Some 0%nat) [p (Opening record line)] []) 0 (p (Opening record line)) record line);
    reflexivity|].
  eapply rtc_l; [apply (share_write (Shared (Some []) (Some 0%nat) [p (Writing record line 0)] []) 0
    (p (Writing record line 0)) record line 0 (length line)); [reflexivity|reflexivity|done]|].
  cbn [sh_store sh_lock sh_processes sh_history default from_option id app drop]. rewrite firstn_all.
  eapply rtc_l; [apply (share_synced (Shared (Some line) (Some 0%nat) [p (Writing record line (length line))] []) 0
    (p (Writing record line (length line))) record line); reflexivity|]. apply rtc_refl.
Qed.

Lemma sample_run record line :
  after_read sample_job None = Ok (record, line) ->
  sharing_reachable None [sample_job]
    (Shared (Some line) None [Process sample_job (Returned (Appended (Ok record)))]
       [Entry 0 sample_job (append_env AppendComplete) (Appended (Ok record))]).
Proof. apply one_writer_run. vm_compute. reflexivity. Qed.

Lemma shared_store_linearizable_witness :
  exists record line store', sequential [(sample_job, append_env AppendComplete)] None = ([Appended (Ok record)], store') /\
    Some line = store'.
Proof.
  destruct sample_prepared as (record & line & Hr).
  destruct (shared_store_linearizable _ _ _ (sample_run record line Hr)) as (store' & Hs & Hl & _).
  exists record, line, store'. split; [exact Hs|exact (Hl eq_refl)].
Defined.

Lemma concurrent_writers_verify_witness :
  exists line new, read_chain (Some line) = Ok new /\ length new = 1%nat.
Proof.
  destruct sample_prepared as (record & line & Hr).
  destruct (concurrent_writers_verify toy_verify None 1 [] [sample_job]
    (Shared (Some line) None [Process sample_job (Returned (Appended (Ok record)))]
       [Entry 0 sample_job (append_env AppendComplete) (Appended (Ok record))])
    eq_refl (List.Forall_nil _) eq_refl (sample_run record line Hr) eq_refl) as (new & Hread & Hm & _).
  - constructor; [|constructor]. split; [|split; [|reflexivity]].
    + intros ev <-%to_dict_inj. exact v1_event_wf.
    + intros data sg [= <-]. split; [by repeat constructor|]. intros _. by apply bool_decide_eq_true.
  - exists line, new. split; [exact Hread|]. apply (f_equal length) in Hm. by rewrite !length_map in Hm.
Defined.
