(* ===== verification/AnchorNetwork.v ===== *)
(** [forensics/anchor.py]: the default submitter and upgrader of
    [OpenTimestampsBackend], which talk to the calendars.

    The client libraries are not part of the repository.  [TimestampNodes] is
    the interface to the tree inside a timestamp; the answers of the calendars,
    the whitelist and the defaults of the client are parameters. *)

From S2P Require Import Prelude.
From S2P Require Import PyText.
From S2P Require Import PyValue.
From S2P Require Import RecordFormat.
From S2P Require Import ChainStore.
From S2P Require Import Anchor.

#[global] Instance attestation_eq_dec : EqDecision attestation.
Proof. solve_decision. Defined.

(** References to the nodes of a timestamp: their [msg], their [attestations],
    [ops.values()], the depth of the tree below, and [merge], which raises
    ([None]) on a timestamp of another message.  [node_all] is
    [all_attestations()] of the whole timestamp. *)
Class TimestampNodes `{OpenTimestamps} := {
  node : Type;
  root : node;
  node_msg : Timestamp -> node -> bytes;
  node_attestations : Timestamp -> node -> list attestation;
  node_children : Timestamp -> node -> list node;
  node_depth : Timestamp -> node -> nat;
  node_merge : Timestamp -> node -> Timestamp -> option Timestamp;
  node_all : Timestamp -> list (bytes * attestation)
}.

(** What asking a calendar gives: a timestamp, [CommitmentNotFoundError],
    another [Exception] with its text, or an exception outside the inner [try]
    (the constructor of the calendar, or [SystemExit]). *)
Inductive calendar_answer (T : Type) :=
| CalendarTimestamp (t : T)
| CommitmentNotFound
| CalendarFailed (text : pystr)
| CalendarAborts.
Arguments CalendarTimestamp {T} t.
Arguments CommitmentNotFound {T}.
Arguments CalendarFailed {T} text.
Arguments CalendarAborts {T}.

Section network.
Context `{TimestampNodes}.

(** ** The default submitter *)

(** [available]: the imports and the argument parser of the client work; [m] is
    its quorum, [create] what [create_timestamp] does. *)
Definition _submit_with_client_defaults (available : bool) (m : Z) (calendar_urls : list pystr)
  (create : res client_exn Timestamp) : res client_exn Timestamp :=
  if negb available then Err ClientTransient
  else if negb ((0 <? m) && (m <=? Z.of_nat (length calendar_urls))) then Err ClientConfiguration
  else match create with
       | Ok t => Ok t
       | Err ClientConfiguration => Err ClientConfiguration
       | Err _ => Err ClientTransient
       end.

(** ** The default upgrader *)

Fixpoint directly_attested (fuel : nat) (t : Timestamp) (n : node) : list node :=
  match fuel with
  | O => []
  | S fuel =>
      match node_attestations t n with
      | _ :: _ => [n]
      | [] => flat_map (directly_attested fuel t) (node_children t n)
      end
  end.

(** The depth of the tree is fuel enough. *)
Definition _directly_attested_timestamps (t : Timestamp) (n : node) : list node :=
  directly_attested (S (node_depth t n)) t n.

(** Two lists are the same set. *)
Definition same_set {A} `{EqDecision A} (a b : list A) : bool :=
  forallb (fun x => bool_decide (x ∈ b)) a && forallb (fun x => bool_decide (x ∈ a)) b.

(** [us_requests]: the requests so far, in order. *)
Record upgrade_state := UpgradeState {
  us_timestamp : Timestamp;
  us_changed : bool;
  us_failures : list pystr;
  us_requests : list (pystr * bytes)
}.

(** [whitelisted uri]: [uri in DEFAULT_CALENDAR_WHITELIST]; [answer k uri msg]:
    what the [k]-th request gives. *)
Context (whitelisted : pystr -> bool) (answer : nat -> pystr -> bytes -> calendar_answer Timestamp).

(** One turn of the inner loop, and whether it raised. *)
Definition ask_attestation (n : node) (a : attestation) (st : upgrade_state) : upgrade_state * bool :=
  match a with
  | PendingAttestation uri =>
      if negb (whitelisted uri) then (st, false)
      else
        let t := us_timestamp st in
        let msg := node_msg t n in
        let requests := us_requests st ++ [(uri, msg)] in
        let before := node_all t in
        match answer (length (us_requests st)) uri msg with
        | CommitmentNotFound => (UpgradeState t (us_changed st) (us_failures st) requests, false)
        | CalendarFailed text =>
            (UpgradeState t (us_changed st) (us_failures st ++ [uri ++ u ": " ++ text]) requests, false)
        | CalendarAborts => (UpgradeState t (us_changed st) (us_failures st) requests, true)
        | CalendarTimestamp upgraded =>
            match node_merge t n upgraded with
            | None => (UpgradeState t (us_changed st) (us_failures st) requests, true)
            | Some t' =>
                (UpgradeState t' (us_changed st || negb (same_set (node_all t') before)) (us_failures st) requests, false)
            end
        end
  | _ => (st, false)
  end.

(** A loop whose body may raise. *)
Fixpoint run_loop {A} (body : A -> upgrade_state -> upgrade_state * bool) (l : list A) (st : upgrade_state)
  : upgrade_state * bool :=
  match l with
  | [] => (st, false)
  | x :: l => let '(st, raised) := body x st in if raised then (st, true) else run_loop body l st
  end.

(** One turn of the outer loop: [tuple(pending_timestamp.attestations)] is taken
    when the node's turn comes. *)
Definition ask_node (n : node) (st : upgrade_state) : upgrade_state * bool :=
  run_loop (ask_attestation n) (node_attestations (us_timestamp st) n) st.

Definition ask_calendars (t : Timestamp) : upgrade_state * bool :=
  run_loop ask_node (_directly_attested_timestamps t root) (UpgradeState t false [] []).

Definition _upgrade_with_client_defaults (available : bool) (t : Timestamp) : res client_exn (bool * Timestamp) :=
  if negb available then Err ClientTransient
  else
    let '(st, raised) := ask_calendars t in
    if raised then Err ClientTransient
    else match us_failures st with
         | [] => Ok (us_changed st, us_timestamp st)
         | _ => Err ClientTransient
         end.

End network.
