(* ===== verification/NetworkTheorems.v ===== *)
(** The default upgrader: which calendars it asks, and what its answer means. *)

From stdpp Require Import relations countable.
From S2P Require Import Prelude.
From S2P Require Import PyText.
From S2P Require Import PyValue.
From S2P Require Import Sha256.
From S2P Require Import RecordFormat.
From S2P Require Import ChainStore.
From S2P Require Import Anchor.
From S2P Require Import AnchorFacts.
From S2P Require Import AnchorNetwork.

(** ** The nodes that are asked about *)

(** [m] is reached from [n] through nodes without attestations, and has one. *)
Inductive first_attested `{TimestampNodes} (t : Timestamp) : node -> node -> Prop :=
| attested_here n : node_attestations t n <> [] -> first_attested t n n
| attested_below n c m : node_attestations t n = [] -> c ∈ node_children t n -> first_attested t c m ->
    first_attested t n m.

(** What the code relies on: a timestamp is a finite tree, and a merge keeps its
    message and every attestation.  A merge adds at its node and below only, so
    that at a first attested node it keeps these nodes and their messages, and
    the attestations of the other ones. *)
Class TimestampNodesLaws `(N : TimestampNodes) : Prop := {
  node_depth_child : forall t n m, m ∈ node_children t n -> (node_depth t m < node_depth t n)%nat;
  node_children_once : forall t n, NoDup (node_children t n);
  node_parent : forall t n n' m, m ∈ node_children t n -> m ∈ node_children t n' -> n = n';
  node_merge_msg : forall t n up t', node_merge t n up = Some t' -> ots_msg t' = ots_msg t;
  node_merge_all : forall t n up t', node_merge t n up = Some t' -> node_all t ⊆ node_all t';
  node_merge_kept : forall t n up t' m, node_merge t n up = Some t' -> first_attested t root n ->
    first_attested t root m -> first_attested t' root m /\ node_msg t' m = node_msg t m;
  node_merge_other : forall t n up t' m, node_merge t n up = Some t' -> first_attested t root n ->
    first_attested t root m -> m <> n -> node_attestations t' m = node_attestations t m;
  node_all_attestations : forall t, map snd (node_all t) = ots_all_attestations t
}.

(** ** Sets *)

Lemma same_set_true {A} `{EqDecision A} (a b : list A) : same_set a b = true <-> (forall x, x ∈ a <-> x ∈ b).
Proof.
  unfold same_set. rewrite andb_true_iff, !forallb_forall. setoid_rewrite bool_decide_eq_true.
  setoid_rewrite <- list_elem_of_In. naive_solver.
Qed.

Lemma same_set_refl {A} `{EqDecision A} (a : list A) : same_set a a = true.
Proof. by apply same_set_true. Qed.

(** Along growing sets, the set has changed when one step changed it. *)
Lemma grown_changed {A} `{EqDecision A} (a b c : list A) :
  a ⊆ b -> b ⊆ c -> negb (same_set b a) || negb (same_set c b) = negb (same_set c a).
Proof.
  intros Hab Hbc. rewrite <- negb_andb. f_equal. apply eq_bool_prop_intro. rewrite !Is_true_true, andb_true_iff, !same_set_true.
  split; [intros [H1 H2] x; by rewrite H2, H1|]. intros Hc. split; intros x; split; auto; intros Hx.
  - by apply Hc, Hbc.
  - by apply Hab, Hc.
Qed.

Section network.
Context `{Laws : TimestampNodesLaws}.

Lemma directly_attested_exact t fuel n m :
  (node_depth t n < fuel)%nat -> m ∈ directly_attested fuel t n <-> first_attested t n m.
Proof.
  revert n. induction fuel as [|fuel IH]; intros n Hf; [lia|]. cbn [directly_attested].
  destruct (node_attestations t n) as [|a l] eqn:E.
  - rewrite list_elem_of_In, in_flat_map. setoid_rewrite <- list_elem_of_In. split.
    + intros (c & Hc & Hm). pose proof (node_depth_child t n c Hc). apply IH in Hm; [|lia]. by eapply attested_below.
    + intros H1. inversion H1 as [n' Hn|n' c m' _ Hc Hm]; subst; [done|]. exists c. split; [done|].
      pose proof (node_depth_child t n c Hc). apply IH; [lia|done].
  - rewrite list_elem_of_singleton. split; [intros ->; apply attested_here; by rewrite E|].
    intros H1. inversion H1 as [n' Hn|n' c m' He Hc Hm]; subst; [done|congruence].
Qed.

(** No node is reached twice. *)
Lemma reach_depth t n m : rtc (fun a b => b ∈ node_children t a) n m -> (node_depth t m <= node_depth t n)%nat.
Proof. induction 1 as [|n c m Hc _ IH]; [done|]. pose proof (node_depth_child t n c Hc). lia. Qed.

Lemma first_attested_reach t n m : first_attested t n m -> rtc (fun a b => b ∈ node_children t a) n m.
Proof. induction 1 as [|n c m _ Hc _ IH]; [done|]. by eapply rtc_l. Qed.

(** Two ways to a node: the one start is above the other. *)
Lemma reach_linear t c c' m :
  rtc (fun a b => b ∈ node_children t a) c m -> rtc (fun a b => b ∈ node_children t a) c' m ->
  rtc (fun a b => b ∈ node_children t a) c c' \/ rtc (fun a b => b ∈ node_children t a) c' c.
Proof.
  intros H1. revert m H1 c'. refine (rtc_ind_r _ _ _ _); [by right|]. intros x m H1 Hx IH c' H2.
  apply rtc_inv_r in H2 as [->|(y & Hy & Hyx)]; [left; by eapply rtc_r|].
  rewrite (node_parent t y x m) in Hy by done. by apply IH.
Qed.

Lemma siblings_apart t n c c' m :
  c ∈ node_children t n -> c' ∈ node_children t n -> first_attested t c m -> first_attested t c' m -> c = c'.
Proof.
  assert (Habove : forall c c', c ∈ node_children t n -> c' ∈ node_children t n ->
    rtc (fun a b => b ∈ node_children t a) c c' -> c = c').
  { intros x y Hx Hy [->|(z & Hz & Hzy)]%rtc_inv_r; [done|]. rewrite (node_parent t z n y) in Hz by done.
    pose proof (reach_depth t x n Hz). pose proof (node_depth_child t n x Hx). lia. }
  intros Hc Hc' H1%first_attested_reach H2%first_attested_reach.
  destruct (reach_linear t c c' m H1 H2); [by apply Habove|symmetry; by apply Habove].
Qed.

Lemma directly_attested_once t fuel n : (node_depth t n < fuel)%nat -> NoDup (directly_attested fuel t n).
Proof.
  revert n. induction fuel as [|fuel IH]; intros n Hf; [lia|]. cbn [directly_attested].
  destruct (node_attestations t n) as [|a l]; [|apply NoDup_singleton].
  assert (Hch : forall c, c ∈ node_children t n -> (node_depth t c < fuel)%nat)
    by (intros c Hc; pose proof (node_depth_child t n c Hc); lia).
  pose proof (node_children_once t n) as Hnd.
  assert (Hap : forall c c' m, c ∈ node_children t n -> c' ∈ node_children t n ->
    m ∈ directly_attested fuel t c -> m ∈ directly_attested fuel t c' -> c = c').
  { intros c c' m Hc Hc' H1%directly_attested_exact H2%directly_attested_exact; [|auto..]. by eapply siblings_apart. }
  induction (node_children t n) as [|c l IHl]; [constructor|]. apply NoDup_cons in Hnd as [Hni Hnd]. cbn.
  apply NoDup_app. split; [apply IH, Hch; by left|]. split.
  - intros m Hm Hin. rewrite list_elem_of_In, in_flat_map in Hin. destruct Hin as (c' & Hc' & Hm').
    rewrite <- list_elem_of_In in Hc', Hm'. apply Hni. rewrite (Hap c c' m); [done|by left|by right|done..].
  - apply IHl; [intros x Hx; apply Hch; by right|done|]. intros x y m Hx Hy. apply Hap; by right.
Qed.

(** ** What the calendars are asked *)

Context (whitelisted : pystr -> bool) (answer : nat -> pystr -> bytes -> calendar_answer Timestamp).

(** A node, the calendar of one of its pending attestations, and the message. *)
Record target := Target { tg_node : node; tg_uri : pystr; tg_msg : bytes }.
Definition request (g : target) : pystr * bytes := (tg_uri g, tg_msg g).

Definition attestation_targets (t : Timestamp) (n : node) (a : attestation) : list target :=
  match a with
  | PendingAttestation uri => if whitelisted uri then [Target n uri (node_msg t n)] else []
  | _ => []
  end.

Definition node_targets (t : Timestamp) (n : node) : list target :=
  flat_map (attestation_targets t n) (node_attestations t n).

(** Every pending attestation with a whitelisted calendar, of every first
    attested node. *)
Definition targets (t : Timestamp) : list target :=
  flat_map (node_targets t) (_directly_attested_timestamps t root).

(** The [k]-th request and those after it: the number of requests made at the
    end, and the timestamp with every answer merged in; [None] when a request
    aborts or its answer does not merge. *)
Fixpoint consult (k : nat) (t : Timestamp) (l : list target) : nat * option Timestamp :=
  match l with
  | [] => (k, Some t)
  | g :: l =>
      match answer k (tg_uri g) (tg_msg g) with
      | CalendarAborts => (S k, None)
      | CalendarTimestamp up =>
          match node_merge t (tg_node g) up with
          | Some t' => consult (S k) t' l
          | None => (S k, None)
          end
      | CommitmentNotFound | CalendarFailed _ => consult (S k) t l
      end
  end.

(** Some calendar failed to answer. *)
Fixpoint some_failed (k : nat) (l : list target) : bool :=
  match l with
  | [] => false
  | g :: l => match answer k (tg_uri g) (tg_msg g) with CalendarFailed _ => true | _ => false end || some_failed (S k) l
  end.

(** ** The loops make these requests *)

(** The timestamp has grown from [t]. *)
Record grown (t t' : Timestamp) : Prop := Grown {
  gr_msg : ots_msg t' = ots_msg t;
  gr_all : node_all t ⊆ node_all t';
  gr_kept : forall m, first_attested t root m -> first_attested t' root m /\ node_msg t' m = node_msg t m
}.

Lemma grown_refl t : grown t t.
Proof. by constructor. Qed.

Lemma grown_merge t t1 n up t2 :
  grown t t1 -> first_attested t root n -> node_merge t1 n up = Some t2 -> grown t t2.
Proof.
  intros [Hm Ha Hk] Hn E. constructor.
  - by rewrite (node_merge_msg _ _ _ _ E).
  - etrans; [done|by eapply node_merge_all].
  - intros m Hf. destruct (Hk m Hf) as [H1 <-]. eapply node_merge_kept; [done| |done]. by apply Hk.
Qed.

Lemma consult_bounds k t l : (k <= (consult k t l).1 <= k + length l)%nat /\
  (is_Some (consult k t l).2 -> (consult k t l).1 = k + length l)%nat.
Proof.
  revert k t. induction l as [|g l IH]; intros k t; cbn; [lia|]. pose proof (fun t => IH (S k) t) as IH'.
  destruct (answer _ _ _) as [up| |text|]; [destruct (node_merge _ _ _) as [t'|]|..]; cbn;
    try (split; [lia|by intros []]); [specialize (IH' t')|specialize (IH' t)|specialize (IH' t)];
    destruct IH' as [IH1 IH2]; (split; [lia|]); intros Hs; rewrite IH2 by done; lia.
Qed.

Lemma consult_app k t l1 l2 :
  consult k t (l1 ++ l2) = match consult k t l1 with
                           | (k1, Some t1) => consult k1 t1 l2
                           | (k1, None) => (k1, None)
                           end.
Proof.
  revert k t. induction l1 as [|g l1 IH]; intros k t; [done|]. cbn.
  destruct (answer _ _ _); [destruct (node_merge _ _ _)|..]; auto.
Qed.

Lemma some_failed_app k l1 l2 : some_failed k (l1 ++ l2) = some_failed k l1 || some_failed (k + length l1) l2.
Proof.
  revert k. induction l1 as [|g l1 IH]; intros k; cbn; [by rewrite Nat.add_0_r|].
  rewrite IH, orb_assoc. by replace (S k + length l1)%nat with (k + S (length l1))%nat by lia.
Qed.

(** A consultation leaves the attestations of the other nodes as they are. *)
Lemma consult_other t k t1 l k' t2 m :
  grown t t1 -> Forall (fun g => first_attested t root (tg_node g)) l -> consult k t1 l = (k', Some t2) ->
  first_attested t root m -> m ∉ map tg_node l -> node_attestations t2 m = node_attestations t1 m.
Proof.
  intros Hg Hl E Hm. revert k t1 Hg E Hl. induction l as [|g l IH]; intros k t1 Hg; cbn; [by intros [= _ ->]|].
  intros E [Hn Hl]%Forall_cons [Hne Hni]%not_elem_of_cons.
  destruct (answer _ _ _) as [up| |text|]; [|by eapply IH|by eapply IH|done].
  destruct (node_merge t1 (tg_node g) up) as [t'|] eqn:Em; [|done].
  rewrite (IH (S k) t'); [|by eapply grown_merge|done..].
  eapply node_merge_other; [done|by apply Hg|by apply Hg|done].
Qed.

(** The state has grown from [t], and says whether the set has changed. *)
Definition state_ok (t : Timestamp) (st : upgrade_state) : Prop :=
  grown t (us_timestamp st) /\ us_changed st = negb (same_set (node_all (us_timestamp st)) (node_all t)).

(** The loops do from [st] what [consult] says of the targets [l]. *)
Definition follows (t : Timestamp) (l : list target) (st : upgrade_state) (out : upgrade_state * bool) : Prop :=
  let k := length (us_requests st) in
  us_requests out.1 = us_requests st ++ map request (take ((consult k (us_timestamp st) l).1 - k) l) /\
  match (consult k (us_timestamp st) l).2 with
  | None => out.2 = true
  | Some t' => out.2 = false /\ us_timestamp out.1 = t' /\ state_ok t out.1 /\
      (us_failures out.1 = [] <-> us_failures st = [] /\ some_failed k l = false)
  end.

Lemma follows_nil t st : state_ok t st -> follows t [] st (st, false).
Proof. intros Hst. unfold follows. cbn. rewrite take_nil. cbn. rewrite app_nil_r. naive_solver. Qed.

Lemma follows_app t l1 l2 st st1 raised out :
  follows t l1 st (st1, raised) -> (raised = false -> state_ok t st1 -> follows t l2 st1 out) ->
  (raised = true -> out = (st1, true)) -> follows t (l1 ++ l2) st out.
Proof.
  unfold follows. cbn [fst snd]. set (k := length (us_requests st)). intros [Hr1 H1] H2 Hout.
  pose proof (consult_bounds k (us_timestamp st) l1) as [Hb Hs]. rewrite consult_app.
  destruct (consult k (us_timestamp st) l1) as [k1 [t1|]]; cbn [fst snd] in *.
  2:{ subst raised. rewrite (Hout eq_refl). cbn. rewrite Hr1. split; [|done]. do 2 f_equal. by rewrite take_app_le by lia. }
  destruct H1 as (-> & <- & Hst & Hf1). rewrite (Hs ltac:(by eexists)) in *. clear Hs Hb.
  rewrite Nat.add_sub_swap, Nat.sub_diag, Nat.add_0_l, take_ge in Hr1 by lia.
  destruct (H2 eq_refl Hst) as [Hr2 H3]. assert (Hlen : length (us_requests st1) = (k + length l1)%nat)
    by (rewrite Hr1, length_app, length_map; lia). rewrite Hlen in *.
  pose proof (consult_bounds (k + length l1) (us_timestamp st1) l2) as [Hb _]. split.
  - rewrite Hr2, Hr1, <- app_assoc, <- map_app. do 2 f_equal.
    rewrite take_app_ge by lia. do 2 f_equal. lia.
  - destruct (consult _ _ l2) as [k2 [t2|]]; [|done]. cbn [snd] in *. destruct H3 as (-> & -> & Hst2 & Hf2).
    split; [done|]. split; [done|]. split; [done|]. rewrite Hf2, Hf1, some_failed_app, orb_false_iff. naive_solver.
Qed.

(** One attestation, then one node, then all. *)
Lemma ask_attestation_follows t n a st :
  first_attested t root n -> state_ok t st ->
  follows t (attestation_targets t n a) st (ask_attestation whitelisted answer n a st).
Proof.
  intros Hn Hst. destruct a as [uri|h|]; [|by apply follows_nil..]. cbn [attestation_targets ask_attestation].
  destruct (whitelisted uri); cbn [negb]; [|by apply follows_nil]. pose proof Hst as [Hg Hc].
  assert (node_msg (us_timestamp st) n = node_msg t n) as -> by by apply Hg.
  unfold follows. cbn [consult tg_node tg_uri tg_msg some_failed].
  destruct (answer _ uri _) as [up| |text|];
    [destruct (node_merge (us_timestamp st) n up) as [t'|] eqn:Em|..]; cbn [fst snd us_requests us_failures us_timestamp];
    rewrite Nat.sub_succ_l, Nat.sub_diag by done; cbn; (split; [done|]); try done.
  - split; [done|]. split; [done|]. split; [|naive_solver]. split; [by eapply grown_merge|]. cbn. rewrite Hc.
    apply grown_changed; [apply Hg|by eapply node_merge_all].
  - split; [done|]. split; [done|]. split; [done|]. naive_solver.
  - split; [done|]. split; [done|]. split; [done|]. split; [by intros [_ [=]]%app_eq_nil|by intros [_ [=]]].
Qed.

Lemma ask_attestations_follow t n l : forall st, first_attested t root n -> state_ok t st ->
  follows t (flat_map (attestation_targets t n) l) st (run_loop (ask_attestation whitelisted answer n) l st).
Proof.
  induction l as [|a l IH]; intros st Hn Hst; cbn [flat_map run_loop]; [by apply follows_nil|].
  pose proof (ask_attestation_follows t n a st Hn Hst) as H1.
  destruct (ask_attestation _ _ n a st) as [st1 raised]. eapply follows_app; [exact H1|..]; by intros ->; auto.
Qed.

(** A node whose attestations are still those of [t]. *)
Lemma ask_node_follows t n st :
  first_attested t root n -> state_ok t st -> node_attestations (us_timestamp st) n = node_attestations t n ->
  follows t (node_targets t n) st (ask_node whitelisted answer n st).
Proof. intros Hn Hst E. unfold ask_node. rewrite E. by apply ask_attestations_follow. Qed.

Lemma node_targets_node t n : Forall (fun g => tg_node g = n) (node_targets t n).
Proof.
  unfold node_targets. apply Forall_forall. intros g. rewrite list_elem_of_In, in_flat_map.
  intros (a & _ & Hg). destruct a as [uri|h|]; try done. cbn in Hg. destruct (whitelisted uri); [|done]. by destruct Hg as [<-|[]].
Qed.

Lemma ask_nodes_follow t l : forall st, NoDup l -> (forall n, n ∈ l -> first_attested t root n) -> state_ok t st ->
  (forall n, n ∈ l -> node_attestations (us_timestamp st) n = node_attestations t n) ->
  follows t (flat_map (node_targets t) l) st (run_loop (ask_node whitelisted answer) l st).
Proof.
  induction l as [|n l IH]; intros st Hnd Hl Hst Hatt; cbn [flat_map run_loop]; [by apply follows_nil|].
  apply NoDup_cons in Hnd as [Hni Hnd]. assert (Hn : first_attested t root n) by (apply Hl; by left).
  pose proof (ask_node_follows t n st Hn Hst (Hatt n ltac:(by left))) as H1.
  destruct (ask_node _ _ n st) as [st1 raised]. eapply follows_app; [exact H1| |by intros ->].
  intros -> Hst1. apply IH; [done|intros m Hm; apply Hl; by right|done|]. intros m Hm.
  rewrite <- (Hatt m) by by right. unfold follows in H1. destruct H1 as [_ H1].
  destruct (consult _ _ (node_targets t n)) as [k' [t'|]] eqn:Ec; [|done]. cbn in H1. destruct H1 as (_ & -> & _).
  pose proof (node_targets_node t n) as Hnodes. eapply consult_other; [apply Hst| |exact Ec|apply Hl; by right|].
  - eapply Forall_impl; [exact Hnodes|]. by intros g ->.
  - intros (g & -> & Hg)%list_elem_of_fmap. rewrite Forall_forall in Hnodes. by rewrite (Hnodes g Hg) in Hm.
Qed.

Lemma ask_calendars_follows t : follows t (targets t) (UpgradeState t false [] []) (ask_calendars whitelisted answer t).
Proof.
  apply ask_nodes_follow; try done.
  - apply directly_attested_once. lia.
  - intros n. apply directly_attested_exact. lia.
  - split; [apply grown_refl|]. cbn. by rewrite same_set_refl.
Qed.
End network.

(** A validated timestamp is of the digest, and what it serializes to inspects
    as it. *)
Lemma validated_msg `{OpenTimestamps} proof digest t :
  _validated_detached proof digest = Ok t -> length digest = 32%nat /\ ots_msg t = digest.
Proof.
  unfold _validated_detached. destruct (proof_bytes proof) as [b|]; [|done].
  rewrite then_Ok, ensure_Ok. intros [Hl%Nat.eqb_eq H1]. destruct (ots_deserialize b) as [[sha t']|]; [|done].
  rewrite !then_Ok, !ensure_Ok, bool_decide_eq_true in H1. by destruct H1 as (_ & Hm & [= ->]).
Qed.

Lemma serialized_inspects {O : OpenTimestamps} {L : OpenTimestampsLaws O} t p digest :
  length digest = 32%nat -> ots_msg t = digest -> _serialize_detached t = Ok p ->
  inspect_proof p digest = Ok {| inspected_digest := digest;
    has_bitcoin_attestation := existsb is_bitcoin (ots_all_attestations t) |}.
Proof.
  unfold _serialize_detached. destruct (ots_serialize t) as [b|] eqn:E; [|done]. intros Hl Hm [= <-].
  apply inspect_proof_Ok. exists b, t. split; [done|]. split; [by eapply ots_header|]. split; [done|].
  split; [by apply ots_roundtrip|done].
Qed.

(** Stamping with the default submitter: no calendar is asked under a quorum
    that cannot be met, and that is a configuration error; without it only an
    error of configuration from the client itself is one. *)
Lemma default_stamp_configuration `{OpenTimestamps} nonce available m urls create digest :
  stamp nonce (fun c => _submit_with_client_defaults available m urls (create c)) digest = Err AnchorConfigurationError <->
  length digest = 32%nat /\ available = true /\ exists n, nonce = Some n /\ length n = 16%nat /\
    (0 < m <= Z.of_nat (length urls) -> create (sha256 (digest ++ n)) = Err ClientConfiguration).
Proof.
  unfold stamp, _submit_with_client_defaults, ensure. destruct (Nat.eqb_spec (length digest) 32); cbn; [|naive_solver].
  destruct nonce as [n|]; [|naive_solver]. destruct (Nat.eqb_spec (length n) 16); cbn; [|naive_solver].
  destruct available; cbn; [|naive_solver].
  destruct (Z.ltb_spec 0 m), (Z.leb_spec m (Z.of_nat (length urls))); cbn.
  2-4: split; [|done]; intros _; do 2 (split; [done|]); exists n; do 2 (split; [done|]); lia.
  transitivity (create (sha256 (digest ++ n)) = Err ClientConfiguration).
  - destruct (create _) as [t|[]]; cbn; unfold _serialize_detached; (repeat case_match); naive_solver.
  - naive_solver.
Qed.

(** C30: the default upgrader, called by [upgrade] on a proof that validates.
    The nodes with attestations first met from the root are found, each once;
    the requests are, in order, one for each of their pending attestations whose
    calendar is whitelisted, to that calendar and for the message of that node,
    all of them unless one aborts or answers what does not merge there; and the
    result is that of [consult], which merges each answer into the node it was
    asked for: a transient error when it stopped or when some calendar failed,
    whatever the others answered; else nothing when the set of attestations is
    the same as before, the answers that there is nothing yet included; else the
    serialized merge, which then inspects against the same digest and has every
    attestation the old proof had. *)
Theorem default_upgrade_exact {O : OpenTimestamps} {L : OpenTimestampsLaws O} {N : TimestampNodes}
  {NL : TimestampNodesLaws N} whitelisted answer proof digest t
  (Hvalid : _validated_detached proof digest = Ok t) :
  let st := (ask_calendars whitelisted answer t).1 in
  let goals := targets whitelisted t in
  let '(asked, merged) := consult answer 0 t goals in
  let result := upgrade (_upgrade_with_client_defaults whitelisted answer true) proof digest in
  (forall n, n ∈ _directly_attested_timestamps t root <-> first_attested t root n) /\
  NoDup (_directly_attested_timestamps t root) /\
  us_requests st = map request (take asked goals) /\
  match merged with
  | None => result = Err AnchorTransientError
  | Some t' =>
      asked = length goals /\ node_all t ⊆ node_all t' /\
      result = (if some_failed answer 0 goals then Err AnchorTransientError
                else if same_set (node_all t') (node_all t) then Ok None
                else p ← _serialize_detached t'; Ok (Some p)) /\
      forall p, result = Ok (Some p) ->
        inspect_proof p digest = Ok {| inspected_digest := digest;
          has_bitcoin_attestation := existsb is_bitcoin (ots_all_attestations t') |}
  end.
Proof.
  intros st goals. destruct (validated_msg _ _ _ Hvalid) as [Hl Hm].
  pose proof (ask_calendars_follows whitelisted answer t) as [Hreq Hend]. fold goals st in Hreq, Hend.
  pose proof (proj2 (consult_bounds answer 0 t goals)) as Hlen. cbn [us_requests us_timestamp us_failures length] in *.
  destruct (consult answer 0 t goals) as [asked merged] eqn:Ec. cbn [fst snd] in *. rewrite Nat.sub_0_r in Hreq.
  split; [intros n; apply directly_attested_exact; lia|]. split; [apply directly_attested_once; lia|]. split; [done|].
  unfold upgrade, _upgrade_with_client_defaults. rewrite Hvalid. rewrite Ok_bind. cbn [negb].
  unfold st in *. destruct (ask_calendars whitelisted answer t) as [st0 raised]. cbn [fst snd] in *.
  destruct merged as [t'|]; [|by rewrite Hend]. destruct Hend as (-> & <- & [Hg Hch] & Hf).
  split; [apply Hlen; by eexists|]. split; [apply Hg|].
  assert (Hres : match us_failures st0 with [] => Ok (us_changed st0, us_timestamp st0) | _ => Err ClientTransient end
    = (if some_failed answer 0 goals then Err ClientTransient else Ok (us_changed st0, us_timestamp st0))).
  { destruct (some_failed answer 0 goals) eqn:Es, (us_failures st0); naive_solver. }
  rewrite Hres, Hch. destruct (some_failed answer 0 goals); [done|]. destruct (same_set _ _); cbn [negb]; [done|].
  split; [done|]. intros p Hp. apply bind_Ok in Hp as (p' & Hp & [= ->]).
  apply serialized_inspects; [done| |done]. rewrite <- Hm. apply Hg.
Qed.

(** ** A library of trees of height one *)

#[local] Instance attestation_countable : Countable attestation.
Proof.
  apply (inj_countable'
    (fun a => match a with PendingAttestation u => inl u | BitcoinBlockHeaderAttestation h => inr (Some h) | OtherAttestation => inr None end)
    (fun s => match s with inl u => PendingAttestation u | inr (Some h) => BitcoinBlockHeaderAttestation h | inr None => OtherAttestation end)).
  by intros [].
Defined.

(** A message and the attestations of each child of the root. *)
Definition tree_timestamps : OpenTimestamps := {|
  Timestamp := (list Z * list (list attestation))%type;
  ots_msg := fst;
  ots_all_attestations t := concat t.2;
  ots_nonce digest _ sub := (digest, sub.2);
  ots_serialize t := Some (Zpos (encode t.2) :: t.1);
  ots_deserialize b := match b with
                       | Zpos p :: m => l ← decode p; Some (true, (m, l))
                       | _ => None
                       end
|}.

#[local] Instance tree_laws : OpenTimestampsLaws tree_timestamps.
Proof.
  constructor; cbn.
  - by intros ts b [= <-].
  - intros [m l] b [= <-]. cbn. by rewrite decode_encode.
  - done.
Qed.

Definition tree_nodes : @TimestampNodes tree_timestamps :=
  @Build_TimestampNodes tree_timestamps (option nat) None
    (fun t _ => t.1)
    (fun t n => match n with Some i => default [] (t.2 !! i) | None => [] end)
    (fun t n => match n with None => map Some (seq 0 (length t.2)) | Some _ => [] end)
    (fun _ n => match n with None => 1%nat | Some _ => 0%nat end)
    (fun t n up => match n with
                   | Some i => if bool_decide (up.1 = t.1) then Some (t.1, alter (fun l => l ++ concat up.2) i t.2) else None
                   | None => None
                   end)
    (fun t => map (pair t.1) (concat t.2)).

Lemma tree_attested t n : @first_attested _ tree_nodes t None n <->
  match n with Some i => default [] (t.2 !! i) <> [] | None => False end.
Proof.
  destruct t as [m l]. split.
  - intros H1. inversion H1 as [n' Hn|n' c m' _ Hc Hm]; subst; [done|]. cbn in Hc.
    apply list_elem_of_fmap in Hc as (i & -> & _). inversion Hm as [n' Hn|n' c m' _ Hc _]; subst; [done|].
    by apply elem_of_nil in Hc.
  - destruct n as [i|]; [|done]. cbn. intros Hn. eapply attested_below; [done| |by apply attested_here].
    cbn. apply (list_elem_of_fmap_2 Some), elem_of_seq. split; [lia|].
    destruct (l !! i) as [x|] eqn:E; [|done]. by apply lookup_lt_Some in E.
Qed.

#[local] Instance tree_nodes_laws : TimestampNodesLaws tree_nodes.
Proof.
  constructor; cbn.
  - intros [m l] [i|] c; cbn; [by intros ?%elem_of_nil|]. rewrite list_elem_of_In, in_map_iff. intros (i & <- & _). lia.
  - intros t [i|]; [constructor|]. apply (NoDup_fmap Some). apply NoDup_seq.
  - intros t [i|] [j|] c; try done; by intros ?%elem_of_nil || by intros _ ?%elem_of_nil.
  - intros [m l] [i|] up t'; [|done]. case_bool_decide; [|done]. by intros [= <-].
  - intros [m l] [i|] up t'; [|done]. case_bool_decide; [|done]. intros [= <-] x. cbn.
    rewrite !list_elem_of_In, !in_map_iff. intros (a & <- & Ha). exists a. split; [done|]. revert i Ha.
    induction l as [|c l IH]; intros i; [done|]. cbn [concat]. rewrite in_app_iff. destruct i as [|i]; cbn; rewrite !in_app_iff; naive_solver.
  - intros [m l] [i|] up t' [j|] E H1 H2; try done; [|by apply tree_attested in H2|by apply tree_attested in H1..].
    cbn in E. case_bool_decide; [|done]. injection E as <-. split; [|done]. apply tree_attested in H2.
    apply tree_attested. cbn in H2 |- *. destruct (decide (j = i)) as [->|Hne].
    + rewrite list_lookup_alter_eq. destruct (l !! i) as [x|]; [|done]. cbn in *. by destruct x.
    + by rewrite list_lookup_alter_ne.
  - intros [m l] [i|] up t' [j|] E H1 H2 Hne; try done.
    cbn in E. case_bool_decide; [|done]. injection E as <-. cbn. rewrite list_lookup_alter_ne; [done|congruence].
  - intros [m l]. cbn. by rewrite map_map, map_id.
Qed.

(** Two calendars: the second one has a Bitcoin attestation. *)
Definition tree_proof : list (list attestation) :=
  [[PendingAttestation (u "a")]; [PendingAttestation (u "b"); PendingAttestation (u "c")]].
Definition tree_proof_bytes : proof_object := ProofBytes (Zpos (encode tree_proof) :: repeat 7 32).
Definition tree_answer (first : calendar_answer (list Z * list (list attestation))) (_ : nat) (uri msg : pystr)
  : calendar_answer (list Z * list (list attestation)) :=
  if bool_decide (uri = u "a") then first else CalendarTimestamp (msg, [[BitcoinBlockHeaderAttestation 1]]).
Definition tree_upgrade (first : calendar_answer (list Z * list (list attestation))) :=
  @upgrade tree_timestamps
    (@_upgrade_with_client_defaults _ tree_nodes (fun uri => bool_decide (uri <> u "c")) (tree_answer first) true)
    tree_proof_bytes (repeat 7 32).

Lemma default_upgrade_exact_witness :
  us_requests (@ask_calendars _ tree_nodes (fun uri => bool_decide (uri <> u "c")) (tree_answer CommitmentNotFound)
    (repeat 7 32, tree_proof)).1 = [(u "a", repeat 7 32); (u "b", repeat 7 32)] /\
  (exists p, tree_upgrade CommitmentNotFound = Ok (Some p) /\
     exists i, @inspect_proof tree_timestamps p (repeat 7 32) = Ok i /\ has_bitcoin_attestation i = true) /\
  tree_upgrade (CalendarFailed []) = Err AnchorTransientError.
Proof.
  pose proof (default_upgrade_exact (O := tree_timestamps) (N := tree_nodes) (fun uri => bool_decide (uri <> u "c"))
    (tree_answer CommitmentNotFound) tree_proof_bytes (repeat 7 32)
    (repeat 7 32, tree_proof) ltac:(vm_compute; reflexivity)) as Hm. cbv zeta in Hm.
  destruct (consult _ _ _ _) as [asked merged] eqn:Ec in Hm. destruct Hm as (_ & _ & Hreq & Hm).
  vm_compute in Ec. injection Ec as <- <-. destruct Hm as (_ & _ & _ & Hi).
  split; [rewrite Hreq; vm_compute; reflexivity|]. split; [|vm_compute; reflexivity].
  change (upgrade _ _ _) with (tree_upgrade CommitmentNotFound) in Hi.
  destruct (tree_upgrade CommitmentNotFound) as [[p|]|] eqn:E; [|vm_compute in E; discriminate..].
  exists p. split; [reflexivity|]. eexists. split; [exact (Hi p eq_refl)|]. vm_compute. reflexivity.
Defined.
