(* ===== verification/WorkerTheorems.v ===== *)
(** The properties of the anchoring part: [forensics/anchor.py] and
    [forensics/anchor_worker.py]. *)

From Stdlib Require Import Sorted.
From stdpp Require Import relations gmap.
From S2P Require Import Prelude.
From S2P Require Import PyText.
From S2P Require Import Binary64.
From S2P Require Import FloatOps.
From S2P Require Import PyValue.
From S2P Require Import Sha256.
From S2P Require Import Calendar.
From S2P Require Import RecordFormat.
From S2P Require Import ChainStore.
From S2P Require Import ChainSpec.
From S2P Require Import EventSpec.
From S2P Require Import LoggerFacts.
From S2P Require Import Samples.
From S2P Require Import Anchor.
From S2P Require Import AnchorStore.
From S2P Require Import AnchorStoreFacts.
From S2P Require Import AnchorWorker.
From S2P Require Import BackoffFacts.
From S2P Require Import WorkerFacts.
From S2P Require Import RunFacts.
From S2P Require Import RunProgress.
From S2P Require Import AnchorFacts.

(** ** The lifecycle table under concurrent workers *)

(** C18: whatever transactions concurrent workers interleave, with row snapshots
    of any age, the table stays well formed (unique ids and tips, a failed row
    knows where to resume, a transient failure has a retry time and an
    integrity failure none, no row claims independent verification) and within
    the constraints of the schema, so that SQLite never refuses it, and each
    further transaction only moves rows along [ALLOWED_TRANSITIONS] and appends
    queued rows: no row is lost and no identity changes. *)
Theorem lifecycle_interleaving l l' :
  lifecycle_reachable l -> lifecycle_step l l' ->
  table_ok (lc_table l) /\ table_ok (lc_table l') /\ schema_ok (lc_table l') = true /\
  table_evolves (lc_table l) (lc_table l').
Proof.
  intros Hr%lifecycle_reachable_inv Hs. split; [apply Hr|]. destruct (lifecycle_step_ok l l' Hr Hs) as [Ht He].
  split; [done|]. split; [by apply table_ok_schema|done].
Qed.

Lemma lifecycle_interleaving_witness :
  exists l l', lifecycle_reachable l /\ lifecycle_step l l' /\
    table_evolves (lc_table l) (lc_table l').
Proof.
  pose (l := Lifecycle (track_tip 3 (repeat 97 64) [47] 15 6 []).1 []).
  assert (Hr : lifecycle_reachable l) by (eapply rtc_l; [apply step_track|apply rtc_refl]).
  assert (Hs : lifecycle_step l (Lifecycle (track_tip 4 (repeat 98 64) [47] 15 6 (lc_table l)).1 []))
    by apply step_track.
  exists l, (Lifecycle (track_tip 4 (repeat 98 64) [47] 15 6 (lc_table l)).1 []).
  split; [exact Hr|]. split; [exact Hs|]. exact (proj2 (proj2 (proj2 (lifecycle_interleaving _ _ Hr Hs)))).
Defined.

(** ** What is due *)

(** Every time in the table is the text of an instant. *)
Definition times_ok (t : list row) : Prop :=
  Forall (fun r => forall s, next_attempt r = Some s -> exists n, instant_ok n /\ s = _utc_text n) t.

(** The time of the next attempt, if there is one, has come. *)
Definition time_has_come (now : Z) (r : row) : Prop :=
  exists n, next_attempt r = Some (_utc_text n) /\ instant_ok n /\ n <= now.

Lemma due_by_come now r :
  instant_ok now -> (forall s, next_attempt r = Some s -> exists n, instant_ok n /\ s = _utc_text n) ->
  due_by (next_attempt r) (_utc_text now) = true <-> time_has_come now r.
Proof.
  intros Hnow Ht. unfold time_has_come. destruct (next_attempt r) as [s|]; cbn; [|naive_solver].
  destruct (Ht s eq_refl) as (n & Hn & ->). rewrite utc_text_order, Z.leb_le by done. split.
  - intros Hle. by exists n.
  - intros (m & [= E] & Hm & Hle). assert (m = n) as ->; [|done].
    pose proof (utc_text_order n m Hn Hm) as H1. pose proof (utc_text_order m n Hm Hn) as H2.
    rewrite E in H1, H2. rewrite str_leb_refl in H1, H2. zbool. lia.
Qed.

(** [due_jobs], which compares texts, selects exactly the queued rows, the
    pending rows whose time has come or that have none, and the transient
    failures whose retry time has come, each once and in the order of their
    sequence numbers. *)
Theorem due_jobs_exact now t :
  instant_ok now -> times_ok t ->
  let due := due_jobs (_utc_text now) t in
  due ≡ₚ List.filter (is_due (_utc_text now)) t /\
  StronglySorted (fun a b => sequence_no a <= sequence_no b) due /\
  forall r, r ∈ due <-> r ∈ t /\
    (state r = QUEUED \/
     (state r = SUBMITTED_PENDING /\ (next_attempt r = None \/ time_has_come now r)) \/
     (state r = RETRY_FAILED /\ failure r = Some Transient /\ time_has_come now r)).
Proof.
  intros Hnow Ht. cbv zeta. split; [apply due_jobs_perm|]. split; [apply due_jobs_sorted|].
  intros r. rewrite due_jobs_in. unfold times_ok in Ht. rewrite Forall_forall in Ht.
  assert (Hd : r ∈ t -> due_by (next_attempt r) (_utc_text now) = true <-> time_has_come now r)
    by (intros Hr; by apply due_by_come, Ht).
  unfold is_due. split; intros [Hr Hc]; (split; [done|]); specialize (Hd Hr); revert Hc;
    rewrite !orb_true_iff, !andb_true_iff, !is_state_true, bool_decide_eq_true;
    destruct (next_attempt r) as [s|]; naive_solver.
Qed.

Lemma due_jobs_exact_witness :
  let r := Row 1 3 (repeat 97 64) RETRY_FAILED [47] 1 None (Some (_utc_text 900000000)) None
             (Some QUEUED) (Some Transient) 15 6 in
  r ∈ due_jobs (_utc_text 900000000) [r].
Proof.
  cbv zeta. set (r := Row _ _ _ _ _ _ _ _ _ _ _ _ _).
  assert (Hnow : instant_ok 900000000) by by unfold instant_ok.
  assert (Ht : times_ok [r]).
  { constructor; [|constructor]. intros s [= <-]. by exists 900000000. }
  apply (due_jobs_exact 900000000 [r] Hnow Ht). split; [by left|].
  right. right. split; [reflexivity|]. split; [reflexivity|]. exists 900000000. split; [reflexivity|]. split; [done|lia].
Defined.

(** ** One run of the worker *)

(** The worker on the library [toy_timestamps] with a backend that answers with
    a pending proof. *)
Definition toy_env : job_env :=
  JobEnv (fun digest => Ok (ProofBytes (0 :: digest))) (fun _ _ => Ok None) NoFailure
    (u ".proof.tmp") true (S754_zero false) [].

Lemma toy_env_calm i : calm_env ((fun _ : Z => toy_env) i).
Proof. split; [|reflexivity]. split; done. Qed.

Lemma toy_temporary (i : Z) :
  temporary_ok (je_temporary toy_env) /\ (∅ : gmap (list Z) (list Z)) !! je_temporary toy_env = None.
Proof. split; [by exists (u ".proof")|apply lookup_empty]. Qed.

Lemma empty_worker : worker_inv (World [] ∅).
Proof. split; repeat constructor. Qed.

(** A chain the worker can anchor. *)
Lemma toy_locked_tip : exists store tip_hash, locked_tip true store = Ok (0, tip_hash).
Proof.
  destruct (one_record_chain V2Ingestion ingestion_event ingestion_event_spec ingestion_event_wf)
    as (content & r & s & Hc & _).
  exists (Some content), (sha256_hex s). apply locked_tip_exact. split; [done|]. split; [done|].
  by exists (kind_version V2Ingestion), [], r, s.
Qed.

Section run.
Context `{OpenTimestamps}.

(** C7: one run tracks the tip of the chain and takes the due jobs in order.
    For each job it reaches, what the library, the calendars and the file system
    do determines the exception of the steps and the file left at its path
    ([attempt]: adopted, stamped, kept, upgraded, or one of the named failures),
    and these determine the row ([job_outcome]): advanced after a success, with
    the proof on disk; failed for good after an integrity error and no other;
    only resumed after a configuration error, which escapes; scheduled for the
    delay of its attempt, 15 minutes to 30 hours, after every other exception,
    unless that delay does not fit a float or its time the calendar, which
    escapes too and leaves the row resumed.
    An exception that escapes ends the run: the job that raised it is the last
    one reached, and the rows of the jobs after it are untouched, like every row
    that is not due and every other file.  After the run, failures included, each
    pending or upgraded row, also one that failed since, has a valid proof file
    for its own tip. *)
Theorem run_once_correct interval threshold directory lock store envs now w sequence tip_hash :
  worker_inv w -> instant_ok now -> locked_tip lock store = Ok (sequence, tip_hash) ->
  (forall i, temporary_ok (je_temporary (envs i)) /\ w_files w !! je_temporary (envs i) = None) ->
  let out := run_once interval threshold directory lock store envs now w in
  let t := (track_tip sequence tip_hash (proof_file directory sequence tip_hash) interval threshold (w_table w)).1 in
  let due := due_jobs (_utc_text now) t in
  worker_inv out.1 /\
  exists result, looped envs now due (World t (w_files w)) out.1 result /\
    out.2 = (_ ← result; Ok (Z.of_nat (length due))).
Proof. apply run_once_spec. Qed.

(** An integrity failure is final for the worker: the row, proof path and
    error included, is the same after any run, and the backend is not asked. *)
Theorem integrity_failure_is_final interval threshold directory lock store envs now w r :
  worker_inv w -> instant_ok now ->
  (forall i, temporary_ok (je_temporary (envs i)) /\ w_files w !! je_temporary (envs i) = None) ->
  r ∈ w_table w -> failure r = Some Integrity ->
  r ∈ w_table (run_once interval threshold directory lock store envs now w).1.
Proof.
  intros Hw Hnow Htmp Hr Hf.
  destruct (locked_tip lock store) as [[sequence tip_hash]|e] eqn:Hl.
  2:{ unfold run_once, snapshot_tip. by rewrite Hl. }
  destruct (run_once_spec interval threshold directory lock store envs now w sequence tip_hash Hw Hnow Hl Htmp)
    as (_ & result & (finished & stopped & rest & Hjobs & _ & HR & _) & _). cbn [w_table] in HR.
  destruct (locked_tip_Ok _ _ _ _ Hl) as (_ & _ & _ & Hs & _ & _ & Hh).
  pose proof (track_tip_inv sequence tip_hash directory interval threshold w Hw Hs Hh) as Hw1.
  set (t := (track_tip _ _ _ _ _ _).1) in *.
  assert (Hrt : r ∈ t).
  { unfold t. destruct (track_tip_cases sequence tip_hash (proof_file directory sequence tip_hash) interval threshold (w_table w))
      as [(_ & _ & _ & ->)|[_ ->]]; [done|]. apply elem_of_app. by left. }
  assert (Hst : state r = RETRY_FAILED).
  { destruct (decide (state r = RETRY_FAILED)) as [|Hne]; [done|].
    pose proof (to_rows _ (wi_table _ Hw)) as Hrows. rewrite Forall_forall in Hrows.
    pose proof (ro_live _ (Hrows r Hr) Hne). congruence. }
  assert (Hnd : is_due (_utc_text now) r = false)
    by (unfold is_due; rewrite Hst, Hf; reflexivity).
  apply list_elem_of_lookup in Hrt as [i Hi].
  destruct (Forall2_lookup_l _ _ _ _ _ HR Hi) as (r' & Hr' & HP).
  assert (Hdue : r ∈ finished ++ stopped_job stopped -> is_due (_utc_text now) r = true).
  { intros Hin. apply (due_jobs_in (_utc_text now) t). rewrite Hjobs, app_assoc. apply elem_of_app. by left. }
  destruct HP as [r' Hin _|e r' -> _|_]; [| |by eapply list_elem_of_lookup_2]; exfalso.
  - assert (is_due (_utc_text now) r = true); [|congruence]. apply Hdue, elem_of_app. by left.
  - assert (is_due (_utc_text now) r = true); [|congruence]. apply Hdue, elem_of_app. right. by left.
Qed.
End run.

Lemma run_once_correct_witness :
  exists store, worker_inv (run_once 15 6 [47] true store (fun _ => toy_env) 0 (World [] ∅)).1.
Proof.
  destruct toy_locked_tip as (store & tip_hash & Hl). exists store.
  exact (proj1 (run_once_correct 15 6 [47] true store (fun _ => toy_env) 0 (World [] ∅) 0 tip_hash
    empty_worker (conj (Z.le_refl 0) eq_refl) Hl toy_temporary)).
Defined.

(** A tracked tip whose proof turned out to be wrong. *)
Definition integrity_row : row :=
  Row 1 0 (repeat 97 64) RETRY_FAILED (proof_file [47] 0 (repeat 97 64)) 1 (Some (_utc_text 0)) None (Some (u "bad"))
    (Some QUEUED) (Some Integrity) 15 6.

Lemma integrity_worker : worker_inv (World [integrity_row] ∅).
Proof.
  split; cbn.
  - constructor; [by apply NoDup_singleton..|]. constructor; [|constructor]. constructor; cbn; try done.
    + intros _. exists QUEUED. split; [done|]. split; [by left|]. by right.
    + intros s [= <-]. by left.
  - constructor; [|constructor]. by exists [47].
  - constructor; [done|constructor].
Qed.

Lemma integrity_failure_is_final_witness :
  integrity_row ∈ w_table (run_once 15 6 [47] true None (fun _ => toy_env) 0 (World [integrity_row] ∅)).1.
Proof.
  apply (integrity_failure_is_final 15 6 [47] true None (fun _ => toy_env) 0 (World [integrity_row] ∅) integrity_row
    integrity_worker (conj (Z.le_refl 0) eq_refl) toy_temporary); [by left|reflexivity].
Defined.

(** ** Writing proofs *)

(** Wherever a proof write is interrupted, the target holds its old bytes
    or the whole new proof and every other path is as it was; after the call the
    temporary file is gone, and the proof is at the target exactly when the call
    returned; without [replace] it never returns over an existing file. *)
Theorem proof_write_atomic (fail : write_failure) (tmp target : pystr) proof (repl : bool) (fs : files) :
  fs !! tmp = None -> tmp <> target ->
  let '(trace, r) := write_proof_atomic fail tmp target proof repl fs in
  (forall fs', fs' ∈ trace ->
     (fs' !! target = fs !! target \/ exists b, proof_bytes proof = Some b /\ fs' !! target = Some b) /\
     (forall p, p <> target -> p <> tmp -> fs' !! p = fs !! p)) /\
  match r with
  | Ok _ => exists b, proof_bytes proof = Some b /\ final_files trace fs = <[target := b]> fs /\
      (repl = false -> fs !! target = None)
  | Err _ => final_files trace fs = fs
  end.
Proof.
  intros Hf Hne. destruct (write_proof_atomic fail tmp target proof repl fs) as [trace r] eqn:E.
  split; [intros fs' Hin; by eapply write_proof_states|].
  pose proof (write_proof_final _ _ _ _ _ _ _ _ Hf E) as [(b & Hb & -> & Hfin)|[(e & ->) Hfin]]; [|done].
  exists b. split; [done|]. split; [done|]. intros ->. unfold write_proof_atomic in E. rewrite Hb in E.
  destruct (fs !! target) as [old|] eqn:Et; [|done]. exfalso.
  destruct fail; try discriminate E; rewrite bool_decide_eq_true_2 in E by done; discriminate E.
Qed.

Lemma proof_write_atomic_witness :
  final_files (write_proof_atomic NoFailure [2] [1] (ProofBytes [7]) false ∅).1 ∅ = {[ [1] := [7] ]}.
Proof.
  pose proof (proof_write_atomic NoFailure [2] [1] (ProofBytes [7]) false ∅ (lookup_empty _) ltac:(done)) as H1.
  cbn zeta in H1. destruct H1 as [_ (b & Hb & Hfin & _)]. injection Hb as <-. exact Hfin.
Defined.

(** C22: [anchor_chain_tip] returns a receipt exactly for a valid nonempty chain
    read under the lock, when the backend stamps the SHA-256 of its last signed
    record and the write succeeds on a free path; then the proof is the only
    change to the files, and the receipt names the last sequence number, its
    record hash and the path. *)
Theorem anchor_chain_tip_exact stamp lock (fail : write_failure) (tmp target : pystr) store (fs fs' : files) receipt :
  fs !! tmp = None ->
  anchor_chain_tip stamp lock fail tmp target store fs = (fs', Ok receipt) <->
  lock = true /\ is_Some store /\ fail = NoFailure /\ fs !! target = None /\
  exists v entries r signed b, chain_store v store (entries ++ [(r, signed)]) /\ b <> [] /\
    stamp (sha256 signed) = Ok (ProofBytes b) /\ fs' = <[target := b]> fs /\
    receipt = {| receipt_sequence := Z.of_nat (length entries); receipt_tip_hash := sha256_hex signed;
                 receipt_proof_path := target |}.
Proof.
  intros Hf. unfold anchor_chain_tip. split.
  - destruct (locked_tip lock store) as [[sequence tip_hash]|e] eqn:Hl; [|done].
    apply locked_tip_exact in Hl as (-> & Hst & v & entries & r & signed & Hc & -> & ->).
    unfold sha256_hex at 1. rewrite bytes_fromhex_hex by apply sha256_ok. change (default [] (Some (sha256 signed))) with (sha256 signed).
    destruct (stamp (sha256 signed)) as [proof|e] eqn:Es; [|done].
    destruct (proof_bytes proof) as [b|] eqn:Hb; [|done]. apply proof_bytes_Some in Hb as Hp.
    unfold write_proof_atomic. rewrite Hb.
    destruct fail; try done; cbn [negb andb]; case_bool_decide as Ht; try done.
    intros [= <- <-]. cbn. rewrite delete_id by done.
    split; [done|]. split; [done|]. split; [done|]. split; [by apply eq_None_not_Some|].
    exists v, entries, r, signed, b. subst proof. split; [done|]. split; [by destruct b|]. done.
  - intros (-> & Hst & -> & Ht & v & entries & r & signed & b & Hc & Hb & Hs & -> & ->).
    rewrite (proj2 (locked_tip_exact true store (Z.of_nat (length entries)) (sha256_hex signed))).
    2:{ split; [done|]. split; [done|]. by exists v, entries, r, signed. }
    unfold sha256_hex at 1. rewrite bytes_fromhex_hex by apply sha256_ok. change (default [] (Some (sha256 signed))) with (sha256 signed). rewrite Hs.
    destruct b as [|c b]; [done|]. unfold write_proof_atomic. cbn [proof_bytes negb andb].
    rewrite bool_decide_eq_false_2 by (rewrite Ht; by intros [? ?]). cbn. by rewrite delete_id.
Qed.

Lemma anchor_chain_tip_exact_witness :
  exists store receipt, (anchor_chain_tip (fun d => Ok (ProofBytes (0 :: d))) true NoFailure [2] [1] store ∅).2 = Ok receipt.
Proof.
  destruct (one_record_chain V2Ingestion ingestion_event ingestion_event_spec ingestion_event_wf)
    as (content & r & s & Hc & _).
  exists (Some content). eexists. set (back := fun d => _).
  match goal with |- ?x.2 = _ => assert (E : x = (<[[1] := 0 :: sha256 s]> ∅,
    Ok {| receipt_sequence := 0; receipt_tip_hash := sha256_hex s; receipt_proof_path := [1] |})) end.
  - apply (anchor_chain_tip_exact back true NoFailure [2] [1] (Some content) ∅); [apply lookup_empty|].
    split; [reflexivity|]. split; [by exists content|]. split; [reflexivity|]. split; [apply lookup_empty|].
    exists (kind_version V2Ingestion), [], r, s, (0 :: sha256 s). split; [exact Hc|]. by repeat split.
  - rewrite E. reflexivity.
Defined.

(** ** Stamping *)

(** C40: a stamp tells the calendars nothing but the SHA-256 of the digest and a
    16-octet nonce: submitters that agree on this commitment give one result;
    and what it returns is a proof that inspects, for that very digest. *)
Theorem stamp_commitment {OTS : OpenTimestamps} {Laws : OpenTimestampsLaws OTS} nonce submitter submitter' digest :
  submitter (sha256 (digest ++ nonce)) = submitter' (sha256 (digest ++ nonce)) ->
  stamp (Some nonce) submitter digest = stamp (Some nonce) submitter' digest /\
  forall p, stamp (Some nonce) submitter digest = Ok p ->
    length digest = 32%nat /\ length nonce = 16%nat /\
    exists submitted, submitter (sha256 (digest ++ nonce)) = Ok submitted /\
      inspect_proof p digest = Ok {| inspected_digest := digest;
        has_bitcoin_attestation := existsb is_bitcoin (ots_all_attestations (ots_nonce digest nonce submitted)) |}.
Proof.
  intros Hs. unfold stamp. rewrite <- Hs. split; [done|]. intros p. rewrite !then_Ok, !ensure_Ok, !Nat.eqb_eq.
  intros (Hd & Hn & Hp). split; [done|]. split; [done|].
  destruct (submitter (sha256 (digest ++ nonce))) as [submitted|[]] eqn:E; try done. exists submitted. split; [done|].
  unfold _serialize_detached in Hp. destruct (ots_serialize _) as [b|] eqn:Eb; [|done]. injection Hp as <-.
  apply inspect_proof_Ok. exists b, (ots_nonce digest nonce submitted). split; [done|].
  split; [by eapply ots_header|]. split; [done|]. split; [by apply ots_roundtrip|]. split; [apply ots_nonce_msg|done].
Qed.

Lemma stamp_commitment_witness :
  exists p, stamp (Some (repeat 5 16)) (fun _ => Ok ([], true)) (repeat 9 32) = Ok p /\
    exists i, inspect_proof p (repeat 9 32) = Ok i /\ has_bitcoin_attestation i = true.
Proof.
  destruct (stamp_commitment (OTS := toy_timestamps) (repeat 5 16) (fun _ => Ok ([], true)) (fun _ => Ok ([], true)) (repeat 9 32) eq_refl)
    as [_ H1].
  exists (ProofBytes (1 :: repeat 9 32)). split; [reflexivity|].
  destruct (H1 _ eq_refl) as (_ & _ & submitted & [= <-] & Hi). eexists. split; [exact Hi|reflexivity].
Defined.

(** ** Backoff *)

(** For every attempt count and jitter the retry delay that
    [retry_delay_seconds] returns is a finite float between 15 minutes and 30
    hours, with all its roundings, and [timedelta] takes it to a whole number of
    microseconds in the same range; up to the 1015th attempt there is a delay. *)
Theorem retry_delay_range n j :
  (forall f, retry_delay_seconds n j = Ok f ->
     is_finite f = true /\ seconds_fixed 900 <= fixed f <= seconds_fixed 108000 /\
     exists us, timedelta_seconds f = Some us /\ 900 * us_per_second <= us <= 108000 * us_per_second) /\
  (1 <= n <= 1015 /\ float_zero_one j = true -> exists f, retry_delay_seconds n j = Ok f).
Proof.
  split; [|by intros [? ?]; apply retry_delay_total]. intros f [Hf Hb]%retry_delay_bounds.
  split; [done|]. split; [done|]. by apply timedelta_bounds.
Qed.

Lemma retry_delay_range_witness : exists f, retry_delay_seconds 7 (S754_zero false) = Ok f.
Proof. apply (proj2 (retry_delay_range 7 (S754_zero false))). split; [lia|reflexivity]. Defined.

(** From the 1016th attempt on, the product that is only used for the jitter
    no longer fits a float: [OverflowError]. *)
Example retry_delay_overflows : retry_delay_seconds 1016 (S754_zero false) = Err DelayOverflow.
Proof. vm_compute. reflexivity. Qed.
