(* ===== verification/AnchorBackend.v ===== *)
(** [forensics/anchor.py]: the backend that the worker is given, and what a row
    becomes with it, from the calendars to the table. *)

From stdpp Require Import gmap.
From S2P Require Import Prelude.
From S2P Require Import PyText.
From S2P Require Import Binary64.
From S2P Require Import PyValue.
From S2P Require Import Sha256.
From S2P Require Import Calendar.
From S2P Require Import ChainStore.
From S2P Require Import Anchor.
From S2P Require Import AnchorStore.
From S2P Require Import AnchorStoreFacts.
From S2P Require Import AnchorWorker.
From S2P Require Import WorkerFacts.
From S2P Require Import RunFacts.
From S2P Require Import AnchorFacts.
From S2P Require Import AnchorNetwork.

Section backend.
Context {OTS : OpenTimestamps} {Nodes : TimestampNodes}.

(** The protocol [TimestampBackend]. *)
Record TimestampBackend := {
  backend_stamp : bytes -> res anchor_exn proof_object;
  backend_upgrade : proof_object -> bytes -> res anchor_exn (option proof_object)
}.

(** What the client library and the calendars are for the defaults. *)
Record client := Client {
  cl_available : bool;
  cl_quorum : Z;
  cl_urls : list pystr;
  cl_create : bytes -> res client_exn Timestamp;
  cl_whitelisted : pystr -> bool;
  cl_answer : nat -> pystr -> bytes -> calendar_answer Timestamp
}.

(** [OpenTimestampsBackend(submitter, upgrader, nonce_factory)]: a callable that
    is not given is the default; [nonce] is what the factory returns. *)
Definition OpenTimestampsBackend (c : client) (submitter : option (bytes -> res client_exn Timestamp))
  (upgrader : option (Timestamp -> res client_exn (bool * Timestamp))) (nonce : option bytes) : TimestampBackend :=
  {| backend_stamp := stamp nonce (default (fun commitment =>
       _submit_with_client_defaults (cl_available c) (cl_quorum c) (cl_urls c) (cl_create c commitment)) submitter);
     backend_upgrade := upgrade (default (_upgrade_with_client_defaults (cl_whitelisted c) (cl_answer c) (cl_available c)) upgrader) |}.

(** A job with that backend: [sample] is the jitter that [run_once] was given or
    [random()]. *)
Definition backend_env (b : TimestampBackend) (failure : write_failure) (temporary : pystr) (read : bool)
  (jitter_sample : option spec_float) (random : spec_float) (error : pystr) : job_env :=
  JobEnv (backend_stamp b) (backend_upgrade b) failure temporary read (default random jitter_sample) error.

(** ** Facts *)

Context {Laws : OpenTimestampsLaws OTS}.

Lemma stamp_returns nonce submitter submitted digest b :
  length digest = 32%nat -> length nonce = 16%nat -> submitter (sha256 (digest ++ nonce)) = Ok submitted ->
  ots_serialize (ots_nonce digest nonce submitted) = Some b ->
  stamp (Some nonce) submitter digest = Ok (ProofBytes b).
Proof.
  intros Hd Hn Hs Hb. unfold stamp, _serialize_detached. rewrite Hd, Hn. cbn. by rewrite Hs, Hb.
Qed.

(** A serialized timestamp of the digest inspects. *)
Lemma serialized_proof_inspects ts digest b :
  length digest = 32%nat -> ots_msg ts = digest -> ots_serialize ts = Some b ->
  inspect_proof (ProofBytes b) digest
  = Ok {| inspected_digest := digest; has_bitcoin_attestation := existsb is_bitcoin (ots_all_attestations ts) |}.
Proof.
  intros Hd Hm Hb. apply inspect_proof_Ok. exists b, ts. split; [done|]. split; [by eapply ots_header|].
  split; [done|]. split; [by apply ots_roundtrip|done].
Qed.

Lemma upgrade_returns upgrader ts ts' digest b b' :
  length digest = 32%nat -> ots_msg ts = digest -> ots_serialize ts = Some b ->
  upgrader ts = Ok (true, ts') -> ots_serialize ts' = Some b' ->
  upgrade upgrader (ProofBytes b) digest = Ok (Some (ProofBytes b')).
Proof.
  intros Hd Hm Hb Hu Hb'. unfold upgrade, _validated_detached, proof_bytes, _serialize_detached.
  destruct b as [|c b]; [by apply ots_header in Hb|]. rewrite (ots_roundtrip _ _ Hb), Hd, Hm. cbn.
  rewrite bool_decide_eq_true_2 by done. cbn. by rewrite Hu, Hb'.
Qed.

(** A write that nothing disturbs. *)
Lemma write_step_done env path b replace w :
  je_write env = NoFailure -> w_files w !! je_temporary env = None -> b <> [] ->
  replace = true \/ w_files w !! path = None ->
  write_step env path (ProofBytes b) replace w = (World (w_table w) (<[path := b]> (w_files w)), Ok tt).
Proof.
  intros Hw Ht Hb Hr. unfold write_step, write_proof_atomic. rewrite Hw. destruct b as [|c b]; [done|]. cbn [proof_bytes].
  assert (negb replace && bool_decide (is_Some (w_files w !! path)) = false) as ->.
  { destruct Hr as [-> | ->]; [done|]. rewrite bool_decide_eq_false_2 by (by intros []). apply andb_false_r. }
  cbn. by rewrite delete_id.
Qed.

(** One step of a row, when nothing fails. *)
Lemma queued_job_done env job now w digest b i t :
  table_ok (w_table w) -> job ∈ w_table w -> state job = QUEUED -> bytes_fromhex (tip job) = Some digest ->
  w_files w !! proof_path job = None -> w_files w !! je_temporary env = None -> je_write env = NoFailure ->
  je_stamp env digest = Ok (ProofBytes b) -> inspect_proof (ProofBytes b) digest = Ok i ->
  has_bitcoin_attestation i = false -> add_us now (minutes_us (interval_minutes job)) = Some t ->
  _process_job env job now w
  = (World (replace_row job (set_transition SUBMITTED_PENDING (_utc_text now) (Some (_utc_text t)) job) (w_table w))
       (<[proof_path job := b]> (w_files w)), Ok tt).
Proof.
  intros Ht Hj Hs Hd Hp Htmp Hw Hst Hi Hb Hadd. assert (Hne : b <> []) by (intros ->; by apply inspect_bytes in Hi as [? ?]).
  assert (Hq : process_by_state env job now w = then_step (_process_queued env job now w) (fun w _ => (w, Ok tt)))
    by (unfold process_by_state; by rewrite Hs).
  unfold _process_job. rewrite Hs. cbn [is_state]. replace (is_state QUEUED RETRY_FAILED) with false by done. rewrite Hq.
  unfold _process_queued, tip_digest. rewrite Hd. cbn [then_step]. rewrite Hp, Hst. unfold _target_state. rewrite Hi. cbn.
  rewrite Hb, write_step_done by auto. cbn [then_step]. unfold leave_queue, _next_pending_attempt. rewrite Hadd.
  cbn [is_state w_table fmap]. change (is_state SUBMITTED_PENDING SUBMITTED_PENDING) with true. cbn. rewrite transition_hit; try done.
  rewrite Hs. apply (bool_decide_unpack _); by vm_compute.
Qed.

Lemma pending_job_done env job now w digest b b' i i' :
  table_ok (w_table w) -> job ∈ w_table w -> state job = SUBMITTED_PENDING -> bytes_fromhex (tip job) = Some digest ->
  w_files w !! proof_path job = Some b -> je_read env = true -> w_files w !! je_temporary env = None ->
  je_write env = NoFailure -> inspect_proof (ProofBytes b) digest = Ok i -> has_bitcoin_attestation i = false ->
  je_upgrade env (ProofBytes b) digest = Ok (Some (ProofBytes b')) ->
  inspect_proof (ProofBytes b') digest = Ok i' -> has_bitcoin_attestation i' = true ->
  _process_job env job now w
  = (World (replace_row job (set_transition UPGRADED_UNVERIFIED (_utc_text now) None job) (w_table w))
       (<[proof_path job := b']> (w_files w)), Ok tt).
Proof.
  intros Ht Hj Hs Hd Hp Hr Htmp Hw Hi Hb Hup Hi' Hb'. assert (Hne : b' <> []) by (intros ->; by apply inspect_bytes in Hi' as [? ?]).
  assert (Hq : process_by_state env job now w = then_step (_process_pending env job now w) (fun w _ => (w, Ok tt)))
    by (unfold process_by_state; by rewrite Hs).
  unfold _process_job. rewrite Hs. replace (is_state SUBMITTED_PENDING RETRY_FAILED) with false by done. rewrite Hq.
  unfold _process_pending, tip_digest. rewrite Hd. cbn [then_step]. rewrite Hp, Hr, Hi. cbn. rewrite Hb, Hup.
  unfold _target_state. rewrite Hi'. cbn. rewrite Hb', write_step_done by auto.
  cbn [then_step w_table]. change (is_state UPGRADED_UNVERIFIED UPGRADED_UNVERIFIED) with true. cbn. rewrite transition_hit; try done.
  rewrite Hs. apply (bool_decide_unpack _); by vm_compute.
Qed.
End backend.

Section life.
Context {OTS : OpenTimestamps} {Nodes : TimestampNodes} {Laws : OpenTimestampsLaws OTS}.

(** C11: the way of a tip to a Bitcoin attestation, through the whole stack.  A
    queued row is processed by a backend whose submitter answers for the SHA-256
    of the digest and the nonce, and later by one whose upgrader completes the
    timestamp.  The first time the serialized timestamp of the digest is
    published at the path of the row, which is then pending until one interval
    later; the second time the upgraded one takes its place and the row is
    upgraded; every other row and file is as it was. *)
Theorem row_reaches_bitcoin c c' nonce nonce' submitter submitter' upgrader upgrader' temporary temporary'
  job w now now' t digest submitted ts' b b' jitter jitter' random random' error error'
  (Htable : table_ok (w_table w)) (Hjob : job ∈ w_table w) (Hstate : state job = QUEUED)
  (Hdigest : bytes_fromhex (tip job) = Some digest) (Hlen : length digest = 32%nat) (Hnonce : length nonce = 16%nat)
  (Hpath : w_files w !! proof_path job = None)
  (Htmp : w_files w !! temporary = None) (Htmp' : w_files w !! temporary' = None) (Hother : temporary' <> proof_path job)
  (Hsubmit : submitter (sha256 (digest ++ nonce)) = Ok submitted)
  (Hb : ots_serialize (ots_nonce digest nonce submitted) = Some b)
  (Hpending : existsb is_bitcoin (ots_all_attestations (ots_nonce digest nonce submitted)) = false)
  (Hupgrade : upgrader (ots_nonce digest nonce submitted) = Ok (true, ts')) (Hmsg : ots_msg ts' = digest)
  (Hb' : ots_serialize ts' = Some b') (Hbitcoin : existsb is_bitcoin (ots_all_attestations ts') = true)
  (Htime : add_us now (minutes_us (interval_minutes job)) = Some t) :
  let env := backend_env (OpenTimestampsBackend c (Some submitter) upgrader' (Some nonce)) NoFailure temporary true
    jitter random error in
  let env' := backend_env (OpenTimestampsBackend c' submitter' (Some upgrader) nonce') NoFailure temporary' true
    jitter' random' error' in
  let pending := set_transition SUBMITTED_PENDING (_utc_text now) (Some (_utc_text t)) job in
  let upgraded := set_transition UPGRADED_UNVERIFIED (_utc_text now') None pending in
  let published := World (replace_row job pending (w_table w)) (<[proof_path job := b]> (w_files w)) in
  _process_job env job now w = (published, Ok tt) /\
  _process_job env' pending now' published
  = (World (replace_row job upgraded (w_table w)) (<[proof_path job := b']> (w_files w)), Ok tt) /\
  exists i, inspect_proof (ProofBytes b') digest = Ok i /\ has_bitcoin_attestation i = true.
Proof.
  cbv zeta. pose proof (stamp_returns _ _ _ _ _ Hlen Hnonce Hsubmit Hb) as Hstamp.
  pose proof (ots_nonce_msg digest nonce submitted) as Hm.
  pose proof (serialized_proof_inspects _ _ _ Hlen Hm Hb) as Hi. pose proof (serialized_proof_inspects _ _ _ Hlen Hmsg Hb') as Hi'.
  set (job1 := set_transition SUBMITTED_PENDING _ _ job).
  assert (Hrow : row_ok job1) by (destruct Htable as [_ _ Hrows]; rewrite Forall_forall in Hrows; apply set_transition_row;
    [apply (bool_decide_unpack _); by vm_compute|by apply Hrows]).
  split; [eapply queued_job_done; done|]. split; [|by eexists].
  rewrite <- (insert_insert_eq (w_files w) (proof_path job) b' b), <- (replace_twice job job1 (set_transition UPGRADED_UNVERIFIED (_utc_text now') None job1) (w_table w)) by done.
  eapply (pending_job_done _ job1 now' (World _ _) digest b b'); [| |done|done|apply lookup_insert_eq|done| |done|exact Hi| | |exact Hi'|done].
  - by apply replace_table_ok.
  - by apply replace_row_in.
  - cbn. by rewrite lookup_insert_ne.
  - done.
  - by eapply upgrade_returns.
Qed.
End life.

(** The toy library, with one node per timestamp. *)
#[local] Instance toy_nodes : TimestampNodes (H := toy_timestamps) := {
  node := unit; root := tt; node_msg t _ := t.1; node_attestations t _ := ots_all_attestations t;
  node_children _ _ := []; node_depth _ _ := O; node_merge _ _ _ := None; node_all _ := []
}.

Definition toy_client : client := Client false 1 [] (fun _ => Err ClientTransient) (fun _ => false) (fun _ _ _ => CalendarAborts).

Lemma row_reaches_bitcoin_witness :
  let tip_hash := repeat 97 64 in
  let job := Row 1 0 tip_hash QUEUED [47] 0 None None None None None 15 6 in
  let submitter := fun _ : bytes => Ok (([], false) : bytes * bool) in
  let env := backend_env (OpenTimestampsBackend toy_client (Some submitter) None (Some (repeat 5 16))) NoFailure [1] true None
    (S754_zero false) [] in
  w_files (_process_job env job 0 (World [job] ∅)).1 !! [47] = Some (0 :: repeat 170 32).
Proof.
  cbv zeta. set (job := Row _ _ _ _ _ _ _ _ _ _ _ _ _).
  assert (Ht : table_ok [job]) by (constructor; [by apply NoDup_singleton..|]; constructor; [by constructor|constructor]).
  pose proof (proj1 (row_reaches_bitcoin toy_client toy_client (repeat 5 16) None (fun _ => Ok ([], false)) None
    (fun ts => Ok (true, (ts.1, true))) None [1] [2] job (World [job] ∅) 0 0 (900 * us_per_second) (repeat 170 32) ([], false)
    (repeat 170 32, true) (0 :: repeat 170 32) (1 :: repeat 170 32) None None (S754_zero false) (S754_zero false) [] []
    Ht (list_elem_of_here _ _) eq_refl eq_refl eq_refl eq_refl (lookup_empty _) (lookup_empty _) (lookup_empty _) ltac:(done)
    eq_refl eq_refl eq_refl eq_refl eq_refl eq_refl eq_refl eq_refl)) as E.
  exact (eq_trans (f_equal (fun m => w_files m.1 !! [47]) E) (lookup_insert_eq _ _ _)).
Defined.
