(* ===== verification/WorkerCommand.v ===== *)
(** The paths of [forensics/logger.py] and the command line of
    [forensics/anchor_worker.py].

    A resolved path is the list of its names below the root.  [resolve] stands
    for [Path(text).expanduser().resolve()], which asks the file system. *)

From S2P Require Import Prelude.
From S2P Require Import PyText.
From S2P Require Import PyValue.
From S2P Require Import JsonDumps.
From S2P Require Import Timestamp.
From S2P Require Import AnchorWorker.

Notation path := (list (list Z)) (only parsing).

(** ** [logger.py] *)

(** [path.name], [path.parent]; the root is its own parent. *)
Definition path_name (p : path) : pystr := List.last p [].
Definition path_parent (p : path) : path := removelast p.

(** [path.with_name(name)]: [None] is the [ValueError] on the root. *)
Definition with_name (p : path) (name : pystr) : option path :=
  match p with [] => None | _ => Some (path_parent p ++ [name]) end.

Definition lock_path_for (store_path : path) : option path :=
  with_name store_path (path_name store_path ++ u ".lock").

(** [configured]: the variable [VESTRIX_FORENSICS_STORE]; an empty one counts
    as unset. *)
Definition get_store_path (resolve : pystr -> path) (default_path : path) (configured : option pystr) : path :=
  match configured with Some (c :: text) => resolve (c :: text) | _ => default_path end.

(** ** [int(text)] *)

(** White space outside ASCII that [int] skips. *)
Definition wide_spaces : list Z :=
  [0x85; 0xA0; 0x1680; 0x2000; 0x2001; 0x2002; 0x2003; 0x2004; 0x2005; 0x2006; 0x2007; 0x2008; 0x2009; 0x200A;
   0x2028; 0x2029; 0x202F; 0x205F; 0x3000].

(** A text that is not ASCII has its white space and its decimal digits replaced
    by those of ASCII. *)
Definition ascii_decimal (c : Z) : Z :=
  if c <? 127 then c
  else if existsb (Z.eqb c) wide_spaces then 32
  else match List.find (fun z => (z <=? c) && (c <=? z + 9)) digit_zeros with Some z => 48 + (c - z) | None => 63 end.

Fixpoint skip_spaces (s : pystr) : pystr :=
  match s with c :: s' => if is_space c then skip_spaces s' else s | [] => [] end.

(** The digits of a number, single underscores between them allowed, and what
    follows; [after] says that the character before was a digit. *)
Fixpoint int_digits (after : bool) (s : pystr) : option (pystr * pystr) :=
  match s with
  | c :: s' =>
      if is_digit c then '(ds, r) ← int_digits true s'; Some (c :: ds, r)
      else if c =? 95 then (if after then
             match s' with d :: _ => if is_digit d then int_digits false s' else None | [] => None end else None)
      else Some ([], s)
  | [] => Some ([], [])
  end.

(** [None] is [ValueError]. *)
Definition python_int (text : pystr) : option Z :=
  let s := skip_spaces (if forallb (fun c => c <? 128) text then text else map ascii_decimal text) in
  let '(neg, s) := match s with
                   | c :: s' => if c =? 45 then (true, s') else if c =? 43 then (false, s') else (false, s)
                   | [] => (false, [])
                   end in
  '(ds, r) ← int_digits false s;
  match ds, skip_spaces r with
  | _ :: _, [] => if Nat.leb (length ds) max_str_digits then Some (if neg : bool then - dec_value ds else dec_value ds) else None
  | _, _ => None
  end.

(** ** [anchor_worker.py] *)

Definition DEFAULT_INTERVAL_MINUTES : Z := 15.
Definition DEFAULT_CONFIRMATION_THRESHOLD : Z := 6.

(** The options as they are given; the parser stops with exit code 2 when the
    type of one raises. *)
Record worker_options := WorkerOptions {
  opt_chain : option pystr;
  opt_database : option pystr;
  opt_proof_directory : option pystr;
  opt_interval_minutes : option pystr;
  opt_confirmation_threshold : option pystr
}.

Definition _positive_int (value : pystr) : option Z :=
  parsed ← python_int value; if parsed <=? 0 then None else Some parsed.

Definition option_int (default_value : Z) (given : option pystr) : option Z :=
  match given with None => Some default_value | Some text => _positive_int text end.

(** A [--database] or [--proof-directory] that is given is used as it is. *)
Inductive target := GivenPath (text : pystr) | DefaultPath (p : path).

Record WorkerConfig := {
  chain_path : path;
  database_path : target;
  proof_directory : target;
  config_interval : Z;
  config_threshold : Z
}.

(** [__post_init__]: [None] is [ValueError]. *)
Definition post_init (c : WorkerConfig) : option WorkerConfig :=
  if WorkerConfig_ok (config_interval c) (config_threshold c) then Some c else None.

Section command.
Context (resolve : pystr -> path) (default_store : path).

Definition given_or (o : option pystr) (p : path) : target :=
  match o with Some text => GivenPath text | None => DefaultPath p end.

(** [_parse_args] and the configuration [main] makes of it; the inner [option]
    is the exception of the constructor. *)
Definition worker_config (configured : option pystr) (o : worker_options) : option (option WorkerConfig) :=
  let chain := match opt_chain o with
               | Some text => resolve text
               | None => get_store_path resolve default_store configured
               end in
  interval ← option_int DEFAULT_INTERVAL_MINUTES (opt_interval_minutes o);
  threshold ← option_int DEFAULT_CONFIRMATION_THRESHOLD (opt_confirmation_threshold o);
  Some (post_init {| chain_path := chain;
                     database_path := given_or (opt_database o) (path_parent chain ++ [u "anchors.sqlite3"]);
                     proof_directory := given_or (opt_proof_directory o) (path_parent chain ++ [u "anchors"]);
                     config_interval := interval; config_threshold := threshold |}).

(** [main]: the exit code, [None] when the constructor of the configuration
    raises; [run] is [run_once] on the configuration. *)
Definition worker_main {W E} (run : WorkerConfig -> W -> W * res E Z) (configured : option pystr) (o : worker_options) (w : W)
  : W * option Z :=
  match worker_config configured o with
  | None => (w, Some 2)
  | Some None => (w, None)
  | Some (Some config) =>
      match run config w with
      | (w', Ok _) => (w', Some 0)
      | (w', Err _) => (w', Some 1)
      end
  end.
End command.

(** ** Paths *)

Lemma path_split (p : path) : p <> [] -> p = path_parent p ++ [path_name p].
Proof. intros Hp. unfold path_parent, path_name. by apply app_removelast_last. Qed.

Lemma path_last (p : path) name : path_name (p ++ [name]) = name /\ path_parent (p ++ [name]) = p.
Proof. unfold path_name, path_parent. split; [apply last_last|apply removelast_last]. Qed.

(** Every store other than the root has a lock file, beside it and never the
    store itself, and two stores have one lock file only if they are one store:
    whoever holds the lock of a path excludes exactly the users of that path. *)
Theorem lock_path_exact (store : path) (Hstore : store <> []) :
  exists lock, lock_path_for store = Some lock /\ lock <> store /\ path_parent lock = path_parent store /\
    forall other, lock_path_for other = Some lock -> other = store.
Proof.
  assert (Hone : forall p, p <> [] -> lock_path_for p = Some (path_parent p ++ [path_name p ++ u ".lock"])) by by intros [].
  exists (path_parent store ++ [path_name store ++ u ".lock"]). split; [by apply Hone|]. split; [|split].
  - rewrite (path_split store Hstore) at 3. intros H%(f_equal path_name). rewrite !(proj1 (path_last _ _)) in H.
    apply (f_equal length) in H. rewrite length_app in H. change (length (u ".lock")) with 5%nat in H. lia.
  - apply path_last.
  - intros other Ho. destruct (decide (other = [])) as [->|Hother]; [done|]. rewrite Hone in Ho by done. injection Ho as Ho.
    pose proof (f_equal path_name Ho) as Hn. pose proof (f_equal path_parent Ho) as Hp.
    rewrite !(proj1 (path_last _ _)) in Hn. rewrite !(proj2 (path_last _ _)) in Hp. apply (inj (fun n => n ++ u ".lock")) in Hn.
    by rewrite (path_split other Hother), (path_split store Hstore), Hn, Hp.
Qed.

Lemma lock_path_exact_witness :
  exists lock, lock_path_for [u "store"; u "chain.jsonl"] = Some lock /\ lock <> [u "store"; u "chain.jsonl"].
Proof.
  destruct (lock_path_exact [u "store"; u "chain.jsonl"] ltac:(discriminate)) as (lock & H1 & H2 & _). by exists lock.
Defined.

(** ** Integers *)

Lemma int_digits_all ds after : Forall (fun c => is_digit c = true) ds -> int_digits after ds = Some (ds, []).
Proof. intros H. revert after. induction H as [|c ds Hc _ IH]; intros after; [done|]. cbn. by rewrite Hc, IH. Qed.

(** [int] reads the decimal text of every integer that [str] writes. *)
Lemma python_int_dec z : (length (dec_nat (Z.abs z)) <= max_str_digits)%nat -> python_int (dec z) = Some z.
Proof.
  intros Hl. assert (Hd : forall n, 0 <= n -> Forall (fun c => is_digit c = true) (dec_nat n)) by apply dec_nat_digits.
  assert (Hhead : forall n, 0 <= n -> exists c s, dec_nat n = c :: s /\ is_digit c = true).
  { intros n Hn. destruct (dec_nat n) as [|c s] eqn:E; [by destruct (dec_nat_ne n Hn)|]. exists c, s. split; [done|].
    pose proof (Hd n Hn) as Hf. rewrite E in Hf. by inversion Hf. }
  assert (Hread : forall n, 0 <= n -> (length (dec_nat n) <= max_str_digits)%nat ->
    ('(ds, r) ← int_digits false (dec_nat n);
     match ds, skip_spaces r with
     | _ :: _, [] => if Nat.leb (length ds) max_str_digits then Some (dec_value ds) else None
     | _, _ => None
     end) = Some n).
  { intros n Hn Hln. rewrite int_digits_all by by apply Hd. cbn [mbind option_bind skip_spaces].
    destruct (Hhead n Hn) as (c & s & E & _). rewrite E in *. rewrite (proj2 (Nat.leb_le _ _)) by done.
    f_equal. rewrite <- E. by apply dec_nat_value. }
  assert (Hascii : forallb (fun c => c <? 128) (dec z) = true).
  { apply forallb_forall. intros c Hc%list_elem_of_In. assert (Hf : Forall (fun c => c < 128) (dec z)).
    { assert (Hf : forall n, 0 <= n -> Forall (fun c => c < 128) (dec_nat n)).
      { intros n Hn. eapply Forall_impl; [by apply Hd|]. intros d Hdd. unfold is_digit in Hdd. cbn in *. zbool. lia. }
      unfold dec. destruct (Z.ltb_spec z 0); [|by apply Hf]. constructor; [lia|apply Hf; lia]. }
    rewrite Forall_forall in Hf. apply Z.ltb_lt. auto. }
  unfold python_int. rewrite Hascii. unfold dec. destruct (Z.ltb_spec z 0) as [Hz|Hz].
  - cbn [skip_spaces app]. change (is_space 45) with false. cbv iota. change (45 =? 45) with true. cbv iota.
    specialize (Hread (- z) ltac:(lia)). replace (Z.abs z) with (- z) in Hl by lia. specialize (Hread Hl).
    destruct (int_digits false (dec_nat (- z))) as [[ds r]|]; [|done]. cbn [mbind option_bind] in *.
    destruct ds as [|d ds]; [done|]. destruct (skip_spaces r); [|done]. destruct (Nat.leb _ _); [|done].
    injection Hread as ->. f_equal. lia.
  - specialize (Hread z Hz). replace (Z.abs z) with z in Hl by lia. specialize (Hread Hl).
    destruct (Hhead z Hz) as (c & s & E & Hc). rewrite E in *. cbn [skip_spaces].
    assert (is_space c = false) as -> by (unfold is_space, is_digit in *; zbool; lia).
    assert ((c =? 45) = false) as -> by (unfold is_digit in *; zbool; lia).
    assert ((c =? 43) = false) as -> by (unfold is_digit in *; zbool; lia). exact Hread.
Qed.

(** ** The command *)

Lemma option_int_positive d o n : 0 < d -> option_int d o = Some n -> 0 < n.
Proof.
  unfold option_int, _positive_int. intros Hd. destruct o as [text|]; [|by intros [= <-]].
  intros (p & _ & H)%bind_Some. destruct (Z.leb_spec p 0); [done|]. by injection H as <-.
Qed.

(** The worker's command always ends with an exit code: 2, without touching
    anything, exactly when the text of an option is not a positive integer, and
    else 0 or 1 as the run on the configuration returns or raises; the
    constructor of the configuration never refuses what the parser has accepted;
    the text of every positive integer is accepted as that integer; and the
    database and the proofs lie beside the chain unless their paths are given. *)
Theorem worker_main_exact {W E} resolve default_store (run : WorkerConfig -> W -> W * res E Z) configured o w :
  match worker_main resolve default_store run configured o w with
  | (w', Some code) =>
      (code = 2 /\ w' = w /\
        (option_int DEFAULT_INTERVAL_MINUTES (opt_interval_minutes o) = None \/
         option_int DEFAULT_CONFIRMATION_THRESHOLD (opt_confirmation_threshold o) = None)) \/
      exists config r, run config w = (w', r) /\ code = (if is_ok r then 0 else 1) /\
        option_int DEFAULT_INTERVAL_MINUTES (opt_interval_minutes o) = Some (config_interval config) /\
        option_int DEFAULT_CONFIRMATION_THRESHOLD (opt_confirmation_threshold o) = Some (config_threshold config) /\
        0 < config_interval config /\ 0 < config_threshold config /\
        (opt_database o = None -> database_path config = DefaultPath (path_parent (chain_path config) ++ [u "anchors.sqlite3"])) /\
        (opt_proof_directory o = None -> proof_directory config = DefaultPath (path_parent (chain_path config) ++ [u "anchors"]))
  | (_, None) => False
  end /\
  (forall d n, 0 < n -> (length (dec_nat n) <= max_str_digits)%nat -> option_int d (Some (dec n)) = Some n).
Proof.
  split.
  2:{ intros d n Hn Hl. unfold option_int, _positive_int. rewrite python_int_dec by by rewrite Z.abs_eq by lia.
      cbn. by destruct (Z.leb_spec n 0); [lia|]. }
  unfold worker_main, worker_config.
  destruct (option_int DEFAULT_INTERVAL_MINUTES (opt_interval_minutes o)) as [interval|] eqn:Ei; cbn [mbind option_bind]; [|by left; auto].
  destruct (option_int DEFAULT_CONFIRMATION_THRESHOLD (opt_confirmation_threshold o)) as [threshold|] eqn:Et;
    cbn [mbind option_bind]; [|by left; auto].
  pose proof (option_int_positive DEFAULT_INTERVAL_MINUTES _ _ eq_refl Ei) as Hi.
  pose proof (option_int_positive DEFAULT_CONFIRMATION_THRESHOLD _ _ eq_refl Et) as Ht.
  unfold post_init, WorkerConfig_ok. cbn [config_interval config_threshold].
  rewrite (proj2 (Z.ltb_lt 0 interval)), (proj2 (Z.ltb_lt 0 threshold)) by done. cbn [andb].
  set (config := {| chain_path := _ |}). destruct (run config w) as [w' r] eqn:Er.
  destruct r as [n|e]; right; exists config; eexists; (split; [exact Er|]); (split; [done|]); split_and!; try done; unfold config; cbn.
  all: by intros ->.
Qed.
