(* ===== verification/WorkerSharing.v ===== *)
(** [forensics/anchor_worker.py], several runs at once and runs that die.

    A run is cut where it reads or writes what others see: each transaction of
    the table, each look at a proof file, and each step of [write_proof_atomic].
    [advance] does one such step of one run; a [pool] interleaves the runs of any
    number of processes, which may be killed between any two steps. *)

From stdpp Require Import gmap relations.
From S2P Require Import Prelude.
From S2P Require Import PyText.
From S2P Require Import PyValue.
From S2P Require Import Calendar.
From S2P Require Import ChainStore.
From S2P Require Import Anchor.
From S2P Require Import AnchorStore.
From S2P Require Import AnchorWorker.

(** The arguments of one run. *)
Record run_args := RunArgs {
  ra_directory : pystr;
  ra_interval : Z;
  ra_threshold : Z;
  ra_now : Z
}.

(** The number of due jobs, and those after the present one. *)
Record queue := Queue { q_due : nat; q_rest : list row }.

(** Where a run is.  [Writing] to [Cleaning] are inside [write_proof_atomic]:
    before its test for the target, with the temporary file made, with it
    written and synced, and in [finally] after an [OSError]. *)
Inductive run_stage :=
| Starting
| Snapshot (sequence : Z) (tip_hash : pystr)
| Tracked
| Looping (q : queue)
| Trying (q : queue) (job : row)
| Writing (q : queue) (job : row) (proof : proof_object) (target : anchor_state) (replace : bool)
| Filling (q : queue) (job : row) (content : bytes) (target : anchor_state) (temporary : pystr)
| Replacing (q : queue) (job : row) (target : anchor_state) (temporary : pystr)
| Cleaning (q : queue) (job : row) (temporary : pystr)
| Leaving (q : queue) (job : row) (target : anchor_state)
| Keeping (q : queue) (job : row)
| Failing (q : queue) (job : row) (e : job_exn)
| Finished (r : res job_exn Z)
| Killed.

Definition over (st : run_stage) : bool :=
  match st with Finished _ | Killed => true | _ => false end.

Section sharing.
Context `{OpenTimestamps}.

Definition failing (q : queue) (job : row) (e : anchor_exn) : run_stage := Failing q job (StepError e).

(** The look at the proof file of a queued job, and the stamp or the
    inspection; the stamp sees no shared state. *)
Definition try_queued (env : job_env) (q : queue) (job : row) (digest : bytes) (fs : files) : run_stage :=
  match fs !! proof_path job with
  | Some proof =>
      if je_read env then
        match _target_state (ProofBytes proof) digest with
        | Err e => failing q job e
        | Ok target => Leaving q job target
        end
      else failing q job (PlainError OSErrorRaised)
  | None =>
      match je_stamp env digest with
      | Err e => failing q job e
      | Ok proof =>
          match _target_state proof digest with
          | Err e => failing q job e
          | Ok target => Writing q job proof target false
          end
      end
  end.

Definition try_pending (env : job_env) (q : queue) (job : row) (digest : bytes) (fs : files) : run_stage :=
  match fs !! proof_path job with
  | None => failing q job (PlainError MissingProofFile)
  | Some current_proof =>
      if je_read env then
        match inspect_proof (ProofBytes current_proof) digest with
        | Err e => failing q job e
        | Ok inspection =>
            if has_bitcoin_attestation inspection then Leaving q job UPGRADED_UNVERIFIED
            else
              match je_upgrade env (ProofBytes current_proof) digest with
              | Err e => failing q job e
              | Ok None => Keeping q job
              | Ok (Some upgraded) =>
                  match _target_state upgraded digest with
                  | Err e => failing q job e
                  | Ok target => Writing q job upgraded target true
                  end
              end
        end
      else failing q job (PlainError OSErrorRaised)
  end.

Definition try_job (env : job_env) (q : queue) (job : row) (fs : files) : run_stage :=
  if is_state (state job) QUEUED || is_state (state job) SUBMITTED_PENDING then
    match bytes_fromhex (tip job) with
    | None => failing q job (PlainError OtherException)
    | Some digest =>
        if is_state (state job) QUEUED then try_queued env q job digest fs else try_pending env q job digest fs
    end
  else Looping q.

(** What follows the published proof. *)
Definition published (q : queue) (job : row) (target : anchor_state) : run_stage :=
  if is_state (state job) SUBMITTED_PENDING && negb (is_state target UPGRADED_UNVERIFIED)
  then Keeping q job else Leaving q job target.

(** A transaction of the [try] block, and of the handlers. *)
Definition in_try {A} (q : queue) (job : row) (m : step_result A) : run_stage * world :=
  match m with (w, Ok _) => (Looping q, w) | (w, Err e) => (Failing q job e, w) end.

Definition in_handler (q : queue) (m : step_result unit) : run_stage * world :=
  match m with (w, Ok _) => (Looping q, w) | (w, Err e) => (Finished (Err e), w) end.

(** One step of a run; [None] when it is over, or when [mkstemp] would have
    found the name taken and chosen another. *)
Definition advance (a : run_args) (lock_acquired : bool) (store : file) (env : job_env) (st : run_stage) (w : world)
  : option (run_stage * world) :=
  let with_files fs := World (w_table w) fs in
  match st with
  | Starting =>
      Some (match snapshot_tip lock_acquired store with
            | Err e => Finished (Err (StepError e))
            | Ok (sequence, tip_hash) => Snapshot sequence tip_hash
            end, w)
  | Snapshot sequence tip_hash =>
      let '(t, _) := track_tip sequence tip_hash (proof_file (ra_directory a) sequence tip_hash)
                       (ra_interval a) (ra_threshold a) (w_table w) in
      Some (Tracked, World t (w_files w))
  | Tracked =>
      let due := due_jobs (_utc_text (ra_now a)) (w_table w) in
      Some (Looping (Queue (length due) due), w)
  | Looping (Queue n []) => Some (Finished (Ok (Z.of_nat n)), w)
  | Looping (Queue n (job :: jobs)) =>
      Some (if is_state (state job) RETRY_FAILED
            then match on_table w (resume_retry job (w_table w)) with
                 | (w, Ok job) => (Trying (Queue n jobs) job, w)
                 | (w, Err e) => (Finished (Err e), w)
                 end
            else (Trying (Queue n jobs) job, w))
  | Trying q job => Some (try_job env q job (w_files w), w)
  | Writing q job proof target replace =>
      match proof_bytes proof with
      | None => Some (failing q job (PlainError EmptyBackendProof), w)
      | Some content =>
          match je_write env with
          | FailMkdir => Some (failing q job (PlainError OSErrorRaised), w)
          | failure =>
              if negb replace && bool_decide (is_Some (w_files w !! proof_path job))
              then Some (failing q job (PlainError TargetExists), w)
              else match failure with
              | FailMkstemp => Some (failing q job (PlainError OSErrorRaised), w)
              | _ =>
                  if bool_decide (is_Some (w_files w !! je_temporary env)) then None
                  else Some (Filling q job content target (je_temporary env),
                             with_files (<[je_temporary env := []]> (w_files w)))
              end
          end
      end
  | Filling q job content target temporary =>
      Some match je_write env with
           | FailWrite n =>
               (Cleaning q job temporary, with_files (<[temporary := take n content]> (w_files w)))
           | _ => (Replacing q job target temporary, with_files (<[temporary := content]> (w_files w)))
           end
  | Replacing q job target temporary =>
      match je_write env, w_files w !! temporary with
      | FailReplace, _ | _, None => Some (Cleaning q job temporary, w)
      | _, Some content =>
          Some (published q job target, with_files (<[proof_path job := content]> (delete temporary (w_files w))))
      end
  | Cleaning q job temporary =>
      Some (failing q job (PlainError OSErrorRaised), with_files (delete temporary (w_files w)))
  | Leaving q job target => Some (in_try q job (leave_queue job target (ra_now a) w))
  | Keeping q job => Some (in_try q job (keep_pending job (ra_now a) w))
  | Failing q job e => Some (in_handler q (handle_failure env job (ra_now a) (w, Err e)))
  | Finished _ | Killed => None
  end.

(** ** Many runs *)

Record pool := Pool { po_world : world; po_runs : list (run_args * run_stage) }.

Definition set_run (i : nat) (a : run_args) (st : run_stage) (w : world) (p : pool) : pool :=
  Pool w (<[i := (a, st)]> (po_runs p)).

(** With [one_at_a_time], a run starts when every other one is over. *)
Inductive pool_step (one_at_a_time : bool) : pool -> pool -> Prop :=
| pool_start p a :
    (one_at_a_time = true -> Forall (fun r => over r.2 = true) (po_runs p)) ->
    pool_step one_at_a_time p (Pool (po_world p) (po_runs p ++ [(a, Starting)]))
| pool_advance p i a lock_acquired store env st st' w' :
    po_runs p !! i = Some (a, st) -> (exists stem, je_temporary env = stem ++ u ".tmp") ->
    advance a lock_acquired store env st (po_world p) = Some (st', w') ->
    pool_step one_at_a_time p (set_run i a st' w' p)
| pool_kill p i a st :
    po_runs p !! i = Some (a, st) -> over st = false ->
    pool_step one_at_a_time p (set_run i a Killed (po_world p) p).

Definition pool_reachable (one_at_a_time : bool) (w : world) (p : pool) : Prop :=
  rtc (pool_step one_at_a_time) (Pool w []) p.

(** ** One run alone *)

(** The job that a run is at. *)
Definition job_of (st : run_stage) : option row :=
  match st with
  | Trying _ job | Writing _ job _ _ _ | Filling _ job _ _ _ | Replacing _ job _ _ | Cleaning _ job _
  | Leaving _ job _ | Keeping _ job | Failing _ job _ => Some job
  | _ => None
  end.

(** A step of a run when nothing else runs: [envs] gives what the backend and
    the file system do for each job. *)
Definition alone_step (a : run_args) (lock_acquired : bool) (store : file) (envs : Z -> job_env)
  (before after : run_stage * world) : Prop :=
  advance a lock_acquired store (envs (match job_of before.1 with Some job => id job | None => 0 end))
    before.1 before.2 = Some after.
End sharing.
