(* ===== verification/WorkerSharingFacts.v ===== *)
(** Runs of the worker that share the table and the proof files: the invariant
    of every interleaving.  With [exact], for runs one at a time, a proof has the
    attestations that the state of its row says; otherwise it is a proof. *)

From stdpp Require Import gmap relations.
From S2P Require Import Prelude.
From S2P Require Import PyText.
From S2P Require Import PyValue.
From S2P Require Import RecordFormat.
From S2P Require Import Calendar.
From S2P Require Import ChainStore.
From S2P Require Import Anchor.
From S2P Require Import AnchorStore.
From S2P Require Import AnchorStoreFacts.
From S2P Require Import AnchorWorker.
From S2P Require Import WorkerFacts.
From S2P Require Import RunFacts.
From S2P Require Import WorkerSharing.

Section sharing.
Context `{OpenTimestamps} (exact : bool).

(** ** Rows, held jobs and stages *)

Definition row_proof (fs : files) (r : row) : Prop :=
  match effective r with
  | SUBMITTED_PENDING => exists bitcoin, proof_of fs r bitcoin
  | UPGRADED_UNVERIFIED => exists bitcoin, proof_of fs r bitcoin /\ (exact = true -> bitcoin = true)
  | _ => True
  end.

Record shared_inv (w : world) : Prop := SharedInv {
  sw_table : table_ok (w_table w);
  sw_paths : Forall path_ok (w_table w);
  sw_proofs : Forall (row_proof (w_files w)) (w_table w)
}.

(** A row that a run has read, perhaps long ago. *)
Record held (w : world) (job : row) : Prop := Held {
  he_row : row_ok job;
  he_path : path_ok job;
  he_known : exists r, r ∈ w_table w /\ identity r = identity job /\ (exact = true -> r = job);
  he_proof : row_proof (w_files w) job
}.

Definition jobs_ok (w : world) (jobs : list row) : Prop := Forall (held w) jobs /\ NoDup (map id jobs).

(** The proof is one of the job's tip, and [target] is what it asks for. *)
Definition good_proof (job : row) (proof : proof_object) (target : anchor_state) : Prop :=
  exists digest i, bytes_fromhex (tip job) = Some digest /\ inspect_proof proof digest = Ok i /\
    target = if has_bitcoin_attestation i then UPGRADED_UNVERIFIED else SUBMITTED_PENDING.

Definition active (job : row) : Prop := state job = QUEUED \/ state job = SUBMITTED_PENDING.

Definition stage_ok (w : world) (st : run_stage) : Prop :=
  match st with
  | Snapshot sequence tip_hash => 0 <= sequence /\ is_lower_hex_n 64 tip_hash = true
  | Looping q => jobs_ok w (q_rest q)
  | Trying q job | Failing q job _ => jobs_ok w (job :: q_rest q)
  | Writing q job proof target _ => jobs_ok w (job :: q_rest q) /\ active job /\ good_proof job proof target
  | Filling q job content target temporary =>
      jobs_ok w (job :: q_rest q) /\ active job /\ good_proof job (ProofBytes content) target /\
      temporary_ok temporary /\ is_Some (w_files w !! temporary)
  | Replacing q job target temporary =>
      jobs_ok w (job :: q_rest q) /\ active job /\ temporary_ok temporary /\
      exists content, w_files w !! temporary = Some content /\ good_proof job (ProofBytes content) target
  | Cleaning q job temporary =>
      jobs_ok w (job :: q_rest q) /\ temporary_ok temporary /\ is_Some (w_files w !! temporary)
  | Leaving q job target =>
      jobs_ok w (job :: q_rest q) /\ target ∈ target_states /\
      exists bitcoin, proof_of (w_files w) job bitcoin /\ (exact = true -> bitcoin = is_state target UPGRADED_UNVERIFIED)
  | Keeping q job => jobs_ok w (job :: q_rest q) /\ state job = SUBMITTED_PENDING
  | _ => True
  end.

(** The temporary file of a run. *)
Definition owned (st : run_stage) : option pystr :=
  match st with
  | Filling _ _ _ _ temporary | Replacing _ _ _ temporary | Cleaning _ _ temporary => Some temporary
  | _ => None
  end.

(** ** Proofs and files *)

Lemma row_proof_files fs fs' r r' :
  identity r' = identity r -> effective r' = effective r -> fs' !! proof_path r = fs !! proof_path r ->
  row_proof fs r -> row_proof fs' r'.
Proof.
  unfold row_proof. intros Hid -> Hfs. destruct (effective r); try done.
  - intros [b Hb]. exists b. by eapply proof_of_files.
  - intros (b & Hb & He). exists b. split; [by eapply proof_of_files|done].
Qed.

(** A proof of the tip is enough where no Bitcoin attestation is promised. *)
Lemma row_proof_any fs r b :
  proof_of fs r b -> (exact = true -> effective r = UPGRADED_UNVERIFIED -> b = true) -> row_proof fs r.
Proof. intros Hb He. unfold row_proof. destruct (effective r) eqn:E; try done; [by exists b|exists b; auto]. Qed.

Lemma proved_row fs r :
  row_proof fs r -> effective r = SUBMITTED_PENDING \/ effective r = UPGRADED_UNVERIFIED -> exists b, proof_of fs r b.
Proof. unfold row_proof. intros Hf [E|E]; rewrite E in Hf; [done|]. destruct Hf as (b & Hb & _). by exists b. Qed.

Lemma good_proof_file job content target fs :
  fs !! proof_path job = Some content -> good_proof job (ProofBytes content) target ->
  target ∈ target_states /\ exists b, proof_of fs job b /\ b = is_state target UPGRADED_UNVERIFIED.
Proof.
  intros Hf (digest & i & Hd & Hi & ->). split.
  - destruct (has_bitcoin_attestation i); apply (bool_decide_unpack _); vm_compute; exact I.
  - exists (has_bitcoin_attestation i). split; [by exists digest, content, i|]. by destruct (has_bitcoin_attestation i).
Qed.

Lemma held_same w job r :
  shared_inv w -> held w job -> r ∈ w_table w -> id r = id job -> identity r = identity job /\ (exact = true -> r = job).
Proof.
  intros [[Hi _ _] _ _] [_ _ (r0 & Hr0 & Hid & He) _] Hr E.
  assert (r = r0) as ->; [|done]. eapply same_id_same_row; [done..|]. apply identity_key in Hid as [-> _]. done.
Qed.

(** Two held jobs with different ids have different proof files. *)
Lemma held_paths w job j :
  shared_inv w -> held w job -> held w j -> id j <> id job -> proof_path j <> proof_path job.
Proof.
  intros [Ht Hp _] [_ _ (r & Hr & Hid & _) _] [_ _ (r' & Hr' & Hid' & _) _] Hne E. apply Hne.
  assert (r' = r) as ->; [|unfold identity in *; congruence].
  eapply path_row; [done..|]. unfold identity in *. congruence.
Qed.

(** Files that differ at temporary names only. *)
Definition same_proofs (fs fs' : files) : Prop := forall p, ~ temporary_ok p -> fs' !! p = fs !! p.

Lemma path_not_temporary r : path_ok r -> ~ temporary_ok (proof_path r).
Proof. intros Hr Ht. by apply (temporary_not_path _ r Ht Hr). Qed.

Lemma same_proofs_insert fs t b : temporary_ok t -> same_proofs fs (<[t := b]> fs).
Proof. intros Ht p Hp. apply lookup_insert_ne. by intros ->. Qed.

Lemma same_proofs_delete fs t : temporary_ok t -> same_proofs fs (delete t fs).
Proof. intros Ht p Hp. apply lookup_delete_ne. by intros ->. Qed.

Lemma same_proofs_row fs fs' r : path_ok r -> same_proofs fs fs' -> row_proof fs r -> row_proof fs' r.
Proof. intros Hp Hs. apply row_proof_files; [done|done|]. apply Hs. by apply path_not_temporary. Qed.

Lemma same_proofs_inv t fs fs' : same_proofs fs fs' -> shared_inv (World t fs) -> shared_inv (World t fs').
Proof.
  intros Hs [Ht Hp Hf]. constructor; try done. cbn in *. rewrite Forall_forall in *. intros r Hr.
  eapply same_proofs_row; eauto.
Qed.

Lemma same_proofs_jobs t fs fs' jobs : same_proofs fs fs' -> jobs_ok (World t fs) jobs -> jobs_ok (World t fs') jobs.
Proof.
  intros Hs [Hj Hn]. split; [|done]. eapply Forall_impl; [exact Hj|]. intros j [Hr Hp Hk Hf]. constructor; try done.
  by eapply same_proofs_row.
Qed.

(** A proof takes the place of the file of a job that is at it. *)
Lemma publish_inv t fs job content target :
  shared_inv (World t fs) -> held (World t fs) job -> active job -> good_proof job (ProofBytes content) target ->
  shared_inv (World t (<[proof_path job := content]> fs)).
Proof.
  intros Hinv Hj Ha Hg. pose proof Hinv as [Ht Hp Hf]. constructor; [done..|]. cbn in *. rewrite Forall_forall in *.
  intros r Hr. destruct (decide (proof_path r = proof_path job)) as [E|E].
  - destruct Hj as [_ _ (r0 & Hr0 & Hid & He) _]. cbn in Hr0.
    assert (r = r0) as ->.
    { eapply (path_row t); [done|by apply Forall_forall|done|done|]. unfold identity in Hid. congruence. }
    destruct (good_proof_file job content target (<[proof_path job := content]> fs)) as (_ & b & Hb & _);
      [apply lookup_insert_eq|done|].
    apply (row_proof_any _ _ b).
    + eapply proof_of_files; [exact Hid|done|done].
    + intros Hx. rewrite (He Hx). unfold effective. by destruct Ha as [-> | ->].
  - eapply row_proof_files; [done|done| |by apply Hf]. by apply lookup_insert_ne.
Qed.

Lemma publish_jobs t fs job content target q :
  shared_inv (World t fs) -> jobs_ok (World t fs) (job :: q) -> active job -> good_proof job (ProofBytes content) target ->
  jobs_ok (World t (<[proof_path job := content]> fs)) (job :: q).
Proof.
  intros Hinv [[Hj Hq]%Forall_cons Hn] Ha Hg. split; [|done].
  destruct (good_proof_file job content target (<[proof_path job := content]> fs)) as (_ & b & Hb & _);
    [apply lookup_insert_eq|done|]. apply Forall_cons. split.
  - destruct Hj as [Hr Hp Hk Hf]. constructor; try done. apply (row_proof_any _ _ b Hb). intros _.
    unfold effective. by destruct Ha as [-> | ->].
  - apply NoDup_cons in Hn as [Hni _]. rewrite Forall_forall in *. intros j Hjq. specialize (Hq j Hjq).
    assert (Hne : id j <> id job) by (intros E; apply Hni; rewrite <- E; by apply (list_elem_of_fmap_2 id)).
    pose proof (held_paths _ _ _ Hinv Hj Hq Hne) as Hpath. destruct Hq as [Hr Hp Hk Hf]. constructor; try done.
    eapply row_proof_files; [done|done| |exact Hf]. by apply lookup_insert_ne.
Qed.

(** ** Transactions *)

(** A transaction of a run that holds [job]: the invariant stays, no row is
    lost, the other held jobs stay held, and an exception means that nothing
    was changed. *)
Record transacted {A} (w : world) (job : row) (m : step_result A) : Prop := Transacted {
  tr_inv : shared_inv m.1;
  tr_files : w_files m.1 = w_files w;
  tr_rows : forall i, i ∈ map identity (w_table w) -> i ∈ map identity (w_table m.1);
  tr_held : forall j, held w j -> id j <> id job -> held m.1 j;
  tr_err : forall e, m.2 = Err e -> m.1 = w
}.

Lemma transacted_none {A} w job (m : step_result A) : shared_inv w -> m.1 = w -> transacted w job m.
Proof. intros Hw E. by constructor; rewrite E. Qed.

Lemma guarded_update_err job s f t e r :
  identity r = identity job -> r ∈ t -> (forall r, state r = s -> moves r (f r)) ->
  (guarded_update job s f t).2 = Err e -> (guarded_update job s f t).1 = t.
Proof.
  intros Hid Hr Hf He. pose proof (moves_ids _ _ (updated_moves job s f t Hf)) as [_ Hk].
  unfold guarded_update, update_where in *. destruct (Nat.eqb _ 1); [|done]. cbn [fst snd] in *.
  change (get _ _ _) with (get (sequence_no job) (tip job) (updated job s f t)) in He.
  destruct (get (sequence_no job) (tip job) (updated job s f t)) eqn:E; [done|]. apply get_None in E.
  exfalso. apply E. rewrite Hk. apply identity_key in Hid as [_ Hu]. unfold unique_key in Hu. rewrite <- Hu.
  by apply (list_elem_of_fmap_2 unique_key).
Qed.

Lemma guarded_update_get job s f t job' :
  (guarded_update job s f t).2 = Ok job' -> get (sequence_no job) (tip job) (guarded_update job s f t).1 = Some job'.
Proof.
  unfold guarded_update. destruct (update_where _ _ _ _) as [t' n]. destruct (Nat.eqb n 1); [|done]. cbn [fst snd].
  destruct (get _ _ _); [|done]. by intros [= ->].
Qed.

Lemma guarded_update_transacted w job s f :
  shared_inv w -> held w job ->
  (forall r, state r = s -> moves r (f r)) -> (forall r, state r = s -> row_ok r -> row_ok (f r)) ->
  (forall r, r ∈ w_table w -> id r = id job -> state r = s -> row_proof (w_files w) r -> row_proof (w_files w) (f r)) ->
  transacted w job (on_table w (guarded_update job s f (w_table w))) /\
  forall job', (guarded_update job s f (w_table w)).2 = Ok job' ->
    held (on_table w (guarded_update job s f (w_table w))).1 job' /\ id job' = id job.
Proof.
  intros Hinv Hj Hm Hr Hp. pose proof Hinv as [Ht Hpaths Hproofs].
  destruct (guarded_update_ok job s f (w_table w) Hm Hr Ht) as [Ht' Hmoves].
  pose proof (moves_identities _ _ Hmoves) as Hids. pose proof (guarded_update_cases job s f (w_table w)) as Hcases.
  pose proof Hj as [_ _ (r0 & Hr0 & Hid0 & _) _].
  assert (Herr : forall e, (guarded_update job s f (w_table w)).2 = Err e -> (guarded_update job s f (w_table w)).1 = w_table w)
    by (intros e; by eapply guarded_update_err).
  pose proof (guarded_update_get job s f (w_table w)) as Hget.
  destruct (guarded_update job s f (w_table w)) as [t' res]. cbn [fst snd on_table w_table w_files] in *.
  assert (Hrows : forall r', r' ∈ t' -> path_ok r' /\ row_proof (w_files w) r').
  { rewrite Forall_forall in *. destruct Hcases as [-> | ->]; [auto|].
    intros r' (r & -> & Hin)%list_elem_of_fmap. destruct (hits job s r) eqn:Eh; [|auto].
    unfold hits in Eh. apply andb_true_iff in Eh as [E1%Z.eqb_eq E2%is_state_true]. split; [|by apply Hp; auto].
    destruct (Hm r E2) as [Hid _]. eapply path_ok_identity; [exact Hid|auto]. }
  split.
  - constructor; cbn [fst snd on_table w_table w_files]; [|done|by rewrite Hids| |].
    + constructor; [done|..]; apply Forall_forall; intros r' Hr'; by apply Hrows.
    + intros j [Hjr Hjp (r & Hin & Hid & He) Hjf] Hne. constructor; try done. cbn [w_table].
      assert (Hi : identity j ∈ map identity t') by (rewrite Hids, <- Hid; by apply (list_elem_of_fmap_2 identity)).
      destruct exact; [|apply list_elem_of_fmap in Hi as (r' & E & Hr'); by exists r'].
      rewrite (He eq_refl) in *. exists j. split; [|done]. destruct Hcases as [-> | ->]; [done|].
      apply list_elem_of_fmap. exists j. split; [|done]. unfold hits. by rewrite (proj2 (Z.eqb_neq _ _) Hne).
    + intros e He. destruct res as [|e']; [done|]. rewrite (Herr e') by done. by destruct w.
  - intros job' ->. specialize (Hget job' eq_refl). pose proof Hget as [Hin Hu]%get_Some.
    destruct (Hrows job' Hin) as [Hp1 Hp2]. split.
    + constructor; try done; [|by exists job']. destruct Ht' as [_ _ Hok']. rewrite Forall_forall in Hok'. by apply Hok'.
    + assert (Hi : identity r0 ∈ map identity t') by (rewrite Hids; by apply (list_elem_of_fmap_2 identity)).
      apply list_elem_of_fmap in Hi as (r' & E & Hr'). assert (r' = job') as <-.
      { pose proof (get_unique _ r' ltac:(apply Ht') Hr') as Hg'. apply eq_sym, identity_key in E as [_ E].
        apply identity_key in Hid0 as [_ Hid]. unfold unique_key in *. congruence. }
      apply identity_key in Hid0 as [<- _]. by apply eq_sym, identity_key in E as [-> _].
Qed.

Lemma transacted_then {A} w job (m : step_result A) :
  transacted w job m -> transacted w job (then_step m (fun w _ => (w, Ok tt))).
Proof. intros [H1 H2 H3 H4 H5]. destruct m as [w' [x|e]]; constructor; cbn in *; try done. by intros e' [= ->]; apply (H5 e'). Qed.

(** The row that an update hits has the proof of the job. *)
Lemma hit_proof w job r r' b :
  shared_inv w -> held w job -> r ∈ w_table w -> id r = id job -> identity r' = identity r ->
  proof_of (w_files w) job b -> (exact = true -> effective r' = UPGRADED_UNVERIFIED -> b = true) ->
  row_proof (w_files w) r'.
Proof.
  intros Hw Hj Hr Hi Hid Hb He. destruct (held_same w job r Hw Hj Hr Hi) as [Hid' _].
  apply (row_proof_any _ _ b); [|done]. eapply proof_of_files; [|done|exact Hb]. congruence.
Qed.

Lemma transition_transacted w job target now next b :
  shared_inv w -> held w job -> target ∈ target_states -> proof_of (w_files w) job b ->
  (exact = true -> b = is_state target UPGRADED_UNVERIFIED) ->
  transacted w job (on_table w (transition job target now next (w_table w))).
Proof.
  intros Hw Hj Ht Hb He. unfold transition. case_bool_decide as Ha; [|apply transacted_none; [done|by destruct w]].
  eapply guarded_update_transacted; [done|done|..].
  - intros r Hr. apply set_transition_moves. by rewrite Hr.
  - intros r _. by apply set_transition_row.
  - intros r Hr Hi _ _. eapply hit_proof; [done|done|exact Hr|done|done|exact Hb|]. intros Hx Hu. rewrite (He Hx).
    apply is_state_true. unfold effective in Hu. cbn [state retry_from set_transition] in Hu.
    destruct (is_state target RETRY_FAILED); [done|exact Hu].
Qed.

Lemma leave_queue_transacted w job target now b :
  shared_inv w -> held w job -> target ∈ target_states -> proof_of (w_files w) job b ->
  (exact = true -> b = is_state target UPGRADED_UNVERIFIED) ->
  transacted w job (leave_queue job target now w).
Proof.
  intros Hw Hj Ht Hb He. unfold leave_queue. destruct (if is_state target _ then _ else _) as [next|e];
    [|by apply transacted_none]. by eapply transition_transacted.
Qed.

Lemma keep_pending_transacted w job now :
  shared_inv w -> held w job -> transacted w job (keep_pending job now w).
Proof.
  intros Hw Hj. unfold keep_pending. destruct (_next_pending_attempt job now) as [next|e]; [|by apply transacted_none].
  eapply guarded_update_transacted; [done|done|..].
  - intros r Hr. split; [done|by left].
  - intros r. apply set_pending_row.
  - intros r _ _ Hs. apply row_proof_files; [done| |done]. unfold effective. cbn [state set_pending]. by rewrite Hs.
Qed.

Lemma record_failure_transacted w job c error now next :
  shared_inv w -> held w job -> failure_time c next ->
  transacted w job (on_table w (record_failure job c error now next (w_table w))).
Proof.
  intros Hw Hj Ht. unfold record_failure. case_bool_decide as Ha; [|apply transacted_none; [done|by destruct w]].
  eapply guarded_update_transacted; [done|done|..].
  - intros r Hr. by apply set_failure_moves.
  - intros r _ _. apply set_failure_row; [apply Hj|done|done].
  - intros r _ _ Hs. apply row_proof_files; [done| |done]. unfold effective. cbn [state retry_from set_failure].
    rewrite is_state_refl, Hs. cbn. destruct (is_state (state job) RETRY_FAILED) eqn:E; [|done].
    apply is_state_true in E. by apply retry_source_live in Ha as [_ ?].
Qed.

Lemma resume_retry_transacted w job :
  shared_inv w -> held w job ->
  transacted w job (on_table w (resume_retry job (w_table w))) /\
  forall job', (resume_retry job (w_table w)).2 = Ok job' ->
    held (on_table w (resume_retry job (w_table w))).1 job' /\ id job' = id job.
Proof.
  intros Hw Hj. unfold resume_retry. destruct (retry_from job) as [s|] eqn:Er;
    [|split; [apply transacted_none; [done|by destruct w]|done]].
  destruct (is_state (state job) RETRY_FAILED && bool_decide (s ∈ RETRY_SOURCES)) eqn:E;
    [|split; [apply transacted_none; [done|by destruct w]|done]].
  apply andb_true_iff in E as [Hst Hs%bool_decide_eq_true]. apply guarded_update_transacted; [done|done|..].
  - intros r. by apply set_resumed_moves.
  - intros r _. by apply set_resumed_row.
  - intros r Hr Hi _ _. destruct (held_same w job r Hw Hj Hr Hi) as [Hid _].
    apply (row_proof_files (w_files w) _ job); [by rewrite <- Hid| |done|apply Hj].
    unfold effective. cbn [state retry_from set_resumed]. rewrite Hst, Er. cbn.
    destruct (is_state s RETRY_FAILED) eqn:E; [|done]. apply is_state_true in E. by apply retry_source_live in Hs as [_ ?].
Qed.

Lemma handle_failure_transacted w env job now e :
  shared_inv w -> held w job -> transacted w job (handle_failure env job now (w, Err e)).
Proof.
  intros Hw Hj. assert (Hretry : transacted w job (schedule_retry env job now w)).
  { unfold schedule_retry. destruct (retry_delay_seconds _ _); [|by apply transacted_none].
    destruct (timedelta_seconds _ ≫= _) as [t|]; [|by apply transacted_none].
    apply transacted_then, record_failure_transacted; [done|done|]. split; [done|by intros]. }
  destruct e as [[r| | | |]| | |]; try exact Hretry; cbn [handle_failure].
  - apply transacted_then, record_failure_transacted; [done|done|]. by split.
  - by apply transacted_none.
Qed.

(** ** Steps *)

(** What a step of one run means for the others: rows stay, proofs stay proofs,
    and only the temporary file [mine] is touched, unless a new one is made. *)
Record evolves (mine : option pystr) (w w' : world) : Prop := Evolves {
  ev_rows : forall i, i ∈ map identity (w_table w) -> i ∈ map identity (w_table w');
  ev_proofs : forall r b, path_ok r -> identity r ∈ map identity (w_table w) -> proof_of (w_files w) r b ->
    exists b', proof_of (w_files w') r b';
  ev_temps : forall t, temporary_ok t -> is_Some (w_files w !! t) -> mine <> Some t -> w_files w' !! t = w_files w !! t
}.

(** The temporary file of the next stage: the same, none, or a new one. *)
Definition next_owned (w : world) (before after : option pystr) : Prop :=
  after = before \/ after = None \/ exists t, after = Some t /\ w_files w !! t = None.

Lemma evolves_table mine w w' :
  w_files w' = w_files w -> (forall i, i ∈ map identity (w_table w) -> i ∈ map identity (w_table w')) -> evolves mine w w'.
Proof. intros Hf Hr. constructor; [done|intros r b _ _ Hb; rewrite Hf; by exists b|intros t _ _ _; by rewrite Hf]. Qed.

Lemma evolves_same mine w : evolves mine w w.
Proof. by apply evolves_table. Qed.

Lemma evolves_files mine t fs fs' :
  same_proofs fs fs' -> (forall p, is_Some (fs !! p) -> mine <> Some p -> fs' !! p = fs !! p) ->
  evolves mine (World t fs) (World t fs').
Proof.
  intros Hs Ho. constructor; cbn [w_table w_files]; [done| |auto]. intros r b Hp _ Hb. exists b.
  eapply proof_of_files; [done| |exact Hb]. by apply Hs, path_not_temporary.
Qed.

(** The end of a step of the [try] block or of a handler. *)
Lemma in_try_ok {A} w q job (m : step_result A) st' w' :
  jobs_ok w (job :: q_rest q) -> transacted w job m -> in_try q job m = (st', w') ->
  shared_inv w' /\ stage_ok w' st' /\ evolves None w w' /\ owned st' = None.
Proof.
  intros [[Hj Hq]%Forall_cons Hn] [H1 H2 H3 H4 H5]. unfold in_try. destruct m as [w1 [x|e]]; intros [= <- <-]; cbn in *.
  - split; [done|]. split; [|split; [by apply evolves_table|done]]. apply NoDup_cons in Hn as [Hni Hn]. split; [|done].
    rewrite Forall_forall in *. intros j Hjq. apply H4; [auto|]. intros E. apply Hni. rewrite <- E.
    by apply (list_elem_of_fmap_2 id).
  - rewrite (H5 e eq_refl) in *. split; [done|]. split; [|split; [apply evolves_same|done]]. split; [by constructor|done].
Qed.

Lemma in_handler_ok w q job (m : step_result unit) st' w' :
  jobs_ok w (job :: q_rest q) -> transacted w job m -> in_handler q m = (st', w') ->
  shared_inv w' /\ stage_ok w' st' /\ evolves None w w' /\ owned st' = None.
Proof.
  intros Hj Ht E. destruct m as [w1 [x|e]]; [by eapply (in_try_ok w q job (w1, Ok x))|]. injection E as <- <-.
  destruct Ht as [H1 H2 H3 H4 H5]. cbn in *. split; [done|]. split; [done|]. split; [by apply evolves_table|done].
Qed.

Lemma snapshot_ok w a sequence tip_hash t b :
  shared_inv w -> 0 <= sequence -> is_lower_hex_n 64 tip_hash = true ->
  track_tip sequence tip_hash (proof_file (ra_directory a) sequence tip_hash) (ra_interval a) (ra_threshold a)
    (w_table w) = (t, b) ->
  shared_inv (World t (w_files w)) /\ evolves None w (World t (w_files w)).
Proof.
  intros [Ht Hp Hf] Hs Hh E.
  pose proof (track_tip_ok sequence tip_hash (proof_file (ra_directory a) sequence tip_hash) (ra_interval a)
    (ra_threshold a) (w_table w) Ht) as Ht'.
  destruct (track_tip_cases sequence tip_hash (proof_file (ra_directory a) sequence tip_hash) (ra_interval a)
    (ra_threshold a) (w_table w)) as [(_ & _ & _ & E')|[_ E']]; rewrite E' in *; injection E as <- <-.
  - split; [by destruct w|]. by apply evolves_table.
  - split; [|apply evolves_table; [done|]; intros i Hi; cbn; rewrite map_app; apply elem_of_app; by left].
    constructor; [done|..]; apply Forall_app_2; try done; repeat constructor. by exists (ra_directory a).
Qed.

Lemma due_held w now : shared_inv w -> jobs_ok w (due_jobs now (w_table w)).
Proof.
  intros [[Hi Hk Hr] Hp Hf]. split; [|by apply due_jobs_ids]. rewrite Forall_forall in *.
  intros j [Hj _]%due_jobs_in. constructor; auto. by exists j.
Qed.

(** The look at the proof file. *)
Lemma try_job_ok w q env job :
  jobs_ok w (job :: q_rest q) -> stage_ok w (try_job env q job (w_files w)) /\ owned (try_job env q job (w_files w)) = None.
Proof.
  intros Hj. unfold try_job, try_queued, try_pending, failing. destruct (is_state (state job) QUEUED) eqn:Eq; cbn [orb].
  - apply is_state_true in Eq. destruct (bytes_fromhex (tip job)) as [digest|] eqn:Ed; [|done].
    destruct (w_files w !! proof_path job) as [proof|] eqn:Ef.
    + destruct (je_read env); [|done]. destruct (_target_state _ digest) as [target|e] eqn:Et; [|done].
      apply target_state_Ok in Et as (i & Hi & Htg). assert (Hg : good_proof job (ProofBytes proof) target) by by exists digest, i.
      destruct (good_proof_file job proof target _ Ef Hg) as (H1 & b & H2 & H3). split; [|done]. split; [done|]. split; [done|].
      by exists b.
    + destruct (je_stamp env digest) as [proof|e]; [|done]. destruct (_target_state _ digest) as [target|e] eqn:Et; [|done].
      apply target_state_Ok in Et as (i & Hi & Htg). split; [|done]. split; [done|]. split; [by left|]. by exists digest, i.
  - destruct (is_state (state job) SUBMITTED_PENDING) eqn:Es.
    2:{ destruct Hj as [Hj Hn]. apply Forall_cons in Hj as [_ Hj]. by apply NoDup_cons in Hn as [_ Hn]. }
    apply is_state_true in Es. destruct (bytes_fromhex (tip job)) as [digest|] eqn:Ed; [|done].
    destruct (w_files w !! proof_path job) as [proof|] eqn:Ef; [|done].
    destruct (je_read env); [|done]. destruct (inspect_proof _ digest) as [i|e] eqn:Ei; [|done].
    destruct (has_bitcoin_attestation i) eqn:Eb.
    { split; [|done]. split; [done|]. split; [right; by left|]. exists true. split; [by exists digest, proof, i|done]. }
    destruct (je_upgrade env _ digest) as [[upgraded|]|e]; [|by split|done].
    destruct (_target_state _ digest) as [target|e] eqn:Et; [|done].
    apply target_state_Ok in Et as (i' & Hi & Htg). split; [|done]. split; [done|]. split; [by right|]. by exists digest, i'.
Qed.

(** A step that changes temporary files only. *)
Lemma temporary_step mine w fs' :
  shared_inv w -> same_proofs (w_files w) fs' ->
  (forall p, is_Some (w_files w !! p) -> mine <> Some p -> fs' !! p = w_files w !! p) ->
  shared_inv (World (w_table w) fs') /\ evolves mine w (World (w_table w) fs').
Proof.
  intros Hw Hs Ho. destruct w as [t fs]. split; [by eapply same_proofs_inv|by apply evolves_files].
Qed.

Lemma writing_ok a lock store env q job proof target replace w st' w' :
  shared_inv w -> stage_ok w (Writing q job proof target replace) -> temporary_ok (je_temporary env) ->
  advance a lock store env (Writing q job proof target replace) w = Some (st', w') ->
  shared_inv w' /\ stage_ok w' st' /\ evolves None w w' /\ next_owned w None (owned st').
Proof.
  intros Hw (Hj & Ha & Hg) Htmp. cbn [advance].
  assert (Hfail : forall e, shared_inv w /\ stage_ok w (failing q job e) /\ evolves None w w /\ next_owned w None None)
    by (intros e; split; [done|]; split; [done|]; split; [apply evolves_same|by left]).
  destruct (proof_bytes proof) as [content|] eqn:Ec; [|intros [= <- <-]; apply Hfail].
  assert (Hnew : forall r, (if negb replace && bool_decide (is_Some (w_files w !! proof_path job))
      then Some (failing q job (PlainError TargetExists), w) else r) = Some (st', w') ->
    (r = Some (st', w') -> shared_inv w' /\ stage_ok w' st' /\ evolves None w w' /\ next_owned w None (owned st')) ->
    shared_inv w' /\ stage_ok w' st' /\ evolves None w w' /\ next_owned w None (owned st')).
  { intros r. destruct (negb replace && _); [intros [= <- <-] _; apply Hfail|auto]. }
  assert (Hfill : (if bool_decide (is_Some (w_files w !! je_temporary env)) then None
      else Some (Filling q job content target (je_temporary env), World (w_table w) (<[je_temporary env := []]> (w_files w))))
      = Some (st', w') ->
    shared_inv w' /\ stage_ok w' st' /\ evolves None w w' /\ next_owned w None (owned st')).
  { destruct (bool_decide (is_Some (w_files w !! je_temporary env))) eqn:Hf; [intros Hx; discriminate Hx|].
    apply bool_decide_eq_false, eq_None_not_Some in Hf. intros [= <- <-].
    pose proof (same_proofs_insert (w_files w) _ [] Htmp) as Hs.
    destruct (temporary_step None w _ Hw Hs) as [H1 H2].
    { intros p Hp _. apply lookup_insert_ne. intros <-. by rewrite Hf in Hp; destruct Hp. }
    split; [done|]. split; [|split; [done|right; right; by exists (je_temporary env)]].
    apply proof_bytes_Some in Ec as ->. destruct w as [t fs]. split; [by eapply same_proofs_jobs|].
    split; [done|]. split; [done|]. split; [done|]. cbn. rewrite lookup_insert_eq. by eexists. }
  destruct (je_write env); try (intros E; apply (Hnew _ E); first [exact Hfill|intros [= <- <-]; apply Hfail]).
  intros [= <- <-]. apply Hfail.
Qed.

(** The temporary file is this run's, so no other file changes. *)
Lemma own_step w t fs' :
  shared_inv w -> temporary_ok t -> (forall p, p <> t -> fs' !! p = w_files w !! p) ->
  shared_inv (World (w_table w) fs') /\ evolves (Some t) w (World (w_table w) fs') /\
  forall jobs, jobs_ok w jobs -> jobs_ok (World (w_table w) fs') jobs.
Proof.
  intros Hw Ht Hf. assert (Hs : same_proofs (w_files w) fs') by (intros p Hp; apply Hf; by intros ->).
  destruct (temporary_step (Some t) w fs' Hw Hs) as [H1 H2]; [intros p _ Hne; apply Hf; congruence|].
  split; [done|]. split; [done|]. intros jobs. destruct w. by apply same_proofs_jobs.
Qed.

Lemma filling_ok a lock store env q job content target t w st' w' :
  shared_inv w -> stage_ok w (Filling q job content target t) ->
  advance a lock store env (Filling q job content target t) w = Some (st', w') ->
  shared_inv w' /\ stage_ok w' st' /\ evolves (Some t) w w' /\ owned st' = Some t.
Proof.
  intros Hw (Hj & Ha & Hg & Ht & Hf). cbn [advance].
  assert (Hstep : forall b, shared_inv (World (w_table w) (<[t := b]> (w_files w))) /\
    evolves (Some t) w (World (w_table w) (<[t := b]> (w_files w))) /\
    forall jobs, jobs_ok w jobs -> jobs_ok (World (w_table w) (<[t := b]> (w_files w))) jobs).
  { intros b. apply own_step; [done..|]. intros p Hp. by apply lookup_insert_ne. }
  assert (Hnext : forall st b, stage_ok (World (w_table w) (<[t := b]> (w_files w))) st -> owned st = Some t ->
    Some (st, World (w_table w) (<[t := b]> (w_files w))) = Some (st', w') ->
    shared_inv w' /\ stage_ok w' st' /\ evolves (Some t) w w' /\ owned st' = Some t).
  { intros st b Hst Ho [= <- <-]. destruct (Hstep b) as (H1 & H2 & _). done. }
  assert (Hlook : forall b, (<[t := b]> (w_files w)) !! t = Some b) by (intros b; apply lookup_insert_eq).
  destruct (je_write env) as [| | |n|]; (eapply Hnext; [|done]); cbn [stage_ok w_files]; rewrite Hlook;
    (split; [by apply Hstep|]); eauto 10.
Qed.

Lemma published_ok w q job target :
  jobs_ok w (job :: q_rest q) -> target ∈ target_states ->
  (exists b, proof_of (w_files w) job b /\ b = is_state target UPGRADED_UNVERIFIED) ->
  stage_ok w (published q job target) /\ owned (published q job target) = None.
Proof.
  intros Hj Ht (b & Hb & He). unfold published. destruct (is_state (state job) SUBMITTED_PENDING) eqn:Es; cbn [andb].
  - apply is_state_true in Es. destruct (is_state target UPGRADED_UNVERIFIED) eqn:Eu; cbn [negb]; (split; [|done]); [|by split].
    split; [done|]. split; [done|]. exists b. by rewrite Eu.
  - split; [|done]. split; [done|]. split; [done|]. by exists b.
Qed.

Lemma replacing_ok a lock store env q job target t w st' w' :
  shared_inv w -> stage_ok w (Replacing q job target t) ->
  advance a lock store env (Replacing q job target t) w = Some (st', w') ->
  shared_inv w' /\ stage_ok w' st' /\ evolves (Some t) w w' /\ (owned st' = Some t \/ owned st' = None).
Proof.
  intros Hw (Hj & Ha & Ht & content & Hc & Hg). cbn [advance]. rewrite Hc.
  assert (Hclean : shared_inv w /\ stage_ok w (Cleaning q job t) /\ evolves (Some t) w w /\ (Some t = Some t \/ Some t = None)).
  { split; [done|]. split; [|split; [apply evolves_same|by left]]. split; [done|]. split; [done|]. rewrite Hc. by eexists. }
  assert (Hpub : Some (published q job target, World (w_table w) (<[proof_path job := content]> (delete t (w_files w)))) = Some (st', w') ->
    shared_inv w' /\ stage_ok w' st' /\ evolves (Some t) w w' /\ (owned st' = Some t \/ owned st' = None)).
  { intros [= <- <-]. destruct (own_step w t (delete t (w_files w)) Hw Ht) as (H1 & H2 & H3);
      [intros p Hp; by apply lookup_delete_ne|]. specialize (H3 _ Hj).
    pose proof (publish_jobs _ _ _ _ _ _ H1 H3 Ha Hg) as Hj'. pose proof H3 as [[Hh _]%Forall_cons _].
    pose proof (publish_inv _ _ _ _ _ H1 Hh Ha Hg) as Hw'.
    destruct (good_proof_file job content target (<[proof_path job := content]> (delete t (w_files w)))) as (Htg & Hb);
      [apply lookup_insert_eq|done|].
    destruct (published_ok (World (w_table w) (<[proof_path job := content]> (delete t (w_files w)))) q job target Hj' Htg Hb)
      as [Hst Ho].
    split; [done|]. split; [done|]. split; [|by right]. constructor; cbn [w_table w_files]; [done|..].
    - intros r b Hp Hr Hpr. destruct (decide (proof_path r = proof_path job)) as [E|E].
      + destruct Hb as (b' & Hb' & _). exists b'. destruct Hh as [_ _ (r0 & Hr0 & Hid & _) _].
        apply list_elem_of_fmap in Hr as (r1 & E1 & Hr1). assert (r1 = r0) as ->.
        { eapply (path_row (w_table w)); [apply Hw|apply Hw|done|done|]. unfold identity in *. congruence. }
        eapply proof_of_files; [|done|exact Hb']. congruence.
      + exists b. eapply proof_of_files; [done| |exact Hpr]. rewrite lookup_insert_ne by done.
        apply lookup_delete_ne. intros ->. by apply (path_not_temporary r Hp).
    - intros p Hp _ Hne. rewrite lookup_insert_ne, lookup_delete_ne; [done|congruence|].
      intros <-. apply (path_not_temporary job); [apply Hh|done]. }
  destruct (je_write env); try exact Hpub. intros [= <- <-]. exact Hclean.
Qed.

Lemma looping_ok a lock store env n job jobs w st' w' :
  shared_inv w -> stage_ok w (Looping (Queue n (job :: jobs))) ->
  advance a lock store env (Looping (Queue n (job :: jobs))) w = Some (st', w') ->
  shared_inv w' /\ stage_ok w' st' /\ evolves None w w' /\ owned st' = None.
Proof.
  intros Hw [[Hj Hq]%Forall_cons Hn]. cbn [advance].
  destruct (is_state (state job) RETRY_FAILED).
  2:{ intros [= <- <-]. split; [done|]. split; [split; [by apply Forall_cons|done]|]. split; [apply evolves_same|done]. }
  destruct (resume_retry_transacted w job Hw Hj) as [Ht Hheld].
  pose proof (in_handler_ok w (Queue n jobs) job (then_step (on_table w (resume_retry job (w_table w))) (fun w _ => (w, Ok tt)))
    (Looping (Queue n jobs)) (on_table w (resume_retry job (w_table w))).1) as Hloop.
  pose proof (transacted_then _ _ _ Ht) as Htt. destruct (resume_retry job (w_table w)) as [t' [job'|e]]; cbn [on_table map_err fst snd] in *.
  - intros [= <- <-]. destruct (Hheld job' eq_refl) as [Hj' Hid].
    destruct Hloop as (H1 & [H2 _] & H3 & _); [by split; [apply Forall_cons|]|done|done|].
    split; [done|]. split; [|by split]. split; [by apply Forall_cons|]. cbn [map] in *. by rewrite Hid.
  - intros [= <- <-]. destruct Ht as [H1 H2 H3 _ _]. split; [done|]. split; [done|]. split; [by apply evolves_table|done].
Qed.

(** Every step of a run keeps the invariant. *)
Lemma advance_ok a lock store env w st st' w' :
  shared_inv w -> stage_ok w st -> temporary_ok (je_temporary env) -> advance a lock store env st w = Some (st', w') ->
  shared_inv w' /\ stage_ok w' st' /\ evolves (owned st) w w' /\ next_owned w (owned st) (owned st').
Proof.
  intros Hw Hst Htmp. assert (Hsame : forall st', stage_ok w st' -> owned st' = None ->
    shared_inv w /\ stage_ok w st' /\ evolves None w w /\ next_owned w None (owned st'))
    by (intros x Hx Ho; split; [done|]; split; [done|]; split; [apply evolves_same|by right; left]).
  assert (Hleft : shared_inv w' /\ stage_ok w' st' /\ evolves None w w' /\ owned st' = None ->
    shared_inv w' /\ stage_ok w' st' /\ evolves None w w' /\ next_owned w None (owned st'))
    by (intros (? & ? & ? & ->); split_and!; try done; by left).
  destruct st as [|sequence tip_hash| |[n [|job jobs]]|q job|q job proof target replace|q job content target t
    |q job target t|q job t|q job target|q job|q job e|r|]; cbn [owned].
  - cbn [advance]. unfold snapshot_tip. destruct (locked_tip lock store) as [[s h]|e] eqn:El; intros [= <- <-]; apply Hsame; try done.
    by destruct (locked_tip_Ok _ _ _ _ El) as (_ & _ & _ & Hs & _ & _ & Hh).
  - cbn [advance]. destruct (track_tip _ _ _ _ _ _) as [t b] eqn:Et. intros [= <- <-]. destruct Hst as [Hs Hh].
    destruct (snapshot_ok w a sequence tip_hash t b Hw Hs Hh Et) as [H1 H2]. split; [done|]. split; [done|]. split; [done|by left].
  - intros [= <- <-]. apply Hsame; [by apply due_held|done].
  - intros [= <- <-]. by apply Hsame.
  - intros Ea. eapply Hleft, looping_ok; [done|exact Hst|exact Ea].
  - cbn [advance]. intros [= <- <-]. destruct (try_job_ok w q env job Hst) as [H1 H2]. by apply Hsame.
  - by apply writing_ok.
  - intros Ea. destruct (filling_ok a lock store env q job content target t w st' w' Hw Hst Ea) as (H1 & H2 & H3 & ->).
    split_and!; try done. by left.
  - intros Ea. destruct (replacing_ok a lock store env q job target t w st' w' Hw Hst Ea) as (H1 & H2 & H3 & [-> | ->]);
      split_and!; try done; [by left|by right; left].
  - cbn [advance]. intros [= <- <-]. destruct Hst as (Hj & Ht & _).
    destruct (own_step w t (delete t (w_files w)) Hw Ht) as (H1 & H2 & H3); [intros p Hp; by apply lookup_delete_ne|].
    split; [done|]. split; [by apply H3|]. split; [done|by right; left].
  - cbn [advance]. intros [= E]. destruct Hst as (Hj & Htg & b & Hb & He). apply Hleft. pose proof Hj as [[Hh _]%Forall_cons _].
    eapply in_try_ok; [exact Hj| |exact E]. by eapply leave_queue_transacted.
  - cbn [advance]. intros [= E]. destruct Hst as (Hj & _). apply Hleft. pose proof Hj as [[Hh _]%Forall_cons _].
    eapply in_try_ok; [exact Hj| |exact E]. by apply keep_pending_transacted.
  - cbn [advance]. intros [= E]. apply Hleft. pose proof Hst as [[Hh _]%Forall_cons _].
    eapply in_handler_ok; [exact Hst| |exact E]. by apply handle_failure_transacted.
  - done.
  - done.
Qed.

(** ** The steps of other runs *)

Lemma held_frame mine w w' job : exact = false -> held w job -> evolves mine w w' -> held w' job.
Proof.
  intros Hx [Hr Hp (r & Hin & Hid & _) Hf] [H1 H2 _].
  assert (Hi : identity job ∈ map identity (w_table w)) by (rewrite <- Hid; by apply (list_elem_of_fmap_2 identity)).
  constructor; try done.
  - apply H1, list_elem_of_fmap in Hi as (r' & E & Hr'). exists r'. split; [done|]. split; [done|]. by rewrite Hx.
  - unfold row_proof in *. destruct (effective job); try done.
    + destruct Hf as [b Hb]. by apply (H2 job b Hp Hi).
    + destruct Hf as (b & Hb & _). destruct (H2 job b Hp Hi Hb) as [b' Hb']. exists b'. split; [done|]. by rewrite Hx.
Qed.

Lemma jobs_frame mine w w' jobs : exact = false -> jobs_ok w jobs -> evolves mine w w' -> jobs_ok w' jobs.
Proof. intros Hx [Hj Hn] He. split; [|done]. eapply Forall_impl; [exact Hj|]. intros j Hh. by eapply held_frame. Qed.

Lemma stage_frame mine w w' st :
  exact = false -> stage_ok w st -> evolves mine w w' -> (forall t, owned st = Some t -> mine <> Some t) -> stage_ok w' st.
Proof.
  intros Hx Hst He Ho. pose proof (fun jobs Hj => jobs_frame mine w w' jobs Hx Hj He) as Hjobs.
  assert (Htmp : forall t, owned st = Some t -> temporary_ok t -> is_Some (w_files w !! t) -> w_files w' !! t = w_files w !! t)
    by (intros t Hot Ht Hs; apply He; auto).
  destruct st; cbn [stage_ok owned] in *; try done; try by apply Hjobs.
  - destruct Hst as (? & ? & ?). auto.
  - destruct Hst as (? & ? & ? & Ht & Hs). rewrite (Htmp _ eq_refl Ht Hs). auto.
  - destruct Hst as (? & ? & Ht & content & Hc & ?). rewrite (Htmp _ eq_refl Ht) by (rewrite Hc; by eexists). eauto 10.
  - destruct Hst as (? & Ht & Hs). rewrite (Htmp _ eq_refl Ht Hs). auto.
  - destruct Hst as (Hj & Htg & b & Hb & _). split; [auto|]. split; [done|].
    destruct Hj as [[[_ Hp (r & Hin & Hid & _) _] _]%Forall_cons _].
    destruct (ev_proofs _ _ _ He job b Hp) as [b' Hb']; [rewrite <- Hid; by apply (list_elem_of_fmap_2 identity)|done|].
    exists b'. split; [done|]. by rewrite Hx.
  - destruct Hst as [? ?]. auto.
Qed.

(** ** The pool *)

Record pool_inv (p : pool) : Prop := PoolInv {
  pi_world : shared_inv (po_world p);
  pi_stages : forall i a st, po_runs p !! i = Some (a, st) -> stage_ok (po_world p) st;
  pi_owned : forall i j a b st st' t, i <> j -> po_runs p !! i = Some (a, st) -> po_runs p !! j = Some (b, st') ->
    owned st = Some t -> owned st' <> Some t;
  pi_alone : exact = true -> forall i j a b st st', i <> j -> po_runs p !! i = Some (a, st) ->
    po_runs p !! j = Some (b, st') -> over st = true \/ over st' = true
}.

Lemma over_stage w st : over st = true -> stage_ok w st /\ owned st = None.
Proof. by destruct st. Qed.

Lemma set_run_lookup p i a st w j r : po_runs (set_run i a st w p) !! j = Some r ->
  (j = i /\ r = (a, st)) \/ (j <> i /\ po_runs p !! j = Some r).
Proof. cbn. rewrite list_lookup_insert_Some. intros [(<- & <- & _)|[? ?]]; [by left|right; split; [congruence|done]]. Qed.

Lemma owned_file w st t : stage_ok w st -> owned st = Some t -> is_Some (w_files w !! t).
Proof.
  destruct st; try done; intros Hst [= ->]; cbn in Hst; destruct_and!; [done|by destruct_and?; naive_solver|done].
Qed.

(** The runs after one of them moved from [st] to [st']. *)
Lemma moved_inv p i a st st' w' :
  pool_inv p -> po_runs p !! i = Some (a, st) -> over st = false -> shared_inv w' -> stage_ok w' st' ->
  evolves (owned st) (po_world p) w' -> next_owned (po_world p) (owned st) (owned st') ->
  pool_inv (set_run i a st' w' p).
Proof.
  intros [Hw Hst Ho Ha] Hi Hov Hw' Hst' He Hn.
  assert (Hother : exact = true -> forall j b st2, j <> i -> po_runs p !! j = Some (b, st2) -> over st2 = true).
  { intros Hx j b st2 Hne Hj. destruct (Ha Hx i j a b st st2) as [E|E]; congruence. }
  assert (Hfile : forall j b st2 t, po_runs p !! j = Some (b, st2) -> owned st2 = Some t -> is_Some (w_files (po_world p) !! t)).
  { intros j b st2 t Hj. eapply owned_file, Hst, Hj. }
  constructor; [done|..].
  - intros j b st2 [[-> [= -> ->]]|[Hne Hj]]%set_run_lookup; [done|].
    destruct (bool_dec exact true) as [Hx|Hx%not_true_is_false]; [by apply over_stage, (Hother Hx j b)|].
    eapply stage_frame; [done|by eapply Hst|exact He|]. intros t Ht Ht'. by eapply (Ho i j).
  - intros j k b c st2 st3 t Hne Hj Hk Ht Ht'.
    apply set_run_lookup in Hj as [[-> [= -> ->]]|[Hji Hj]]; apply set_run_lookup in Hk as [[-> [= -> ->]]|[Hki Hk]]; try done.
    + destruct Hn as [E|[E|(t0 & E & Hnone)]]; rewrite E in Ht; try done; [by eapply (Ho i k)|]. injection Ht as ->.
      pose proof (Hfile k c st3 t Hk Ht') as Hs. rewrite Hnone in Hs. by destruct Hs.
    + destruct Hn as [E|[E|(t0 & E & Hnone)]]; rewrite E in Ht'; try done; [by eapply (Ho j i)|]. injection Ht' as ->.
      pose proof (Hfile j b st2 t Hj Ht) as Hs. rewrite Hnone in Hs. by destruct Hs.
    + by eapply (Ho j k).
  - intros Hx j k b c st2 st3 Hne Hj Hk.
    apply set_run_lookup in Hj as [[-> [= -> ->]]|[Hji Hj]]; apply set_run_lookup in Hk as [[-> [= -> ->]]|[Hki Hk]]; try done.
    + right. by eapply (Hother Hx k).
    + left. by eapply (Hother Hx j).
    + left. by eapply (Hother Hx j).
Qed.

Lemma pool_step_inv p p' : pool_inv p -> pool_step exact p p' -> pool_inv p'.
Proof.
  intros Hp Hstep. pose proof Hp as [Hw Hst Ho Ha].
  destruct Hstep as [p a Hone|p i a lock store env st st' w' Hi Htmp E|p i a st Hi Hov].
  - assert (Hnew : forall i r, (po_runs p ++ [(a, Starting)]) !! i = Some r ->
      po_runs p !! i = Some r \/ (r = (a, Starting) /\ i = length (po_runs p))).
    { intros i r [Hi|[Hle Hi]]%lookup_app_Some; [by left|right]. apply list_lookup_singleton_Some in Hi as [? <-].
      split; [done|lia]. }
    constructor; cbn [po_world po_runs]; [done|..].
    + intros i b st [Hi|[[= -> ->] _]]%Hnew; [by eapply Hst|done].
    + intros i j b c st st' t Hne [Hi|[[= -> ->] _]]%Hnew [Hj|[[= -> ->] _]]%Hnew; try done. by eapply Ho.
    + intros Hx i j b c st st' Hne Hi Hj. specialize (Hone Hx). rewrite Forall_lookup in Hone.
      apply Hnew in Hi as [Hi|[_ ->]]; [left; by apply (Hone i _ Hi)|].
      apply Hnew in Hj as [Hj|[_ ->]]; [right; by apply (Hone j _ Hj)|done].
  - destruct (advance_ok a lock store env (po_world p) st st' w' Hw (Hst i a st Hi) Htmp E) as (H1 & H2 & H3 & H4).
    eapply moved_inv; try done. by destruct st.
  - eapply moved_inv; try done; [apply evolves_same|by right; left].
Qed.

Lemma pool_reachable_inv w p : shared_inv w -> pool_reachable exact w p -> pool_inv p.
Proof.
  intros Hw Hr. eapply (rtc_invariant (pool_step exact) pool_inv); [|exact Hr|by constructor].
  intros a b. apply pool_step_inv.
Qed.
End sharing.
