(* ===== verification/WorkerAlone.v ===== *)
(** A run of the worker that nothing interleaves: its steps end as [run_once]. *)

From stdpp Require Import gmap relations.
From S2P Require Import Prelude.
From S2P Require Import PyText.
From S2P Require Import PyValue.
From S2P Require Import Calendar.
From S2P Require Import ChainStore.
From S2P Require Import Anchor.
From S2P Require Import AnchorStore.
From S2P Require Import AnchorStoreFacts.
From S2P Require Import AnchorWorker.
From S2P Require Import WorkerFacts.
From S2P Require Import RunFacts.
From S2P Require Import WorkerSharing.

Section alone.
Context `{OpenTimestamps} (a : run_args) (lock : bool) (store : file) (envs : Z -> job_env).

Local Abbreviation alone := (rtc (alone_step a lock store envs)).
Local Abbreviation now := (ra_now a).

Lemma alone_one st w after : advance a lock store (envs (match job_of st with Some job => id job | None => 0 end)) st w = Some after ->
  alone (st, w) after.
Proof. intros E. apply rtc_once. exact E. Qed.

Lemma alone_then st w mid after : alone_step a lock store envs (st, w) mid -> alone mid after -> alone (st, w) after.
Proof. intros H1 H2. by eapply rtc_l. Qed.

(** The steps of [write_proof_atomic]. *)
Lemma write_alone q job proof target replace w :
  w_files w !! je_temporary (envs (id job)) = None ->
  alone (Writing q job proof target replace, w)
    (match write_step (envs (id job)) (proof_path job) proof replace w with
     | (w', Ok _) => (published q job target, w')
     | (w', Err e) => (Failing q job e, w')
     end).
Proof.
  intros Hf. assert (Hnot : bool_decide (is_Some (w_files w !! je_temporary (envs (id job)))) = false).
  { apply bool_decide_eq_false. rewrite Hf. by intros []. }
  assert (Hw : World (w_table w) (w_files w) = w) by by destruct w.
  unfold write_step, write_proof_atomic. destruct (proof_bytes proof) as [content|] eqn:Ep.
  2:{ cbn. rewrite Hw. apply alone_one. cbn. by rewrite Ep. }
  destruct (je_write (envs (id job))) as [| | |n|] eqn:Ew;
    try (cbn; rewrite Hw; apply alone_one; cbn; by rewrite Ep, Ew);
    (destruct (negb replace && bool_decide (is_Some (w_files w !! proof_path job))) eqn:Ex;
      [cbn; rewrite Hw; apply alone_one; cbn; by rewrite Ep, Ew, Ex|]);
    try (cbn; rewrite Hw; apply alone_one; cbn; by rewrite Ep, Ew, Ex);
    (eapply alone_then; [unfold alone_step; cbn; rewrite Ep, Ew, Ex, Hnot; done|]);
    (eapply alone_then; [unfold alone_step; cbn; rewrite Ew; done|]);
    rewrite insert_insert_eq.
  - apply alone_one. cbn. rewrite Ew, lookup_insert_eq. by rewrite delete_insert_eq, delete_id.
  - apply alone_one. cbn. by rewrite delete_insert_eq, delete_id.
  - eapply alone_then; [unfold alone_step; cbn; by rewrite Ew|].
    apply alone_one. cbn. by rewrite delete_insert_eq, delete_id.
Qed.

Lemma in_try_then {A} q job (m : step_result A) :
  in_try q job (then_step m (fun w _ => (w, Ok tt))) = in_try q job m.
Proof. by destruct m as [w [x|e]]. Qed.

Lemma leaving_alone q job target w : alone (Leaving q job target, w) (in_try q job (leave_queue job target now w)).
Proof. by apply alone_one. Qed.

Lemma keeping_alone q job w : alone (Keeping q job, w) (in_try q job (keep_pending job now w)).
Proof. by apply alone_one. Qed.

Lemma leave_upgraded job w :
  leave_queue job UPGRADED_UNVERIFIED now w
  = on_table w (transition job UPGRADED_UNVERIFIED (_utc_text now) None (w_table w)).
Proof. done. Qed.

(** The end of a branch that publishes a proof. *)
Lemma publish_alone {A} q job proof target replace w (k : world -> step_result A) :
  w_files w !! je_temporary (envs (id job)) = None ->
  (forall w', alone (published q job target, w') (in_try q job (k w'))) ->
  alone (Writing q job proof target replace, w)
    (in_try q job (then_step (write_step (envs (id job)) (proof_path job) proof replace w) (fun w _ => k w))).
Proof.
  intros Hf Hk. etrans; [by apply write_alone|]. destruct (write_step _ _ _ _ _) as [w' [[]|e]]; [apply Hk|done].
Qed.

Lemma queued_alone q job digest w :
  state job = QUEUED -> bytes_fromhex (tip job) = Some digest -> w_files w !! je_temporary (envs (id job)) = None ->
  alone (try_queued (envs (id job)) q job digest (w_files w), w) (in_try q job (_process_queued (envs (id job)) job now w)).
Proof.
  intros Hs Hd Hf. unfold try_queued, _process_queued, tip_digest. rewrite Hd. cbn [then_step].
  destruct (w_files w !! proof_path job) as [proof|].
  - destruct (je_read _); [|done]. destruct (_target_state _ _); [apply leaving_alone|done].
  - destruct (je_stamp _ _) as [proof|]; [|done]. destruct (_target_state _ _) as [target|]; [|done].
    apply publish_alone; [done|]. intros w'. unfold published. rewrite Hs. apply leaving_alone.
Qed.

Lemma pending_alone q job digest w :
  state job = SUBMITTED_PENDING -> bytes_fromhex (tip job) = Some digest ->
  w_files w !! je_temporary (envs (id job)) = None ->
  alone (try_pending (envs (id job)) q job digest (w_files w), w) (in_try q job (_process_pending (envs (id job)) job now w)).
Proof.
  intros Hs Hd Hf. unfold try_pending, _process_pending, tip_digest. rewrite Hd. cbn [then_step].
  destruct (w_files w !! proof_path job) as [proof|]; [|done]. destruct (je_read _); [|done].
  destruct (inspect_proof _ _) as [i|]; [|done].
  destruct (has_bitcoin_attestation i); [rewrite <- leave_upgraded; apply leaving_alone|].
  destruct (je_upgrade _ _ _) as [[upgraded|]|]; [|apply keeping_alone|done].
  destruct (_target_state _ _) as [target|]; [|done].
  apply (publish_alone q job upgraded target true w (fun w => if is_state target UPGRADED_UNVERIFIED
    then on_table w (transition job target (_utc_text now) None (w_table w)) else keep_pending job now w)); [done|].
  intros w'. unfold published. rewrite Hs. cbn [is_state]. rewrite is_state_refl. cbn [andb].
  destruct (is_state target UPGRADED_UNVERIFIED) eqn:Et; cbn [negb]; [|apply keeping_alone].
  apply is_state_true in Et as ->. apply leaving_alone.
Qed.

(** The [try] block and its handlers. *)
Lemma trying_alone q job w :
  w_files w !! je_temporary (envs (id job)) = None ->
  alone (Trying q job, w)
    (in_handler q (handle_failure (envs (id job)) job now (process_by_state (envs (id job)) job now w))).
Proof.
  intros Hf. trans (in_try q job (process_by_state (envs (id job)) job now w)).
  - eapply alone_then; [done|]. cbn [job_of]. unfold try_job, process_by_state.
    destruct (is_state (state job) QUEUED) eqn:Eq; cbn [orb].
    + rewrite in_try_then. destruct (bytes_fromhex (tip job)) as [digest|] eqn:Ed.
      * apply is_state_true in Eq. by apply queued_alone.
      * unfold _process_queued, tip_digest. by rewrite Ed.
    + destruct (is_state (state job) SUBMITTED_PENDING) eqn:Ep; [|done]. rewrite in_try_then.
      destruct (bytes_fromhex (tip job)) as [digest|] eqn:Ed.
      * apply is_state_true in Ep. by apply pending_alone.
      * unfold _process_pending, tip_digest. by rewrite Ed.
  - destruct (process_by_state _ _ _ _) as [w' [[]|e]]; [done|]. by apply alone_one.
Qed.

(** One job of the loop. *)
Lemma job_alone n job jobs w :
  table_ok (w_table w) -> job ∈ w_table w -> w_files w !! je_temporary (envs (id job)) = None ->
  alone (Looping (Queue n (job :: jobs)), w) (in_handler (Queue n jobs) (_process_job (envs (id job)) job now w)).
Proof.
  intros Ht Hj Hf. unfold _process_job.
  destruct (is_state (state job) RETRY_FAILED) eqn:E;
    [|eapply alone_then; [unfold alone_step; cbn; rewrite E; done|]; by apply trying_alone].
  assert (Hrow : row_ok job) by (destruct Ht as [_ _ Hr]; rewrite Forall_forall in Hr; auto).
  apply is_state_true in E as Es. destruct (ro_failed _ Hrow Es) as (s & Hr & Hrs & _).
  eapply alone_then; [unfold alone_step; cbn; rewrite E; done|].
  pose proof (resume_retry_ok job (w_table w) Ht) as [Hok _]. rewrite (resume_retry_hit job s) in * by done.
  exact (trying_alone (Queue n jobs) (set_resumed s job) (World (replace_row job (set_resumed s job) (w_table w)) (w_files w)) Hf).
Qed.

(** The loop. *)
Lemma jobs_alone n jobs w :
  worker_inv w -> NoDup (map id jobs) -> (forall j, j ∈ jobs -> j ∈ w_table w) -> instant_ok now ->
  temporaries_ok envs jobs (w_files w) ->
  alone (Looping (Queue n jobs), w)
    (match process_jobs envs now jobs w with
     | (w', Ok _) => (Finished (Ok (Z.of_nat n)), w')
     | (w', Err e) => (Finished (Err e), w')
     end).
Proof.
  revert w. induction jobs as [|job jobs IH]; intros w Hw Hnd Hin Hnow Htmp; [by apply alone_one|].
  cbn [map] in Hnd. apply NoDup_cons in Hnd as [Hni Hnd]. pose proof Htmp as [[_ Hfj] _]%Forall_cons.
  assert (Hj : job ∈ w_table w) by (apply Hin; by left).
  etrans; [apply job_alone; [apply Hw|done|done]|]. cbn [process_jobs].
  pose proof (after_job envs now job jobs w Hw Hni Hin Hnow Htmp) as Hafter.
  destruct (_process_job (envs (id job)) job now w) as [w1 [[]|e]]; cbn [then_step in_handler in_try fst] in *; [|done].
  destruct Hafter as (Hw1 & Hin1 & Htmp1). by apply IH.
Qed.

(** The whole run. *)
Lemma run_alone w :
  worker_inv w -> instant_ok now ->
  (forall i, temporary_ok (je_temporary (envs i)) /\ w_files w !! je_temporary (envs i) = None) ->
  let out := run_once (ra_interval a) (ra_threshold a) (ra_directory a) lock store envs now w in
  alone (Starting, w) (Finished out.2, out.1).
Proof.
  intros Hw Hnow Htmp. cbv zeta. unfold run_once.
  destruct (snapshot_tip lock store) as [[sequence tip_hash]|e] eqn:Hl;
    [|apply alone_one; cbn [advance]; by rewrite Hl].
  destruct (locked_tip_Ok _ _ _ _ Hl) as (_ & _ & _ & Hs & _ & _ & Hh).
  pose proof (track_tip_inv sequence tip_hash (ra_directory a) (ra_interval a) (ra_threshold a) w Hw Hs Hh) as Hw1.
  eapply alone_then; [unfold alone_step; cbn [advance fst snd]; rewrite Hl; done|].
  destruct (track_tip _ _ _ _ _ _) as [t b] eqn:Et. cbn [fst] in *.
  eapply alone_then; [unfold alone_step; cbn [advance fst snd]; rewrite Et; done|].
  eapply alone_then; [done|]. cbn [w_table]. etrans.
  - apply jobs_alone; [exact Hw1| |by intros j [Hj _]%due_jobs_in|done|by apply Forall_forall; intros j _; apply Htmp].
    apply due_jobs_ids, Hw1.
  - by destruct (process_jobs _ _ _ _) as [w2 [[]|e]].
Qed.
End alone.

(** ** In a pool *)

Lemma set_run_same i a st p :
  po_runs p !! i = Some (a, st) -> set_run i a st (po_world p) p = p.
Proof. intros Hi. destruct p as [w l]. unfold set_run. cbn in *. by rewrite list_insert_id. Qed.

Lemma set_run_twice i a st st' w w' p : set_run i a st' w' (set_run i a st w p) = set_run i a st' w' p.
Proof. unfold set_run. cbn. by rewrite list_insert_insert_eq. Qed.

(** The steps of one run while the others stand still. *)
Lemma alone_pool `{OpenTimestamps} one_at_a_time a lock store envs s s' p i :
  po_runs p !! i = Some (a, s.1) -> po_world p = s.2 -> (forall i, temporary_ok (je_temporary (envs i))) ->
  rtc (alone_step a lock store envs) s s' -> rtc (pool_step one_at_a_time) p (set_run i a s'.1 s'.2 p).
Proof.
  intros Hi Hw Htmp Hs. revert p Hi Hw. induction Hs as [[st w]|[st w] [st1 w1] s' H1 _ IH]; cbn [fst snd]; intros p Hi Hw.
  - subst w. by rewrite set_run_same.
  - subst w. eapply rtc_l; [exact (pool_advance one_at_a_time p i a lock store _ st st1 w1 Hi (Htmp _) H1)|].
    rewrite <- (set_run_twice i a st1 s'.1 w1 s'.2 p). apply IH; [|done].
    cbn. apply list_lookup_insert_eq. by eapply lookup_lt_Some.
Qed.
