(* ===== verification/WorkerRace.v ===== *)
(** Two runs of the worker at one pending row: the slower one puts its proof in
    place of the upgraded one.  The row stays upgraded, and no run looks at it
    again. *)

From stdpp Require Import relations gmap.
From S2P Require Import Prelude.
From S2P Require Import PyText.
From S2P Require Import PyValue.
From S2P Require Import Binary64.
From S2P Require Import FloatOps.
From S2P Require Import Calendar.
From S2P Require Import Sha256.
From S2P Require Import LoggerFacts.
From S2P Require Import ChainStore.
From S2P Require Import Anchor.
From S2P Require Import AnchorStore.
From S2P Require Import AnchorStoreFacts.
From S2P Require Import AnchorWorker.
From S2P Require Import WorkerFacts.
From S2P Require Import RunFacts.
From S2P Require Import AnchorFacts.
From S2P Require Import WorkerTheorems.
From S2P Require Import WorkerSharing.
From S2P Require Import WorkerSharingFacts.
From S2P Require Import WorkerAlone.

Definition toy_args : run_args := RunArgs [47] 15 6 0.

Section race.
Context (store : file) (tip_hash : pystr) (digest : bytes).
Hypothesis Hlock : locked_tip true store = Ok (0, tip_hash).
Hypothesis Hdigest : bytes_fromhex tip_hash = Some digest.
Hypothesis Hlength : length digest = 32%nat.

(** The pending proof and the upgraded one, in the toy library. *)
Local Abbreviation pending := (0 :: digest).
Local Abbreviation upgraded := (1 :: digest).
Local Abbreviation path := (proof_file [47] 0 tip_hash).

Definition race_row (s : anchor_state) (last next : option pystr) : row :=
  Row 1 0 tip_hash s path 0 last next None None None 15 6.

(** What the calendars give the slow run and the fast one. *)
Definition race_env (proof : bytes) (temporary : pystr) : job_env :=
  JobEnv (fun digest => Ok (ProofBytes (0 :: digest))) (fun _ _ => Ok (Some (ProofBytes proof))) NoFailure
    temporary true (S754_zero false) [].

Local Abbreviation job := (race_row SUBMITTED_PENDING None None).
Local Abbreviation job_done := (race_row UPGRADED_UNVERIFIED (Some (_utc_text 0)) None).
Local Abbreviation one := (Queue 1 []).
Local Abbreviation slow := (u ".slow.tmp").
Local Abbreviation fast := (u ".fast.tmp").

Definition race_start : world := World [job] {[path := pending]}.
Lemma race_inspect c : (c =? 0) || (c =? 1) = true ->
  inspect_proof (ProofBytes (c :: digest)) digest = Ok {| inspected_digest := digest; has_bitcoin_attestation := c =? 1 |}.
Proof.
  intros Hc. apply inspect_proof_Ok. exists (c :: digest), (digest, c =? 1). cbn. rewrite Hc. repeat split; try done.
  by destruct (c =? 1).
Qed.

Lemma race_path : path_ok job.
Proof. exists [47]. by destruct (locked_tip_Ok _ _ _ _ Hlock) as (_ & _ & _ & _ & _ & _ & Hh). Qed.

Lemma race_temporary stem : path <> stem ++ u ".tmp".
Proof. intros E. apply (temporary_not_path (stem ++ u ".tmp") job); [by exists stem|apply race_path|done]. Qed.

Lemma race_tracked : track_tip 0 tip_hash path 15 6 [job] = ([job], false).
Proof. unfold track_tip, get. cbn. by rewrite bool_decide_eq_true_2. Qed.

(** A run up to the last step of [write_proof_atomic]. *)
Lemma race_writes c stem fs :
  (c =? 0) || (c =? 1) = true -> fs !! path = Some pending -> fs !! (stem ++ u ".tmp") = None ->
  rtc (alone_step toy_args true store (fun _ => race_env (c :: digest) (stem ++ u ".tmp"))) (Starting, World [job] fs)
    (Replacing one job (if c =? 1 then UPGRADED_UNVERIFIED else SUBMITTED_PENDING) (stem ++ u ".tmp"),
     World [job] (<[stem ++ u ".tmp" := c :: digest]> fs)).
Proof.
  intros Hc Hp Ht. set (w := World [job] fs). set (target := if c =? 1 then _ else _).
  apply (alone_then _ _ _ _ _ _ (Snapshot 0 tip_hash, w)); [unfold alone_step; cbn; unfold snapshot_tip; by rewrite Hlock|].
  apply (alone_then _ _ _ _ _ _ (Tracked, w)); [unfold alone_step, w; cbn [advance fst snd w_table]; pose proof race_tracked as E; cbn in E |- *; by rewrite E|].
  apply (alone_then _ _ _ _ _ _ (Looping (Queue 1 [job]), w)); [done|].
  apply (alone_then _ _ _ _ _ _ (Trying one job, w)); [done|].
  apply (alone_then _ _ _ _ _ _ (Writing one job (ProofBytes (c :: digest)) target true, w)).
  { unfold alone_step. cbn [advance fst snd]. unfold try_job. replace (is_state (state job) QUEUED) with false by done.
    rewrite is_state_refl. cbn [orb tip race_row]. rewrite Hdigest. unfold try_pending, w. cbn [proof_path race_row w_files]. rewrite Hp. cbn [je_read race_env].
    rewrite race_inspect by done. cbn [has_bitcoin_attestation je_upgrade race_env]. unfold _target_state.
    by rewrite race_inspect. }
  apply (alone_then _ _ _ _ _ _ (Filling one job (c :: digest) target (stem ++ u ".tmp"), World [job] (<[stem ++ u ".tmp" := []]> fs))).
  { unfold alone_step, w. cbn [advance fst snd proof_bytes je_write race_env negb andb job_of je_temporary w_files].
    rewrite bool_decide_eq_false_2; [done|]. rewrite Ht. by intros []. }
  apply alone_one. cbn [advance je_write race_env w_table w_files]. by rewrite insert_insert_eq.
Qed.

Lemma race_leaves w : w_table w = [job] ->
  on_table w (transition job UPGRADED_UNVERIFIED (_utc_text 0) None (w_table w)) = (World [job_done] (w_files w), Ok job_done).
Proof.
  intros ->. unfold transition. rewrite bool_decide_eq_true_2 by (apply (bool_decide_unpack _); vm_compute; exact I).
  unfold guarded_update, get. cbn. by rewrite bool_decide_eq_true_2.
Qed.

(** The files when both proofs are written, and after each rename. *)
Local Abbreviation both := (<[fast := upgraded]> (<[slow := pending]> {[path := pending]} : files)).
Local Abbreviation upgraded_files := (<[path := upgraded]> (delete fast both)).
Local Abbreviation stale_files := (<[path := pending]> (delete slow upgraded_files)).

Definition race_pool : pool :=
  Pool (World [job_done] stale_files) [(toy_args, Keeping one job); (toy_args, Looping one)].

Lemma fast_renames :
  rtc (alone_step toy_args true store (fun _ => race_env upgraded fast))
    (Replacing one job UPGRADED_UNVERIFIED fast, World [job] both) (Looping one, World [job_done] upgraded_files).
Proof.
  apply (alone_then _ _ _ _ _ _ (Leaving one job UPGRADED_UNVERIFIED, World [job] upgraded_files)).
  - unfold alone_step. cbn [advance fst snd je_write race_env w_files]. by rewrite lookup_insert_eq.
  - apply alone_one. cbn [advance job_of]. rewrite leave_upgraded, race_leaves by done. done.
Qed.

Lemma slow_renames :
  rtc (alone_step toy_args true store (fun _ => race_env pending slow))
    (Replacing one job SUBMITTED_PENDING slow, World [job_done] upgraded_files)
    (Keeping one job, World [job_done] stale_files).
Proof.
  apply alone_one. cbn [advance je_write race_env w_files w_table].
  pose proof (race_temporary (u ".slow")) as Hs. rewrite lookup_insert_ne by exact Hs.
  rewrite lookup_delete_ne, lookup_insert_ne, lookup_insert_eq by done. done.
Qed.

Lemma race_reachable : pool_reachable false race_start race_pool.
Proof.
  unfold pool_reachable.
  assert (Htmp : forall (c : bytes) (i : Z), temporary_ok (je_temporary (race_env c slow)) /\ temporary_ok (je_temporary (race_env c fast)))
    by (intros c i; split; [by exists (u ".slow")|by exists (u ".fast")]).
  pose proof (race_temporary (u ".slow")) as Hs. pose proof (race_temporary (u ".fast")) as Hf.
  pose (slow_replacing := Replacing one job SUBMITTED_PENDING slow).
  pose (fast_replacing := Replacing one job UPGRADED_UNVERIFIED fast).
  assert (Hslow : rtc (alone_step toy_args true store (fun _ => race_env pending slow)) (Starting, race_start)
    (slow_replacing, World [job] (<[slow := pending]> {[path := pending]}))).
  { apply (race_writes 0 (u ".slow")); [done|apply lookup_singleton_eq|by apply lookup_singleton_ne]. }
  assert (Hfast : rtc (alone_step toy_args true store (fun _ => race_env upgraded fast))
    (Starting, World [job] (<[slow := pending]> {[path := pending]})) (fast_replacing, World [job] both)).
  { apply (race_writes 1 (u ".fast")); [done| |]; rewrite lookup_insert_ne by done;
      [apply lookup_singleton_eq|by apply lookup_singleton_ne]. }
  pose proof (fun s s' p i c Hi Hw => alone_pool false toy_args true store (fun _ => race_env c slow) s s' p i Hi Hw (fun i => proj1 (Htmp c i))) as Hs'.
  pose proof (fun s s' p i c Hi Hw => alone_pool false toy_args true store (fun _ => race_env c fast) s s' p i Hi Hw (fun i => proj2 (Htmp c i))) as Hf'.
  trans (Pool race_start [(toy_args, Starting); (toy_args, Starting)]).
  { eapply rtc_l; [by apply (pool_start false (Pool race_start []) toy_args)|]. by apply rtc_once, (pool_start false (Pool race_start [(toy_args, Starting)]) toy_args). }
  trans (Pool (World [job] (<[slow := pending]> {[path := pending]})) [(toy_args, slow_replacing); (toy_args, Starting)]).
  { pose proof Hslow as E. eapply (Hs' _ _ (Pool race_start [(toy_args, Starting); (toy_args, Starting)]) 0%nat) in E; [exact E|done..]. }
  trans (Pool (World [job] both) [(toy_args, slow_replacing); (toy_args, fast_replacing)]).
  { pose proof Hfast as E. eapply (Hf' _ _ (Pool _ [(toy_args, slow_replacing); (toy_args, Starting)]) 1%nat) in E; [exact E|done..]. }
  trans (Pool (World [job_done] upgraded_files) [(toy_args, slow_replacing); (toy_args, Looping one)]).
  { pose proof fast_renames as E. eapply (Hf' _ _ (Pool _ [(toy_args, slow_replacing); (toy_args, fast_replacing)]) 1%nat) in E; [exact E|done..]. }
  pose proof slow_renames as E. eapply (Hs' _ _ (Pool _ [(toy_args, slow_replacing); (toy_args, Looping one)]) 0%nat) in E; [exact E|done..].
Qed.

Lemma race_start_ok : worker_inv race_start.
Proof.
  constructor; cbn.
  - constructor; [by apply NoDup_singleton..|]. constructor; [|constructor]. by constructor.
  - constructor; [apply race_path|constructor].
  - constructor; [|constructor]. exists false, digest, pending, {| inspected_digest := digest; has_bitcoin_attestation := false |}.
    split; [done|]. split; [apply lookup_insert_eq|]. split; [by apply race_inspect|done].
Qed.

Lemma race_pool_stale : proof_of (w_files (po_world race_pool)) job_done false.
Proof.
  exists digest, pending, {| inspected_digest := digest; has_bitcoin_attestation := false |}.
  split; [done|]. split; [apply lookup_insert_eq|]. split; [by apply race_inspect|done].
Qed.
End race.

(** A chain whose tip the worker can anchor, with the octets of its hash. *)
Lemma toy_locked_digest : exists store tip_hash digest,
  locked_tip true store = Ok (0, tip_hash) /\ bytes_fromhex tip_hash = Some digest /\ length digest = 32%nat.
Proof.
  destruct toy_locked_tip as (store & tip_hash & Hl). pose proof Hl as Hx.
  apply locked_tip_exact in Hx as (_ & _ & v & entries & r & signed & _ & _ & ->).
  exists store, (sha256_hex signed), (sha256 signed). split; [exact Hl|]. split; [|apply sha256_length].
  apply bytes_fromhex_hex, sha256_ok.
Qed.

(** An upgraded row with a proof that has no Bitcoin attestation, which is due
    at no time: two runs from a state that satisfies the invariant. *)
Lemma upgraded_proof_lost : exists w p r,
  worker_inv w /\ pool_reachable false w p /\ r ∈ w_table (po_world p) /\ state r = UPGRADED_UNVERIFIED /\
  proof_of (w_files (po_world p)) r false /\ forall now, is_due now r = false.
Proof.
  destruct toy_locked_digest as (store & tip_hash & digest & Hl & Hd & Hlen).
  exists (race_start tip_hash digest), (race_pool tip_hash digest), (race_row tip_hash UPGRADED_UNVERIFIED (Some (_utc_text 0)) None).
  split; [by eapply race_start_ok|]. split; [by eapply race_reachable|]. split; [by left|]. split; [done|].
  split; [by apply race_pool_stale|done].
Qed.
