(* ===== verification/WorkerRecovery.v ===== *)
(** What killed runs leave and what the next run does with it: every proof file
    that a run published is whole and proves the tip of its row, and a run that
    finds such a proof at a job whose transaction was never committed adopts it. *)

From stdpp Require Import relations gmap.
From S2P Require Import Prelude.
From S2P Require Import PyText.
From S2P Require Import PyValue.
From S2P Require Import Binary64.
From S2P Require Import FloatOps.
From S2P Require Import Calendar.
From S2P Require Import Sha256.
From S2P Require Import ChainStore.
From S2P Require Import Anchor.
From S2P Require Import AnchorStore.
From S2P Require Import AnchorStoreFacts.
From S2P Require Import AnchorWorker.
From S2P Require Import WorkerFacts.
From S2P Require Import JobSpec.
From S2P Require Import RunFacts.
From S2P Require Import RunProgress.
From S2P Require Import AnchorFacts.
From S2P Require Import WorkerTheorems.
From S2P Require Import WorkerSharing.
From S2P Require Import WorkerSharingFacts.
From S2P Require Import WorkerAlone.
From S2P Require Import WorkerRace.

Section recovery.
Context `{OpenTimestamps}.

(** ** The files that runs write *)

(** A file that is not temporary is the one of [fs0], or a proof of the tip of
    the row whose path it has. *)
Definition written (fs0 : files) (w : world) : Prop :=
  forall p, ~ temporary_ok p -> w_files w !! p = fs0 !! p \/
    exists r b, r ∈ w_table w /\ p = proof_path r /\ proof_of (w_files w) r b.

Lemma table_files {A} (w : world) (r : table * res lifecycle_exn A) : w_files (on_table w r).1 = w_files w.
Proof. done. Qed.

Lemma leave_queue_files job target now w : w_files (leave_queue job target now w).1 = w_files w.
Proof. unfold leave_queue. by destruct (if is_state target _ then _ else _). Qed.

Lemma keep_pending_files job now w : w_files (keep_pending job now w).1 = w_files w.
Proof. unfold keep_pending. by destruct (_next_pending_attempt _ _). Qed.

Lemma then_files {A} (m : step_result A) : w_files (then_step m (fun w _ => (w, Ok tt))).1 = w_files m.1.
Proof. by destruct m as [w []]. Qed.

Lemma handle_failure_files env job now w e : w_files (handle_failure env job now (w, Err e)).1 = w_files w.
Proof.
  assert (Hretry : w_files (schedule_retry env job now w).1 = w_files w).
  { unfold schedule_retry. destruct (retry_delay_seconds _ _); [|done]. destruct (_ ≫= _); [|done].
    by rewrite then_files. }
  destruct e as [[r| | | |]| | |]; try exact Hretry; cbn [handle_failure]; [by rewrite then_files|done].
Qed.

Lemma in_try_files {A} q job (m : step_result A) : w_files (in_try q job m).2 = w_files m.1.
Proof. by destruct m as [w []]. Qed.

Lemma in_handler_files q (m : step_result unit) : w_files (in_handler q m).2 = w_files m.1.
Proof. by destruct m as [w []]. Qed.

(** One step of a run writes temporary files only, or publishes a proof of the
    job it is at. *)
Lemma advance_files exact a lock store env w st st' w' p :
  stage_ok exact w st -> temporary_ok (je_temporary env) -> advance a lock store env st w = Some (st', w') ->
  ~ temporary_ok p ->
  w_files w' !! p = w_files w !! p \/
  exists job b, held exact w job /\ p = proof_path job /\ proof_of (w_files w') job b.
Proof.
  intros Hst Htmp E Hp. assert (Hne : forall t, temporary_ok t -> t <> p) by (intros t Ht ->; done).
  assert (Hsame : w_files w' = w_files w -> w_files w' !! p = w_files w !! p) by by intros ->.
  destruct st as [|sequence tip_hash| |[n [|job jobs]]|q job|q job proof target replace|q job content target t
    |q job target t|q job t|q job target|q job|q job e|r|]; cbn [advance] in E; try done; try (left; congruence).
  - destruct (track_tip _ _ _ _ _ _) as [t b]. injection E as <- <-. by left.
  - destruct (is_state _ _); [|left; congruence]. destruct (resume_retry job (w_table w)) as [t [j|e]]; injection E as <- <-; by left.
  - left. destruct (proof_bytes proof); [|congruence].
    destruct (je_write env); try (destruct (negb replace && _); [congruence|]);
      try (destruct (bool_decide _); [done|]); injection E as <- <-; cbn [w_files]; try done;
      by rewrite lookup_insert_ne by auto.
  - left. destruct Hst as (_ & _ & _ & Ht & _).
    destruct (je_write env); injection E as <- <-; cbn [w_files]; by rewrite lookup_insert_ne by auto.
  - destruct Hst as ([Hj _] & Ha & Ht & content & Hc & Hg). apply Forall_cons in Hj as [Hj _]. rewrite Hc in E.
    assert (Hpub : w_files w' = <[proof_path job := content]> (delete t (w_files w)) ->
      w_files w' !! p = w_files w !! p \/ exists job b, held exact w job /\ p = proof_path job /\ proof_of (w_files w') job b).
    { intros ->. destruct (decide (proof_path job = p)) as [<-|Hpj].
      - right. destruct (good_proof_file job content target (<[proof_path job := content]> (delete t (w_files w))))
          as (_ & b & Hb & _); [apply lookup_insert_eq|done|]. by exists job, b.
      - left. by rewrite lookup_insert_ne, lookup_delete_ne by auto. }
    destruct (je_write env); injection E as <- <-; try (by apply Hpub); by left.
  - injection E as <- <-. left. destruct Hst as (_ & Ht & _). cbn [w_files]. by apply lookup_delete_ne, Hne.
  - apply (inj Some) in E. left. apply Hsame. pose proof (in_try_files q job (leave_queue job target (ra_now a) w)) as Hf.
    rewrite E in Hf. rewrite <- (leave_queue_files job target (ra_now a) w). exact Hf.
  - apply (inj Some) in E. left. apply Hsame. pose proof (in_try_files q job (keep_pending job (ra_now a) w)) as Hf.
    rewrite E in Hf. rewrite <- (keep_pending_files job (ra_now a) w). exact Hf.
  - apply (inj Some) in E. left. apply Hsame.
    pose proof (in_handler_files q (handle_failure env job (ra_now a) (w, Err e))) as Hf.
    rewrite E in Hf. rewrite <- (handle_failure_files env job (ra_now a) w e). exact Hf.
Qed.

Lemma pool_written exact w p :
  shared_inv exact w -> pool_reachable exact w p -> written (w_files w) (po_world p).
Proof.
  intros Hw Hr. apply (rtc_invariant (pool_step exact)
    (fun p => pool_inv exact p /\ written (w_files w) (po_world p)) (Pool w []) p); [|exact Hr|].
  2:{ split; [|intros q _; by left]. apply (pool_reachable_inv exact w); [done|apply rtc_refl]. }
  intros q q' [Hq Hwr] Hstep. split; [by eapply pool_step_inv|].
  destruct Hstep as [q a Hone|q k a lock store env st st' w' Hk Htmp E|q k a st Hk Hov]; try exact Hwr.
  destruct Hq as [Hqw Hst _ _]. pose proof (Hst k a st Hk) as Hstk. cbn [po_world set_run].
  destruct (advance_ok exact a lock store env (po_world q) st st' w' Hqw Hstk Htmp E) as (_ & _ & [Hrows _ _] & _).
  assert (Hin : forall r b, identity r ∈ map identity (w_table (po_world q)) -> proof_of (w_files w') r b ->
    exists r' b', r' ∈ w_table w' /\ proof_path r = proof_path r' /\ proof_of (w_files w') r' b').
  { intros r b Hri Hb. apply Hrows, list_elem_of_fmap in Hri as (r' & Hid & Hr'). exists r', b. split; [done|].
    split; [unfold identity in Hid; congruence|]. by eapply proof_of_files. }
  intros pth Hp. destruct (advance_files exact a lock store env (po_world q) st st' w' pth Hstk Htmp E Hp)
    as [Hsame|(job & b & [_ _ (r & Hrt & Hid & _) _] & -> & Hb)].
  - destruct (Hwr pth Hp) as [Hold|(r & b & Hrt & -> & Hb)]; [left; congruence|right].
    apply (Hin r b); [by apply (list_elem_of_fmap_2 identity)|]. by eapply proof_of_files.
  - right. apply (Hin job b); [|done]. rewrite <- Hid. by apply (list_elem_of_fmap_2 identity).
Qed.

(** A file that a run put at the path of a row proves its tip. *)
Lemma published_proof exact w p r :
  shared_inv exact w -> pool_reachable exact w p -> r ∈ w_table (po_world p) ->
  w_files (po_world p) !! proof_path r <> w_files w !! proof_path r -> exists b, proof_of (w_files (po_world p)) r b.
Proof.
  intros Hw Hr Hin Hne. destruct (pool_reachable_inv exact w p Hw Hr) as [[Ht Hp _] _ _ _].
  assert (Hpr : path_ok r) by (rewrite Forall_forall in Hp; auto).
  destruct (pool_written exact w p Hw Hr (proof_path r)) as [E|(r' & b & Hr' & E & Hb)];
    [by apply path_not_temporary|done|]. exists b. by rewrite (path_row _ r r' Ht Hp Hin Hr' E).
Qed.

(** ** The next run *)

Lemma proof_of_unique fs r b b' : proof_of fs r b -> proof_of fs r b' -> b = b'.
Proof. intros (d & f & i & Hd & Hf & Hi & <-) (d' & f' & i' & Hd' & Hf' & Hi' & <-). congruence. Qed.

(** Tracking the tip loses no row. *)
Lemma tracked_in sequence tip_hash path interval threshold t r :
  r ∈ t -> r ∈ (track_tip sequence tip_hash path interval threshold t).1.
Proof.
  intros Hr. destruct (track_tip_cases sequence tip_hash path interval threshold t) as [(_ & _ & _ & ->)|[_ ->]]; [done|].
  apply elem_of_app. by left.
Qed.

Lemma resumed_fields r : tip (resumed r) = tip r /\ proof_path (resumed r) = proof_path r /\
  interval_minutes (resumed r) = interval_minutes r.
Proof. pose proof (resumed_identity r) as Hid. unfold identity in Hid. by simplify_eq. Qed.

(** The row of a job that leaves the queue, or the pending state, for a proof
    that has a Bitcoin attestation or not. *)
Definition recovered_row (now : Z) (next : pystr) (bitcoin : bool) (r : row) : row :=
  if bitcoin then set_transition UPGRADED_UNVERIFIED (_utc_text now) None (resumed r)
  else set_transition SUBMITTED_PENDING (_utc_text now) (Some next) (resumed r).

(** A proof is already at the path of the job: no calendar is asked. *)
Lemma handled_recovers env now fs fs' r ret r' next b :
  handled env now fs fs' r ret r' -> proof_of fs r b -> je_read env = true ->
  state (resumed r) = QUEUED \/ (state (resumed r) = SUBMITTED_PENDING /\ b = true) ->
  add_us now (minutes_us (interval_minutes r)) = Some next ->
  fs' !! proof_path r = fs !! proof_path r /\ r' = recovered_row now (_utc_text next) b r.
Proof.
  intros (raised & Ha & Ho) Hb Hread Hs Hnext. pose proof Hb as (digest & f & i & Hd & Hf & Hi & Hib).
  destruct (resumed_fields r) as (Htip & Hpath & Hint).
  assert (Hexp : attempt env now (resumed r) (fs !! proof_path r) (Some f) (Ok tt)).
  { rewrite Hf. destruct Hs as [Hs|[Hs ->]].
    - apply (at_adopted env now (resumed r) digest f i (Ok tt)); rewrite ?Htip; try done. rewrite Hib.
      destruct b; [constructor|]. eapply sch_next. by rewrite Hint.
    - apply (at_confirmed env now (resumed r) digest f i); by rewrite ?Htip. }
  destruct (attempt_unique _ _ _ _ _ _ _ _ Ha Hexp) as [Hf' ->]. split; [congruence|]. clear Hib Hexp.
  assert (Hb' : proof_of fs' (resumed r) b).
  { eapply proof_of_files; [apply resumed_identity| |exact Hb]. congruence. }
  inversion Ho as [j Had| Hst | | | | |]; subst; [|destruct Hs as [Hs|[Hs _]]; congruence].
  unfold recovered_row. destruct Had as [Hst Hp|t Hst Hp Ht|t Hst Hp Ht]; pose proof (proof_of_unique _ _ _ _ Hb' Hp) as ->.
  - done.
  - by rewrite Hint, Hnext in Ht; injection Ht as ->.
  - destruct Hs as [Hs|[_ Hs]]; [congruence|done].
Qed.
End recovery.

(** ** A run killed between the proof and its transaction *)

Section crash.
Context (store : file) (tip_hash : pystr) (digest : bytes).
Hypothesis Hlock : locked_tip true store = Ok (0, tip_hash).
Hypothesis Hdigest : bytes_fromhex tip_hash = Some digest.
Hypothesis Hlength : length digest = 32%nat.

Local Abbreviation path := (proof_file [47] 0 tip_hash).
Local Abbreviation tmp := (u ".proof.tmp").
Local Abbreviation one := (Queue 1 []).

Definition crash_row : row := race_row tip_hash QUEUED None None.
Definition crash_files : files := <[path := 0 :: digest]> (delete tmp (<[tmp := 0 :: digest]> (<[tmp := []]> ∅))).
Definition crash_pool : pool := Pool (World [crash_row] crash_files) [(toy_args, Killed)].

Lemma crash_steps :
  rtc (alone_step toy_args true store (fun _ => toy_env)) (Starting, World [] ∅)
    (Leaving one crash_row SUBMITTED_PENDING, World [crash_row] crash_files).
Proof.
  apply (alone_then _ _ _ _ _ _ (Snapshot 0 tip_hash, World [] ∅)); [unfold alone_step; cbn; unfold snapshot_tip; by rewrite Hlock|].
  set (w := World [crash_row] ∅).
  apply (alone_then _ _ _ _ _ _ (Tracked, w)); [done|].
  apply (alone_then _ _ _ _ _ _ (Looping (Queue 1 [crash_row]), w)); [done|].
  apply (alone_then _ _ _ _ _ _ (Trying one crash_row, w)); [done|].
  assert (Hi := race_inspect digest Hlength 0 eq_refl).
  apply (alone_then _ _ _ _ _ _ (Writing one crash_row (ProofBytes (0 :: digest)) SUBMITTED_PENDING false, w)).
  { unfold alone_step. cbn [advance fst snd]. unfold try_job. rewrite is_state_refl. cbn [orb tip crash_row race_row].
    rewrite Hdigest. unfold try_queued, w. cbn [w_files]. rewrite lookup_empty. cbn [je_stamp toy_env].
    unfold _target_state. rewrite Hi. done. }
  apply (alone_then _ _ _ _ _ _ (Filling one crash_row (0 :: digest) SUBMITTED_PENDING tmp, World [crash_row] (<[tmp := []]> ∅))).
  { unfold alone_step, w. cbn [advance fst snd proof_bytes je_write toy_env negb andb job_of je_temporary w_files w_table].
    rewrite !lookup_empty. by rewrite !bool_decide_eq_false_2 by (by intros []). }
  apply (alone_then _ _ _ _ _ _ (Replacing one crash_row SUBMITTED_PENDING tmp,
    World [crash_row] (<[tmp := 0 :: digest]> (<[tmp := []]> ∅)))); [done|].
  apply alone_one. cbn [advance je_write toy_env w_files w_table]. by rewrite lookup_insert_eq.
Qed.

Lemma crash_reachable exact : pool_reachable exact (World [] ∅) crash_pool.
Proof.
  eapply rtc_l; [by apply (pool_start exact (Pool (World [] ∅) []) toy_args)|].
  trans (Pool (World [crash_row] crash_files) [(toy_args, Leaving one crash_row SUBMITTED_PENDING)]).
  - pose proof crash_steps as E.
    apply (alone_pool exact _ _ _ _ _ _ (Pool (World [] ∅) [(toy_args, Starting)]) 0%nat) in E; [exact E|done|done|].
    intros i. apply toy_temporary, i.
  - apply rtc_once. by apply (pool_kill exact (Pool _ [(toy_args, Leaving one crash_row SUBMITTED_PENDING)]) 0%nat toy_args
      (Leaving one crash_row SUBMITTED_PENDING)).
Qed.

Lemma crash_path : path <> tmp.
Proof. intros E. by apply (race_temporary store tip_hash Hlock (u ".proof")). Qed.

Lemma crash_temporary (i : Z) : temporary_ok (je_temporary toy_env) /\ crash_files !! je_temporary toy_env = None.
Proof.
  split; [by exists (u ".proof")|]. unfold crash_files. rewrite lookup_insert_ne by apply crash_path.
  apply lookup_delete_eq.
Qed.
End crash.
