(* ===== verification/WorkerSharingTheorems.v ===== *)
(** The properties of worker runs that share the table and the proof files, that
    are killed, or that run alone. *)

From stdpp Require Import relations gmap.
From S2P Require Import Prelude.
From S2P Require Import PyText.
From S2P Require Import PyValue.
From S2P Require Import Binary64.
From S2P Require Import FloatOps.
From S2P Require Import Calendar.
From S2P Require Import Sha256.
From S2P Require Import LoggerFacts.
From S2P Require Import ChainStore.
From S2P Require Import Anchor.
From S2P Require Import AnchorStore.
From S2P Require Import AnchorStoreFacts.
From S2P Require Import AnchorWorker.
From S2P Require Import WorkerFacts.
From S2P Require Import RunFacts.
From S2P Require Import RunProgress.
From S2P Require Import AnchorFacts.
From S2P Require Import WorkerTheorems.
From S2P Require Import WorkerSharing.
From S2P Require Import WorkerSharingFacts.
From S2P Require Import WorkerAlone.
From S2P Require Import WorkerRace.
From S2P Require Import WorkerRecovery.

Section facts.
Context `{OpenTimestamps}.

(** ** The two invariants *)

Lemma worker_shared exact w : worker_inv w -> shared_inv exact w.
Proof.
  intros [Ht Hp Hf]. constructor; try done. eapply Forall_impl; [exact Hf|]. intros r. unfold proof_ok, row_proof.
  destruct (effective r); try done. intros Hb. by exists true.
Qed.

Lemma shared_worker w : shared_inv true w -> worker_inv w.
Proof.
  intros [Ht Hp Hf]. constructor; try done. eapply Forall_impl; [exact Hf|]. intros r. unfold proof_ok, row_proof.
  destruct (effective r); try done. intros (b & Hb & He). by rewrite <- (He eq_refl).
Qed.

(** ** Rows *)

Lemma pool_step_rows exact p p' i :
  pool_inv exact p -> pool_step exact p p' ->
  i ∈ map identity (w_table (po_world p)) -> i ∈ map identity (w_table (po_world p')).
Proof.
  intros [Hw Hst _ _] Hstep. destruct Hstep as [p a Hone|p k a lock store env st st' w' Hk Htmp E|p k a st Hk Hov]; try done.
  destruct (advance_ok exact a lock store env (po_world p) st st' w' Hw (Hst k a st Hk) Htmp E) as (_ & _ & [Hr _ _] & _).
  apply Hr.
Qed.

Lemma pool_reachable_rows exact w p i :
  shared_inv exact w -> pool_reachable exact w p ->
  i ∈ map identity (w_table w) -> i ∈ map identity (w_table (po_world p)).
Proof.
  intros Hw Hr Hi.
  apply (rtc_invariant (pool_step exact) (fun p => pool_inv exact p /\ i ∈ map identity (w_table (po_world p)))
    (Pool w []) p); [|exact Hr|by split].
  intros q q' [Hq Hi'] Hs. split; [by eapply pool_step_inv|by eapply pool_step_rows].
Qed.

(** ** A run alone *)

Lemma alone_unique a lock store envs s s1 s2 :
  rtc (alone_step a lock store envs) s s1 -> rtc (alone_step a lock store envs) s s2 -> over s1.1 = true ->
  rtc (alone_step a lock store envs) s2 s1.
Proof.
  intros H1 H2 Ho. induction H2 as [s|s x s2 Hx _ IH]; [done|]. apply IH. destruct H1 as [s|s y s1 Hy H1].
  - unfold alone_step in Hx. by destruct s as [[] w].
  - unfold alone_step in Hx, Hy. assert (x = y) as -> by congruence. done.
Qed.
End facts.

(** ** The properties *)

Section properties.
Context `{OpenTimestamps}.

(** C8: any number of runs of the worker may be interleaved at any step, and any
    of them killed at any step, within [write_proof_atomic] too: the table stays
    well formed and within the constraints of the schema, no row is lost, and
    every row that is pending or upgraded, or failed from there, has at its path
    a whole proof that the library reads as a proof of the tip of that row, never
    a part of one or the proof of another tip. *)
Theorem workers_share_safely w p :
  shared_inv false w -> pool_reachable false w p ->
  let w' := po_world p in
  table_ok (w_table w') /\ schema_ok (w_table w') = true /\
  (forall i, i ∈ map identity (w_table w) -> i ∈ map identity (w_table w')) /\
  forall r, r ∈ w_table w' -> effective r = SUBMITTED_PENDING \/ effective r = UPGRADED_UNVERIFIED ->
    exists digest proof i, bytes_fromhex (tip r) = Some digest /\ w_files w' !! proof_path r = Some proof /\
      inspect_proof (ProofBytes proof) digest = Ok i.
Proof.
  intros Hw Hr. cbv zeta. destruct (pool_reachable_inv false w p Hw Hr) as [[Ht Hp Hf] _ _ _].
  split; [done|]. split; [by apply table_ok_schema|]. split; [by intros i; eapply pool_reachable_rows|].
  rewrite Forall_forall in Hf. intros r Hin He.
  destruct (proved_row _ _ _ (Hf r Hin) He) as (b & digest & proof & i & Hd & Hpf & Hi & _).
  by exists digest, proof, i.
Qed.

(** C10: a worker that is killed, at any step and any number of times, leaves
    nothing that the next run does not repair, as long as runs do not overlap.
    Whatever was done up to the kill satisfies the invariant of the worker, and
    the next run, when the calendars raise no configuration error and no row has
    failed more than 1014 times (the delay of the 1016th attempt does not fit a
    float), returns, leaves no job due and satisfies the invariant.  Work cut
    between the publication of a proof and its transaction is taken up: a due job
    that is still queued (or failed from there) although a run put a proof at its
    path, and a pending one whose file already has a Bitcoin attestation, keep
    that file, and their row becomes what the cut transaction would have made of
    it, when the file can be read and the next check has a date. *)
Theorem killed_runs_recover w p interval threshold directory lock store envs now sequence tip_hash :
  worker_inv w -> pool_reachable true w p -> instant_ok now -> instant_ok (now + 108000 * us_per_second) ->
  locked_tip lock store = Ok (sequence, tip_hash) ->
  (forall i, temporary_ok (je_temporary (envs i)) /\ w_files (po_world p) !! je_temporary (envs i) = None) ->
  (forall i, calm_env (envs i)) ->
  Forall (fun r => attempt_count r <= 1014 /\ 0 < interval_minutes r) (w_table (po_world p)) ->
  WorkerConfig_ok interval threshold = true ->
  let out := run_once interval threshold directory lock store envs now (po_world p) in
  let fs := w_files (po_world p) in
  worker_inv (po_world p) /\ worker_inv out.1 /\ (exists n, out.2 = Ok n) /\
  due_jobs (_utc_text now) (w_table out.1) = [] /\
  forall r next, r ∈ w_table (po_world p) -> is_due (_utc_text now) r = true ->
    (state (resumed r) = QUEUED /\ fs !! proof_path r <> w_files w !! proof_path r) \/
    (state (resumed r) = SUBMITTED_PENDING /\ proof_of fs r true) ->
    je_read (envs (id r)) = true -> add_us now (minutes_us (interval_minutes r)) = Some next ->
    w_files out.1 !! proof_path r = fs !! proof_path r /\
    exists b, proof_of fs r b /\ recovered_row now (_utc_text next) b r ∈ w_table out.1.
Proof.
  intros Hw Hr Hnow Hlast Hl Htmp Hcalm Hrows Hcfg. cbv zeta.
  assert (Hs : shared_inv true w) by by apply worker_shared.
  assert (Hp : worker_inv (po_world p)) by by apply shared_worker, (pool_reachable_inv true w p).
  destruct (run_once_drained interval threshold directory lock store envs now (po_world p) sequence tip_hash)
    as [Hret Hdue]; try done.
  split; [done|]. split; [by eapply run_once_spec|]. split; [done|]. split; [done|].
  intros r next Hin Hd Hc Hread Hnext.
  assert (Hb : exists b, proof_of (w_files (po_world p)) r b /\
    (state (resumed r) = QUEUED \/ (state (resumed r) = SUBMITTED_PENDING /\ b = true))).
  { destruct Hc as [[Hq Hne]|[Hq Hb]]; [|by exists true; auto].
    destruct (published_proof true w p r Hs Hr Hin Hne) as [b Hb]. exists b. auto. }
  destruct Hb as (b & Hb & Hst).
  destruct (run_once_returns interval threshold directory lock store envs now (po_world p) sequence tip_hash)
    as [_ Hloop]; try done; [eapply Forall_impl; [exact Hrows|]; by intros ? []|].
  destruct (looped_handled _ _ _ _ _ r Hloop) as (r' & Hr' & Hh).
  - apply due_jobs_in. split; [by apply tracked_in|done].
  - by apply tracked_in.
  - destruct (handled_recovers _ _ _ _ _ _ _ _ _ Hh Hb Hread Hst Hnext) as [Hf ->]. split; [exact Hf|]. by exists b.
Qed.

(** Nothing is lost between the two models of a run: a run that nothing
    interleaves takes its steps, one transaction, look at a file or file system
    call at a time, to the world and the result of [run_once], raised exceptions
    included; every way it can go leads there; and those steps are steps of the
    pool of runs. *)
Theorem run_alone_exact a lock store envs w :
  worker_inv w -> instant_ok (ra_now a) ->
  (forall i, temporary_ok (je_temporary (envs i)) /\ w_files w !! je_temporary (envs i) = None) ->
  let out := run_once (ra_interval a) (ra_threshold a) (ra_directory a) lock store envs (ra_now a) w in
  rtc (alone_step a lock store envs) (Starting, w) (Finished out.2, out.1) /\
  (forall s, rtc (alone_step a lock store envs) (Starting, w) s ->
     rtc (alone_step a lock store envs) s (Finished out.2, out.1)) /\
  pool_reachable true w (Pool out.1 [(a, Finished out.2)]).
Proof.
  intros Hw Hnow Htmp. cbv zeta. pose proof (run_alone a lock store envs w Hw Hnow Htmp) as Hrun. cbv zeta in Hrun.
  split; [done|]. split; [intros s Hs; by eapply alone_unique|]. eapply rtc_l; [by apply (pool_start true (Pool w []) a)|].
  apply (alone_pool true a lock store envs _ _ (Pool w [(a, Starting)]) 0) in Hrun; try done. intros i. apply Htmp.
Qed.
End properties.

(** ** Witnesses *)

Lemma toy_instants : instant_ok 0 /\ instant_ok (0 + 108000 * us_per_second).
Proof. split; [by unfold instant_ok|]. split; [done|]. unfold max_instant, us_per_day, us_per_second. lia. Qed.

(** Two runs at one row, the one overtaking the other. *)
Lemma workers_share_safely_witness :
  exists tip_hash digest, let w := po_world (race_pool tip_hash digest) in
    exists proof i, w_files w !! proof_file [47] 0 tip_hash = Some proof /\ inspect_proof (ProofBytes proof) digest = Ok i.
Proof.
  destruct toy_locked_digest as (store & tip_hash & digest & Hl & Hd & Hlen). exists tip_hash, digest. cbv zeta.
  destruct (proj2 (proj2 (proj2 (workers_share_safely _ _ (worker_shared false _ (race_start_ok store tip_hash digest Hl Hd Hlen))
    (race_reachable store tip_hash digest Hl Hd Hlen)))) _ (list_elem_of_here _ _) (or_intror eq_refl))
    as (digest' & proof & i & Hd' & Hp & Hi).
  exists proof, i. split; [exact Hp|]. cbn in Hd'. rewrite Hd in Hd'. injection Hd' as <-. exact Hi.
Defined.

(** A run killed after the proof was published and before its transaction. *)
Lemma killed_runs_recover_witness :
  exists store tip_hash digest,
    let out := run_once 15 6 [47] true store (fun _ => toy_env) 0 (po_world (crash_pool tip_hash digest)) in
    recovered_row 0 (_utc_text 900000000) false (crash_row tip_hash) ∈ w_table out.1 /\
    w_files out.1 !! proof_file [47] 0 tip_hash = Some (0 :: digest).
Proof.
  destruct toy_locked_digest as (store & tip_hash & digest & Hl & Hd & Hlen). exists store, tip_hash, digest. cbv zeta.
  assert (Hrows : Forall (fun r => attempt_count r <= 1014 /\ 0 < interval_minutes r)
    (w_table (po_world (crash_pool tip_hash digest)))) by (constructor; [by split|constructor]).
  assert (Hf : crash_files tip_hash digest !! proof_file [47] 0 tip_hash = Some (0 :: digest)) by apply lookup_insert_eq.
  destruct (proj2 (proj2 (proj2 (proj2 (killed_runs_recover _ _ 15 6 [47] true store (fun _ => toy_env) 0 0 tip_hash
    empty_worker (crash_reachable store tip_hash digest Hl Hd Hlen true) (proj1 toy_instants) (proj2 toy_instants) Hl
    (crash_temporary store tip_hash digest Hl) toy_env_calm Hrows eq_refl)))) (crash_row tip_hash) 900000000
    (list_elem_of_here _ _) eq_refl) as (E & b & Hb & Hin).
  - left. split; [reflexivity|]. intros E. assert (Some (0 :: digest) = None) as [=].
    rewrite <- Hf. etransitivity; [exact E|apply lookup_empty].
  - reflexivity.
  - reflexivity.
  - split; [|rewrite <- Hf; exact E]. replace false with b; [exact Hin|].
    apply (proof_of_unique _ _ _ _ Hb). exists digest, (0 :: digest), {| inspected_digest := digest; has_bitcoin_attestation := false |}.
    split; [exact Hd|]. split; [exact Hf|]. split; [by apply (race_inspect digest Hlen 0)|reflexivity].
Defined.

Lemma run_alone_exact_witness :
  exists store, let out := run_once 15 6 [47] true store (fun _ => toy_env) 0 (World [] ∅) in
    pool_reachable true (World [] ∅) (Pool out.1 [(toy_args, Finished out.2)]).
Proof.
  destruct toy_locked_tip as (store & tip_hash & Hl). exists store.
  exact (proj2 (proj2 (run_alone_exact toy_args true store (fun _ => toy_env) (World [] ∅)
    empty_worker (proj1 toy_instants) toy_temporary))).
Defined.
