(* ===== verification/AnchoredHistory.v ===== *)
(** What the proofs of the worker are worth: a proof that is accepted for a
    record of a store, at any later time, fixes the whole history up to it. *)

From stdpp Require Import relations gmap.
From S2P Require Import Prelude.
From S2P Require Import PyText.
From S2P Require Import PyValue.
From S2P Require Import RecordFormat.
From S2P Require Import EventSpec.
From S2P Require Import ChainStore.
From S2P Require Import ChainSpec.
From S2P Require Import Sha256.
From S2P Require Import LoggerFacts.
From S2P Require Import CheckFacts.
From S2P Require Import Samples.
From S2P Require Import ChainTheorems.
From S2P Require Import Anchor.
From S2P Require Import AnchorStore.
From S2P Require Import AnchorStoreFacts.
From S2P Require Import AnchorWorker.
From S2P Require Import WorkerFacts.
From S2P Require Import RunFacts.
From S2P Require Import AnchorFacts.
From S2P Require Import WorkerSharing.
From S2P Require Import WorkerSharingFacts.
From S2P Require Import WorkerAlone.
From S2P Require Import WorkerRace.
From S2P Require Import WorkerSharingTheorems.

(** A record with the hash that a chain ends with stands where that chain ends,
    after the same records, or two signed bytes collide. *)
Lemma record_commits v v' lines lines' entries entries' r' signed' :
  Forall bytes_ok lines -> Forall bytes_ok lines' ->
  linked v 0 GENESIS_PREV_HASH lines entries -> linked v' 0 GENESIS_PREV_HASH lines' entries' ->
  entries <> [] -> (r', signed') ∈ entries' -> tip_of entries = sha256_hex signed' ->
  same_signed entries (take (length entries) entries') \/ collision entries entries'.
Proof.
  intros B B' H H' Hne [i Hi]%list_elem_of_lookup Ht. pose proof (take_S_r _ _ _ Hi) as Etake.
  assert (Hlast : last_hash entries = last_hash (take (S i) entries')).
  { unfold last_hash. destruct entries as [|e entries]; [done|]. rewrite Ht, Etake, <- (tip_of_snoc (take i entries') r').
    by destruct (take i entries'). }
  destruct (tips_commit v v' lines (take (S i) lines') entries (take (S i) entries') B (Forall_take _ _ _ B') H
    (linked_take _ _ _ _ _ _ H') Hlast) as [Hs|Hc].
  - left. destruct Hs as [Hs Hu]. pose proof (f_equal length Hs) as Hlen. rewrite !length_map, length_take in Hlen.
    apply lookup_lt_Some in Hi. replace (length entries) with (S i) by lia. by split.
  - right. eapply collision_mono; [done| |exact Hc]. intros x Hx. by eapply subseteq_take.
Qed.

Section history.
Context `{OpenTimestamps}.

(** A proof that inspects for two digests is of one. *)
Lemma inspect_one proof d d' i i' : inspect_proof proof d = Ok i -> inspect_proof proof d' = Ok i' -> d = d'.
Proof.
  intros (b & ts & -> & _ & _ & Hd & <- & _)%inspect_proof_Ok (b' & ts' & [= <-] & _ & _ & Hd' & <- & _)%inspect_proof_Ok.
  rewrite Hd in Hd'. by injection Hd' as <-.
Qed.

(** A proof of the tip of one store that inspects for a record of another. *)
Lemma proof_fixes_history fs r proof content content' v v' entries entries' r' signed' inspection :
  row_proof false fs r -> effective r = SUBMITTED_PENDING \/ effective r = UPGRADED_UNVERIFIED ->
  bytes_ok content -> chain_store v (Some content) entries -> entries <> [] -> tip_of entries = tip r ->
  bytes_ok content' -> chain_store v' (Some content') entries' -> (r', signed') ∈ entries' ->
  fs !! proof_path r = Some proof -> inspect_proof (ProofBytes proof) (sha256 signed') = Ok inspection ->
  same_signed entries (take (length entries) entries') \/ collision entries entries'.
Proof.
  intros Hf He Hb Hc Hne Ht Hb' Hc' Hin Hproof Hi.
  destruct (proved_row _ _ _ Hf He) as (b & digest & proof0 & i & Hd & Hpf & Hi0 & _).
  rewrite Hproof in Hpf. injection Hpf as <-. pose proof (inspect_one _ _ _ _ _ Hi Hi0) as <-.
  eapply (record_commits v v' (physical_lines content) (physical_lines content'));
    [by apply file_lines_ok..|exact Hc|exact Hc'|done|exact Hin|].
  destruct entries as [|[r0 signed] es _] using rev_ind; [done|]. rewrite tip_of_snoc in *. rewrite <- Ht in Hd.
  unfold sha256_hex in *. rewrite bytes_fromhex_hex in Hd by apply sha256_ok. by injection Hd as ->.
Qed.

Lemma pool_row_proof w p r :
  shared_inv false w -> pool_reachable false w p -> r ∈ w_table (po_world p) -> row_proof false (w_files (po_world p)) r.
Proof.
  intros Hw Hp Hr. destruct (pool_reachable_inv false w p Hw Hp) as [[_ _ Hf] _ _ _]. rewrite Forall_forall in Hf. auto.
Qed.

(** C9: what an anchored row is worth.  Let workers run interleaved and be
    killed at any step, and let a row that is pending or upgraded have been
    tracked for a chain store [content].  If, for any store [content'] of any
    later time, the proof file of that row passes [inspect_proof] for the hash of
    a record of [content'], then the first records of [content'] are exactly
    those of [content], or two different signed bytes of the two stores have one
    SHA-256 digest: rewriting, inserting or dropping a record before the anchored
    one is found out by the proof on disk, whoever holds the signing key. *)
Theorem anchored_history_fixed w p r proof content content' entries' r' signed' inspection :
  shared_inv false w -> pool_reachable false w p -> r ∈ w_table (po_world p) ->
  effective r = SUBMITTED_PENDING \/ effective r = UPGRADED_UNVERIFIED ->
  bytes_ok content -> locked_tip true (Some content) = Ok (sequence_no r, tip r) ->
  bytes_ok content' -> read_chain (Some content') = Ok entries' -> (r', signed') ∈ entries' ->
  w_files (po_world p) !! proof_path r = Some proof -> inspect_proof (ProofBytes proof) (sha256 signed') = Ok inspection ->
  exists entries, read_chain (Some content) = Ok entries /\ Z.of_nat (length entries) = sequence_no r + 1 /\
    ((map snd entries = take (length entries) (map snd entries') /\
      map (fun e => unsigned_part e.1) entries = take (length entries) (map (fun e => unsigned_part e.1) entries')) \/
     exists a b, a ∈ map snd entries /\ b ∈ map snd entries' /\ a <> b /\ sha256 a = sha256 b).
Proof.
  intros Hw Hp Hr He Hb Hl Hb' [v' Hc']%read_chain_Ok Hin Hproof Hi.
  apply locked_tip_Ok in Hl as (v & entries & Hc & Hn & Hs & Ht & _).
  exists entries. split; [apply read_chain_Ok; by exists v|]. split; [lia|]. rewrite !firstn_map.
  assert (Hne : entries <> []) by (intros ->; cbn in Hs; lia).
  by apply (proof_fixes_history (w_files (po_world p)) r proof content content' v v' entries entries' r' signed' inspection
    (pool_row_proof w p r Hw Hp Hr) He Hb Hc Hne (eq_sym Ht) Hb' Hc' Hin Hproof Hi).
Qed.
End history.

(** The raced row, and the store it was tracked for. *)
Lemma anchored_history_fixed_witness :
  exists content entries, read_chain (Some content) = Ok entries /\ Z.of_nat (length entries) = 1.
Proof.
  destruct (one_record_chain V2Ingestion ingestion_event ingestion_event_spec ingestion_event_wf)
    as (content & r & s & Hc & _ & _ & Hb).
  assert (Hl : locked_tip true (Some content) = Ok (0, sha256_hex s)).
  { apply locked_tip_exact. split; [done|]. split; [done|]. by exists (kind_version V2Ingestion), [], r, s. }
  assert (Hd : bytes_fromhex (sha256_hex s) = Some (sha256 s)) by apply bytes_fromhex_hex, sha256_ok.
  destruct (anchored_history_fixed _ _ _ (0 :: sha256 s) content content [(r, s)] r s
    {| inspected_digest := sha256 s; has_bitcoin_attestation := false |}
    (worker_shared false _ (race_start_ok (Some content) (sha256_hex s) (sha256 s) Hl Hd (sha256_length s)))
    (race_reachable (Some content) (sha256_hex s) (sha256 s) Hl Hd (sha256_length s))
    (list_elem_of_here _ _) (or_intror eq_refl) Hb Hl Hb) as (entries & He & Hn & _).
  - apply read_chain_Ok. by exists (kind_version V2Ingestion).
  - by left.
  - apply lookup_insert_eq.
  - apply race_inspect; [apply sha256_length|done].
  - exists content, entries. split; [exact He|exact Hn].
Defined.
