(* ===== verification/CollectorModels.v ===== *)
(** [collector/vestrix_collector/models.py] and [forensics.py]: the ingest
    schema, and the adapter from an ingest event to the forensic chain. *)

From S2P Require Import Prelude.
From S2P Require Import PyText.
From S2P Require Import Binary64.
From S2P Require Import PyValue.
From S2P Require Import JsonDumps.
From S2P Require Import Timestamp.
From S2P Require Import RecordFormat.
From S2P Require Import ChainStore.
From S2P Require Import ChainLogger.

(** ** The schema *)

(** [_FIELDS] *)
Definition csi_fields : list pystr :=
  [ u "schema_version"; u "node_id"; u "timestamp_utc"; u "csi_window_sha256"; u "sequence_number" ].

Definition is_ascii_alnum (c : Z) : bool :=
  is_digit c || ((65 <=? c) && (c <=? 90)) || ((97 <=? c) && (c <=? 122)).

(** [[A-Za-z0-9][A-Za-z0-9._-]{0,127}] *)
Definition is_node_char (c : Z) : bool := is_ascii_alnum c || (c =? 46) || (c =? 95) || (c =? 45).

Definition is_node_id (s : pystr) : bool :=
  match s with
  | c :: r => is_ascii_alnum c && Nat.leb (length r) 127 && forallb is_node_char r
  | [] => false
  end.

Definition _MAX_SEQUENCE_NUMBER : Z := Z.shiftl 1 64 - 1.

(** [PayloadValidationError], as its text. *)
Notation payload_res := (res (list Z)).

Definition check_schema_version (v : pyval) : payload_res unit :=
  ensure (is_str (Some v) (u "0.1")) (u "unsupported_schema_version").

Definition check_node_id (v : pyval) : payload_res unit :=
  ensure (match v with PStr s => is_node_id s | _ => false end) (u "invalid_node_id").

Definition check_timestamp_utc (v : pyval) : payload_res unit :=
  match v with
  | PStr s =>
      match match_timestamp (Some 9%nat) s with
      | None => Err (u "invalid_timestamp_utc")
      | Some m =>
          match fromisoformat_utc m with
          | None => Err (u "invalid_timestamp_utc")
          | Some _ => Ok tt
          end
      end
  | _ => Err (u "invalid_timestamp_utc")
  end.

Definition check_csi_window_sha256 (v : pyval) : payload_res unit :=
  ensure (match v with PStr s => is_lower_hex_n 64 s | _ => false end) (u "invalid_csi_window_sha256").

Definition check_sequence_number (v : pyval) : payload_res unit :=
  ensure (match v with PInt z => (0 <=? z) && (z <=? _MAX_SEQUENCE_NUMBER) | _ => false end)
    (u "invalid_sequence_number").

(** The body once the keys are known to be strings. *)
Definition validate_payload_dict (value : pydict) : payload_res pydict :=
  let missing := set_diff csi_fields (keys value) in
  let unknown := set_diff (keys value) csi_fields in
  _ ← ensure (bool_decide (missing = [])) (u "missing_fields:" ++ join_comma (sorted_names missing));
  _ ← ensure (bool_decide (unknown = [])) (u "unknown_fields:" ++ join_comma (sorted_names unknown));
  _ ← check_schema_version (item value (u "schema_version"));
  _ ← check_node_id (item value (u "node_id"));
  _ ← check_timestamp_utc (item value (u "timestamp_utc"));
  _ ← check_csi_window_sha256 (item value (u "csi_window_sha256"));
  _ ← check_sequence_number (item value (u "sequence_number"));
  Ok value.

Definition validate_payload (value : pyval) : payload_res pydict :=
  match value with
  | PDict d =>
      match str_keys d with
      | None => Err (u "payload_not_object")
      | Some d => validate_payload_dict d
      end
  | _ => Err (u "payload_not_object")
  end.

(** ** The forensic adapter *)

(** The event [log_event] of [forensics.py] passes on. *)
Definition ingestion_fields (event : pydict) : pydict :=
  [ (u "format_version", PInt 2);
    (u "event_type", PStr (u "ingestion_accepted"));
    (u "ts_utc", item event (u "timestamp_utc"));
    (u "node_id", item event (u "node_id"));
    (u "raw_csi_hash", item event (u "csi_window_sha256"));
    (u "collector_schema_version", item event (u "schema_version"));
    (u "collector_sequence_number", item event (u "sequence_number")) ].

(** The environment of one hand-off: whether [VESTRIX_FORENSICS_PRIVATE_KEY] is
    set to a nonempty text, the key [load_private_key] returns, if it returns,
    and what the append does. *)
Record handoff_env := HandoffEnv {
  he_key_path : bool;
  he_key : option (bytes -> sign_result);
  he_append : environment
}.

Inductive handoff_exn :=
| KeyNotConfigured          (* [RuntimeError] *)
| KeyNotLoaded              (* [OSError], [ValueError], [TypeError] *)
| AppendRaised (e : logger_exn).

Definition forensics_log_event (env : handoff_env) (event : pydict) (store : file)
  : res handoff_exn unit * file :=
  if negb (he_key_path env) then (Err KeyNotConfigured, store)
  else match he_key env with
       | None => (Err KeyNotLoaded, store)
       | Some sign =>
           let '(r, store') := log_event sign (he_append env) (to_dict (ingestion_fields event)) store in
           (map_err AppendRaised (_ ← r; Ok tt), store')
       end.
