(* ===== verification/CollectorTls.v ===== *)
(** [collector/vestrix_collector/server.py]: the TLS context of the collector.

    The [ssl] module and OpenSSL are the class [TlsLibrary]: which files they
    can load, and the settings of a new context.  A context keeps the octets it
    was given, so what a handshake makes of them is a function of the context. *)

From S2P Require Import Prelude.
From S2P Require Import PyText.
From S2P Require Import PyValue.

Inductive verify_mode := CERT_NONE | CERT_OPTIONAL | CERT_REQUIRED.

Definition VERIFY_CRL_CHECK_LEAF : Z := 4.
Definition TLSv1_2 : Z := 771.

(** [ctx_locations]: the contents of the loaded [cafile]s, in order.
    [ctx_cert_chain]: the own certificate and its key. *)
Record SSLContext := {
  ctx_minimum_version : Z;
  ctx_verify_mode : verify_mode;
  ctx_verify_flags : Z;
  ctx_locations : list bytes;
  ctx_cert_chain : option (bytes * bytes)
}.

(** [location_loads]: the file holds a certificate or a revocation list that
    loads; [certificate_loads] and [key_loads] likewise for [load_cert_chain],
    the key with its certificate.  The rest is up to the build of OpenSSL. *)
Class TlsLibrary := {
  default_minimum_version : Z;
  default_verify_flags : Z;
  location_loads : bytes -> bool;
  certificate_loads : bytes -> bool;
  key_loads : bytes -> bytes -> bool
}.

(** The content of a file, or the type name of the [OSError]. *)
Notation read_file := (res pystr bytes) (only parsing).

(** What is at the paths of the configuration. *)
Record tls_files := TlsFiles {
  ca_cert_file : read_file;
  crl_file : read_file;
  server_cert_file : read_file;
  server_key_file : read_file
}.

Section tls.
Context {T : TlsLibrary}.

(** [ssl.SSLContext(ssl.PROTOCOL_TLS_SERVER)]. *)
Definition new_server_context : SSLContext :=
  {| ctx_minimum_version := default_minimum_version; ctx_verify_mode := CERT_NONE;
     ctx_verify_flags := default_verify_flags; ctx_locations := []; ctx_cert_chain := None |}.

Definition load_verify_locations (cafile : read_file) (c : SSLContext) : res pystr SSLContext :=
  content ← cafile;
  _ ← ensure (location_loads content) (u "SSLError");
  Ok {| ctx_minimum_version := ctx_minimum_version c; ctx_verify_mode := ctx_verify_mode c;
        ctx_verify_flags := ctx_verify_flags c; ctx_locations := ctx_locations c ++ [content];
        ctx_cert_chain := ctx_cert_chain c |}.

Definition load_cert_chain (certfile keyfile : read_file) (c : SSLContext) : res pystr SSLContext :=
  cert ← certfile;
  _ ← ensure (certificate_loads cert) (u "SSLError");
  key ← keyfile;
  _ ← ensure (key_loads cert key) (u "SSLError");
  Ok {| ctx_minimum_version := ctx_minimum_version c; ctx_verify_mode := ctx_verify_mode c;
        ctx_verify_flags := ctx_verify_flags c; ctx_locations := ctx_locations c;
        ctx_cert_chain := Some (cert, key) |}.

(** The error is the type name of the exception. *)
Definition build_server_tls_context (files : tls_files) : res pystr SSLContext :=
  let context := new_server_context in
  let context := {| ctx_minimum_version := TLSv1_2; ctx_verify_mode := CERT_REQUIRED;
                    ctx_verify_flags := ctx_verify_flags context; ctx_locations := ctx_locations context;
                    ctx_cert_chain := ctx_cert_chain context |} in
  context ← load_verify_locations (ca_cert_file files) context;
  context ← load_verify_locations (crl_file files) context;
  let context := {| ctx_minimum_version := ctx_minimum_version context; ctx_verify_mode := ctx_verify_mode context;
                    ctx_verify_flags := Z.lor (ctx_verify_flags context) VERIFY_CRL_CHECK_LEAF;
                    ctx_locations := ctx_locations context; ctx_cert_chain := ctx_cert_chain context |} in
  load_cert_chain (server_cert_file files) (server_key_file files) context.

(** What a server context does: it asks every peer for a certificate and
    checks it against the revocation list. *)
Definition checks_revocation (c : SSLContext) : Prop :=
  ctx_verify_mode c = CERT_REQUIRED /\ Z.testbit (ctx_verify_flags c) 2 = true.

(** A context comes of exactly the files that load; it speaks TLS 1.2 or later,
    checks revocation, and trusts exactly the two files. *)
Lemma build_server_tls_context_Ok files c :
  build_server_tls_context files = Ok c <->
  exists ca crl cert key,
    ca_cert_file files = Ok ca /\ crl_file files = Ok crl /\ server_cert_file files = Ok cert /\
    server_key_file files = Ok key /\ location_loads ca = true /\ location_loads crl = true /\
    certificate_loads cert = true /\ key_loads cert key = true /\
    c = {| ctx_minimum_version := TLSv1_2; ctx_verify_mode := CERT_REQUIRED;
           ctx_verify_flags := Z.lor default_verify_flags VERIFY_CRL_CHECK_LEAF;
           ctx_locations := [ca; crl]; ctx_cert_chain := Some (cert, key) |}.
Proof.
  unfold build_server_tls_context, load_verify_locations, load_cert_chain. repeat setoid_rewrite bind_Ok.
  setoid_rewrite ensure_Ok. split.
  - intros (c2 & (ca & Ha & [] & Hca & [= <-]) & cx & (crl & Hr & [] & Hcrl & [= <-]) & cert & Hc & [] & Hcert & key & Hk & [] & Hkey & [= <-]).
    exists ca, crl, cert, key. split_and!; done.
  - intros (ca & crl & cert & key & Ha & Hr & Hc & Hk & Hca & Hcrl & Hcert & Hkey & ->).
    eexists. split; [exists ca; split; [done|]; by exists tt|]. eexists. split; [exists crl; split; [done|]; by exists tt|].
    exists cert. split; [done|]. exists tt. split; [done|]. exists key. split; [done|]. by exists tt.
Qed.

Lemma server_context_checks files c : build_server_tls_context files = Ok c -> checks_revocation c.
Proof.
  intros (ca & crl & cert & key & _ & _ & _ & _ & _ & _ & _ & _ & ->)%build_server_tls_context_Ok. split; [done|].
  cbn [ctx_verify_flags]. rewrite Z.lor_spec. apply orb_true_r.
Qed.
End tls.

(** A library that loads every file that is not empty. *)
Definition sample_tls : TlsLibrary := {|
  default_minimum_version := TLSv1_2;
  default_verify_flags := 32768;
  location_loads content := negb (bool_decide (content = []));
  certificate_loads content := negb (bool_decide (content = []));
  key_loads _ key := negb (bool_decide (key = []))
|}.
