(* ===== verification/CollectorServer.v ===== *)
(** [collector/vestrix_collector/server.py]: the handling of one connection.

    A TLS connection is what its [recv] calls give ([recv_event]) and the
    certificate; the allow-list file is the object its YAML denotes.  The
    handler is split where it takes and releases its locks: admission (no
    shared state), the reservation of the sequence number, and the hand-off to
    the forensic chain. *)

From stdpp Require Import gmap.
From S2P Require Import Prelude.
From S2P Require Import PyText.
From S2P Require Import Binary64.
From S2P Require Import PyValue.
From S2P Require Import JsonDumps.
From S2P Require Import JsonLoads.
From S2P Require Import RecordFormat.
From S2P Require Import ChainStore.
From S2P Require Import ChainLogger.
From S2P Require Import CollectorModels.
From S2P Require Import CollectorTls.

Notation sequences := (@gmap (list Z) (@list_eq_dec Z Z.eq_dec) (@list_countable Z Z.eq_dec Z_countable) Z)
  (only parsing).

(** ** The allow-list *)

Inductive allowlist_error :=
| AllowlistNotLoaded
| AllowlistNotText
| AllowlistShape
| AllowlistNodesEmpty
| AllowlistNodeText
| AllowlistDuplicate.

Definition nonempty_str (v : pyval) : bool := match v with PStr (_ :: _) => true | _ => false end.
Definition str_value (v : pyval) : pystr := match v with PStr s => s | _ => [] end.

Fixpoint has_duplicate (l : list pystr) : bool :=
  match l with [] => false | x :: l => mem x l || has_duplicate l end.

(** [AllowlistNotText] is a [UnicodeDecodeError], which the function does not
    catch; the others are [AllowlistError]s. *)
Definition allowlist_error_name (e : allowlist_error) : pystr :=
  match e with AllowlistNotText => u "UnicodeDecodeError" | _ => u "AllowlistError" end.

(** The allow-list file: what [yaml.safe_load] returned; a file that cannot be
    read or parsed; and one that is not UTF-8. *)
Inductive allowlist_file :=
| AllowlistYaml (raw : pyval)
| AllowlistUnreadable
| AllowlistUndecodable.

Definition load_enrolled_nodes (file : allowlist_file) : res allowlist_error (list pystr) :=
  match file with
  | AllowlistUnreadable => Err AllowlistNotLoaded
  | AllowlistUndecodable => Err AllowlistNotText
  | AllowlistYaml (PDict [(KStr k, nodes)]) =>
      _ ← ensure (bool_decide (k = u "nodes")) AllowlistShape;
      match nodes with
      | PList (n :: ns) =>
          _ ← ensure (forallb nonempty_str (n :: ns)) AllowlistNodeText;
          let names := map str_value (n :: ns) in
          _ ← ensure (negb (has_duplicate names)) AllowlistDuplicate;
          Ok names
      | _ => Err AllowlistNodesEmpty
      end
  | AllowlistYaml _ => Err AllowlistShape
  end.

(** ** The wire frame *)

(** What a [recv] call finds: octets of the stream, of which it takes at most
    as many as it asked for, a timeout, or another [OSError]. *)
Inductive recv_event :=
| RecvBytes (b : bytes)
| RecvTimeout
| RecvError.

Inductive read_exn :=
| ReadTimeout
| ReadOSError
| ReadUnicodeError
| PayloadReadError (reason : pystr)
| ReadOutOfFuel.

(** [tls_socket.recv(n)]; after the last event the peer has closed. *)
Definition recv (n : nat) (script : list recv_event) : res read_exn bytes * list recv_event :=
  match script with
  | [] => (Ok [], [])
  | RecvBytes b :: rest =>
      if Nat.leb (length b) n then (Ok b, rest) else (Ok (take n b), RecvBytes (drop n b) :: rest)
  | RecvTimeout :: rest => (Err ReadTimeout, rest)
  | RecvError :: rest => (Err ReadOSError, rest)
  end.

(** [chunk.find(b"\n")]; [None] is [-1]. *)
Fixpoint find_lf (b : bytes) : option nat :=
  match b with
  | [] => None
  | c :: b => if c =? LF then Some O else S <$> find_lf b
  end.

(** The [while] loop; each turn adds an octet, so [limit + 2] turns are enough. *)
Fixpoint read_loop (fuel : nat) (limit : nat) (payload : bytes) (script : list recv_event) : res read_exn bytes :=
  match fuel with
  | O => Err ReadOutOfFuel
  | S fuel =>
      if Nat.leb (length payload) limit then
        match recv (Nat.min 4096 (limit + 1 - length payload)) script with
        | (Err e, _) => Err e
        | (Ok [], _) => Err (PayloadReadError (u "payload_missing_newline"))
        | (Ok chunk, script) =>
            match find_lf chunk with
            | Some newline_index => Ok (payload ++ take newline_index chunk)
            | None => read_loop fuel limit (payload ++ chunk) script
            end
        end
      else Ok payload
  end.

Definition _read_json_line (script : list recv_event) (limit : nat) : res read_exn pystr :=
  payload ← read_loop (limit + 2) limit [] script;
  _ ← ensure (Nat.leb (length payload) limit) (PayloadReadError (u "payload_too_large"));
  _ ← ensure (negb (Nat.eqb (length payload) 0)) (PayloadReadError (u "empty_payload"));
  match utf8_decode false payload with
  | Some text => Ok text
  | None => Err ReadUnicodeError
  end.

(** ** Admission *)

(** The subject of the peer certificate, as [getpeercert()] gives it. *)
Definition certificate : Type := list (list (pystr * pyval)).

Definition _certificate_common_names (subject : certificate) : list pystr :=
  flat_map (fun rdn =>
    flat_map (fun kv => match kv with
                        | (key, PStr value) => if bool_decide (key = u "commonName") then [value] else []
                        | _ => []
                        end) rdn) subject.

(** [hmac.compare_digest] of two [str]: [None] is the [TypeError] on a text
    that is not ASCII. *)
Definition is_ascii (s : pystr) : bool := forallb (fun c => (0 <=? c) && (c <? 128)) s.
Definition compare_digest (a b : pystr) : option bool :=
  if is_ascii a && is_ascii b then Some (bool_decide (a = b)) else None.

(** The [try] block: reading, parsing and validating the payload. *)
Inductive payload_outcome :=
| PayloadEvent (event : pydict)
| PayloadRejected (reason : pystr)
| PayloadCrash (type_name : pystr).

Definition read_payload (limit : nat) (script : list recv_event) : payload_outcome :=
  match _read_json_line script limit with
  | Err ReadTimeout => PayloadRejected (u "payload_read_timeout")
  | Err (PayloadReadError reason) => PayloadRejected reason
  | Err _ => PayloadRejected (u "invalid_json_payload")
  | Ok raw_payload =>
      match loads_str raw_payload with
      | Err ScanValueError => PayloadCrash (u "ValueError")
      | Err _ => PayloadRejected (u "invalid_json_payload")
      | Ok decoded =>
          match validate_payload decoded with
          | Err reason => PayloadRejected reason
          | Ok event => PayloadEvent event
          end
      end
  end.

(** How the handler ends before it touches the shared state: a refusal with the
    fields of its log record, an exception, or an event of an enrolled node. *)
Inductive admission :=
| Refused (reason : pystr) (fields : pydict)
| Crashed (type_name : pystr)
| Cleared (node : pystr) (event : pydict).

Definition screen (limit : nat) (subject : certificate) (script : list recv_event) (peer : pystr)
  (enrolled_nodes : list pystr) : admission :=
  match _certificate_common_names subject with
  | [certificate_node_id] =>
      let who := [(u "peer", PStr peer); (u "certificate_node_id", PStr certificate_node_id)] in
      if mem certificate_node_id enrolled_nodes then
        match read_payload limit script with
        | PayloadCrash type_name => Crashed type_name
        | PayloadRejected reason => Refused reason who
        | PayloadEvent event =>
            match compare_digest (str_item event (u "node_id")) certificate_node_id with
            | None => Crashed (u "TypeError")
            | Some false =>
                Refused (u "node_id_certificate_cn_mismatch")
                  (who ++ [(u "payload_node_id", item event (u "node_id"));
                           (u "sequence_number", item event (u "sequence_number"))])
            | Some true => Cleared certificate_node_id event
            end
        end
      else Refused (u "unenrolled_certificate_cn") who
  | _ => Refused (u "invalid_certificate_cn") [(u "peer", PStr peer)]
  end.

(** ** The reservation, under [_sequence_lock] *)

Definition reserve (node : pystr) (sequence_number : Z) (last_sequences : sequences)
  : bool * option Z * sequences :=
  let previous := last_sequences !! node in
  let is_replay := match previous with Some p => sequence_number <=? p | None => false end in
  (is_replay, previous, if is_replay then last_sequences else <[node := sequence_number]> last_sequences).

(** ** The handler *)

(** What the outside sees: log records of decisions, responses to the peer, and
    calls of the event logger. *)
Inductive effect :=
| Decision (decision reason : pystr) (fields : pydict)
| Response (status reason : pystr)
| Handoff (event : pydict).

Definition _reject_tls_socket (reason : pystr) (fields : pydict) : list effect :=
  [Decision (u "reject") reason fields; Response (u "rejected") reason].

(** After the reservation. *)
Definition deliver (peer node : pystr) (event : pydict) (env : handoff_env) (type_name : handoff_exn -> pystr)
  (store : file) : list effect * file :=
  let who := [(u "peer", PStr peer); (u "node_id", PStr node);
              (u "sequence_number", item event (u "sequence_number"))] in
  let '(r, store') := forensics_log_event env event store in
  (Handoff event ::
   match r with
   | Err e => _reject_tls_socket (u "forensics_handoff_failed") (who ++ [(u "error_type", PStr (type_name e))])
   | Ok _ =>
       [Decision (u "accept") (u "authenticated_event_handed_off")
          (who ++ [(u "csi_window_sha256", item event (u "csi_window_sha256"))]);
        Response (u "accepted") (u "authenticated_event_handed_off")]
   end, store').

Definition replay_refusal (peer node : pystr) (event : pydict) (previous : option Z) : list effect :=
  _reject_tls_socket (u "replayed_or_out_of_order_sequence")
    [(u "peer", PStr peer); (u "node_id", PStr node);
     (u "sequence_number", item event (u "sequence_number"));
     (u "last_sequence_number", match previous with Some p => PInt p | None => PNone end)].

(** What [_load_security_state] returns. *)
Record security := Security { se_enrolled : list pystr; se_context : SSLContext }.

(** One accepted socket: what [wrap_socket] with a context gives, the subject of
    the peer's certificate or the type name of the exception, the stream, and
    what the hand-off meets. *)
Record connection := Connection {
  cn_handshake : SSLContext -> pystr + certificate;
  cn_script : list recv_event;
  cn_env : handoff_env;
  cn_type_name : handoff_exn -> pystr
}.

Record server := Server { last_sequences : sequences; chain : file }.

Definition _handle_tls_socket (limit : nat) (subject : certificate) (c : connection) (peer : pystr)
  (enrolled_nodes : list pystr) (s : server) : res (list Z) (list effect) * server :=
  match screen limit subject (cn_script c) peer enrolled_nodes with
  | Crashed type_name => (Err type_name, s)
  | Refused reason fields => (Ok (_reject_tls_socket reason fields), s)
  | Cleared node event =>
      let '(is_replay, previous, sequences) := reserve node (int_item event (u "sequence_number")) (last_sequences s) in
      if is_replay then (Ok (replay_refusal peer node event previous), s)
      else
        let '(effects, store') := deliver peer node event (cn_env c) (cn_type_name c) (chain s) in
        (Ok effects, Server sequences store')
  end.

(** The two [except] clauses of [_handle_socket]. *)
Definition failed_socket (reason peer name : pystr) : list effect :=
  [Decision (u "reject") reason [(u "peer", PStr peer); (u "error_type", PStr name)]].

Definition _handle_socket (limit : nat) (sec : security) (c : connection) (peer : pystr) (s : server)
  : list effect * server :=
  match cn_handshake c (se_context sec) with
  | inl name => (failed_socket (u "tls_handshake_failed") peer name, s)
  | inr subject =>
      match _handle_tls_socket limit subject c peer (se_enrolled sec) s with
      | (Ok effects, s') => (effects, s')
      | (Err name, s') => (failed_socket (u "internal_server_error") peer name, s')
      end
  end.

(** [_format_peer] of an address tuple whose first two items have these texts. *)
Definition _format_peer (host port : pystr) : pystr := host ++ u ":" ++ port.
