(* ===== verification/CollectorFacts.v ===== *)
(** Lemmas on the collector: the wire frame does not depend on the chunks, the
    schema check is exact, a validated event makes a valid chain event. *)

From stdpp Require Import gmap.
From S2P Require Import Prelude.
From S2P Require Import PyText.
From S2P Require Import Binary64.
From S2P Require Import PyValue.
From S2P Require Import JsonDumps.
From S2P Require Import JsonLoads.
From S2P Require Import Timestamp.
From S2P Require Import RecordFormat.
From S2P Require Import EventSpec.
From S2P Require Import RecordFacts.
From S2P Require Import CanonicalBytes.
From S2P Require Import RecordLaws.
From S2P Require Import ChainStore.
From S2P Require Import ChainLogger.
From S2P Require Import CollectorModels.
From S2P Require Import CollectorServer.

(** ** The wire frame *)

Lemma find_lf_app a b :
  find_lf (a ++ b) = match find_lf a with Some i => Some i | None => (fun i => (length a + i)%nat) <$> find_lf b end.
Proof.
  induction a as [|c a IH]; cbn [app find_lf length]; [by destruct (find_lf b)|].
  destruct (c =? LF); [done|]. rewrite IH. destruct (find_lf a); cbn; [done|]. by destruct (find_lf b).
Qed.

Lemma find_lf_lt b i : find_lf b = Some i -> (i < length b)%nat.
Proof.
  revert i. induction b as [|c b IH]; intros i; cbn; [done|]. destruct (c =? LF); [intros [= <-]; lia|].
  destruct (find_lf b) as [j|]; [|done]. intros [= <-]. specialize (IH j eq_refl). lia.
Qed.

(** What the loop gives for a stream, whatever the chunks. *)
Definition loop_spec (limit : nat) (payload stream : bytes) : res read_exn bytes :=
  match find_lf (take (limit + 1 - length payload) stream) with
  | Some i => Ok (payload ++ take i stream)
  | None =>
      if Nat.leb (length (payload ++ stream)) limit
      then Err (PayloadReadError (u "payload_missing_newline"))
      else Ok (take (limit + 1) (payload ++ stream))
  end.

Lemma loop_spec_step limit payload m stream :
  (length payload <= limit)%nat -> (m <= limit + 1 - length payload)%nat -> (m <= length stream)%nat ->
  loop_spec limit payload stream =
  match find_lf (take m stream) with
  | Some i => Ok (payload ++ take i (take m stream))
  | None => loop_spec limit (payload ++ take m stream) (drop m stream)
  end.
Proof.
  intros Hp Hm Hs. unfold loop_spec.
  assert (E : take (limit + 1 - length payload) stream
    = take m stream ++ take (limit + 1 - length payload - m) (drop m stream)).
  { rewrite <- (take_drop m stream) at 1. rewrite take_app, length_take_le by done.
    rewrite (take_ge (take m stream)) by (rewrite length_take; lia). done. }
  rewrite E, find_lf_app. destruct (find_lf (take m stream)) as [i|] eqn:Ei.
  - apply find_lf_lt in Ei. rewrite length_take in Ei. rewrite take_take. repeat f_equal. lia.
  - assert (El : length (payload ++ take m stream) = (length payload + m)%nat)
      by (rewrite length_app, length_take_le; lia).
    rewrite El. replace (limit + 1 - (length payload + m))%nat with (limit + 1 - length payload - m)%nat by lia.
    rewrite <- app_assoc, take_drop.
    destruct (find_lf (take _ (drop m stream))) as [j|] eqn:Ej; cbn [fmap option_fmap option_map].
    + f_equal. rewrite <- app_assoc. f_equal. rewrite length_take_le by done.
      by rewrite take_take_drop.
    + done.
Qed.

(** What the loop does with an answer, when the loop after it is right. *)
Lemma loop_step limit payload t rest (next : res read_exn bytes) :
  t <> [] -> (length payload + length t <= limit + 1)%nat ->
  ((length (payload ++ t) <= limit)%nat -> next = loop_spec limit (payload ++ t) rest) ->
  ((length (payload ++ t) = limit + 1)%nat -> next = Ok (payload ++ t)) ->
  match t with
  | [] => Err (PayloadReadError (u "payload_missing_newline"))
  | _ => match find_lf t with Some i => Ok (payload ++ take i t) | None => next end
  end = match find_lf t with Some i => Ok (payload ++ take i t) | None => loop_spec limit (payload ++ t) rest end.
Proof.
  intros Hne Hlen H1 H2. destruct t as [|x t]; [done|]. destruct (find_lf (x :: t)); [done|].
  destruct (Nat.le_gt_cases (length (payload ++ x :: t)) limit) as [Hle|Hgt]; [by apply H1|].
  assert (Hall : length (payload ++ x :: t) = (limit + 1)%nat) by (rewrite length_app in *; lia).
  rewrite H2 by done. unfold loop_spec. rewrite Hall, Nat.sub_diag, take_0. cbn [find_lf].
  rewrite (proj2 (Nat.leb_gt _ _)) by (rewrite length_app; lia). by rewrite take_app_le, take_ge by lia.
Qed.

Lemma read_loop_chunks fuel limit payload chunks :
  Forall (fun c => c <> []) chunks -> (length payload <= limit + 1)%nat -> (limit + 2 - length payload <= fuel)%nat ->
  ((length payload <= limit)%nat -> read_loop fuel limit payload (map RecvBytes chunks) = loop_spec limit payload (concat chunks)) /\
  ((length payload = limit + 1)%nat -> read_loop fuel limit payload (map RecvBytes chunks) = Ok payload).
Proof.
  revert payload chunks. induction fuel as [|fuel IH]; intros payload chunks Hc Hp Hf; [lia|]. split; intros Hl.
  2:{ cbn [read_loop]. by rewrite (proj2 (Nat.leb_gt _ _)) by lia. }
  cbn [read_loop]. rewrite (proj2 (Nat.leb_le _ _)) by done.
  destruct chunks as [|b chunks].
  { cbn. unfold loop_spec. rewrite take_nil. cbn. rewrite app_nil_r. by rewrite (proj2 (Nat.leb_le _ _)). }
  apply Forall_cons in Hc as [Hb Hc]. cbn [map recv concat].
  set (n := Nat.min 4096 (limit + 1 - length payload)).
  set (m := Nat.min n (length b)).
  assert (Hb0 : (0 < length b)%nat) by (destruct b; [done|cbn; lia]).
  assert (Hm : (0 < m <= limit + 1 - length payload)%nat) by lia.
  assert (Hchunk : take m (b ++ concat chunks) = take n b).
  { rewrite take_app_le by lia. unfold m. destruct (Nat.le_ge_cases n (length b)).
    - by rewrite Nat.min_l.
    - rewrite Nat.min_r by done. rewrite !take_ge by lia. done. }
  rewrite (loop_spec_step limit payload m) by (rewrite ?length_app; lia). rewrite Hchunk.
  assert (Hne : take n b <> []) by (destruct b; [done|]; destruct n eqn:E; [lia|done]).
  assert (Hlen : length (take n b) = m) by (rewrite length_take; lia).
  assert (Hgo : forall chunks', Forall (fun c => c <> []) chunks' -> concat chunks' = drop m (b ++ concat chunks) ->
    match take n b with
    | [] => Err (PayloadReadError (u "payload_missing_newline"))
    | _ => match find_lf (take n b) with
           | Some i => Ok (payload ++ take i (take n b))
           | None => read_loop fuel limit (payload ++ take n b) (map RecvBytes chunks')
           end
    end = match find_lf (take n b) with
          | Some i => Ok (payload ++ take i (take n b))
          | None => loop_spec limit (payload ++ take n b) (drop m (b ++ concat chunks))
          end).
  { intros chunks' Hc' <-. destruct (IH (payload ++ take n b) chunks') as [H1 H2]; [done|rewrite length_app; lia..|].
    apply loop_step; [done|lia|done|done]. }
  destruct (Nat.leb_spec (length b) n) as [Hle|Hgt].
  - rewrite take_ge in Hgo by done. rewrite take_ge by done. apply (Hgo chunks); [done|].
    unfold m. rewrite Nat.min_r by done. by rewrite drop_app_length.
  - rewrite <- (Hgo (drop n b :: chunks)).
    + by destruct (take n b).
    + constructor; [|done]. intros E%(f_equal length). rewrite length_drop in E. cbn [length] in E. lia.
    + cbn [concat]. unfold m. rewrite Nat.min_l by lia. rewrite drop_app_le by lia. done.
Qed.

(** The frame of a stream: the octets before the first LF, which must come
    within [limit + 1] octets. *)
Definition frame_spec (limit : nat) (stream : bytes) : res read_exn pystr :=
  match find_lf (take (limit + 1) stream) with
  | Some O => Err (PayloadReadError (u "empty_payload"))
  | Some i => match utf8_decode false (take i stream) with Some text => Ok text | None => Err ReadUnicodeError end
  | None => if Nat.leb (length stream) limit then Err (PayloadReadError (u "payload_missing_newline"))
            else Err (PayloadReadError (u "payload_too_large"))
  end.

Lemma read_json_line_frame limit chunks :
  Forall (fun c => c <> []) chunks ->
  _read_json_line (map RecvBytes chunks) limit = frame_spec limit (concat chunks).
Proof.
  intros Hc. unfold _read_json_line, frame_spec.
  rewrite (proj1 (read_loop_chunks (limit + 2) limit [] chunks Hc ltac:(cbn [length]; lia) ltac:(cbn [length]; lia)))
    by (cbn [length]; lia).
  unfold loop_spec. cbn [length app]. rewrite Nat.sub_0_r.
  destruct (find_lf (take (limit + 1) (concat chunks))) as [i|] eqn:Ei.
  - pose proof (find_lf_lt _ _ Ei) as Hi. rewrite length_take in Hi. rewrite Ok_bind.
    rewrite (proj2 (Nat.leb_le _ _)) by (rewrite length_take; lia).
    rewrite length_take_le by lia. by destruct i.
  - destruct (Nat.leb_spec (length (concat chunks)) limit) as [|Hgt]; [done|]. rewrite Ok_bind.
    rewrite (proj2 (Nat.leb_gt _ _)); [done|]. rewrite length_take_le; lia.
Qed.

(** ** The schema *)

Definition schema_value (v : pyval) : Prop := v = PStr (u "0.1").
Definition node_value (v : pyval) : Prop := exists s, v = PStr s /\ is_node_id s = true.
Definition csi_time_value (v : pyval) : Prop :=
  exists s m t, v = PStr s /\ match_timestamp (Some 9%nat) s = Some m /\ fromisoformat_utc m = Some t.
Definition csi_seq_value (v : pyval) : Prop := exists z, v = PInt z /\ 0 <= z < 2 ^ 64.

Record payload_spec (d : pydict) : Prop := PayloadSpec {
  ps_fields : forall f, f ∈ keys d <-> f ∈ csi_fields;
  ps_schema : field schema_value (u "schema_version") d;
  ps_node : field node_value (u "node_id") d;
  ps_time : field csi_time_value (u "timestamp_utc") d;
  ps_hash : field hash_value (u "csi_window_sha256") d;
  ps_seq : field csi_seq_value (u "sequence_number") d
}.

Lemma check_schema_Ok v : check_schema_version v = Ok tt <-> schema_value v.
Proof.
  unfold check_schema_version, schema_value. rewrite ensure_Ok, is_str_true. split; [by intros [= ->]|by intros ->].
Qed.

Lemma check_node_Ok v : check_node_id v = Ok tt <-> node_value v.
Proof.
  unfold check_node_id, node_value. rewrite ensure_Ok. split.
  - destruct v; try done. eauto.
  - by intros (s & -> & ?).
Qed.

Lemma check_time_Ok v : check_timestamp_utc v = Ok tt <-> csi_time_value v.
Proof.
  unfold check_timestamp_utc, csi_time_value. destruct v; try (split; [done|]; intros (? & ? & ? & [=] & ?)).
  split.
  - destruct (match_timestamp _ s) as [m|] eqn:Em; [|done].
    destruct (fromisoformat_utc m) as [t|] eqn:Et; [|done]. eauto 6.
  - by intros (? & m & t & [= <-] & -> & ->).
Qed.

Lemma check_digest_Ok v : check_csi_window_sha256 v = Ok tt <-> hash_value v.
Proof.
  unfold check_csi_window_sha256, hash_value. rewrite ensure_Ok. split.
  - destruct v; try done. eauto.
  - by intros (s & -> & ?).
Qed.

Lemma check_sequence_Ok v : check_sequence_number v = Ok tt <-> csi_seq_value v.
Proof.
  unfold check_sequence_number, csi_seq_value. rewrite ensure_Ok.
  change _MAX_SEQUENCE_NUMBER with (2 ^ 64 - 1). split.
  - destruct v; try done. intros Hz. zbool. exists z. split; [done|]. lia.
  - intros (z & -> & Hz). zbool. lia.
Qed.

Lemma validate_payload_Ok v d : validate_payload v = Ok d <-> v = to_dict d /\ payload_spec d.
Proof.
  assert (Hdict : forall e, validate_payload_dict e = Ok d <-> e = d /\ payload_spec d).
  { intros e. unfold validate_payload_dict. rewrite !then_Ok, !ensure_Ok, !bool_decide_eq_true, !set_diff_nil,
      check_schema_Ok, check_node_Ok, check_time_Ok, check_digest_Ok, check_sequence_Ok. split.
    - intros (Hm & Hu & Hs & Hn & Ht & Hh & Hq & [= ->]). split; [done|].
      assert (Hf : forall f, f ∈ keys d <-> f ∈ csi_fields) by (intros f; split; auto).
      constructor; [done|apply item_field; [apply Hf; in_fields|done]..].
    - intros (-> & [Hf Hs Hn Ht Hh Hq]). rewrite item_field in Hs, Hn, Ht, Hh, Hq by (apply Hf; in_fields).
      split; [intros ? ?; by apply Hf|]. split; [intros ? ?; by apply Hf|]. tauto. }
  unfold validate_payload. split.
  - destruct v as [| | | | | |l|]; try done. destruct (str_keys l) as [e|] eqn:E; [|done].
    intros [-> Hp]%Hdict. apply str_keys_Some in E as ->. done.
  - intros [-> Hp]. cbn. rewrite str_keys_to_dict. by apply Hdict.
Qed.

(** ** From an ingest event to an event of the chain *)

Lemma match_tail_any n s f : match_tail (Some n) s = Some f -> match_tail None s = Some f.
Proof.
  unfold match_tail. destruct s as [|c [|c' r]]; try done.
  rewrite andb_true_r. destruct (_ && Nat.leb _ n) eqn:E; [|done].
  apply andb_true_iff in E as [-> _]. done.
Qed.

Lemma match_timestamp_any n s m : match_timestamp (Some n) s = Some m -> match_timestamp None s = Some m.
Proof.
  unfold match_timestamp. do 19 (destruct s as [|? s]; [done|]). destruct (_ && _); [|done].
  intros Hf. apply bind_Some in Hf as (f & Hf & Hm). apply match_tail_any in Hf. by rewrite Hf.
Qed.

Lemma csi_time_utc v : csi_time_value v -> utc_value v.
Proof. intros (s & m & t & -> & Hm & Ht). exists s, m, t. eauto using match_timestamp_any. Qed.

(** The characters of a node name are ASCII. *)
Lemma node_chars s c : is_node_id s = true -> c ∈ s -> 0 <= c < 128.
Proof.
  assert (Hc : forall c, is_node_char c = true -> 0 <= c < 128).
  { intros d. unfold is_node_char, is_ascii_alnum, is_digit. intros H. zbool. lia. }
  destruct s as [|d s]; [done|]. cbn [is_node_id]. rewrite !andb_true_iff, forallb_forall.
  intros [[Hd _] Hs] [->|Hin]%elem_of_cons.
  - apply Hc. unfold is_node_char. by rewrite Hd.
  - by apply Hc, Hs, list_elem_of_In.
Qed.

Lemma node_text v : node_value v -> text_value v.
Proof.
  intros (s & -> & Hs). exists s. split; [done|]. split; [by destruct s|].
  apply scalars_ascii, Forall_forall. intros c Hc. apply (node_chars s c Hs) in Hc. lia.
Qed.

(** The members of the chain event. *)
Lemma ingestion_field (P : pyval -> Prop) d f v :
  dget f (ingestion_fields d) = Some v -> P v -> field P f (ingestion_fields d).
Proof. intros H1 H2. by exists v. Qed.

(** A validated payload makes a valid event exactly when its sequence number
    fits 63 bits. *)
Lemma ingestion_event_spec_iff d z :
  payload_spec d -> item d (u "sequence_number") = PInt z ->
  event_spec V2Ingestion (ingestion_fields d) <-> z < 2 ^ 63.
Proof.
  intros [Hf Hs Hn Ht Hh Hq] Hz. rewrite item_field in Hs, Hn, Ht, Hh, Hq by (apply Hf; in_fields).
  split.
  - intros [_ _ _ _ _ [_ (v & Hv & (z' & -> & Hb))]]. cbn in Hv. injection Hv as Hv. rewrite Hz in Hv.
    injection Hv as <-. lia.
  - intros Hlt. constructor; try (eapply ingestion_field; [reflexivity|]).
    + done.
    + done.
    + by apply node_text.
    + by apply csi_time_utc.
    + done.
    + split; eapply ingestion_field; try reflexivity.
      * rewrite Hs. by exists (u "0.1").
      * destruct Hq as (z' & Hz' & Hb). rewrite Hz in *. injection Hz' as <-. exists z. split; [done|lia].
Qed.

(** ** Well-formedness of the chain event *)

Lemma unicode_digit_codepoint c : is_unicode_digit c = true -> is_codepoint c = true.
Proof.
  unfold is_unicode_digit. rewrite existsb_exists. intros (z & Hz & Hc). zbool.
  assert (Hall : forallb (fun z => (0 <=? z) && (z <? 1000000)) digit_zeros = true) by done.
  rewrite forallb_forall in Hall. specialize (Hall z Hz). unfold is_codepoint. zbool. lia.
Qed.

Lemma match_tail_ok s f : match_tail None s = Some f -> str_ok s.
Proof.
  unfold match_tail. destruct s as [|c [|c' r]]; [done| |].
  - destruct (Z.eqb_spec c 90); [subst; by repeat constructor|done].
  - destruct (_ && _) eqn:E; [|done]. intros _. rewrite !andb_true_iff in E.
    destruct E as ((((Hc & Hl) & _) & Hd) & _). apply Z.eqb_eq in Hc, Hl. subst c.
    constructor; [done|]. rewrite (app_removelast_last 0 (l := c' :: r)) by done. rewrite Hl.
    apply Forall_app_2; [|by repeat constructor]. rewrite forallb_forall in Hd. apply Forall_forall.
    intros x Hx%list_elem_of_In. by apply unicode_digit_codepoint, Hd.
Qed.

Lemma timestamp_str_ok s m : match_timestamp None s = Some m -> str_ok s.
Proof.
  unfold match_timestamp. do 19 (destruct s as [|? s]; [done|]).
  destruct (_ && _) eqn:E; [|done]. intros Hf. apply bind_Some in Hf as (f & Hf & _).
  apply match_tail_ok in Hf. rewrite !andb_true_iff in E.
  destruct E as (((((Hd & H1) & H2) & H3) & H4) & H5). zbool. subst.
  cbn [forallb] in Hd. rewrite !andb_true_iff in Hd. destruct_and! Hd.
  unfold str_ok in *. rewrite !Forall_cons. by repeat split; try apply unicode_digit_codepoint.
Qed.

Lemma ingestion_event_wf_of d : payload_spec d -> wf_dict (ingestion_fields d).
Proof.
  intros [Hf Hs Hn Ht Hh Hq]. rewrite item_field in Hs, Hn, Ht, Hh, Hq by (apply Hf; in_fields).
  unfold schema_value in Hs. destruct Hn as (n & Hn & Hnode), Ht as (t & m & dt & Ht & Hm & _), Hh as (h & Hh & Hhex), Hq as (z & Hz & _).
  apply wf_dict_spec. unfold ingestion_fields. rewrite Hn, Ht, Hh, Hz, Hs. split.
  - apply (bool_decide_unpack _). by vm_compute.
  - rewrite !Forall_cons, Forall_nil.
    assert (H1 : str_okb n = true).
    { apply str_okb_spec, Forall_forall. intros c Hc. apply (node_chars n c Hnode) in Hc. unfold is_codepoint. zbool. lia. }
    assert (H2 : str_okb t = true) by (apply str_okb_spec; eapply timestamp_str_ok, match_timestamp_any, Hm).
    assert (H3 : str_okb h = true) by (apply str_okb_spec; eapply hex_str_ok, Hhex).
    cbn [fst snd wf_val]. rewrite H1, H2, H3. repeat split; by apply str_okb_spec.
Qed.
