(* ===== verification/CollectorSteps.v ===== *)
(** The collector with many connections at once: [asyncio.to_thread] runs each
    handler in a thread of its own, so the handlers interleave between their
    critical sections, and [reload_security_state] replaces the allow-list at
    any time. *)

From Stdlib Require Import Sorted.
From stdpp Require Import relations gmap.
From S2P Require Import Prelude.
From S2P Require Import PyText.
From S2P Require Import PyValue.
From S2P Require Import JsonLoads.
From S2P Require Import RecordFormat.
From S2P Require Import EventSpec.
From S2P Require Import RecordFacts.
From S2P Require Import ChainStore.
From S2P Require Import ChainLogger.
From S2P Require Import CollectorModels.
From S2P Require Import CollectorTls.
From S2P Require Import CollectorServer.
From S2P Require Import CollectorFacts.
From S2P Require Import AnchorStoreFacts.

(** ** Threads *)

(** A handler that was started; that has read the security state; whose packet
    was screened; that has reserved the sequence number; and that has returned. *)
Inductive phase :=
| Accepted
| Handshaking (sec : security)
| Authenticated (sec : security) (node : pystr) (event : pydict)
| Reserved (sec : security) (node : pystr) (event : pydict)
| Done (effects : list effect).

Record thread := Thread { th_connection : connection; th_peer : pystr; th_phase : phase }.

Definition set_phase (t : thread) (p : phase) : thread := Thread (th_connection t) (th_peer t) p.

(** [Deaf]: the listener is there, but the accept loop has ended with an
    [OSError]. *)
Inductive lifecycle := Created | Listening | Deaf | Closing | Stopped.

(** [sy_loaded]: what the running reloads have loaded and not stored yet.
    [sy_published], [sy_reserved] and [sy_handed] are the histories of the
    security states, the reservations and the hand-offs, newest first. *)
Record system := System {
  sy_lifecycle : lifecycle;
  sy_security : security;
  sy_loaded : list security;
  sy_sequences : sequences;
  sy_chain : file;
  sy_threads : list thread;
  sy_published : list security;
  sy_reserved : list (pystr * Z);
  sy_handed : list (pystr * Z)
}.

Definition seq_of (event : pydict) : Z := int_item event (u "sequence_number").

(** ** The life of the server *)

Definition set_lifecycle (l : lifecycle) (s : system) : system :=
  System l (sy_security s) (sy_loaded s) (sy_sequences s) (sy_chain s) (sy_threads s) (sy_published s)
    (sy_reserved s) (sy_handed s).

Definition set_threads (ts : list thread) (s : system) : system :=
  System (sy_lifecycle s) (sy_security s) (sy_loaded s) (sy_sequences s) (sy_chain s) ts (sy_published s)
    (sy_reserved s) (sy_handed s).

Definition set_thread (i : nat) (t : thread) (p : phase) (s : system) : system :=
  set_threads (<[i := set_phase t p]> (sy_threads s)) s.

Section system.
Context {T : TlsLibrary}.

(** The error is the type name of the exception. *)
Definition _load_security_state (list_file : allowlist_file) (files : tls_files) : res pystr security :=
  nodes ← map_err allowlist_error_name (load_enrolled_nodes list_file);
  context ← build_server_tls_context files;
  Ok (Security nodes context).

(** The first half of [reload_security_state], in a thread of its own. *)
Definition reload_load (list_file : allowlist_file) (files : tls_files) (s : system) : res pystr system :=
  sec ← _load_security_state list_file files;
  Ok (System (sy_lifecycle s) (sy_security s) (sec :: sy_loaded s) (sy_sequences s) (sy_chain s)
        (sy_threads s) (sy_published s) (sy_reserved s) (sy_handed s)).

(** The second half, under [_security_state_lock]; [i] is the reload. *)
Definition reload_security_state (i : nat) (s : system) : option system :=
  match sy_loaded s !! i with
  | Some sec =>
      Some (System (sy_lifecycle s) sec (delete i (sy_loaded s)) (sy_sequences s) (sy_chain s)
              (sy_threads s) (sec :: sy_published s) (sy_reserved s) (sy_handed s))
  | None => None
  end.

(** [None] is the [RuntimeError] of a second start.  A start while [close] is
    waiting is not modelled. *)
Definition start (s : system) : option system :=
  match sy_lifecycle s with
  | Created | Stopped => Some (set_lifecycle Listening s)
  | Listening | Deaf | Closing => None
  end.

(** One turn of [_accept_loop]: a handler for the new socket. *)
Definition _accept_loop (c : connection) (peer : pystr) (s : system) : option system :=
  match sy_lifecycle s with
  | Listening => Some (set_threads (sy_threads s ++ [Thread c peer Accepted]) s)
  | _ => None
  end.

(** An [OSError] of [sock_accept] while the listener is open: it ends the loop,
    and nobody looks at the task before [close]. *)
Definition accept_failed (s : system) : option system :=
  match sy_lifecycle s with Listening => Some (set_lifecycle Deaf s) | _ => None end.

(** The critical section at the start of [_handle_socket]. *)
Definition read_security (i : nat) (s : system) : option system :=
  match sy_threads s !! i with
  | Some t => match th_phase t with Accepted => Some (set_thread i t (Handshaking (sy_security s)) s) | _ => None end
  | None => None
  end.

Definition is_done (t : thread) : bool := match th_phase t with Done _ => true | _ => false end.

(** [close] up to its [await], and from there, when every handler is done.  A
    server that is not running may be closed too.  A second [close] while one is
    waiting is not modelled. *)
Definition close (s : system) : option system :=
  match sy_lifecycle s with
  | Created | Listening | Deaf | Stopped => Some (set_lifecycle Closing s)
  | Closing => None
  end.

Definition close_gathered (s : system) : option system :=
  match sy_lifecycle s with
  | Closing => if forallb is_done (sy_threads s) then Some (set_lifecycle Stopped s) else None
  | _ => None
  end.

(** ** Steps *)

(** What a handler does after [read_security], up to the reservation. *)
Definition screened (limit : nat) (sec : security) (t : thread) : phase :=
  match cn_handshake (th_connection t) (se_context sec) with
  | inl name => Done (failed_socket (u "tls_handshake_failed") (th_peer t) name)
  | inr subject =>
      match screen limit subject (cn_script (th_connection t)) (th_peer t) (se_enrolled sec) with
      | Refused reason fields => Done (_reject_tls_socket reason fields)
      | Crashed name => Done (failed_socket (u "internal_server_error") (th_peer t) name)
      | Cleared node event => Authenticated sec node event
      end
  end.

Inductive collector_step (limit : nat) : system -> system -> Prop :=
| step_start s s' : start s = Some s' -> collector_step limit s s'
| step_load list_file files s s' : reload_load list_file files s = Ok s' -> collector_step limit s s'
| step_reload i s s' : reload_security_state i s = Some s' -> collector_step limit s s'
| step_accept c peer s s' : _accept_loop c peer s = Some s' -> collector_step limit s s'
| step_accept_failed s s' : accept_failed s = Some s' -> collector_step limit s s'
| step_close s s' : close s = Some s' -> collector_step limit s s'
| step_gathered s s' : close_gathered s = Some s' -> collector_step limit s s'
| step_read i s s' : read_security i s = Some s' -> collector_step limit s s'
| step_screen s i t sec :
    sy_threads s !! i = Some t -> th_phase t = Handshaking sec ->
    collector_step limit s (set_thread i t (screened limit sec t) s)
| step_replay s i t sec node event previous seqs :
    sy_threads s !! i = Some t -> th_phase t = Authenticated sec node event ->
    reserve node (seq_of event) (sy_sequences s) = (true, previous, seqs) ->
    collector_step limit s (set_thread i t (Done (replay_refusal (th_peer t) node event previous)) s)
| step_reserve s i t sec node event previous seqs :
    sy_threads s !! i = Some t -> th_phase t = Authenticated sec node event ->
    reserve node (seq_of event) (sy_sequences s) = (false, previous, seqs) ->
    collector_step limit s
      (System (sy_lifecycle s) (sy_security s) (sy_loaded s) seqs (sy_chain s)
         (<[i := set_phase t (Reserved sec node event)]> (sy_threads s))
         (sy_published s) ((node, seq_of event) :: sy_reserved s) (sy_handed s))
| step_deliver s i t sec node event effects store :
    sy_threads s !! i = Some t -> th_phase t = Reserved sec node event ->
    deliver (th_peer t) node event (cn_env (th_connection t)) (cn_type_name (th_connection t)) (sy_chain s)
      = (effects, store) ->
    collector_step limit s
      (System (sy_lifecycle s) (sy_security s) (sy_loaded s) (sy_sequences s) store
         (<[i := set_phase t (Done effects)]> (sy_threads s))
         (sy_published s) (sy_reserved s) ((node, seq_of event) :: sy_handed s)).

(** The steps of the accept loop and of the handlers: they leave the life of the
    server and its security state alone. *)
Definition handler_step (limit : nat) (s s' : system) : Prop :=
  collector_step limit s s' /\ sy_lifecycle s' = sy_lifecycle s /\ sy_loaded s' = sy_loaded s /\
  sy_published s' = sy_published s /\ sy_security s' = sy_security s.

(** A collector that was just made, with this chain. *)
Definition collector_start (sec : security) (store : file) : system :=
  System Created sec [] ∅ store [] [sec] [] [].

Definition collector_reachable (limit : nat) (sec : security) (store : file) (s : system) : Prop :=
  rtc (collector_step limit) (collector_start sec store) s.

(** ** The invariant *)

Definition seqs_of (node : pystr) (l : list (pystr * Z)) : list Z :=
  map snd (List.filter (fun p => bool_decide (p.1 = node)) l).
Arguments seqs_of : simpl never.

Definition pending_of (p : phase) : list (pystr * Z) :=
  match p with Reserved _ node event => [(node, seq_of event)] | _ => [] end.

Definition pending (ts : list thread) : list (pystr * Z) := flat_map (fun t => pending_of (th_phase t)) ts.

(** The security state of a handler was published as a whole, and the packet
    past the screen is of a node of its allow-list, by its certificate. *)
Definition phase_ok (published : list security) (t : thread) : Prop :=
  match th_phase t with
  | Accepted | Done _ => True
  | Handshaking sec => sec ∈ published
  | Authenticated sec node event | Reserved sec node event =>
      sec ∈ published /\ node ∈ se_enrolled sec /\ payload_spec event /\ str_item event (u "node_id") = node /\
      exists subject, cn_handshake (th_connection t) (se_context sec) = inr subject /\ _certificate_common_names subject = [node]
  end.

Record collector_inv (s : system) : Prop := CollectorInv {
  ci_order : forall node, StronglySorted Z.gt (seqs_of node (sy_reserved s));
  ci_last : forall node, sy_sequences s !! node = head (seqs_of node (sy_reserved s));
  ci_history : sy_reserved s ≡ₚ pending (sy_threads s) ++ sy_handed s;
  ci_phases : Forall (phase_ok (sy_published s)) (sy_threads s);
  ci_security : sy_security s ∈ sy_published s;
  ci_stopped : sy_lifecycle s = Stopped -> Forall (fun t => is_done t = true) (sy_threads s)
}.

Lemma pending_update ts i t t' :
  ts !! i = Some t ->
  exists rest, pending ts ≡ₚ pending_of (th_phase t) ++ rest /\
    pending (<[i := t']> ts) ≡ₚ pending_of (th_phase t') ++ rest.
Proof. apply (flat_map_update (fun t => pending_of (th_phase t))). Qed.

Lemma phase_ok_more sec published t : phase_ok published t -> phase_ok (sec :: published) t.
Proof.
  unfold phase_ok. destruct (th_phase t); try done; rewrite elem_of_cons; [by right|intros (H & H'); split; [by right|done]..].
Qed.

Lemma not_stopped ts i t : ts !! i = Some t -> is_done t = false -> ~ Forall (fun t => is_done t = true) ts.
Proof. intros Hi Hd H. pose proof (proj1 (Forall_lookup _ _) H i t Hi) as H'. cbn in H'. congruence. Qed.

Lemma read_payload_spec limit script event : read_payload limit script = PayloadEvent event -> payload_spec event.
Proof.
  unfold read_payload. destruct (_read_json_line script limit) as [text|[]]; try done.
  destruct (loads_str text) as [v|[]]; try done. destruct (validate_payload v) as [d|] eqn:Hv; [|done].
  intros [= ->]. by apply validate_payload_Ok in Hv as [_ ?].
Qed.

Lemma screen_ok limit subject script peer enrolled node event :
  screen limit subject script peer enrolled = Cleared node event ->
  _certificate_common_names subject = [node] /\ node ∈ enrolled /\
  read_payload limit script = PayloadEvent event /\ payload_spec event /\
  str_item event (u "node_id") = node.
Proof.
  unfold screen. destruct (_certificate_common_names subject) as [|cn [|? ?]]; try done.
  destruct (mem cn enrolled) eqn:Hm; [|done]. apply mem_spec in Hm.
  destruct (read_payload limit script) as [ev|r|n] eqn:Hr; try done.
  unfold compare_digest. destruct (_ && _); [|done]. case_bool_decide as He; [|done].
  intros [= <- <-]. split; [done|]. split; [done|]. split; [done|]. split; [|done]. by eapply read_payload_spec.
Qed.

(** A phase that holds no reservation, before or after, keeps the history. *)
Lemma history_keep ts i t t' handed reserved :
  ts !! i = Some t -> pending_of (th_phase t) = pending_of (th_phase t') ->
  reserved ≡ₚ pending ts ++ handed -> reserved ≡ₚ pending (<[i := t']> ts) ++ handed.
Proof.
  intros Hi E Hr. destruct (pending_update ts i t t' Hi) as (rest & H1 & H2). by rewrite Hr, H1, E, <- H2.
Qed.

Lemma reserve_spec node n (m : sequences) replay previous m' :
  reserve node n m = (replay, previous, m') ->
  previous = m !! node /\
  if replay then m' = m /\ (exists p, previous = Some p /\ n <= p)
  else m' = <[node := n]> m /\ (forall p, previous = Some p -> p < n).
Proof.
  unfold reserve. intros [= <- <- <-]. split; [done|]. destruct (m !! node) as [p|]; cbn; [|done].
  destruct (Z.leb_spec n p); [eauto|]. split; [done|]. by intros ? [= <-].
Qed.

Lemma seqs_of_cons node node' n l :
  seqs_of node ((node', n) :: l) = if bool_decide (node' = node) then n :: seqs_of node l else seqs_of node l.
Proof. unfold seqs_of. cbn. by case_bool_decide. Qed.

(** The newest of a decreasing list bounds it. *)
Lemma decreasing_cons n l :
  StronglySorted Z.gt l -> (forall p, head l = Some p -> p < n) -> StronglySorted Z.gt (n :: l).
Proof.
  intros Hl Hp. constructor; [done|]. inversion Hl as [|p l' _ Hall]; subst; [constructor|].
  specialize (Hp p eq_refl). constructor; [lia|]. eapply Forall_impl; [exact Hall|]. intros x Hx. cbn in *. lia.
Qed.

(** A handler moves on without a reservation. *)
Lemma set_thread_inv s i t p :
  collector_inv s -> sy_threads s !! i = Some t -> is_done t = false ->
  pending_of (th_phase t) = pending_of p -> phase_ok (sy_published s) (set_phase t p) ->
  collector_inv (set_thread i t p s).
Proof.
  intros [Ho Hl Hh Hp Hse Hst] Hi Hd Hpe Hok. constructor; cbn; try done.
  - by eapply history_keep.
  - by apply Forall_insert.
  - intros H. by destruct (not_stopped _ _ _ Hi Hd (Hst H)).
Qed.

Lemma screened_ok limit sec t published :
  sec ∈ published -> phase_ok published (set_phase t (screened limit sec t)) /\ pending_of (screened limit sec t) = [].
Proof.
  intros Hsec. unfold screened. destruct (cn_handshake (th_connection t) _) as [name|subject] eqn:Ec; [done|].
  destruct (screen _ _ _ _ _) as [r f|name|node event] eqn:Es; [done..|]. split; [|done].
  apply screen_ok in Es as (Hcn & Hen & _ & Hps & Hn). unfold phase_ok. cbn. eauto 10.
Qed.

Lemma collector_step_inv limit s s' : collector_inv s -> collector_step limit s s' -> collector_inv s'.
Proof.
  intros Hinv Hstep. pose proof Hinv as [Ho Hl Hh Hp Hse Hst].
  destruct Hstep as [s s' E|raw files s s' E|i s s' E|c peer s s' E|s s' E|s s' E|s s' E|i s s' E
    |s i t sec Hi Ht|s i t sec node event previous seqs Hi Ht Hr
    |s i t sec node event previous seqs Hi Ht Hr|s i t sec node event effects store Hi Ht Hd].
  - unfold start in E. destruct (sy_lifecycle s); try done; injection E as <-; by constructor.
  - apply bind_Ok in E as (sec & _ & [= <-]). by constructor.
  - unfold reload_security_state in E. destruct (sy_loaded s !! i) as [sec|]; [|done]. injection E as <-.
    constructor; cbn; try done; [|by left]. eapply Forall_impl; [exact Hp|]. intros t. apply phase_ok_more.
  - unfold _accept_loop in E. destruct (sy_lifecycle s) eqn:El; try done. injection E as <-. constructor; cbn; try done.
    + unfold pending. rewrite flat_map_app. cbn. by rewrite app_nil_r.
    + apply Forall_app_2; [done|]. by repeat constructor.
    + by rewrite El.
  - unfold accept_failed in E. destruct (sy_lifecycle s) eqn:El; try done. injection E as <-. by constructor.
  - unfold close in E. destruct (sy_lifecycle s) eqn:El; try done; injection E as <-; by constructor.
  - unfold close_gathered in E. destruct (sy_lifecycle s) eqn:El; try done.
    destruct (forallb is_done (sy_threads s)) eqn:Ef; [|done]. injection E as <-. constructor; cbn; try done.
    intros _. rewrite Forall_forall. rewrite forallb_forall in Ef. intros t Hin. apply Ef. by apply list_elem_of_In.
  - unfold read_security in E. destruct (sy_threads s !! i) as [t|] eqn:Hi; [|done].
    destruct (th_phase t) eqn:Ht; try done. injection E as <-.
    apply set_thread_inv; try done; unfold is_done; by rewrite Ht.
  - pose proof (proj1 (Forall_lookup _ _) Hp i t Hi) as Hok. unfold phase_ok in Hok. rewrite Ht in Hok.
    destruct (screened_ok limit sec t _ Hok) as [H1 H2]. apply set_thread_inv; try done; [unfold is_done|]; by rewrite Ht, ?H2.
  - apply set_thread_inv; try done; unfold is_done; by rewrite Ht.
  - pose proof (proj1 (Forall_lookup _ _) Hp i t Hi) as Hok.
    apply reserve_spec in Hr as (-> & -> & Hlt). constructor; cbn; try done.
    + intros node'. rewrite seqs_of_cons. case_bool_decide as E; [|done]. subst node'.
      apply decreasing_cons; [done|]. intros p. rewrite <- Hl. apply Hlt.
    + intros node'. rewrite seqs_of_cons. case_bool_decide as E.
      * subst node'. by rewrite lookup_insert_eq.
      * by rewrite lookup_insert_ne.
    + destruct (pending_update _ i t (set_phase t (Reserved sec node event)) Hi) as (rest & H1 & H2).
      rewrite Hh, H2, H1, Ht. done.
    + apply Forall_insert; [done|]. unfold phase_ok in Hok |- *. by rewrite Ht in Hok.
    + intros H. apply Hst in H. destruct (not_stopped _ _ _ Hi ltac:(unfold is_done; by rewrite Ht) H).
  - constructor; cbn; try done; [|by apply Forall_insert|].
    + destruct (pending_update _ i t (set_phase t (Done effects)) Hi) as (rest & H1 & H2).
      rewrite Hh, H2, H1, Ht. cbn. solve_Permutation.
    + intros H. apply Hst in H. destruct (not_stopped _ _ _ Hi ltac:(unfold is_done; by rewrite Ht) H).
Qed.

Lemma collector_start_inv sec store : collector_inv (collector_start sec store).
Proof.
  constructor; cbn; try done; try (by left); intros node; unfold seqs_of; first [by constructor|apply lookup_empty].
Qed.

Lemma collector_reachable_inv limit sec store s :
  collector_reachable limit sec store s -> collector_inv s.
Proof.
  intros Hr. eapply (rtc_invariant (collector_step limit) collector_inv); [|exact Hr|apply collector_start_inv].
  intros a b. apply collector_step_inv.
Qed.

(** Decreasing sequences per node are distinct reservations. *)
Lemma decreasing_nodup l : StronglySorted Z.gt l -> NoDup l.
Proof.
  induction 1 as [|n l _ IH Hall]; constructor; [|done]. intros Hin. rewrite Forall_forall in Hall.
  apply Hall in Hin. lia.
Qed.

Lemma seqs_of_nodup l : (forall node, NoDup (seqs_of node l)) -> NoDup l.
Proof.
  induction l as [|[node n] l IH]; intros H; constructor.
  - intros Hin. specialize (H node). rewrite seqs_of_cons, bool_decide_eq_true_2 in H by done.
    apply NoDup_cons in H as [Hni _]. apply Hni. unfold seqs_of.
    apply list_elem_of_fmap. exists (node, n). split; [done|]. apply elem_of_lfilter. split; [done|].
    by apply bool_decide_eq_true.
  - apply IH. intros node'. specialize (H node'). rewrite seqs_of_cons in H.
    case_bool_decide; [by apply NoDup_cons in H as [_ ?]|done].
Qed.

(** No reservation is handed off twice. *)
Lemma handed_nodup s : collector_inv s -> NoDup (sy_handed s).
Proof.
  intros [Ho _ Hh _ _ _]. assert (Hnd : NoDup (sy_reserved s)) by (apply seqs_of_nodup; intros node; by apply decreasing_nodup).
  rewrite Hh in Hnd. by apply NoDup_app in Hnd as (_ & _ & ?).
Qed.

(** ** Progress *)

Definition rank (p : phase) : nat :=
  match p with Accepted => 4 | Handshaking _ => 3 | Authenticated _ _ _ => 2 | Reserved _ _ _ => 1 | Done _ => 0 end.

Definition work (ts : list thread) : nat := sum_list_with (fun t => rank (th_phase t)) ts.

Lemma work_update ts i t t' :
  ts !! i = Some t -> (rank (th_phase t') < rank (th_phase t))%nat -> (work (<[i := t']> ts) < work ts)%nat.
Proof.
  intros Hi Hr. revert i Hi. unfold work. induction ts as [|x ts IH]; intros [|i] Hi; try done; cbn in *.
  - injection Hi as ->. lia.
  - apply Nat.add_lt_mono_l. exact (IH i Hi).
Qed.

Lemma work_bound ts : (work ts <= 4 * length ts)%nat.
Proof.
  unfold work. induction ts as [|t ts IH]; cbn [sum_list_with length]; [done|].
  assert (rank (th_phase t) <= 4)%nat by (destruct (th_phase t); cbn; lia). lia.
Qed.

(** A handler that has not returned can always move on, whatever the others do. *)
Lemma handler_moves limit s i t :
  sy_threads s !! i = Some t -> is_done t = false ->
  exists s', handler_step limit s s' /\
    length (sy_threads s') = length (sy_threads s) /\ (work (sy_threads s') < work (sy_threads s))%nat.
Proof.
  intros Hi Hd.
  assert (Hset : forall p, (rank p < rank (th_phase t))%nat ->
    length (<[i := set_phase t p]> (sy_threads s)) = length (sy_threads s) /\
    (work (<[i := set_phase t p]> (sy_threads s)) < work (sy_threads s))%nat)
    by (intros p Hp; split; [apply length_insert|by eapply work_update]).
  unfold is_done in Hd. destruct (th_phase t) as [|sec|sec node event|sec node event|] eqn:Ht; [..|done].
  - exists (set_thread i t (Handshaking (sy_security s)) s).
    split; [split; [apply (step_read _ i); unfold read_security; by rewrite Hi, Ht|done]|]. apply Hset. cbn. lia.
  - exists (set_thread i t (screened limit sec t) s). split; [split; [by apply step_screen|done]|]. apply Hset.
    unfold screened. destruct (cn_handshake _ _); [cbn; lia|]. destruct (screen _ _ _ _ _); cbn; lia.
  - destruct (reserve node (seq_of event) (sy_sequences s)) as [[[|] previous] seqs] eqn:Er.
    + exists (set_thread i t (Done (replay_refusal (th_peer t) node event previous)) s).
      split; [split; [by eapply step_replay|done]|]. apply Hset. cbn. lia.
    + eexists. split; [split; [by eapply step_reserve|done]|]. apply Hset. cbn. lia.
  - destruct (deliver (th_peer t) node event (cn_env (th_connection t)) (cn_type_name (th_connection t)) (sy_chain s))
      as [effects store] eqn:Ed.
    eexists. split; [split; [by eapply step_deliver|done]|]. apply Hset. cbn. lia.
Qed.

Lemma handler_steps limit s s' : rtc (handler_step limit) s s' -> rtc (collector_step limit) s s' /\
  sy_lifecycle s' = sy_lifecycle s /\ sy_loaded s' = sy_loaded s /\ sy_security s' = sy_security s.
Proof.
  induction 1 as [s|s s1 s' (Hs & Hl & Hd & _ & Hc) _ (IH & IHl & IHd & IHc)]; [by split|].
  split; [by eapply rtc_l|]. split_and!; congruence.
Qed.

Lemma handlers_drain limit s :
  exists s', rtc (handler_step limit) s s' /\
    length (sy_threads s') = length (sy_threads s) /\ forallb is_done (sy_threads s') = true.
Proof.
  remember (work (sy_threads s)) as n eqn:En. revert s En.
  induction (lt_wf n) as [n _ IH]. intros s ->. destruct (forallb is_done (sy_threads s)) eqn:Ef.
  { exists s. split; [apply rtc_refl|done]. }
  assert (Hex : exists i t, sy_threads s !! i = Some t /\ is_done t = false).
  { revert Ef. generalize (sy_threads s). induction l as [|t l IHl]; cbn; [done|]. intros [H|H]%andb_false_iff.
    - by exists 0%nat, t.
    - destruct (IHl H) as (i & t' & ?). by exists (S i), t'. }
  destruct Hex as (i & t & Hi & Hd). destruct (handler_moves limit s i t Hi Hd) as (s1 & Hs & Hn & Hw).
  destruct (IH _ Hw s1 eq_refl) as (s' & Hr & Hn' & Hf). exists s'.
  split; [by eapply rtc_l|]. split; [congruence|done].
Qed.
End system.
