(* ===== verification/CollectorTheorems.v ===== *)
(** The properties of the collector: the wire frame, the schema, one connection
    end to end, and all connections together. *)

From Stdlib Require Import Sorted.
From stdpp Require Import relations gmap.
From S2P Require Import Prelude.
From S2P Require Import PyText.
From S2P Require Import Binary64.
From S2P Require Import PyValue.
From S2P Require Import JsonDumps.
From S2P Require Import JsonLoads.
From S2P Require Import JsonLoadsFacts.
From S2P Require Import Timestamp.
From S2P Require Import RecordFormat.
From S2P Require Import EventSpec.
From S2P Require Import RecordFacts.
From S2P Require Import CanonicalBytes.
From S2P Require Import ChainStore.
From S2P Require Import ChainSpec.
From S2P Require Import ChainLogger.
From S2P Require Import LoggerFacts.
From S2P Require Import CheckFacts.
From S2P Require Import Samples.
From S2P Require Import CollectorModels.
From S2P Require Import CollectorTls.
From S2P Require Import CollectorServer.
From S2P Require Import CollectorFacts.
From S2P Require Import CollectorSteps.

(** ** The wire frame *)

(** The loop ends: each turn adds an octet. *)
Lemma read_loop_fuel fuel limit payload script :
  (limit + 2 - length payload <= fuel)%nat -> (0 < fuel)%nat ->
  read_loop fuel limit payload script <> Err ReadOutOfFuel.
Proof.
  revert payload script. induction fuel as [|fuel IH]; intros payload script Hf H0; [lia|]. cbn [read_loop].
  destruct (Nat.leb_spec (length payload) limit) as [Hle|]; [|done].
  destruct (recv _ script) as [[chunk|e] rest] eqn:Er.
  - destruct chunk as [|c chunk]; [done|]. destruct (find_lf (c :: chunk)); [done|].
    apply IH; [rewrite length_app; cbn [length]; lia|lia].
  - unfold recv in Er. destruct script as [|[b| |] script]; [done| |by simplify_eq..].
    by destruct (Nat.leb _ _).
Qed.

(** C27: [_read_json_line] does not depend on how the stream is cut into
    chunks: it equals the reference reading of the whole stream (the octets up
    to the first LF, if one comes within the limit, as strict UTF-8; else
    the error for a missing LF, an empty or an over-long payload); and on every
    stream, timeouts and errors included, the loop ends. *)
Theorem read_json_line_exact limit :
  (forall chunks, Forall (fun c => c <> []) chunks ->
     _read_json_line (map RecvBytes chunks) limit = frame_spec limit (concat chunks)) /\
  (forall script, _read_json_line script limit <> Err ReadOutOfFuel).
Proof.
  split; [apply read_json_line_frame|]. intros script. unfold _read_json_line.
  pose proof (read_loop_fuel (limit + 2) limit [] script) as Hf.
  destruct (read_loop _ _ _ _) as [payload|e].
  - rewrite Ok_bind. unfold ensure. destruct (Nat.leb _ _); [|done]. cbn.
    destruct (negb _); [|done]. cbn. by destruct (utf8_decode false payload).
  - intros [= ->]. revert Hf. cbn [length]. intros Hf. apply Hf; [lia|lia|done].
Qed.

Lemma read_json_line_exact_witness :
  _read_json_line (map RecvBytes [[123]; [125; 10; 7]]) 5 = Ok [123; 125].
Proof.
  rewrite (proj1 (read_json_line_exact 5) [[123]; [125; 10; 7]]); [reflexivity|]. by repeat constructor.
Defined.

(** ** The schema *)

(** C31: [validate_payload] returns its argument for exactly the objects with
    the five fields of the schema: version 0.1, a node name of at most 128 ASCII
    letters, digits and [._-], a UTC time that exists with at most nine fraction
    digits, a lowercase SHA-256 text, and an unsigned 64-bit sequence number. *)
Theorem validate_payload_exact v d :
  validate_payload v = Ok d <-> v = to_dict d /\ payload_spec d.
Proof. apply validate_payload_Ok. Qed.

(** ** The hand-off *)

(** A number below 2^63 is handed off. *)
Lemma handoff_returns event n sign store entries :
  payload_spec event -> item event (u "sequence_number") = PInt n -> n < 2 ^ 63 ->
  read_chain store = Ok entries -> Forall (fun e => record_format_version e.1 = 2) entries ->
  Z.of_nat (length entries) < 2 ^ 63 ->
  (forall data, exists sg, sign data = SignBytes sg /\ length sg = 64%nat /\ bytes_ok sg) ->
  (forensics_log_event (HandoffEnv true (Some sign) good_environment) event store).1 = Ok tt.
Proof.
  intros Hp Hn Hlt%(ingestion_event_spec_iff event n Hp Hn) [v Hc]%read_chain_Ok Hver Hlen Hsign.
  unfold forensics_log_event. cbn [he_key_path he_key he_append negb].
  assert (Hc2 : chain_store (kind_version V2Ingestion) store entries).
  { destruct entries as [|[r s] entries]; [by eapply chain_store_empty|].
    apply Forall_cons in Hver as [Hver _]. cbn in Hver.
    destruct store as [content|]; [|done]. rewrite (linked_record _ _ _ _ _ _ _ Hc) in Hver. by subst. }
  destruct (log_event_total sign V2Ingestion (ingestion_fields event) store entries Hlt
    (ingestion_event_wf_of event Hp) Hc2 Hlen Hsign) as (record & store' & ->). done.
Qed.

(** C39: an event of the schema is a valid event of the chain exactly when its
    sequence number fits 63 bits: then a hand-off to a working logger over a
    chain of version 2 succeeds; from 2^63 on, a number the schema accepts,
    every hand-off fails and the chain stays as it is. *)
Theorem handoff_sequence_bound event n sign store entries :
  payload_spec event -> item event (u "sequence_number") = PInt n ->
  read_chain store = Ok entries -> Forall (fun e => record_format_version e.1 = 2) entries ->
  Z.of_nat (length entries) < 2 ^ 63 ->
  (forall data, exists sg, sign data = SignBytes sg /\ length sg = 64%nat /\ bytes_ok sg) ->
  if n <? 2 ^ 63
  then (forensics_log_event (HandoffEnv true (Some sign) good_environment) event store).1 = Ok tt
  else forall env, is_ok (forensics_log_event env event store).1 = false /\
         (forensics_log_event env event store).2 = store.
Proof.
  intros Hp Hn Hread Hver Hlen Hsign. destruct (Z.ltb_spec n (2 ^ 63)) as [Hlt|Hge].
  - by eapply handoff_returns.
  - intros env. unfold forensics_log_event. destruct (he_key_path env); [|done]. cbn [negb].
    destruct (he_key env) as [sg|]; [|done]. unfold log_event.
    destruct (validate_event _) as [ev|e] eqn:Ev; [|done]. exfalso.
    apply validate_event_Ok in Ev as [<-%to_dict_inj (k & Hk)].
    destruct k; pose proof (spec_tag _ _ Hk) as Ht; cbn [kind_tag] in Ht; destruct Ht as [H1 H2].
    + cbn in H1. discriminate H1.
    + apply (ingestion_event_spec_iff event n Hp Hn) in Hk. lia.
    + cbn in H2. injection H2 as H2. vm_compute in H2. discriminate H2.
Qed.

(** A payload, as its octets on the wire. *)
Definition sample_payload : pydict := Eval vm_compute in
  [ (u "csi_window_sha256", PStr (repeat 97 64)); (u "node_id", PStr (u "node-01"));
    (u "schema_version", PStr (u "0.1")); (u "sequence_number", PInt 7);
    (u "timestamp_utc", PStr (u "2026-07-13T12:00:00.123456789Z")) ].

Definition sample_wire : bytes := Eval vm_compute in
  match dumps (to_dict sample_payload) with Ok t => t ++ [LF] | Err _ => [] end.

Lemma sample_payload_spec : payload_spec sample_payload.
Proof.
  assert (H : validate_payload (to_dict sample_payload) = Ok sample_payload) by (vm_compute; reflexivity).
  by apply validate_payload_Ok in H as [_ ?].
Qed.

Lemma sample_handoff :
  (forensics_log_event (HandoffEnv true (Some toy_sign) good_environment) sample_payload None).1 = Ok tt.
Proof.
  apply (handoff_returns sample_payload 7 toy_sign None []); [apply sample_payload_spec|done..|constructor|done|apply toy_sign_total].
Qed.

Lemma handoff_sequence_bound_witness :
  (forensics_log_event (HandoffEnv true (Some toy_sign) good_environment) sample_payload None).1 = Ok tt.
Proof.
  apply (handoff_sequence_bound sample_payload 7 toy_sign None []).
  - apply sample_payload_spec.
  - reflexivity.
  - reflexivity.
  - constructor.
  - reflexivity.
  - apply toy_sign_total.
Defined.

(** ** One connection *)

Definition is_decision (e : effect) : bool := match e with Decision _ _ _ => true | _ => false end.
Definition is_response (e : effect) : bool := match e with Response _ _ => true | _ => false end.

(** C28: every connection, the failing ones included, ends with exactly one
    decision in the log and at most one response, and the peer is told
    [accepted] only when the decision is [accept] and the event has been handed
    off; a connection that is not accepted leaves the chain as it was, unless
    an [OSError] interrupted the append itself. *)
Theorem one_decision_per_connection limit sec c peer s :
  let '(effects, s') := _handle_socket limit sec c peer s in
  length (List.filter is_decision effects) = 1%nat /\
  (length (List.filter is_response effects) <= 1)%nat /\
  (forall reason, Response (u "accepted") reason ∈ effects ->
     (exists fields, Decision (u "accept") reason fields ∈ effects) /\ exists event, Handoff event ∈ effects) /\
  ((forall reason, Response (u "accepted") reason ∉ effects) ->
     chain s' = chain s \/
     exists line n, env_append (he_append (cn_env c)) = WriteFailed n /\
       chain s' = Some (default [] (chain s) ++ take n line)).
Proof.
  assert (Hne : u "accepted" <> u "rejected") by by vm_compute.
  assert (Hreject : forall reason fields r, Response (u "accepted") r ∉ _reject_tls_socket reason fields).
  { intros reason fields r. unfold _reject_tls_socket. rewrite !elem_of_cons, elem_of_nil.
    intros [?|[[= E]|?]]; try done. }
  unfold _handle_socket. destruct (cn_handshake c _) as [name|subject].
  { split_and!; [done|cbn; lia| |by left]. intros r [?|?%elem_of_nil]%elem_of_cons; done. }
  unfold _handle_tls_socket. destruct (screen _ _ _ _ _) as [reason fields|name|node event].
  - split_and!; [done|cbn; lia| |by left]. intros r Hr. by apply Hreject in Hr.
  - split_and!; [done|cbn; lia| |by left]. intros r [?|?%elem_of_nil]%elem_of_cons; done.
  - destruct (reserve _ _ _) as [[[] previous] m].
    { split_and!; [done|cbn; lia| |by left]. intros r Hr. by apply Hreject in Hr. }
    unfold deliver. destruct (forensics_log_event (cn_env c) event (chain s)) as [[[]|e] store'] eqn:Ef.
    + split_and!; [done|cbn; lia| |].
      * intros r Hr. rewrite !elem_of_cons, elem_of_nil in Hr. destruct Hr as [?|[?|[[= ->]|?]]]; try done.
        split; [|exists event; by left]. eexists. right. by left.
      * intros Hr. exfalso. apply (Hr (u "authenticated_event_handed_off")). right. right. by left.
    + split_and!; [done|cbn; lia| |].
      * intros r [?|Hr]%elem_of_cons; [done|]. by apply Hreject in Hr.
      * intros _. cbn [chain]. unfold forensics_log_event in Ef.
        destruct (he_key_path (cn_env c)); [|injection Ef as _ <-; by left].
        destruct (he_key (cn_env c)) as [sign|]; [|injection Ef as _ <-; by left]. cbn [negb] in Ef.
        destruct (log_event _ _ _ _) as [r st] eqn:El. injection Ef as Er ->.
        pose proof El as Hfile.
        apply log_event_file in Hfile as [->|(ev & rec & line & _ & Hp & [(_ & -> & _)|(n & Ha & _ & ->)])];
          [by left|done|]. right. by exists line, n.
Qed.

(** A hand-off that returns has extended the chain by the event. *)
Lemma handoff_grows env event store store' :
  payload_spec event ->
  (forall sign, he_key env = Some sign -> forall data sg, sign data = SignBytes sg -> bytes_ok sg) ->
  (forall entries, read_chain store = Ok entries -> Z.of_nat (length entries) < 2 ^ 63) ->
  forensics_log_event env event store = (Ok tt, store') ->
  exists entries r signed, read_chain store = Ok entries /\ read_chain store' = Ok (entries ++ [(r, signed)]) /\
    event_part r = norm_pydict (ingestion_fields event).
Proof.
  intros Hp Hsg Hlen. unfold forensics_log_event. destruct (he_key_path env); [|done]. cbn [negb].
  destruct (he_key env) as [sign|]; [|done]. destruct (log_event _ _ _ _) as [[record|e] st] eqn:El; [|done].
  intros [= ->].
  apply log_event_grows in El as (k & entries & sg & signed & line & _ & Hc & _ & _ & _ & Hpart & Hc').
  - exists entries, (norm_pydict record), signed. split; [apply read_chain_Ok; eauto|].
    split; [apply read_chain_Ok; eauto|done].
  - by apply ingestion_event_wf_of.
  - by apply Hsg.
  - intros v es Hes. apply Hlen. apply read_chain_Ok. eauto.
Qed.

(** C6: what the peer is told [accepted] is on the chain: the certificate has
    one common name, it is on the allow-list and is the node name of the
    payload, the sequence number is above the last one of the node and is now
    the last one, no other node is touched, and the chain has grown by exactly
    one record, which holds the event of the payload. *)
Theorem accepted_event_is_recorded limit sec c peer s effects s' reason :
  (forall sign, he_key (cn_env c) = Some sign -> forall data sg, sign data = SignBytes sg -> bytes_ok sg) ->
  (forall entries, read_chain (chain s) = Ok entries -> Z.of_nat (length entries) < 2 ^ 63) ->
  _handle_socket limit sec c peer s = (effects, s') -> Response (u "accepted") reason ∈ effects ->
  exists subject node event entries r signed,
    cn_handshake c (se_context sec) = inr subject /\ _certificate_common_names subject = [node] /\ node ∈ se_enrolled sec /\
    read_payload limit (cn_script c) = PayloadEvent event /\ payload_spec event /\
    str_item event (u "node_id") = node /\
    (forall previous, last_sequences s !! node = Some previous -> previous < int_item event (u "sequence_number")) /\
    last_sequences s' = <[node := int_item event (u "sequence_number")]> (last_sequences s) /\
    read_chain (chain s) = Ok entries /\ read_chain (chain s') = Ok (entries ++ [(r, signed)]) /\
    event_part r = norm_pydict (ingestion_fields event).
Proof.
  intros Hsg Hlen. assert (Hne : u "accepted" <> u "rejected") by by vm_compute.
  assert (Hreject : forall reason fields r, Response (u "accepted") r ∉ _reject_tls_socket reason fields).
  { intros rs fields r. unfold _reject_tls_socket. rewrite !elem_of_cons, elem_of_nil. by intros [?|[?|?]]. }
  unfold _handle_socket. destruct (cn_handshake c _) as [name|subject].
  { by intros [= <- <-] [?|?%elem_of_nil]%elem_of_cons. }
  unfold _handle_tls_socket. destruct (screen _ _ _ _ _) as [rs fields|name|node event] eqn:Ea.
  - by intros [= <- <-] ?%Hreject.
  - by intros [= <- <-] [?|?%elem_of_nil]%elem_of_cons.
  - apply screen_ok in Ea as (Hcn & Hen & Hpay & Hspec & Hnode).
    destruct (reserve _ _ _) as [[replay previous] m] eqn:Er. apply reserve_spec in Er as [-> Er].
    destruct replay; [by intros [= <- <-] ?%Hreject|]. destruct Er as [-> Hlt].
    unfold deliver. destruct (forensics_log_event (cn_env c) event (chain s)) as [[[]|e] store'] eqn:Ef.
    2:{ intros [= <- <-] [?|?%Hreject]%elem_of_cons; done. }
    intros [= <- <-] _. destruct (handoff_grows _ _ _ _ Hspec Hsg Hlen Ef) as (entries & r & signed & H1 & H2 & H3).
    exists subject, node, event, entries, r, signed. split_and!; done.
Qed.

(** A security state of one node. *)
Definition sample_security : security :=
  Security [u "node-01"] {| ctx_minimum_version := TLSv1_2; ctx_verify_mode := CERT_REQUIRED; ctx_verify_flags := 4;
                            ctx_locations := []; ctx_cert_chain := None |}.

Definition sample_connection : connection :=
  Connection (fun _ => inr [[(u "commonName", PStr (u "node-01"))]]) [RecvBytes (take 20 sample_wire); RecvBytes (drop 20 sample_wire)]
    (HandoffEnv true (Some toy_sign) good_environment) (fun _ => []).

(** What the handler does with it. *)
Lemma sample_cleared peer :
  screen 65536 [[(u "commonName", PStr (u "node-01"))]] (cn_script sample_connection) peer [u "node-01"]
  = Cleared (u "node-01") sample_payload.
Proof. vm_compute. reflexivity. Qed.

Lemma accepted_event_is_recorded_witness :
  exists s' entries, (_handle_socket 65536 sample_security sample_connection [] (Server ∅ None)).2 = s' /\
    read_chain (chain s') = Ok entries /\ length entries = 1%nat.
Proof.
  destruct (_handle_socket 65536 sample_security sample_connection [] (Server ∅ None)) as [effects s'] eqn:E.
  assert (Ha : exists reason, Response (u "accepted") reason ∈ effects).
  { revert E. unfold _handle_socket, _handle_tls_socket. cbn [cn_handshake sample_connection se_enrolled sample_security].
    change (cn_script _) with (cn_script sample_connection). rewrite sample_cleared.
    unfold reserve. cbn [last_sequences]. rewrite lookup_empty. unfold deliver.
    change (cn_env sample_connection) with (HandoffEnv true (Some toy_sign) good_environment).
    pose proof sample_handoff as Hh.
    destruct (forensics_log_event _ _ _) as [r st]. cbn [fst] in Hh. subst r.
    intros [= <- _]. eexists. right. right. by left. }
  destruct Ha as [reason Ha].
  destruct (accepted_event_is_recorded 65536 sample_security sample_connection [] (Server ∅ None) effects s' reason)
    as (subject & node & event & entries & r & signed & _ & _ & _ & _ & _ & _ & _ & _ & H1 & H2 & _).
  - intros sign [= <-] data sg Hs. by apply toy_sign_ok in Hs as [? _].
  - intros entries He. injection He as <-. done.
  - exact E.
  - exact Ha.
  - injection H1 as <-. exists s', [(r, signed)]. split; [reflexivity|]. split; [exact H2|reflexivity].
Defined.

(** ** All connections together *)

(** C12: however the handlers of the connections, the reloads of the security
    state and the start and close of the server interleave, no pair of a node
    and a sequence number is handed off twice, each hand-off has been reserved
    before, and the reservations of one node are strictly increasing (the
    histories are newest first); the events past the screen come from validated
    payloads of a node that the certificate names and that was on the allow-list
    of one security state as it was published; and a server that has stopped
    has no handler left. *)
Theorem no_sequence_reused {T : TlsLibrary} limit sec store s :
  collector_reachable limit sec store s ->
  NoDup (sy_handed s) /\ (forall p, p ∈ sy_handed s -> p ∈ sy_reserved s) /\
  (forall node, StronglySorted Z.gt (seqs_of node (sy_reserved s)) /\
                sy_sequences s !! node = head (seqs_of node (sy_reserved s))) /\
  Forall (phase_ok (sy_published s)) (sy_threads s) /\
  (sy_lifecycle s = Stopped -> Forall (fun t => is_done t = true) (sy_threads s)).
Proof.
  intros Hinv%collector_reachable_inv. split; [by apply handed_nodup|]. destruct Hinv as [Ho Hl Hh Hp _ Hst]. split.
  { intros p Hin. rewrite Hh. apply elem_of_app. by right. }
  split; [intros node; split; auto|done].
Qed.

#[local] Existing Instance sample_tls.

(** One connection, handled. *)
Definition sample_handled (effects : list effect) (st : file) : system :=
  System Listening sample_security [] (<[u "node-01" := 7]> ∅) st [Thread sample_connection [] (Done effects)] [sample_security]
    [(u "node-01", 7)] [(u "node-01", 7)].

Lemma sample_handled_reachable effects st :
  deliver [] (u "node-01") sample_payload (cn_env sample_connection) (cn_type_name sample_connection) None = (effects, st) ->
  collector_reachable 65536 sample_security None (sample_handled effects st).
Proof.
  intros Ed. set (t := Thread sample_connection [] (Handshaking sample_security)).
  set (ta := set_phase t (Authenticated sample_security (u "node-01") sample_payload)).
  set (tr := set_phase t (Reserved sample_security (u "node-01") sample_payload)).
  set (base := set_lifecycle Listening (collector_start sample_security None)).
  set (s3 := System Listening sample_security [] (<[u "node-01" := 7]> ∅) None [tr] [sample_security] [(u "node-01", 7)] []).
  assert (Hsc : screened 65536 sample_security t = Authenticated sample_security (u "node-01") sample_payload).
  { unfold screened. change (cn_handshake (th_connection t) (se_context sample_security))
      with (inr pystr [[(u "commonName", PStr (u "node-01"))]]).
    cbv iota. exact (f_equal (fun a => match a with Refused r f => Done (_reject_tls_socket r f)
      | Crashed n => Done (failed_socket (u "internal_server_error") [] n)
      | Cleared n e => Authenticated sample_security n e end) (sample_cleared [])). }
  eapply rtc_l; [by apply (step_start _ _ base)|].
  eapply rtc_l; [by apply (step_accept _ sample_connection [] _ (set_threads [Thread sample_connection [] Accepted] base))|].
  eapply rtc_l; [by apply (step_read _ 0 _ (set_threads [t] base))|].
  eapply rtc_l; [apply (step_screen _ _ 0 t sample_security); reflexivity|]. rewrite Hsc.
  eapply (rtc_l _ _ s3); [apply (step_reserve _ (set_threads [ta] base) 0 ta sample_security (u "node-01") sample_payload None
    (<[u "node-01" := 7]> ∅)); reflexivity|].
  eapply rtc_l; [apply (step_deliver _ s3 0 tr sample_security (u "node-01") sample_payload effects st);
    [reflexivity|reflexivity|exact Ed]|]. apply rtc_refl.
Qed.

Lemma no_sequence_reused_witness :
  exists s, collector_reachable 65536 sample_security None s /\ length (sy_handed s) = 1%nat /\ NoDup (sy_handed s).
Proof.
  destruct (deliver [] (u "node-01") sample_payload (cn_env sample_connection) (cn_type_name sample_connection) None)
    as [effects st] eqn:Ed.
  pose proof (sample_handled_reachable effects st Ed) as Hr. exists (sample_handled effects st).
  split; [exact Hr|]. split; [reflexivity|]. exact (proj1 (no_sequence_reused _ _ _ _ Hr)).
Defined.

(** Closing ends: once [close] was called, no connection is accepted any
    more, each running handler can always take its next step (as far as its calls
    return), and when they have (a handler takes at most four) the server stops
    with every one of them finished and none lost. *)
Theorem close_drains {T : TlsLibrary} limit s s1 :
  close s = Some s1 ->
  (forall c peer, _accept_loop c peer s1 = None) /\
  (forall i t, sy_threads s1 !! i = Some t -> is_done t = false ->
     exists s2, collector_step limit s1 s2 /\ (work (sy_threads s2) < work (sy_threads s1) <= 4 * length (sy_threads s1))%nat) /\
  exists s2 s3, rtc (collector_step limit) s1 s2 /\ close_gathered s2 = Some s3 /\ sy_lifecycle s3 = Stopped /\
    length (sy_threads s3) = length (sy_threads s) /\ Forall (fun t => is_done t = true) (sy_threads s3).
Proof.
  intros Hc. assert (Hs1 : s1 = set_lifecycle Closing s) by (unfold close in Hc; destruct (sy_lifecycle s); congruence).
  subst s1. split; [done|]. split.
  - intros i t Hi Hd. destruct (handler_moves limit _ i t Hi Hd) as (s2 & [Hs _] & _ & Hw). exists s2.
    split; [done|]. split; [done|]. apply work_bound.
  - destruct (handlers_drain limit (set_lifecycle Closing s)) as (s2 & (Hr & Hl & _)%handler_steps & Hn & Hf).
    exists s2, (set_lifecycle Stopped s2). unfold close_gathered. rewrite Hl, Hf. cbn. split_and!; try done.
    rewrite Forall_forall. rewrite forallb_forall in Hf. intros t Ht. apply Hf. by apply list_elem_of_In.
Qed.

Lemma close_drains_witness :
  exists s2 s3, close_gathered s2 = Some s3 /\ sy_lifecycle s3 = Stopped /\ length (sy_threads s3) = 1%nat.
Proof.
  destruct (close_drains 65536 (set_lifecycle Listening
    (set_threads [Thread sample_connection [] Accepted] (collector_start sample_security None))) _ eq_refl)
    as (_ & _ & s2 & s3 & _ & Hg & Hst & Hn & _).
  exists s2, s3. split; [exact Hg|]. split; [exact Hst|exact Hn].
Defined.

(** ** The allow-list *)

Lemma has_duplicate_false l : has_duplicate l = false <-> NoDup l.
Proof.
  induction l as [|x l IH]; cbn; [split; [constructor|done]|].
  rewrite orb_false_iff, mem_false, IH, NoDup_cons. done.
Qed.

(** An allow-list loads exactly when its YAML is the mapping of [nodes] to
    a nonempty list of distinct nonempty texts, and then it is those texts. *)
Theorem load_enrolled_nodes_exact raw names :
  load_enrolled_nodes raw = Ok names <->
  raw = AllowlistYaml (to_dict [(u "nodes", PList (map PStr names))]) /\ names <> [] /\ NoDup names /\
  Forall (fun n => n <> []) names.
Proof.
  assert (Hstr : forall l, forallb nonempty_str l = true ->
    l = map PStr (map str_value l) /\ Forall (fun n => n <> []) (map str_value l)).
  { induction l as [|v l IH]; [by repeat constructor|]. cbn. intros [Hv Hl]%andb_true_iff.
    destruct (IH Hl) as [E Hall]. destruct v as [| | | |[|ch t]| | |]; try done. cbn. split; [by rewrite <- E|].
    by constructor. }
  unfold load_enrolled_nodes. split.
  - destruct raw as [[| | | | | |[|[[k|] nodes] [|? ?]]|]| |]; try done. rewrite then_Ok, ensure_Ok, bool_decide_eq_true.
    intros [-> H]. destruct nodes as [| | | | |[|n ns]| |]; try done. rewrite !then_Ok, !ensure_Ok in H.
    destruct H as (Hs & Hd & [= <-]). apply negb_true_iff, has_duplicate_false in Hd.
    destruct (Hstr (n :: ns) Hs) as [E Hall]. cbn [map] in *. by rewrite <- E.
  - intros (-> & Hne & Hnd & Hall). cbn [to_dict map fst snd]. rewrite then_Ok, ensure_Ok, bool_decide_eq_true.
    split; [done|]. destruct names as [|n ns]; [done|]. cbn [map].
    assert (Hv : map str_value (map PStr (n :: ns)) = n :: ns).
    { rewrite map_map. cbn [str_value]. apply map_id. }
    cbn [map] in Hv. rewrite !then_Ok, !ensure_Ok, Hv. split; [|split; [|done]].
    + change (forallb nonempty_str (map PStr (n :: ns)) = true). rewrite forallb_forall. intros v Hin.
      apply in_map_iff in Hin as (x & <- & Hx). rewrite Forall_forall in Hall.
      specialize (Hall x). rewrite list_elem_of_In in Hall. specialize (Hall Hx). by destruct x.
    + by apply negb_true_iff, has_duplicate_false.
Qed.
