(* ===== verification/CollectorLog.v ===== *)
(** [collector/vestrix_collector/logging.py] and the two places where
    [server.py] writes: the JSON line of a log record and the response line.

    A log record carries the instant [datetime.fromtimestamp(record.created,
    UTC)] gives.  The handler, logger and stream of the [logging] module are
    what they are documented to be: a formatted record and a line feed. *)

From S2P Require Import Prelude.
From S2P Require Import PyText.
From S2P Require Import PyValue.
From S2P Require Import JsonDumps.
From S2P Require Import JsonAscii.
From S2P Require Import Calendar.
From S2P Require Import CollectorServer.

(** ** [JSONFormatter] *)

(** The attributes of a record that the formatter reads; [event] and
    [decision_fields] are there when [extra] put them there. *)
Record log_record := LogRecord {
  lr_created : Z;
  lr_levelname : pystr;
  lr_event : option pyval;
  lr_message : pystr;
  lr_decision_fields : option pyval
}.

(** [isoformat(timespec="milliseconds")] of an instant in UTC. *)
Definition isoformat_milliseconds (t : Z) : pystr :=
  let '(y, m, d) := ord2ymd (t / us_per_day + 1) in
  let r := t mod us_per_day in
  let s := r / us_per_second in
  pad 4 y ++ 45 :: pad 2 m ++ 45 :: pad 2 d ++ 84 :: pad 2 (s / 3600) ++ 58 :: pad 2 (s / 60 mod 60)
  ++ 58 :: pad 2 (s mod 60) ++ 46 :: pad 3 (r mod us_per_second / 1000) ++ u "+00:00".

(** [output.update(other)]. *)
Definition dict_update (output other : pydict) : pydict :=
  fold_left (fun output kv => dset kv.1 kv.2 output) other output.

(** A key that is no text makes [sort_keys] raise [TypeError]. *)
Definition format (record : log_record) : res dumps_error pystr :=
  let output := [ (u "timestamp_utc", PStr (isoformat_milliseconds (lr_created record)));
                  (u "level", PStr (lr_levelname record));
                  (u "event", default (PStr (u "collector_log")) (lr_event record));
                  (u "message", PStr (lr_message record)) ] in
  match lr_decision_fields record with
  | Some (PDict fields) =>
      match str_keys fields with
      | None => Err DumpsTypeError
      | Some fields => dumps_ascii true (to_dict (dict_update output fields))
      end
  | _ => dumps_ascii true (to_dict output)
  end.

(** [StreamHandler.emit]: a record that cannot be formatted is dropped. *)
Definition emit (record : log_record) : pystr :=
  match format record with Ok text => text ++ [LF] | Err _ => [] end.

(** ** What [server.py] logs and sends *)

Definition lifecycle_record (created : Z) (levelname message : pystr) (fields : pydict) : log_record :=
  LogRecord created levelname (Some (PStr (u "collector_lifecycle"))) message (Some (to_dict fields)).

Definition _decision (created : Z) (decision reason : pystr) (fields : pydict) : log_record :=
  LogRecord created (u "INFO") (Some (PStr (u "ingest_decision"))) (u "ingest " ++ decision)
    (Some (to_dict ((u "decision", PStr decision) :: (u "reason", PStr reason) :: fields))).

(** The octets of a response; a socket that refuses them changes nothing. *)
Definition _send_response (status reason : pystr) : res dumps_error (option bytes) :=
  response ← dumps_ascii false (to_dict [(u "status", PStr status); (u "reason", PStr reason)]);
  Ok ((fun b => b ++ [LF]) <$> utf8_encode response).

(** The log and the peer's stream after the effects of a handler; [clock] is
    the instant of each record. *)
Definition log_text (clock : nat -> Z) (effects : list effect) : pystr :=
  concat (imap (fun i e => match e with
                           | Decision decision reason fields => emit (_decision (clock i) decision reason fields)
                           | _ => []
                           end) effects).

Definition sent_bytes (effects : list effect) : bytes :=
  flat_map (fun e => match e with
                     | Response status reason =>
                         match _send_response status reason with Ok (Some b) => b | _ => [] end
                     | _ => []
                     end) effects.
