(* ===== verification/LogTheorems.v ===== *)
(** The log and the responses of the collector: one line of ASCII each, from
    which a reader gets the decision back. *)

From stdpp Require Import gmap.
From S2P Require Import Prelude.
From S2P Require Import PyText.
From S2P Require Import PyValue.
From S2P Require Import JsonDumps.
From S2P Require Import JsonLoads.
From S2P Require Import JsonLoadsFacts.
From S2P Require Import JsonAscii.
From S2P Require Import RecordFormat.
From S2P Require Import EventSpec.
From S2P Require Import RecordFacts.
From S2P Require Import CanonicalBytes.
From S2P Require Import ChainStore.
From S2P Require Import ChainLogger.
From S2P Require Import Calendar.
From S2P Require Import CollectorModels.
From S2P Require Import CollectorTls.
From S2P Require Import CollectorServer.
From S2P Require Import CollectorFacts.
From S2P Require Import CollectorSteps.
From S2P Require Import LoggerFacts.
From S2P Require Import CollectorLog.

(** ** One record *)

Lemma graphic_scalar s : Forall graphic s -> scalar_text s = true.
Proof.
  intros Hs. unfold scalar_text. apply forallb_forall. intros c Hc%list_elem_of_In. rewrite Forall_forall in Hs.
  specialize (Hs c Hc). unfold graphic, is_scalar, is_codepoint, is_surrogate in *. zbool. lia.
Qed.

Lemma scalar_text_app a b : scalar_text (a ++ b) = scalar_text a && scalar_text b.
Proof. apply forallb_app. Qed.

Lemma pad_graphic w n : Forall graphic (pad w n).
Proof.
  revert n. induction w as [|w IH]; intros n; [constructor|]. cbn [pad]. apply Forall_app_2; [apply IH|].
  constructor; [unfold graphic; hex_range|constructor].
Qed.

Lemma isoformat_graphic t : Forall graphic (isoformat_milliseconds t).
Proof.
  unfold isoformat_milliseconds. destruct (ord2ymd _) as [[y m] d].
  repeat first [apply Forall_app_2; [apply pad_graphic|] | apply Forall_cons; split; [by unfold graphic|]].
  by repeat constructor.
Qed.

Lemma dict_update_new output other : NoDup (keys (output ++ other)) -> dict_update output other = output ++ other.
Proof.
  unfold dict_update. revert output. induction other as [|[k v] other IH]; intros output Hnd; cbn; [by rewrite app_nil_r|].
  unfold keys in *. rewrite map_app in Hnd. cbn in Hnd. rewrite dset_new.
  - rewrite IH; [by rewrite <- app_assoc|]. rewrite !map_app, <- app_assoc. exact Hnd.
  - apply has_key_false. apply NoDup_app in Hnd as (_ & Hd & _). intros Hin. apply (Hd k Hin). left.
Qed.

(** What the fields of a decision hold. *)
Definition plain_value (v : pyval) : Prop := writable scalar_text v = true /\ norm v = v.

Lemma plain_str s : scalar_text s = true -> plain_value (PStr s).
Proof. by split. Qed.

Lemma plain_int z : - 2 ^ 64 < z < 2 ^ 64 -> plain_value (PInt z).
Proof.
  intros Hz%dumps_int_small. split; [|done]. cbn. unfold dumps_int in Hz. by destruct (Nat.leb _ _).
Qed.

Lemma plain_none : plain_value PNone.
Proof. done. Qed.

#[local] Hint Resolve plain_str plain_int plain_none : core.

Definition decision_names : list pystr := Eval vm_compute in
  [ u "peer"; u "certificate_node_id"; u "payload_node_id"; u "node_id"; u "sequence_number"; u "last_sequence_number"; u "csi_window_sha256"; u "error_type" ].
Definition standard_names : list pystr := Eval vm_compute in
  [ u "timestamp_utc"; u "level"; u "event"; u "message"; u "decision"; u "reason" ].

Record decision_ok (decision reason : pystr) (fields : pydict) : Prop := DecisionOk {
  do_decision : scalar_text decision = true;
  do_reason : str_okb reason = true;
  do_keys : NoDup (keys fields);
  do_fields : Forall (fun kv => kv.1 ∈ decision_names /\ plain_value kv.2) fields
}.

(** [m] is the object of a decision's log line. *)
Record decision_entry (m : pydict) (decision reason : pystr) (fields : pydict) : Prop := DecisionEntry {
  de_event : dget (u "event") m = Some (PStr (u "ingest_decision"));
  de_decision : dget (u "decision") m = Some (PStr decision);
  de_reason : dget (u "reason") m = Some (PStr reason);
  de_fields : Forall (fun kv => dget kv.1 m = Some kv.2) fields
}.

Lemma names_disjoint k : k ∈ decision_names -> k ∉ standard_names.
Proof.
  assert (Forall (fun k => k ∉ standard_names) decision_names) as H.
  { unfold decision_names, standard_names. repeat constructor; rewrite !elem_of_cons, elem_of_nil; intros ?; by destruct_or?. }
  rewrite Forall_forall in H. apply H.
Qed.

Lemma decision_line created decision reason fields :
  decision_ok decision reason fields ->
  exists line, emit (_decision created decision reason fields) = line ++ [LF] /\ Forall graphic line /\
    (scalar_text reason = true -> exists m, loads_str line = Ok (to_dict m) /\ decision_entry m decision reason fields).
Proof.
  intros [Hd Hr Hk Hf]. unfold emit, format, _decision, lr_decision_fields. cbn [lr_created lr_levelname lr_event lr_message default id].
  unfold to_dict at 1. rewrite str_keys_to_dict.
  set (top := [(u "timestamp_utc", PStr (isoformat_milliseconds created)); (u "level", PStr (u "INFO"));
               (u "event", PStr (u "ingest_decision")); (u "message", PStr (u "ingest " ++ decision))]).
  set (rest := (u "decision", PStr decision) :: (u "reason", PStr reason) :: fields).
  assert (Hnd : NoDup (keys (top ++ rest))).
  { unfold keys. rewrite map_app. change (NoDup (standard_names ++ keys fields)). apply NoDup_app. split; [|split; [|done]].
    - unfold standard_names. apply (bool_decide_unpack _). vm_compute. exact I.
    - intros k Hs Hin. apply list_elem_of_fmap in Hin as (kv & -> & Hkv). rewrite Forall_forall in Hf.
      destruct (Hf kv Hkv) as [Hn _]. by destruct (names_disjoint _ Hn). }
  rewrite dict_update_new by done.
  assert (Hfs : forall text_ok, (forall s, scalar_text s = true -> text_ok s = true) -> text_ok reason = true ->
    writable text_ok (to_dict (top ++ rest)) = true).
  { intros text_ok Hi Hreason. apply writable_members. split; [done|]. unfold top, rest. cbn [app].
    repeat (apply Forall_cons; split; [split; [by apply Hi|cbn [writable snd]]|]); try done; try by apply Hi.
    - apply Hi, graphic_scalar, isoformat_graphic.
    - eapply Forall_impl; [exact Hf|]. intros kv [Hn [Hv _]]. split; [|by eapply writable_impl].
      apply Hi. assert (Forall (fun k => scalar_text k = true) decision_names) as H by by repeat constructor.
      rewrite Forall_forall in H. by apply H. }
  destruct (dumps_ascii_loads (to_dict (top ++ rest))) as (line & -> & Hg & Hl).
  { apply Hfs; [apply str_okb_scalar|done]. }
  exists line. split; [done|]. split; [done|]. intros Hs. rewrite Hl by (by apply Hfs).
  exists (norm_pydict (top ++ rest)). split; [by rewrite norm_to_dict|].
  constructor; rewrite ?dget_norm_pydict by done; [done..|].
  rewrite Forall_forall in Hf |- *. intros kv Hkv. rewrite dget_norm_pydict by done.
  rewrite (elem_dget kv.1 kv.2) by (done || (apply elem_of_app; right; right; right; by destruct kv)).
  cbn. f_equal. by apply Hf.
Qed.

Lemma response_line status reason :
  scalar_text status = true -> str_okb reason = true ->
  exists body, _send_response status reason = Ok (Some (body ++ [LF])) /\ Forall graphic body /\
    (scalar_text reason = true ->
     loads_str body = Ok (to_dict [(u "status", PStr status); (u "reason", PStr reason)])).
Proof.
  intros Hs Hr. unfold _send_response.
  destruct (dumps_ascii_object [(u "status", PStr status); (u "reason", PStr reason)]) as (body & -> & Hg & Hl).
  { apply (bool_decide_unpack _). vm_compute. exact I. }
  { repeat (apply Forall_cons; split; [split; [done|]; eexists; split; [done|]|]); [by apply str_okb_scalar|done|done]. }
  exists body. cbn [mbind res_bind]. split; [|split; [done|]].
  - unfold utf8_encode. assert (existsb is_surrogate body = false) as ->.
    { apply scalars_ascii. eapply Forall_impl; [exact Hg|]. unfold graphic. intros. lia. }
    cbn. do 3 f_equal. clear Hl. induction Hg as [|c body Hc _ IH]; [done|]. cbn. rewrite IH. unfold utf8_char, graphic in *.
    by destruct (Z.ltb_spec c 0x80); [|lia].
  - intros H. apply Hl, (writable_members scalar_text [(u "status", PStr status); (u "reason", PStr reason)]).
    split; [apply (bool_decide_unpack _); vm_compute; exact I|]. by repeat constructor.
Qed.

(** ** The texts of one connection *)

Lemma str_okb_app a b : str_okb (a ++ b) = str_okb a && str_okb b.
Proof. apply forallb_app. Qed.

Lemma str_okb_join l : Forall (fun s => str_okb s = true) l -> str_okb (join_comma l) = true.
Proof.
  induction 1 as [|t [|t' l] Ht _ IH]; [done|done|].
  change (join_comma (t :: t' :: l)) with (t ++ 44 :: join_comma (t' :: l)). rewrite str_okb_app, Ht. exact IH.
Qed.

Lemma names_ok l : Forall (fun s => str_okb s = true) l -> str_okb (join_comma (sorted_names l)) = true.
Proof. intros H. apply str_okb_join. unfold sorted_names. by rewrite sort_by_perm. Qed.

Lemma set_diff_Forall (P : pystr -> Prop) a b : Forall P a -> Forall P (set_diff a b).
Proof. rewrite !Forall_forall. intros H x Hx. apply H. unfold set_diff in Hx. by apply elem_of_lfilter in Hx as [? _]. Qed.

(** The reasons of the schema are texts: they quote the names of the payload. *)
Lemma validate_payload_reason v e : wf_val v = true -> validate_payload v = Err e -> str_okb e = true.
Proof.
  intros Hwf. unfold validate_payload. destruct v as [| | | | | |d|]; try by intros [= <-].
  destruct (str_keys d) as [sd|] eqn:E; [|by intros [= <-]]. apply str_keys_Some in E as ->.
  apply wf_val_dict in Hwf as [_ Hwf]. unfold validate_payload_dict, check_schema_version, check_node_id,
    check_csi_window_sha256, check_sequence_number.
  intros H. apply bind_Err in H as [[_ ->]%ensure_Err|(_ & _ & H)].
  { rewrite str_okb_app. apply names_ok, set_diff_Forall. by repeat constructor. }
  apply bind_Err in H as [[_ ->]%ensure_Err|(_ & _ & H)].
  { rewrite str_okb_app. apply names_ok, set_diff_Forall. apply Forall_map.
    eapply Forall_impl; [exact Hwf|]. intros kv [Hk _]. by apply str_okb_spec. }
  do 2 (apply bind_Err in H as [[_ ->]%ensure_Err|(_ & _ & H)]; [done|]).
  apply bind_Err in H as [H|(_ & _ & H)].
  { unfold check_timestamp_utc in H. by repeat (case_match; simplify_eq). }
  do 2 (apply bind_Err in H as [[_ ->]%ensure_Err|(_ & _ & H)]; [done|]). done.
Qed.

(** The octets of a stream are octets. *)
Definition script_ok (script : list recv_event) : Prop :=
  Forall (fun e => match e with RecvBytes b => bytes_ok b | _ => True end) script.

Lemma recv_ok n script r script' : script_ok script -> recv n script = (r, script') ->
  script_ok script' /\ (forall b, r = Ok b -> bytes_ok b) /\ (forall reason, r <> Err (PayloadReadError reason)).
Proof.
  intros Hs. destruct Hs as [|[b| |] script Hb Hs]; cbn; [intros [= <- <-]|..|intros [= <- <-]|intros [= <- <-]].
  - split; [constructor|]. split; [|done]. intros b [= <-]. constructor.
  - destruct (Nat.leb _ _); intros [= <- <-]; (split; [|split; [|done]]).
    + done.
    + by intros ? [= <-].
    + constructor; [by apply Forall_drop|done].
    + intros ? [= <-]. by apply Forall_take.
  - by split.
  - by split.
Qed.

Lemma read_loop_ok fuel limit : forall payload script, bytes_ok payload -> script_ok script ->
  match read_loop fuel limit payload script with
  | Ok b => bytes_ok b
  | Err (PayloadReadError reason) => reason = u "payload_missing_newline"
  | Err _ => True
  end.
Proof.
  induction fuel as [|fuel IH]; intros payload script Hp Hs; cbn [read_loop]; [done|].
  destruct (Nat.leb _ _); [|done]. destruct (recv _ script) as [r script'] eqn:Er.
  apply recv_ok in Er as (Hs' & Hb & Hn); [|done]. destruct r as [b|[]]; try done; [|by destruct (Hn reason)].
  specialize (Hb b eq_refl). destruct b as [|c b]; [done|]. destruct (find_lf (c :: b)) as [i|].
  - apply Forall_app_2; [done|by apply Forall_take].
  - apply IH; [by apply Forall_app_2|done].
Qed.

Lemma read_payload_reason limit script reason :
  script_ok script -> read_payload limit script = PayloadRejected reason -> str_okb reason = true.
Proof.
  intros Hs. unfold read_payload, _read_json_line.
  pose proof (read_loop_ok (limit + 2) limit [] script ltac:(constructor) Hs) as Hl.
  destruct (read_loop _ _ _ _) as [b|[]]; cbn [mbind res_bind]; try by intros [= <-]. 2:{ subst. by intros [= <-]. }
  unfold ensure. destruct (Nat.leb _ _); cbn [mbind res_bind]; [|by intros [= <-]].
  destruct (negb _); cbn [mbind res_bind]; [|by intros [= <-]].
  destruct (utf8_decode false b) as [text|] eqn:Et; [|by intros [= <-]].
  apply utf8_decode_ok in Et; [|done]. pose proof (fun v Hv => writable_wf v (loads_str_writable text v Et Hv)) as Hw.
  destruct (loads_str text) as [v|[]]; try by intros [= <-]. specialize (Hw v eq_refl).
  destruct (validate_payload v) as [d|r] eqn:Ev; [done|]. intros [= <-]. by eapply validate_payload_reason.
Qed.

Lemma ascii_scalar s : Forall (fun c => 0 <= c < 128) s -> scalar_text s = true.
Proof.
  intros Hs. apply forallb_forall. intros c Hc%list_elem_of_In. rewrite Forall_forall in Hs. specialize (Hs c Hc).
  unfold is_scalar, is_codepoint, is_surrogate. zbool. lia.
Qed.

(** The fields of a validated payload that are logged. *)
Lemma event_plain event : payload_spec event ->
  plain_value (item event (u "node_id")) /\ plain_value (item event (u "sequence_number")) /\
  plain_value (item event (u "csi_window_sha256")).
Proof.
  intros [Hf _ Hn _ Hh Hq]. rewrite item_field in Hn, Hh, Hq by (apply Hf; in_fields). split_and!.
  - destruct Hn as (s & -> & Hs). apply plain_str, ascii_scalar, Forall_forall. intros c Hc. by apply (node_chars s).
  - destruct Hq as (z & -> & Hz). apply plain_int. lia.
  - destruct Hh as (s & -> & Hs). apply plain_str, ascii_scalar, Forall_forall. intros c Hc%list_elem_of_In.
    unfold is_lower_hex_n in Hs. rewrite andb_true_iff, forallb_forall in Hs. destruct Hs as [_ Hs].
    specialize (Hs c Hc). unfold is_lower_hex, is_digit in Hs. zbool. lia.
Qed.

(** What Python guarantees of the texts and octets the handler is given: the
    names in a certificate, the peer and the exception names have no
    surrogates. *)
Record connection_ok (c : connection) (peer : pystr) : Prop := ConnectionOk {
  co_peer : scalar_text peer = true;
  co_handshake : forall ctx name, cn_handshake c ctx = inl name -> scalar_text name = true;
  co_names : forall ctx subject, cn_handshake c ctx = inr subject ->
    Forall (fun name => scalar_text name = true) (_certificate_common_names subject);
  co_script : script_ok (cn_script c);
  co_type_name : forall e, scalar_text (cn_type_name c e) = true
}.

Definition sequences_ok (m : sequences) : Prop := forall node n, m !! node = Some n -> 0 <= n < 2 ^ 64.

(** What a handler leaves: perhaps a hand-off, then one decision, then perhaps
    the response with the reason of the decision. *)
Inductive handler_effects (effects : list effect) : Prop :=
| HandlerEffects before decision reason fields after :
    effects = before ++ Decision decision reason fields :: after ->
    (before = [] \/ exists event, before = [Handoff event]) ->
    (after = [] \/ exists status, after = [Response status reason] /\ scalar_text status = true) ->
    decision_ok decision reason fields -> handler_effects effects.

Ltac decision_fields :=
  constructor; [done|first [done|assumption]|apply (bool_decide_unpack _); vm_compute; exact I|
    repeat (apply Forall_cons; split; [split; [apply mem_spec; vm_compute; reflexivity|cbn [snd]; auto]|]); by constructor].

Lemma rejected_effects reason fields :
  decision_ok (u "reject") reason fields -> handler_effects (_reject_tls_socket reason fields).
Proof. intros H. eapply (HandlerEffects _ []); [done|by left|right; by eexists|done]. Qed.

Lemma failed_effects reason peer name :
  str_okb reason = true -> scalar_text peer = true -> scalar_text name = true ->
  handler_effects (failed_socket reason peer name).
Proof. intros Hr Hp Hn. eapply (HandlerEffects _ []); [done|by left|by left|]. decision_fields. Qed.

Lemma refused_ok limit subject script peer enrolled reason fields :
  scalar_text peer = true -> Forall (fun name => scalar_text name = true) (_certificate_common_names subject) ->
  script_ok script -> screen limit subject script peer enrolled = Refused reason fields ->
  decision_ok (u "reject") reason fields.
Proof.
  intros Hp Hn Hs. unfold screen. destruct (_certificate_common_names subject) as [|cn [|? ?]].
  1,3: intros [= <- <-]; decision_fields.
  inversion_clear Hn as [|? ? Hcn _]. destruct (mem cn enrolled); [|intros [= <- <-]; decision_fields].
  destruct (read_payload limit script) as [event|r|n] eqn:Er; [|intros [= <- <-]|done].
  2:{ apply read_payload_reason in Er; [|done]. decision_fields. }
  apply read_payload_spec, event_plain in Er as (Hnode & Hseq & _).
  destruct (compare_digest _ _) as [[]|]; [done|intros [= <- <-]|done]. decision_fields.
Qed.

Lemma deliver_effects peer node event env type_name store :
  payload_spec event -> scalar_text peer = true -> scalar_text node = true ->
  (forall e, scalar_text (type_name e) = true) ->
  handler_effects (deliver peer node event env type_name store).1.
Proof.
  intros (_ & Hseq & Hsha)%event_plain Hp Hn Ht. unfold deliver.
  destruct (forensics_log_event env event store) as [[x|e] store']; cbn [fst].
  - eapply (HandlerEffects _ [Handoff event]); [done|by right; eexists|right; by eexists|]. decision_fields.
  - eapply (HandlerEffects _ [Handoff event]); [done|by right; eexists|right; by eexists|]. decision_fields.
Qed.

Lemma handle_socket_effects limit sec c peer s :
  connection_ok c peer -> sequences_ok (last_sequences s) ->
  handler_effects (_handle_socket limit sec c peer s).1 /\
  sequences_ok (last_sequences (_handle_socket limit sec c peer s).2).
Proof.
  intros [Hp Hh Hn Hs Ht] Hq. unfold _handle_socket. destruct (cn_handshake c _) as [name|subject] eqn:Ec.
  { split; [|done]. apply failed_effects; [done..|]. by eapply Hh. }
  specialize (Hn _ subject Ec). unfold _handle_tls_socket.
  destruct (screen _ _ _ _ _) as [reason fields|name|node event] eqn:Es.
  - split; [|done]. apply rejected_effects. by eapply refused_ok.
  - split; [|done]. apply failed_effects; [done..|]. unfold screen in Es. repeat case_match; simplify_eq; try done.
    unfold read_payload in *. by repeat (case_match; simplify_eq).
  - apply screen_ok in Es as (Hcn & _ & _ & Hspec & _). rewrite Hcn in Hn. inversion_clear Hn as [|? ? Hnode _].
    pose proof (event_plain event Hspec) as (_ & Hseq & _).
    destruct (reserve _ _ _) as [[replay previous] m] eqn:Er. apply reserve_spec in Er as [-> Er]. destruct replay.
    + split; [|done]. apply rejected_effects.
      assert (plain_value (match last_sequences s !! node with Some p => PInt p | None => PNone end)).
      { destruct (last_sequences s !! node) as [p|] eqn:E; [|done]. apply Hq in E. apply plain_int. lia. }
      decision_fields.
    + pose proof (deliver_effects peer node event (cn_env c) (cn_type_name c) (chain s) Hspec Hp Hnode Ht) as Hd.
      destruct (deliver _ _ _ _ _ _) as [effects store']. split; [done|]. destruct Er as [-> _]. cbn.
      intros node' n [[<- <-]|[_ Hm]]%lookup_insert_Some; [|by eapply Hq].
      destruct Hspec as [Hf _ _ _ _ (v & Hv & z & -> & Hz)]. unfold int_item. by rewrite Hv.
Qed.

Lemma log_text_app clock before after :
  log_text clock (before ++ after) = log_text clock before ++ log_text (fun i => clock (length before + i)%nat) after.
Proof. unfold log_text. rewrite imap_app, concat_app. done. Qed.

(** C29: the log cannot be forged through what a peer sends.  Whatever comes over
    the connection, the handler writes exactly one line to the log, of graphic
    ASCII characters only, and sends nothing or one such line; the line reads
    back as an object with the decision, its reason and every field, and the
    response with the same reason, unless the reason quotes a field name with
    an unpaired surrogate; and the sequence numbers stay in the range that the
    next records need. *)
Theorem decision_log_faithful limit sec c peer s clock (Hc : connection_ok c peer)
  (Hs : sequences_ok (last_sequences s)) :
  let '(effects, s') := _handle_socket limit sec c peer s in
  exists decision reason fields line,
    Decision decision reason fields ∈ effects /\
    log_text clock effects = line ++ [LF] /\ Forall graphic line /\
    (scalar_text reason = true -> exists m, loads_str line = Ok (to_dict m) /\ decision_entry m decision reason fields) /\
    (sent_bytes effects = [] \/
     exists status body, sent_bytes effects = body ++ [LF] /\ Forall graphic body /\
       (scalar_text reason = true ->
        loads_str body = Ok (to_dict [(u "status", PStr status); (u "reason", PStr reason)]))) /\
    sequences_ok (last_sequences s').
Proof.
  pose proof (handle_socket_effects limit sec c peer s Hc Hs) as [He Hs'].
  destruct (_handle_socket limit sec c peer s) as [effects s']. cbn [fst snd] in *.
  destruct He as [before decision reason fields after -> Hb Ha Hok].
  assert (Hlog : exists t, log_text clock (before ++ Decision decision reason fields :: after)
    = emit (_decision t decision reason fields)).
  { destruct Hb as [->|[event ->]], Ha as [->|(status & -> & _)]; eexists; unfold log_text; cbn [app imap concat];
      by rewrite ?app_nil_r. }
  assert (Hsent : sent_bytes (before ++ Decision decision reason fields :: after) = sent_bytes after).
  { by destruct Hb as [->|[event ->]]. }
  destruct Hlog as [t ->]. rewrite Hsent. destruct (decision_line t _ _ _ Hok) as (line & -> & Hg & Hr).
  exists decision, reason, fields, line. split; [apply elem_of_app; right; by left|]. split_and!; try done.
  destruct Ha as [->|(status & -> & Hst)]; [by left|right].
  destruct (response_line status reason Hst (do_reason _ _ _ Hok)) as (body & Hb' & Hg' & Hr').
  exists status, body. unfold sent_bytes. cbn [flat_map]. by rewrite Hb', app_nil_r.
Qed.

(** A stranger whose certificate name holds a line feed and what looks like a
    decision: it stays inside its line. *)
Definition forging_name : pystr := u "x" ++ [LF] ++ u "{}".
Definition forging_connection : connection :=
  Connection (fun _ => inr [[(u "commonName", PStr forging_name)]]) [] (HandoffEnv true None good_environment) (fun _ => []).

Definition empty_security : security :=
  Security [] {| ctx_minimum_version := TLSv1_2; ctx_verify_mode := CERT_REQUIRED; ctx_verify_flags := 4;
                 ctx_locations := []; ctx_cert_chain := None |}.

Lemma decision_log_faithful_witness :
  connection_ok forging_connection [] /\
  exists line, log_text (fun _ => 0) (_handle_socket 65536 empty_security forging_connection [] (Server ∅ None)).1 = line ++ [LF] /\
    LF ∉ line.
Proof.
  assert (Hc : connection_ok forging_connection []).
  { constructor; try done; [|constructor]. intros ctx subject [= <-]. by repeat constructor. }
  split; [done|].
  pose proof (decision_log_faithful 65536 empty_security forging_connection [] (Server ∅ None) (fun _ => 0) Hc
    ltac:(intros node n Hn; cbn in Hn; by rewrite lookup_empty in Hn)) as H.
  destruct (_handle_socket _ _ _ _ _) as [effects s']. destruct H as (decision & reason & fields & line & _ & Hl & Hg & _).
  exists line. split; [exact Hl|]. exact (graphic_line _ Hg).
Defined.
