(* ===== verification/OcsfMapper.v ===== *)
(** [soc-integration/ocsf/mapper.py]: the canonical alert, and its two outputs
    for the security operations center. *)

From S2P Require Import Prelude.
From S2P Require Import PyText.
From S2P Require Import Binary64.
From S2P Require Import FloatOps.
From S2P Require Import PyValue.
From S2P Require Import Timestamp.
From S2P Require Import Calendar.
From S2P Require Import RecordFormat.

(** ** Errors *)

(** The reasons of [AlertValidationError], and what escapes it: the [TypeError]
    of a set lookup of an unhashable list or dict (objects outside the JSON
    types count as hashable), and the [OverflowError] of [math.isfinite]. *)
Inductive alert_error :=
| AlertNotObject
| AlertMissing (fields : list pystr)
| AlertUnknown (fields : list pystr)
| BadSchemaVersion
| BadSource
| NotText (field : pystr)
| BadAlertTimeForm
| BadAlertTime
| BadClass
| BadConfidence
| BadLevel
| WrongLevel
| ShapNotArray
| ShapNotObject (index : Z)
| ShapFields (index : Z)
| ShapFeature (index : Z)
| ShapValue (index : Z)
| ShapRank (index : Z)
| BadPacsStatus
| PacsMatched
| PacsMissing
| PacsNotApplicable
| BadDigest (field : pystr)
| NotNonnegative (field : pystr).

Inductive alert_exn :=
| AlertValidationError (e : alert_error)
| AlertTypeError
| AlertOverflow.

Notation ares := (res alert_exn).
Definition refuse {A} (e : alert_error) : ares A := Err (AlertValidationError e).
Definition require (b : bool) (e : alert_error) : ares unit := ensure b (AlertValidationError e).

(** ** Constants *)

Definition _CLASSES : list pystr := [u "intrusion"; u "normal"; u "sensor_tamper"].
Definition _CONFIDENCE_LEVELS : list pystr := [u "low"; u "borderline"; u "high"].
Definition _PACS_STATUSES : list pystr := [u "matched"; u "missing"; u "unknown"; u "not_applicable"].

Definition _REQUIRED_FIELDS : list pystr :=
  [ u "schema_version"; u "source"; u "event_id"; u "ts_utc"; u "node_id"; u "site_id"; u "zone_id";
    u "class"; u "confidence"; u "confidence_level"; u "model_id"; u "top_shap";
    u "pacs_event_status"; u "pacs_reader_id"; u "pacs_event_id" ].

Definition _OPTIONAL_FIELDS : list pystr :=
  [ u "csi_window_sha256"; u "sequence_number"; u "seq"; u "record_hash" ].

(** ** Field checks *)

Definition is_text (v : pyval) : bool := match v with PStr s => has_text s | _ => false end.

Definition _require_nonempty_string (value : pyval) (field : pystr) : ares unit := require (is_text value) (NotText field).

Definition _require_optional_string (value : pyval) (field : pystr) : ares unit :=
  match value with PNone => Ok tt | _ => _require_nonempty_string value field end.

Definition is_nonnegative (v : pyval) : bool := match v with PInt z => 0 <=? z | _ => false end.

Definition _require_nonnegative_integer (value : pyval) (field : pystr) : ares unit :=
  require (is_nonnegative value) (NotNonnegative field).

(** [value in names], for a frozenset of texts. *)
Definition in_names (value : pyval) (names : list pystr) : ares bool :=
  match value with
  | PStr s => Ok (mem s names)
  | PList _ | PDict _ => Err AlertTypeError
  | _ => Ok false
  end.

(** [math.isfinite] of a number that is no [bool]. *)
Definition finite_number (v : pyval) : ares bool :=
  match v with
  | PInt z => match float_of_int z with Some _ => Ok true | None => Err AlertOverflow end
  | PFloat f => Ok (is_finite f)
  | _ => Ok false
  end.

(** [float(confidence)] of a finite number in [0, 1]. *)
Definition alert_confidence (v : pyval) : ares spec_float :=
  finite ← finite_number v;
  _ ← require finite BadConfidence;
  match v with
  | PInt z => _ ← require ((0 <=? z) && (z <=? 1)) BadConfidence; Ok (if z =? 0 then float_zero else float_one)
  | PFloat f => _ ← require (float_le float_zero f && float_le f float_one) BadConfidence; Ok f
  | _ => refuse BadConfidence
  end.

(** [0.90] and [0.60]. *)
Definition high_bound : spec_float := Eval vm_compute in dec_to_float false 90 (-2).
Definition borderline_bound : spec_float := Eval vm_compute in dec_to_float false 60 (-2).

Definition confidence_level (confidence : spec_float) : pystr :=
  if float_le high_bound confidence then u "high"
  else if float_le borderline_bound confidence then u "borderline"
  else u "low".

(** ** Time *)

(** The epoch, as a day number of [Calendar]. *)
Definition epoch_ordinal : Z := ymd2ord 1970 1 1.

Definition _to_epoch_millis (m : ts_match) : ares Z :=
  match fromisoformat_utc m with
  | None => refuse BadAlertTime
  | Some parsed =>
      let days := ymd2ord (dt_year parsed) (dt_month parsed) (dt_day parsed) - epoch_ordinal in
      let seconds := dt_hour parsed * 3600 + dt_minute parsed * 60 + dt_second parsed in
      Ok (days * 86400000 + seconds * 1000 + dt_micro parsed / 1000)
  end.

(** The two checks of [ts_utc], with the milliseconds. *)
Definition alert_time (timestamp : pyval) : ares Z :=
  match timestamp with
  | PStr s =>
      match match_timestamp (Some 9%nat) s with
      | Some m => _to_epoch_millis m
      | None => refuse BadAlertTimeForm
      end
  | _ => refuse BadAlertTimeForm
  end.

(** ** Nested data *)

Definition validate_shap_item (index : Z) (v : pyval) : ares unit :=
  match v with
  | PDict d =>
      match str_keys d with
      | None => refuse (ShapNotObject index)
      | Some d =>
          let unknown := set_diff (keys d) [u "feature"; u "value"; u "rank"] in
          let missing := set_diff [u "feature"; u "value"] (keys d) in
          _ ← require (bool_decide (unknown = []) && bool_decide (missing = [])) (ShapFields index);
          _ ← require (is_text (item d (u "feature"))) (ShapFeature index);
          finite ← finite_number (item d (u "value"));
          _ ← require finite (ShapValue index);
          match dget (u "rank") d with
          | None => Ok tt
          | Some rank => require (match rank with PInt z => 0 <? z | _ => false end) (ShapRank index)
          end
      end
  | _ => refuse (ShapNotObject index)
  end.

Fixpoint validate_shap_items (index : Z) (l : list pyval) : ares unit :=
  match l with
  | [] => Ok tt
  | v :: l => _ ← validate_shap_item index v; validate_shap_items (index + 1) l
  end.

Definition _validate_top_shap (value : pyval) : ares unit :=
  match value with
  | PList l => validate_shap_items 0 l
  | _ => refuse ShapNotArray
  end.

Definition is_none (v : pyval) : bool := match v with PNone => true | _ => false end.

Definition _validate_pacs (alert : pydict) : ares unit :=
  let status := item alert (u "pacs_event_status") in
  known ← in_names status _PACS_STATUSES;
  _ ← require known BadPacsStatus;
  let reader_id := item alert (u "pacs_reader_id") in
  let event_id := item alert (u "pacs_event_id") in
  _ ← _require_optional_string reader_id (u "pacs_reader_id");
  _ ← _require_optional_string event_id (u "pacs_event_id");
  _ ← require (negb (is_str (Some status) (u "matched") && (is_none reader_id || is_none event_id))) PacsMatched;
  _ ← require (negb (is_str (Some status) (u "missing") && negb (is_none event_id))) PacsMissing;
  require (negb (is_str (Some status) (u "not_applicable") && (negb (is_none reader_id) || negb (is_none event_id))))
    PacsNotApplicable.

(** ** The alert *)

(** An optional field, when present, passes the check. *)
Definition when_present (alert : pydict) (check : pyval -> pystr -> ares unit) (field : pystr) : ares unit :=
  match dget field alert with Some v => check v field | None => Ok tt end.

Definition check_digest (v : pyval) (field : pystr) : ares unit :=
  require (match v with PStr s => is_lower_hex_n 64 s | _ => false end) (BadDigest field).

Definition validate_alert_dict (alert : pydict) : ares pydict :=
  let missing := set_diff _REQUIRED_FIELDS (keys alert) in
  let unknown := set_diff (set_diff (keys alert) _REQUIRED_FIELDS) _OPTIONAL_FIELDS in
  _ ← require (bool_decide (missing = [])) (AlertMissing (sorted_names missing));
  _ ← require (bool_decide (unknown = [])) (AlertUnknown (sorted_names unknown));
  _ ← require (is_str (dget (u "schema_version") alert) (u "1.0")) BadSchemaVersion;
  _ ← require (is_str (dget (u "source") alert) (u "vestrix")) BadSource;
  _ ← for_each (fun field => _require_nonempty_string (item alert field) field)
        [u "event_id"; u "node_id"; u "site_id"; u "zone_id"; u "model_id"];
  _ ← alert_time (item alert (u "ts_utc"));
  known ← in_names (item alert (u "class")) _CLASSES;
  _ ← require known BadClass;
  confidence ← alert_confidence (item alert (u "confidence"));
  let level := item alert (u "confidence_level") in
  known ← in_names level _CONFIDENCE_LEVELS;
  _ ← require known BadLevel;
  _ ← require (is_str (Some level) (confidence_level confidence)) WrongLevel;
  _ ← _validate_top_shap (item alert (u "top_shap"));
  _ ← _validate_pacs alert;
  _ ← for_each (when_present alert check_digest) [u "csi_window_sha256"; u "record_hash"];
  _ ← for_each (when_present alert _require_nonnegative_integer) [u "sequence_number"; u "seq"];
  Ok alert.

Definition validate_alert (alert : pyval) : ares pydict :=
  match alert with
  | PDict d =>
      match str_keys d with
      | None => refuse AlertNotObject
      | Some d => validate_alert_dict d
      end
  | _ => refuse AlertNotObject
  end.
