(* ===== verification/OcsfOutput.v ===== *)
(** [soc-integration/ocsf/mapper.py]: the flat Wazuh object and the OCSF
    Detection Finding of an alert. *)

From S2P Require Import Prelude.
From S2P Require Import PyText.
From S2P Require Import Binary64.
From S2P Require Import FloatOps.
From S2P Require Import PyValue.
From S2P Require Import Timestamp.
From S2P Require Import RecordFormat.
From S2P Require Import ChainStore.
From S2P Require Import OcsfMapper.

(** ** Wazuh *)

(** [top_shap[0][key]] of a validated contribution. *)
Definition contribution (v : pyval) (key : pystr) : pyval :=
  match v with
  | PDict d => match str_keys d with Some d => item d key | None => PNone end
  | _ => PNone
  end.

Definition wazuh_fields (canonical : pydict) : pydict :=
  let top_shap := item canonical (u "top_shap") in
  let flat := dfilter (fun key => negb (bool_decide (key = u "top_shap"))) canonical in
  let output := List.filter (fun kv => negb (is_none kv.2)) flat in
  match top_shap with
  | PList (first :: _) =>
      dset (u "shap_top_value") (contribution first (u "value"))
        (dset (u "shap_top_feature") (contribution first (u "feature")) output)
  | _ =>
      dset (u "shap_top_value") (PFloat float_zero)
        (dset (u "shap_top_feature") (PStr (u "none")) output)
  end.

Definition to_wazuh (alert : pyval) : ares pydict :=
  canonical ← validate_alert alert; Ok (wazuh_fields canonical).

(** ** OCSF *)

Definition alert_class (alert : pydict) : pystr := str_item alert (u "class").
Definition alert_level (alert : pydict) : pystr := str_item alert (u "confidence_level").
Definition pacs_missing (alert : pydict) : bool := is_str (dget (u "pacs_event_status") alert) (u "missing").

(** [{"low": ..., "borderline": ..., "high": ...}[level]] of a valid level. *)
Definition by_level {A} (level : pystr) (low borderline high : A) : A :=
  if bool_decide (level = u "high") then high
  else if bool_decide (level = u "borderline") then borderline else low.

Definition _severity (alert : pydict) : Z * pystr :=
  if bool_decide (alert_class alert = u "normal") then (1, u "Informational")
  else if bool_decide (alert_class alert = u "sensor_tamper") then (4, u "High")
  else if pacs_missing alert then (5, u "Critical")
  else by_level (alert_level alert) (2, u "Low") (3, u "Medium") (4, u "High").

Definition _title (alert : pydict) : pystr :=
  let zone := str_item alert (u "site_id") ++ u "/" ++ str_item alert (u "zone_id") in
  if bool_decide (alert_class alert = u "sensor_tamper")
  then u "Vestrix sensor tamper detected at " ++ zone
  else if bool_decide (alert_class alert = u "normal")
  then u "Vestrix benign physical activity at " ++ zone
  else if pacs_missing alert
  then u "Vestrix intrusion without corresponding PACS event at " ++ zone
  else u "Vestrix physical intrusion detected at " ++ zone.

(** [round(confidence * 100)]: a float product, then half to even. *)
Definition hundred : spec_float := Eval vm_compute in dec_to_float false 100 0.

Definition confidence_score (confidence : spec_float) : Z :=
  round_half_even (fixed (float_mul hundred confidence)) (2 ^ unit_exp).

(** [float(canonical["confidence"])] of a validated alert. *)
Definition confidence_of (canonical : pydict) : spec_float :=
  match alert_confidence (item canonical (u "confidence")) with Ok f => f | Err _ => float_zero end.

Definition time_of (canonical : pydict) : Z :=
  match alert_time (item canonical (u "ts_utc")) with Ok t => t | Err _ => 0 end.

Definition metadata (canonical : pydict) : pydict :=
  [ (u "version", PStr (u "1.8.0"));
    (u "product", to_dict [ (u "name", PStr (u "Vestrix")); (u "vendor_name", PStr (u "Vestrix"));
                            (u "version", PStr (u "1.0")) ]);
    (u "original_event_uid", item canonical (u "event_id"));
    (u "original_time", item canonical (u "ts_utc"));
    (u "log_name", PStr (u "vestrix-alerts"));
    (u "log_provider", PStr (u "Vestrix"));
    (u "source", PStr (u "Vestrix canonical SOC alert")) ].

Definition finding_info (canonical : pydict) : pydict :=
  [ (u "uid", item canonical (u "event_id"));
    (u "title", PStr (_title canonical));
    (u "desc", PStr (u "Vestrix classified physical activity as " ++ alert_class canonical ++ u " in "
                     ++ str_item canonical (u "site_id") ++ u "/" ++ str_item canonical (u "zone_id") ++ u "."));
    (u "analytic", to_dict [ (u "name", item canonical (u "model_id")); (u "uid", item canonical (u "model_id"));
                             (u "type_id", PInt 4); (u "type", PStr (u "Learning (ML/DL)")) ]);
    (u "types", PList [PStr (u "Physical Security"); PStr (u "WiFi CSI Sensing")]) ].

Definition device (canonical : pydict) : pydict :=
  [ (u "uid", item canonical (u "node_id")); (u "name", item canonical (u "node_id"));
    (u "type_id", PInt 99); (u "type", PStr (u "WiFi CSI sensor")); (u "vendor_name", PStr (u "Vestrix")) ].

Definition ocsf_event (canonical : pydict) : pydict :=
  let confidence_id := by_level (alert_level canonical) 1 2 3 in
  let '(severity_id, severity) := _severity canonical in
  [ (u "activity_id", PInt 1);
    (u "activity_name", PStr (u "Create"));
    (u "category_uid", PInt 2);
    (u "category_name", PStr (u "Findings"));
    (u "class_uid", PInt 2004);
    (u "class_name", PStr (u "Detection Finding"));
    (u "type_uid", PInt 200401);
    (u "type_name", PStr (u "Detection Finding: Create"));
    (u "time", PInt (time_of canonical));
    (u "severity_id", PInt severity_id);
    (u "severity", PStr severity);
    (u "confidence_id", PInt confidence_id);
    (u "confidence", PStr (by_level (alert_level canonical) (u "Low") (u "Medium") (u "High")));
    (u "confidence_score", PInt (confidence_score (confidence_of canonical)));
    (u "status_id", PInt 1);
    (u "status", PStr (u "New"));
    (u "is_alert", PBool (negb (bool_decide (alert_class canonical = u "normal"))));
    (u "message", PStr (_title canonical));
    (u "metadata", to_dict (metadata canonical));
    (u "finding_info", to_dict (finding_info canonical));
    (u "device", to_dict (device canonical));
    (u "unmapped", to_dict [ (u "vestrix", to_dict canonical) ]) ].

Definition to_ocsf (alert : pyval) : ares pydict :=
  canonical ← validate_alert alert; Ok (ocsf_event canonical).
