(* ===== verification/OcsfFacts.v ===== *)
(** What an alert is, and that [validate_alert] decides exactly that. *)

From S2P Require Import Prelude.
From S2P Require Import PyText.
From S2P Require Import Binary64.
From S2P Require Import FloatOps.
From S2P Require Import PyValue.
From S2P Require Import Timestamp.
From S2P Require Import Calendar.
From S2P Require Import RecordFormat.
From S2P Require Import EventSpec.
From S2P Require Import RecordFacts.
From S2P Require Import OcsfMapper.

(** ** The specification *)

Definition text_field (v : pyval) : Prop := exists s, v = PStr s /\ has_text s = true.
Definition optional_text (v : pyval) : Prop := v = PNone \/ text_field v.
Definition name_of (names : list pystr) (v : pyval) : Prop := exists s, v = PStr s /\ s ∈ names.

(** [n] ASCII digits. *)
Definition digit_group (n : nat) (s : pystr) : Prop := length s = n /\ forallb is_digit s = true.

(** The fraction of a second: none, or a point and one to nine digits.  From the
    seventh on they may be of any script. *)
Definition fraction_text (s : pystr) : Prop :=
  s = [] \/ exists ds, s = u "." ++ ds /\ (1 <= length ds <= 9)%nat /\
    forallb is_digit (take 6 ds) = true /\ forallb is_unicode_digit (drop 6 ds) = true.

(** [YYYY-MM-DDThh:mm:ss], a fraction, [Z], for a date and a time that exist. *)
Definition alert_time_text (s : pystr) : Prop :=
  exists y mo d h mi se fraction,
    s = y ++ u "-" ++ mo ++ u "-" ++ d ++ u "T" ++ h ++ u ":" ++ mi ++ u ":" ++ se ++ fraction ++ u "Z" /\
    digit_group 4 y /\ Forall (digit_group 2) [mo; d; h; mi; se] /\ fraction_text fraction /\
    date_ok (dec_value y) (dec_value mo) (dec_value d) = true /\
    time_ok (dec_value h) (dec_value mi) (dec_value se) = true.

Definition alert_time_value (v : pyval) : Prop := exists s, v = PStr s /\ alert_time_text s.

(** The band of a confidence, between the doubles next to 0.60 and 0.90. *)
Definition confidence_band (f : spec_float) (level : pystr) : Prop :=
  let at_least n := float_le (dec_to_float false n (-2)) f in
  (level = u "high" /\ at_least 90 = true) \/
  (level = u "borderline" /\ at_least 60 = true /\ at_least 90 = false) \/
  (level = u "low" /\ at_least 60 = false /\ at_least 90 = false).

(** A JSON number that is finite: an integer of the range of binary64, or a float. *)
Definition finite_value (v : pyval) : Prop :=
  (exists z f, v = PInt z /\ float_of_int z = Some f) \/ (exists f, v = PFloat f /\ is_finite f = true).

(** The confidence [v] is the float [f]. *)
Definition confidence_number (v : pyval) (f : spec_float) : Prop :=
  (v = PInt 0 /\ f = float_zero) \/ (v = PInt 1 /\ f = float_one) \/
  (v = PFloat f /\ is_finite f = true /\ float_le float_zero f = true /\ float_le f float_one = true).

Definition shap_contribution (v : pyval) : Prop :=
  exists d, v = to_dict d /\
    (forall f, f ∈ keys d -> f ∈ [u "feature"; u "value"; u "rank"]) /\
    field text_field (u "feature") d /\ field finite_value (u "value") d /\
    (forall rank, dget (u "rank") d = Some rank -> exists z, rank = PInt z /\ 0 < z).

(** The status of the access control system fits the two ids. *)
Record pacs_spec (d : pydict) : Prop := PacsSpec {
  pacs_status : field (name_of _PACS_STATUSES) (u "pacs_event_status") d;
  pacs_reader : field optional_text (u "pacs_reader_id") d;
  pacs_event : field optional_text (u "pacs_event_id") d;
  pacs_when_matched : dget (u "pacs_event_status") d = Some (PStr (u "matched")) ->
    item d (u "pacs_reader_id") <> PNone /\ item d (u "pacs_event_id") <> PNone;
  pacs_when_missing : dget (u "pacs_event_status") d = Some (PStr (u "missing")) ->
    item d (u "pacs_event_id") = PNone;
  pacs_when_not_applicable : dget (u "pacs_event_status") d = Some (PStr (u "not_applicable")) ->
    item d (u "pacs_reader_id") = PNone /\ item d (u "pacs_event_id") = PNone
}.

(** An optional field has the property when it is present. *)
Definition optional (P : pyval -> Prop) (f : pystr) (d : pydict) : Prop :=
  forall v, dget f d = Some v -> P v.

Record alert_spec (d : pydict) : Prop := AlertSpec {
  as_required : forall f, f ∈ _REQUIRED_FIELDS -> f ∈ keys d;
  as_known : forall f, f ∈ keys d -> f ∈ _REQUIRED_FIELDS \/ f ∈ _OPTIONAL_FIELDS;
  as_schema : dget (u "schema_version") d = Some (PStr (u "1.0"));
  as_source : dget (u "source") d = Some (PStr (u "vestrix"));
  as_texts : Forall (fun f => field text_field f d)
    [u "event_id"; u "node_id"; u "site_id"; u "zone_id"; u "model_id"];
  as_time : field alert_time_value (u "ts_utc") d;
  as_class : field (name_of _CLASSES) (u "class") d;
  as_confidence : exists f level, field (fun v => confidence_number v f) (u "confidence") d /\
    dget (u "confidence_level") d = Some (PStr level) /\ confidence_band f level;
  as_shap : field (fun v => exists l, v = PList l /\ Forall shap_contribution l) (u "top_shap") d;
  as_pacs : pacs_spec d;
  as_digests : Forall (fun f => optional hash_value f d) [u "csi_window_sha256"; u "record_hash"];
  as_numbers : Forall (fun f => optional (fun v => exists z, v = PInt z /\ 0 <= z) f d) [u "sequence_number"; u "seq"]
}.

(** ** The checks *)

Lemma require_Ok b e x : require b e = Ok x <-> b = true.
Proof. apply ensure_Ok. Qed.

Lemma is_text_true v : is_text v = true <-> text_field v.
Proof.
  unfold text_field. destruct v; cbn; try (split; [done|by intros (? & [=] & ?)]).
  split; [eauto|]. by intros (? & [= <-] & ?).
Qed.

Lemma require_nonempty_field v f : _require_nonempty_string v f = Ok tt <-> text_field v.
Proof. unfold _require_nonempty_string. by rewrite require_Ok, is_text_true. Qed.

Lemma require_optional_text v f : _require_optional_string v f = Ok tt <-> optional_text v.
Proof.
  unfold _require_optional_string, optional_text. destruct v; try rewrite require_nonempty_field; naive_solver.
Qed.

Lemma in_names_true v names : in_names v names = Ok true <-> name_of names v.
Proof.
  unfold in_names, name_of. destruct v; try (split; [done|by intros (? & [=] & ?)]).
  split.
  - intros [= H%mem_spec]. eauto.
  - intros (? & [= <-] & H%mem_spec). by rewrite H.
Qed.

Lemma finite_number_true v : finite_number v = Ok true <-> finite_value v.
Proof.
  unfold finite_number, finite_value. destruct v as [| |z|f| | | |]; try (split; [done|naive_solver]).
  - destruct (float_of_int z) as [f|] eqn:E; split; try done; [eauto 6|].
    intros [(z' & f & [= <-] & Hf)|(f & [=] & _)]. congruence.
  - split; [intros [= Hf]; right; by exists f|]. intros [(? & ? & [=] & _)|(g & [= ->] & Hf)]. by rewrite Hf.
Qed.

Lemma known_Ok (m : ares bool) e x :
  (known ← m; require known e) = Ok x <-> m = Ok true.
Proof.
  destruct x. rewrite bind_Ok. split; [|naive_solver]. intros (b & -> & Hb). apply require_Ok in Hb. by subst.
Qed.

Lemma known_then (m : ares bool) e {B} (k : ares B) b :
  (known ← m; _ ← require known e; k) = Ok b <-> m = Ok true /\ k = Ok b.
Proof.
  rewrite bind_Ok. setoid_rewrite then_Ok. setoid_rewrite require_Ok. naive_solver.
Qed.

Lemma alert_confidence_Ok v f : alert_confidence v = Ok f <-> confidence_number v f.
Proof.
  unfold alert_confidence, confidence_number. rewrite known_then, finite_number_true. split.
  - intros [Hv H]. destruct v as [| |z|g| | | |]; try done; rewrite then_Ok, require_Ok in H; destruct H as [Hb [= <-]].
    + zbool. assert (z = 0 \/ z = 1) as [-> | ->] by lia; auto.
    + zbool. right. right. split; [done|]. destruct Hv as [(? & ? & [=] & _)|(? & [= <-] & ?)]. tauto.
  - intros [[-> ->]|[[-> ->]|(-> & Hf & H0 & H1)]].
    + split; [|done]. left. exists 0. eexists. split; [done|]. by vm_compute.
    + split; [|done]. left. exists 1. eexists. split; [done|]. by vm_compute.
    + split; [right; eauto|]. rewrite H0, H1. done.
Qed.

(** The text of a time against the regular expression and [fromisoformat]. *)
Lemma digit_unicode c : is_digit c = true -> is_unicode_digit c = true.
Proof. intros Hc. unfold is_unicode_digit. apply existsb_exists. exists 48. split; [by left|]. exact Hc. Qed.

Lemma digits_unicode s : forallb is_digit s = true -> forallb is_unicode_digit s = true.
Proof. rewrite !forallb_forall. intros H c Hc. by apply digit_unicode, H. Qed.

Lemma match_tail_Some s f : match_tail (Some 9%nat) s = Some f <->
  (s = u "Z" /\ f = None) \/
  exists ds, s = u "." ++ ds ++ u "Z" /\ f = Some ds /\ (1 <= length ds <= 9)%nat /\ forallb is_unicode_digit ds = true.
Proof.
  change (u "Z") with [90]. change (u ".") with [46]. cbn [app]. unfold match_tail.
  destruct s as [|c [|c' r]]; [split; [done|intros [[? _]|(ds & ? & _)]; done]|..].
  - destruct (Z.eqb_spec c 90) as [->|Hc]; split; [intros [= <-]; by left|intros [[_ ->]|(ds & Hs & _)]; [done|by destruct ds]|done|].
    intros [[[= ?] _]|(ds & Hs & _)]; [done|by destruct ds].
  - set (r' := c' :: r). split.
    + destruct (_ && _) eqn:E; [|done]. intros [= <-]. rewrite !andb_true_iff in E.
      destruct E as [[[[->%Z.eqb_eq Hl%Z.eqb_eq] Hn] Hd] Hm]. right. exists (removelast r'). split.
      * f_equal. rewrite <- Hl. by apply app_removelast_last.
      * split; [done|]. split; [|done]. apply negb_true_iff, Nat.eqb_neq in Hn. apply Nat.leb_le in Hm. lia.
    + intros [[[=] _]|(ds & [= -> Hs] & -> & Hn & Hd)]. rewrite Hs, removelast_last, List.last_last, Hd.
      destruct ds as [|x ds]; [cbn in Hn; lia|]. cbn [length Nat.eqb negb]. rewrite Z.eqb_refl.
      by rewrite (proj2 (Nat.leb_le _ _)) by (cbn in Hn; lia).
Qed.

Lemma ascii_number_Some s n : ascii_number s = Some n <-> forallb is_digit s = true /\ n = dec_value s.
Proof. unfold ascii_number. destruct (forallb is_digit s); naive_solver. Qed.

Lemma fromisoformat_Some m : (exists t, fromisoformat_utc m = Some t) <->
  Forall (fun s => forallb is_digit s = true) [ts_year m; ts_month m; ts_day m; ts_hour m; ts_minute m; ts_second m] /\
  (forall ds, ts_frac m = Some ds -> forallb is_digit (take 6 ds) = true) /\
  date_ok (dec_value (ts_year m)) (dec_value (ts_month m)) (dec_value (ts_day m)) = true /\
  time_ok (dec_value (ts_hour m)) (dec_value (ts_minute m)) (dec_value (ts_second m)) = true.
Proof.
  unfold fromisoformat_utc, ascii_number. rewrite !Forall_cons, Forall_nil.
  destruct (forallb is_digit (ts_year m)); [|naive_solver]. destruct (forallb is_digit (ts_month m)); [|naive_solver].
  destruct (forallb is_digit (ts_day m)); [|naive_solver]. destruct (forallb is_digit (ts_hour m)); [|naive_solver].
  destruct (forallb is_digit (ts_minute m)); [|naive_solver]. destruct (forallb is_digit (ts_second m)); [|naive_solver].
  cbn [mbind option_bind]. unfold parse_micro, ascii_number. destruct (ts_frac m) as [ds|]; cbn [mbind option_bind].
  - destruct (forallb is_digit (take 6 ds)) eqn:Ed; cbn [mbind option_bind].
    + destruct (date_ok _ _ _), (time_ok _ _ _); naive_solver.
    + split; [by intros []|]. intros (_ & Hd & _). specialize (Hd ds eq_refl). congruence.
  - destruct (date_ok _ _ _), (time_ok _ _ _); naive_solver.
Qed.

Lemma length_2 {A} (s : list A) : length s = 2%nat -> exists a b, s = [a; b].
Proof. destruct s as [|a [|b [|? ?]]]; try done. eauto. Qed.

Lemma alert_time_text_match s : alert_time_text s <->
  exists m t, match_timestamp (Some 9%nat) s = Some m /\ fromisoformat_utc m = Some t.
Proof.
  split.
  - intros (y & mo & d & h & mi & se & fr & -> & [Hy Hyd] & Hg & Hf & Hdate & Htime).
    repeat (apply Forall_cons in Hg as [[?%length_2 ?] Hg]). clear Hg. destruct_and?. 
    destruct y as [|y1 [|y2 [|y3 [|y4 [|? ?]]]]]; try done.
    repeat match goal with E : exists a b, _ = [a; b] |- _ => destruct E as (? & ? & ->) end.
    assert (Htail : exists f, match_tail (Some 9%nat) (fr ++ u "Z") = Some f /\
      forall ds, f = Some ds -> forallb is_digit (take 6 ds) = true).
    { destruct Hf as [->|(ds & -> & Hn & Hd & Hd')]; eexists; (split; [apply match_tail_Some|]).
      - by left.
      - done.
      - right. exists ds. rewrite <- app_assoc. do 3 (split; [done|]). rewrite <- (take_drop 6 ds), forallb_app, Hd'.
        by rewrite digits_unicode.
      - by intros ? [= <-]. }
    destruct Htail as (f & Htail & Hfd).
    match goal with |- exists m t, match_timestamp _ (?y ++ _ ++ ?mo ++ _ ++ ?d ++ _ ++ ?h ++ _ ++ ?mi ++ _ ++ ?se ++ _) = _ /\ _ =>
      exists (TsMatch y mo d h mi se f);
      assert (Hus : forallb is_unicode_digit (y ++ mo ++ d ++ h ++ mi ++ se) = true)
        by (rewrite !forallb_app, !digits_unicode by done; done);
      assert (Hiso : exists t, fromisoformat_utc (TsMatch y mo d h mi se f) = Some t)
        by (apply fromisoformat_Some; cbn [ts_year ts_month ts_day ts_hour ts_minute ts_second ts_frac]; split_and!; try done;
            by repeat constructor)
    end.
    destruct Hiso as [t Ht]. exists t. split; [|exact Ht]. unfold match_timestamp.
    change (u "-") with [45]. change (u "T") with [84]. change (u ":") with [58]. cbn [app] in Hus |- *.
    rewrite Hus. cbn [andb Z.eqb Pos.eqb]. by rewrite Htail.
  - intros (m & t & Hm & Ht). unfold match_timestamp in Hm. do 19 (destruct s as [|? s]; [done|]).
    destruct (_ && _) eqn:E in Hm; [|done]. rewrite !andb_true_iff, !Z.eqb_eq in E.
    destruct E as [[[[[_ ->] ->] ->] ->] ->]. apply bind_Some in Hm as (f & Hf & [= <-]).
    destruct (proj1 (fromisoformat_Some _) (ex_intro _ t Ht)) as (Hg & Hfd & Hdate & Htime).
    cbn [ts_year ts_month ts_day ts_hour ts_minute ts_second ts_frac] in *.
    assert (Hfr : exists fr, s = fr ++ u "Z" /\ fraction_text fr).
    { apply match_tail_Some in Hf as [[-> _]|(ds & -> & -> & Hn & Hd)]; [exists []; split; [done|by left]|].
      exists (u "." ++ ds). rewrite <- app_assoc. split; [done|]. right. exists ds. do 2 (split; [done|]). split; [by apply Hfd|].
      rewrite <- (take_drop 6 ds), forallb_app in Hd. by apply andb_true_iff in Hd as [_ Hd]. }
    destruct Hfr as (fr & -> & Hfr). repeat (apply Forall_cons in Hg as [? Hg]).
    match type of Ht with fromisoformat_utc (TsMatch ?y ?mo ?d ?h ?mi ?se _) = _ => exists y, mo, d, h, mi, se, fr end.
    split; [reflexivity|]. split; [by split|]. split; [repeat constructor; done|]. done.
Qed.

Lemma alert_time_Ok v : (exists t, alert_time v = Ok t) <-> alert_time_value v.
Proof.
  unfold alert_time, alert_time_value, _to_epoch_millis.
  destruct v as [| | | |s| | |]; try (split; [by intros (? & [=])|by intros (? & [=] & _)]).
  transitivity (alert_time_text s); [|naive_solver]. rewrite alert_time_text_match. split.
  - intros [t H]. destruct (match_timestamp _ s) as [m|] eqn:Em; [|done].
    destruct (fromisoformat_utc m) as [p|] eqn:Ep; [|done]. eauto.
  - intros (m & p & -> & ->). eauto.
Qed.

Lemma confidence_band_level f level : confidence_band f level <-> level = confidence_level f.
Proof.
  unfold confidence_band, confidence_level. change (dec_to_float false 90 (-2)) with high_bound.
  change (dec_to_float false 60 (-2)) with borderline_bound.
  destruct (float_le high_bound f), (float_le borderline_bound f); naive_solver.
Qed.

Lemma shap_item_Ok i v : validate_shap_item i v = Ok tt <-> shap_contribution v.
Proof.
  unfold validate_shap_item, shap_contribution.
  destruct v as [| | | | | |d|]; try (split; [done|by intros (? & [=] & _)]).
  assert (Hdict : forall e,
    (_ ← require (bool_decide (set_diff (keys e) [u "feature"; u "value"; u "rank"] = []) &&
                  bool_decide (set_diff [u "feature"; u "value"] (keys e) = [])) (ShapFields i);
     _ ← require (is_text (item e (u "feature"))) (ShapFeature i);
     finite ← finite_number (item e (u "value"));
     _ ← require finite (ShapValue i);
     match dget (u "rank") e with
     | None => Ok tt
     | Some rank => require (match rank with PInt z => 0 <? z | _ => false end) (ShapRank i)
     end) = Ok tt <->
    (forall f, f ∈ keys e -> f ∈ [u "feature"; u "value"; u "rank"]) /\
    field text_field (u "feature") e /\ field finite_value (u "value") e /\
    (forall rank, dget (u "rank") e = Some rank -> exists z, rank = PInt z /\ 0 < z)).
  { intros e. rewrite then_Ok, then_Ok, known_then, !require_Ok, andb_true_iff, !bool_decide_eq_true, !set_diff_nil,
      is_text_true, finite_number_true.
    assert (Hrank : (match dget (u "rank") e with
        | None => Ok tt
        | Some rank => require (match rank with PInt z => 0 <? z | _ => false end) (ShapRank i)
        end : ares unit) = Ok tt <-> (forall rank, dget (u "rank") e = Some rank -> exists z, rank = PInt z /\ 0 < z)).
    { destruct (dget (u "rank") e) as [r|]; [|naive_solver]. rewrite require_Ok. split.
      - intros Hr ? [= <-]. destruct r; try done. zbool. eauto.
      - intros Hr. destruct (Hr r eq_refl) as (z & -> & Hz). by apply Z.ltb_lt. }
    rewrite Hrank. split.
    - intros ([Hk Hm] & Hf & Hv & Hr). split; [done|].
      rewrite !item_field by (apply Hm; in_fields). done.
    - intros (Hk & Hf & Hv & Hr). pose proof (field_present _ _ _ Hf). pose proof (field_present _ _ _ Hv).
      rewrite item_field in Hf, Hv by done. split_and!; try done.
      intros k Hin. rewrite !elem_of_cons, elem_of_nil in Hin. by destruct Hin as [->|[->|?]]. }
  destruct (str_keys d) as [e|] eqn:Ek.
  - apply str_keys_Some in Ek as ->. rewrite Hdict. split; [intros H; exists e; by split|].
    intros (e' & He & H). by apply to_dict_inj in He as ->.
  - split; [done|]. intros (e & [= ->] & _). by rewrite str_keys_to_dict in Ek.
Qed.

Lemma shap_items_Ok i l : validate_shap_items i l = Ok tt <-> Forall shap_contribution l.
Proof.
  revert i. induction l as [|v l IH]; intros i; cbn [validate_shap_items]; [split; [constructor|done]|].
  by rewrite then_Ok, shap_item_Ok, IH, Forall_cons.
Qed.

Lemma top_shap_Ok v : _validate_top_shap v = Ok tt <-> exists l, v = PList l /\ Forall shap_contribution l.
Proof.
  unfold _validate_top_shap. destruct v; try (split; [done|by intros (? & [=] & _)]).
  rewrite shap_items_Ok. split; [eauto|]. by intros (? & [= <-] & ?).
Qed.

Lemma is_none_true v : is_none v = true <-> v = PNone.
Proof. by destruct v. Qed.

Lemma is_none_false v : is_none v = false <-> v <> PNone.
Proof. by destruct v. Qed.

(** A guard of the form "not (status is [s] and [b])". *)
Lemma status_guard v s b e : require (negb (is_str (Some v) s && b)) e = Ok tt <-> (v = PStr s -> b = false).
Proof.
  rewrite require_Ok, negb_true_iff, andb_false_iff. unfold is_str. destruct v; try naive_solver.
  rewrite bool_decide_eq_false. destruct (decide (s0 = s)); naive_solver.
Qed.

Lemma pacs_Ok d : (forall f, f ∈ _REQUIRED_FIELDS -> f ∈ keys d) -> _validate_pacs d = Ok tt <-> pacs_spec d.
Proof.
  intros Hreq. unfold _validate_pacs.
  rewrite known_then, in_names_true, !then_Ok, !require_optional_text, !status_guard.
  assert (Hst : forall s, dget (u "pacs_event_status") d = Some (PStr s) <-> item d (u "pacs_event_status") = PStr s).
  { intros s. unfold item. assert (Hin : u "pacs_event_status" ∈ keys d) by (apply Hreq; in_fields).
    destruct (dget _ d) as [v|] eqn:E; [|by apply dget_None in E]. cbn. naive_solver. }
  rewrite !orb_false_iff, !negb_false_iff, !is_none_false, !is_none_true. split.
  - intros (H1 & H2 & H3 & H4 & H5 & H6).
    constructor; rewrite ?item_field by (apply Hreq; in_fields); rewrite ?Hst; try done.
  - intros [H1 H2 H3 H4 H5 H6]. rewrite item_field in H1, H2, H3 by (apply Hreq; in_fields).
    rewrite Hst in H4, H5, H6. done.
Qed.

Lemma when_present_Ok (P : pyval -> Prop) check d f :
  (forall v, check v f = Ok tt <-> P v) -> when_present d check f = Ok tt <-> optional P f d.
Proof.
  intros Hc. unfold when_present, optional. destruct (dget f d) as [v|]; [|naive_solver]. rewrite Hc. naive_solver.
Qed.

Lemma check_digest_value v f : check_digest v f = Ok tt <-> hash_value v.
Proof.
  unfold check_digest, hash_value. rewrite require_Ok. split; [destruct v; try done; eauto|by intros (s & -> & ?)].
Qed.

Lemma nonnegative_value v f : _require_nonnegative_integer v f = Ok tt <-> exists z, v = PInt z /\ 0 <= z.
Proof.
  unfold _require_nonnegative_integer, is_nonnegative. rewrite require_Ok.
  split; [destruct v; try done; intros Hz; zbool; eauto|intros (z & -> & Hz); by apply Z.leb_le].
Qed.

Lemma set_diff_known d :
  set_diff (set_diff (keys d) _REQUIRED_FIELDS) _OPTIONAL_FIELDS = [] <->
  (forall f, f ∈ keys d -> f ∈ _REQUIRED_FIELDS \/ f ∈ _OPTIONAL_FIELDS).
Proof.
  rewrite set_diff_nil. unfold set_diff. split; intros H f Hf.
  - destruct (mem f _REQUIRED_FIELDS) eqn:Hm; [left; by apply mem_spec|right].
    apply H, elem_of_lfilter. by rewrite Hm.
  - apply elem_of_lfilter in Hf as [Hf Hm]. apply negb_true_iff, mem_false in Hm. by destruct (H f Hf).
Qed.

(** The class, confidence and level checks, as one step. *)
Lemma validate_alert_dict_Ok d d' : validate_alert_dict d = Ok d' <-> d' = d /\ alert_spec d.
Proof.
  unfold validate_alert_dict.
  rewrite then_Ok, require_Ok, bool_decide_eq_true, set_diff_nil, then_Ok, require_Ok, bool_decide_eq_true,
    set_diff_known, then_Ok, require_Ok, is_str_true, then_Ok, require_Ok, is_str_true, then_Ok, for_each_Ok.
  split.
  - intros (Hreq & Hkn & Hsch & Hsrc & Htx & H).
    assert (Hitem : forall P f, mem f _REQUIRED_FIELDS = true -> field P f d <-> P (item d f))
      by (intros P f Hf; by apply item_field, Hreq, mem_spec).
    apply bind_Ok in H as (t & Ht & H). rewrite known_then, in_names_true in H. destruct H as [Hc H].
    apply bind_Ok in H as (f & Hf & H). rewrite known_then, then_Ok, require_Ok, is_str_true in H.
    destruct H as (_ & Hl & H). rewrite !then_Ok, top_shap_Ok, pacs_Ok, !for_each_Ok in H by done.
    destruct H as (Hsh & Hp & Hdg & Hnm & [= <-]). split; [done|]. constructor; try done.
    + rewrite Forall_forall in Htx |- *. intros g Hg. apply Hitem; [|by apply (require_nonempty_field _ g), Htx].
      rewrite !elem_of_cons, elem_of_nil in Hg. by destruct_or! Hg; subst.
    + apply Hitem; [done|]. apply alert_time_Ok. eauto.
    + by apply Hitem.
    + exists f, (confidence_level f). split; [apply Hitem; [done|]; by apply alert_confidence_Ok|].
      split; [|by apply confidence_band_level]. injection Hl as Hl. unfold item in Hl. assert (Hin : u "confidence_level" ∈ keys d) by (apply Hreq; in_fields).
      destruct (dget (u "confidence_level") d) eqn:E; [by rewrite <- Hl|by apply dget_None in E].
    + by apply Hitem.
    + eapply Forall_impl; [exact Hdg|]. intros g. apply when_present_Ok. intros v. apply check_digest_value.
    + eapply Forall_impl; [exact Hnm|]. intros g. apply when_present_Ok. intros v. apply nonnegative_value.
  - intros (-> & [Hreq Hkn Hsch Hsrc Htx Htm Hcl (f & level & Hcf & Hlv & ->%confidence_band_level) Hsh Hp Hdg Hnm]).
    assert (Hitem : forall P g, mem g _REQUIRED_FIELDS = true -> field P g d <-> P (item d g))
      by (intros P g Hg; by apply item_field, Hreq, mem_spec).
    split_and!; try done.
    { rewrite Forall_forall in Htx |- *. intros g Hg. apply (require_nonempty_field _ g), Hitem; [|by apply Htx].
      rewrite !elem_of_cons, elem_of_nil in Hg. by destruct_or! Hg; subst. }
    rewrite Hitem in Htm, Hcl, Hcf, Hsh by done. apply alert_time_Ok in Htm as [t ->]. rewrite Ok_bind.
    rewrite known_then, in_names_true. split; [done|]. apply alert_confidence_Ok in Hcf as ->. rewrite Ok_bind.
    assert (Hli : item d (u "confidence_level") = PStr (confidence_level f)) by (unfold item; by rewrite Hlv).
    rewrite known_then, in_names_true, then_Ok, require_Ok, is_str_true, Hli. split.
    { exists (confidence_level f). split; [done|]. unfold confidence_level.
      destruct (float_le high_bound f); [in_fields|]. destruct (float_le borderline_bound f); in_fields. }
    split; [done|]. rewrite !then_Ok, top_shap_Ok, pacs_Ok, !for_each_Ok by done. split_and!; try done.
    + eapply Forall_impl; [exact Hdg|]. intros g. apply when_present_Ok. intros v. apply check_digest_value.
    + eapply Forall_impl; [exact Hnm|]. intros g. apply when_present_Ok. intros v. apply nonnegative_value.
Qed.

Lemma validate_alert_Ok v d : validate_alert v = Ok d <-> v = to_dict d /\ alert_spec d.
Proof.
  unfold validate_alert. split.
  - destruct v as [| | | | | |l|]; try done. destruct (str_keys l) as [e|] eqn:E; [|done].
    intros [-> Hs]%validate_alert_dict_Ok. apply str_keys_Some in E as ->. done.
  - intros [-> Hs]. cbn. rewrite str_keys_to_dict. by apply validate_alert_dict_Ok.
Qed.
