(* ===== verification/OcsfTheorems.v ===== *)
(** The properties of the alert mapper. *)

From S2P Require Import Prelude.
From S2P Require Import PyText.
From S2P Require Import Binary64.
From S2P Require Import FloatOps.
From S2P Require Import PyValue.
From S2P Require Import Timestamp.
From S2P Require Import Calendar.
From S2P Require Import AnchorWorker.
From S2P Require Import BackoffFacts.
From S2P Require Import RecordFormat.
From S2P Require Import EventSpec.
From S2P Require Import RecordFacts.
From S2P Require Import ChainStore.
From S2P Require Import OcsfMapper.
From S2P Require Import OcsfOutput.
From S2P Require Import OcsfFacts.

(** ** Time *)

Lemma pad_length w n : length (pad w n) = w.
Proof. revert n. induction w as [|w IH]; intros n; cbn [pad]; [done|]. rewrite length_app, IH. cbn. lia. Qed.

Lemma pad_digits w n : forallb is_digit (pad w n) = true.
Proof.
  revert n. induction w as [|w IH]; intros n; cbn [pad]; [done|]. rewrite forallb_app, IH. cbn [forallb].
  pose proof (Z.mod_pos_bound n 10 ltac:(lia)). unfold is_digit. rewrite andb_true_r. zbool. lia.
Qed.

Lemma pad_value w n : 0 <= n < 10 ^ Z.of_nat w -> dec_value (pad w n) = n.
Proof.
  revert n. induction w as [|w IH]; intros n Hn; cbn [pad].
  { change (10 ^ Z.of_nat 0) with 1 in Hn. by assert (n = 0) as -> by lia. }
  rewrite Nat2Z.inj_succ, Z.pow_succ_r in Hn by lia.
  unfold dec_value in *. rewrite map_app. cbn [map]. rewrite of_digits_snoc, IH.
  - pose proof (Z.div_mod n 10 ltac:(lia)). lia.
  - split; [apply Z.div_pos; lia|apply Z.div_lt_upper_bound; lia].
Qed.

Lemma ascii_number_pad w n : 0 <= n < 10 ^ Z.of_nat w -> ascii_number (pad w n) = Some n.
Proof. intros Hn. unfold ascii_number. by rewrite pad_digits, pad_value. Qed.

Lemma unicode_digits_ascii s : forallb is_digit s = true -> forallb is_unicode_digit s = true.
Proof.
  rewrite !forallb_forall. intros H c Hc. specialize (H c Hc). unfold is_unicode_digit, is_digit in *.
  apply existsb_exists. exists 48. split; [by left|]. zbool. lia.
Qed.

(** What the timestamp expression finds in a text of padded fields. *)
Lemma match_padded y m d h n s f :
  match_timestamp (Some 9%nat)
    (pad 4 y ++ 45 :: pad 2 m ++ 45 :: pad 2 d ++ 84 :: pad 2 h ++ 58 :: pad 2 n ++ 58 :: pad 2 s ++ 46 :: pad 6 f ++ [90])
  = Some (TsMatch (pad 4 y) (pad 2 m) (pad 2 d) (pad 2 h) (pad 2 n) (pad 2 s) (Some (pad 6 f))).
Proof.
  pose proof (fun w x => conj (pad_length w x) (unicode_digits_ascii _ (pad_digits w x))) as Hpad.
  destruct (Hpad 4%nat y) as [L1 D1]. destruct (Hpad 2%nat m) as [L2 D2]. destruct (Hpad 2%nat d) as [L3 D3].
  destruct (Hpad 2%nat h) as [L4 D4]. destruct (Hpad 2%nat n) as [L5 D5]. destruct (Hpad 2%nat s) as [L6 D6].
  destruct (Hpad 6%nat f) as [L7 D7].
  generalize dependent (pad 4 y). generalize dependent (pad 2 m). generalize dependent (pad 2 d).
  generalize dependent (pad 2 h). generalize dependent (pad 2 n). generalize dependent (pad 2 s).
  generalize dependent (pad 6 f). clear. intros.
  repeat match goal with
  | l : list Z, H : length ?l' = _ |- _ => constr_eq l l'; destruct l; [discriminate H|]; cbn [length] in H; apply Nat.succ_inj in H
  end.
  repeat match goal with H : length ?l = 0%nat |- _ => destruct l; [|discriminate H]; clear H end.
  cbn [forallb] in *. unfold match_timestamp. unfold match_tail. cbn [app forallb removelast List.last].
  repeat match goal with H : _ && _ = true |- _ => apply andb_true_iff in H as [? H] end.
  repeat match goal with H : is_unicode_digit _ = true |- _ => rewrite H; clear H end. reflexivity.
Qed.

(** The instant of the epoch. *)
Definition epoch_instant : Z := (epoch_ordinal - 1) * us_per_day.

Lemma epoch_millis_utc t m :
  instant_ok t -> match_timestamp (Some 9%nat) (_utc_text t) = Some m ->
  _to_epoch_millis m = Ok ((t - epoch_instant) / 1000).
Proof.
  intros Ht. unfold _utc_text. destruct (ord2ymd (t / us_per_day + 1)) as [[y mo] d] eqn:Eo. cbv zeta.
  destruct (utc_date t y mo d Ht Eo) as (Hy & [Hm Hd] & Ho). pose proof (utc_time t) as Htime. cbv zeta in Htime.
  set (r := t mod us_per_day) in *. set (s := r / us_per_second) in *.
  rewrite match_padded. intros Hm'. apply (inj Some) in Hm' as <-.
  assert (Hdm : days_in_month y mo <= 31) by (unfold days_in_month; repeat case_match; lia).
  destruct Htime as (Hh & Hn & Hs & Hf & Hr).
  unfold _to_epoch_millis, fromisoformat_utc, parse_micro. cbn [ts_year ts_month ts_day ts_hour ts_minute ts_second ts_frac].
  assert (P2 : 10 ^ Z.of_nat 2 = 100) by done. assert (P4 : 10 ^ Z.of_nat 4 = 10000) by done.
  do 6 (rewrite ascii_number_pad by (rewrite ?P2, ?P4; lia); cbn [mbind option_bind]).
  rewrite take_ge by (rewrite pad_length; lia). rewrite pad_length, ascii_number_pad by exact Hf.
  cbn [mbind option_bind]. change (10 ^ (6 - Z.of_nat 6)) with 1. rewrite Z.mul_1_r.
  assert (Hok : date_ok y mo d && time_ok (s / 3600) (s / 60 mod 60) (s mod 60) = true)
    by (unfold date_ok, time_ok; zbool; lia).
  rewrite Hok. cbn [dt_year dt_month dt_day dt_hour dt_minute dt_second dt_micro]. f_equal. rewrite Ho.
  unfold epoch_instant. pose proof (Z.div_mod t us_per_day ltac:(done)) as Hdiv. fold r in Hdiv.
  set (f := r mod us_per_second) in *. set (h := s / 3600) in *. set (n := s / 60 mod 60) in *. set (q := s mod 60) in *.
  set (days := t / us_per_day) in *. clearbody f h n q days. rewrite Hdiv, Hr. unfold us_per_day, us_per_second.
  replace (86400000000 * days + (((h * 60 + n) * 60 + q) * 1000000 + f) - (epoch_ordinal - 1) * 86400000000)
    with (((days + 1 - epoch_ordinal) * 86400000 + (h * 3600 + n * 60 + q) * 1000) * 1000 + f) by lia.
  by rewrite Z.div_add_l by lia.
Qed.

(** For every instant of the calendar, the time in epoch milliseconds that
    [_to_epoch_millis] gives for its UTC text is the number of whole
    milliseconds since 1970, rounded down before the epoch too. *)
Theorem epoch_millis_of_utc_text t :
  instant_ok t -> alert_time (PStr (_utc_text t)) = Ok ((t - epoch_instant) / 1000).
Proof.
  intros Ht. pose proof (epoch_millis_utc t) as He. unfold alert_time. revert He. unfold _utc_text.
  destruct (ord2ymd _) as [[y mo] d]. cbv zeta. rewrite match_padded. intros He. by apply He.
Qed.

Lemma epoch_millis_of_utc_text_witness :
  alert_time (PStr (_utc_text (epoch_instant - 1))) = Ok (-1).
Proof.
  assert (Ht : instant_ok (epoch_instant - 1)) by (split; by vm_compute).
  rewrite (epoch_millis_of_utc_text _ Ht). reflexivity.
Defined.

(** ** Validation *)

(** C36: [validate_alert] returns its argument for exactly the dictionaries of
    [alert_spec]: the required fields are there and no unknown one; the classes,
    levels and statuses are from their closed sets; the time has the form
    [YYYY-MM-DDThh:mm:ss] with at most nine digits of a fraction and [Z], and
    exists; the confidence is a finite number in [0, 1] and the level that of its
    band; the contributions are well formed; and the two ids fit the status of
    the access control system.  This is what the code promises, not all that its
    schema does: a normal or sensor-tamper alert may have any status, and the
    fraction may end in digits that are not ASCII ([normal_matched_accepted] and
    [foreign_fraction_accepted]). *)
Theorem validate_alert_exact v d : validate_alert v = Ok d <-> v = to_dict d /\ alert_spec d.
Proof. apply validate_alert_Ok. Qed.

(** ** The OCSF finding *)

Lemma confidence_bounds v f : confidence_number v f -> is_finite f = true /\ 0 <= fixed f <= 2 ^ unit_exp.
Proof.
  intros [[_ ->]|[[_ ->]|(_ & _ & H0 & H1)]].
  - split; [done|]. split; [done|]. by apply Z.pow_nonneg.
  - split; [done|]. by vm_compute.
  - apply float_zero_one_spec. apply andb_true_iff. by split.
Qed.

(** [round_half_even] against a bound off the halves. *)
Lemma round_above k n d : 0 < d -> (2 * k - 1) * d < 2 * n -> k <= round_half_even n d.
Proof. intros Hd Hn. pose proof (round_half_even_bounds n d Hd). nia. Qed.

Lemma round_below k n d : 0 < d -> 2 * n < (2 * k + 1) * d -> round_half_even n d <= k.
Proof. intros Hd Hn. pose proof (round_half_even_bounds n d Hd). nia. Qed.

(** The product of [hundred] and a confidence, with float bounds around it. *)
Lemma percent_product f :
  is_finite f = true ->
  exists z, float_mul hundred f = round_signed z (fixed hundred * fixed f) (2 ^ (2 * unit_exp)).
Proof. intros Hf. unfold float_mul. destruct f; try done; by eexists. Qed.

Lemma percent_range f :
  is_finite f = true -> 0 <= fixed f <= 2 ^ unit_exp ->
  is_finite (float_mul hundred f) = true /\ 0 <= fixed (float_mul hundred f) <= fixed hundred.
Proof. intros Hf Hb. by apply float_mul_shrinks. Qed.

Lemma unit_square n c : n * 2 ^ unit_exp <= c -> n * 2 ^ (2 * unit_exp) <= c * 2 ^ unit_exp.
Proof.
  intros Hn. change (2 ^ (2 * unit_exp)) with (2 ^ unit_exp * 2 ^ unit_exp). rewrite Z.mul_assoc.
  by apply Z.mul_le_mono_nonneg_r; [apply Z.pow_nonneg|].
Qed.

Lemma percent_above c b f :
  float_bound c -> fixed c * 2 ^ unit_exp <= fixed hundred * b -> 0 < b -> b <= fixed f ->
  is_finite f = true -> fixed f <= 2 ^ unit_exp -> fixed c <= fixed (float_mul hundred f).
Proof.
  intros Hc Hcb Hb Hbf Hf H1. destruct (percent_range f Hf ltac:(lia)) as [Hfin _].
  destruct (percent_product f Hf) as [z E]. rewrite E in Hfin |- *.
  assert (Hh : 0 < fixed hundred) by done.
  assert (Hnum : 0 < fixed hundred * fixed f) by (apply Z.mul_pos_pos; lia).
  assert (Hden : 0 < 2 ^ (2 * unit_exp)) by (by apply Z.pow_pos_nonneg).
  pose proof (round_signed_ge z _ _ c Hnum Hden Hc) as Hge.
  assert (Hle : fixed c * 2 ^ unit_exp <= fixed hundred * fixed f)
    by (etrans; [exact Hcb|apply Z.mul_le_mono_nonneg_l; lia]).
  specialize (Hge (unit_square _ _ Hle)). destruct (round_signed z _ _); try done; by destruct Hge.
Qed.

Lemma percent_below c b f :
  float_bound c -> fixed hundred * b <= fixed c * 2 ^ unit_exp -> 0 <= fixed f <= b ->
  is_finite f = true -> fixed (float_mul hundred f) <= fixed c.
Proof.
  intros Hc Hcb Hb Hf. destruct (percent_product f Hf) as [z E]. rewrite E.
  assert (Hh : 0 < fixed hundred) by done.
  assert (Hnum : 0 <= fixed hundred * fixed f) by (apply Z.mul_nonneg_nonneg; lia).
  assert (Hden : 0 < 2 ^ (2 * unit_exp)) by (by apply Z.pow_pos_nonneg).
  apply (round_signed_le z _ _ c Hnum Hden Hc).
  change (2 ^ (2 * unit_exp)) with (2 ^ unit_exp * 2 ^ unit_exp). rewrite Z.mul_assoc.
  apply Z.mul_le_mono_nonneg_r; [by apply Z.pow_nonneg|].
  etrans; [|exact Hcb]. apply Z.mul_le_mono_nonneg_l; lia.
Qed.

(** The score of a confidence of each level: its band, in percent. *)
Definition level_band (level : pystr) : Z * Z := by_level level (0, 60) (60, 90) (90, 100).

Definition quarter (n : Z) : spec_float := dec_to_float false (25 * n) (-2).

Lemma score_above k c f :
  fixed c <= fixed (float_mul hundred f) -> (2 * k - 1) * 2 ^ unit_exp < 2 * fixed c -> k <= confidence_score f.
Proof. intros Hc Hk. apply round_above; [by apply Z.pow_pos_nonneg|]. lia. Qed.

Lemma score_below k c f :
  fixed (float_mul hundred f) <= fixed c -> 2 * fixed c < (2 * k + 1) * 2 ^ unit_exp -> confidence_score f <= k.
Proof. intros Hc Hk. apply round_below; [by apply Z.pow_pos_nonneg|]. lia. Qed.

Ltac float_const := first [by vm_compute | by (vm_compute; do 2 eexists)].

Lemma float_le_finite x y : is_finite x = true -> is_finite y = true -> float_le x y = (fixed x <=? fixed y).
Proof.
  intros Hx Hy. unfold float_le, float_lt. destruct x, y; try done; by rewrite Z.leb_antisym.
Qed.

Lemma score_band f :
  is_finite f = true -> 0 <= fixed f <= 2 ^ unit_exp ->
  let '(lo, hi) := level_band (confidence_level f) in lo <= confidence_score f <= hi.
Proof.
  intros Hf [H0 H1]. pose proof (percent_range f Hf (conj H0 H1)) as (_ & Hp0 & Hp1).
  assert (Hlo : 0 <= confidence_score f) by (apply round_half_even_ge; [by apply Z.pow_pos_nonneg|done]).
  assert (Hhi : confidence_score f <= 100) by (apply (score_below _ hundred); [assumption|float_const]).
  unfold confidence_level. rewrite !float_le_finite by done.
  destruct (Z.leb_spec (fixed high_bound) (fixed f)) as [Hh|Hh];
    [|destruct (Z.leb_spec (fixed borderline_bound) (fixed f)) as [Hm|Hm]];
    cbn -[confidence_score]; split; try assumption.
  - apply (score_above _ (quarter 359)); [|float_const]. apply (percent_above _ (fixed high_bound)); [float_const..|assumption|assumption|assumption].
  - apply (score_above _ (quarter 239)); [|float_const]. apply (percent_above _ (fixed borderline_bound)); [float_const..|assumption|assumption|assumption].
  - apply (score_below _ (quarter 361)); [|float_const]. apply (percent_below _ (fixed high_bound)); [float_const..|split; [assumption|by apply Z.lt_le_incl]|assumption].
  - apply (score_below _ (quarter 241)); [|float_const]. apply (percent_below _ (fixed borderline_bound)); [float_const..|split; [assumption|by apply Z.lt_le_incl]|assumption].
Qed.

(** ** Fields of a valid alert *)

Definition scalar (v : pyval) : Prop :=
  match v with PInt _ | PFloat _ | PStr _ => True | _ => False end.

Lemma name_scalar names v : name_of names v -> scalar v.
Proof. by intros (s & -> & _). Qed.

Lemma text_scalar v : text_field v -> scalar v.
Proof. by intros (s & -> & _). Qed.

Lemma value_scalar v : finite_value v -> scalar v.
Proof. by intros [(z & f & -> & _)|(f & -> & _)]. Qed.

Lemma time_scalar v : alert_time_value v -> scalar v.
Proof. by intros (s & -> & _). Qed.

Lemma confidence_scalar v f : confidence_number v f -> scalar v.
Proof. by intros [[-> _]|[[-> _]|(-> & _)]]. Qed.

Lemma digest_scalar v : hash_value v -> scalar v.
Proof. by intros (s & -> & _). Qed.

Lemma number_scalar v : (exists z, v = PInt z /\ 0 <= z) -> scalar v.
Proof. by intros (z & -> & _). Qed.

Lemma optional_text_scalar v : optional_text v -> v <> PNone -> scalar v.
Proof. intros [?|?]; [done|]. intros _. by apply text_scalar. Qed.

#[local] Hint Resolve text_scalar value_scalar name_scalar time_scalar confidence_scalar digest_scalar
  number_scalar optional_text_scalar : core.

Lemma field_at (P : pyval -> Prop) k d v : field P k d -> dget k d = Some v -> P v.
Proof. intros (w & E & Hw). by rewrite E; intros [= <-]. Qed.

(** Every field except the contributions is a scalar or [None]. *)
Lemma alert_scalar d k v :
  alert_spec d -> dget k d = Some v -> k <> u "top_shap" -> v <> PNone -> scalar v.
Proof.
  intros [Hreq Hkn Hsch Hsrc Htx Htm Hcl (f & level & Hcf & Hlv & _) Hsh [Hst Hrd Hev _ _ _] Hdg Hnm] E Hk Hv.
  assert (Hin : k ∈ keys d) by (destruct (decide (k ∈ keys d)) as [|Hn%dget_None]; [done|congruence]).
  repeat (apply Forall_cons in Htx as [? Htx]). repeat (apply Forall_cons in Hdg as [? Hdg]).
  repeat (apply Forall_cons in Hnm as [? Hnm]).
  specialize (Hkn k Hin). unfold _REQUIRED_FIELDS, _OPTIONAL_FIELDS in Hkn. rewrite !elem_of_cons, elem_of_nil in Hkn.
  destruct_or! Hkn; subst k; try done;
    match goal with
    | H : dget _ _ = Some (PStr _) |- _ => rewrite E in H; injection H as ->; exact I
    | H : field _ _ _ |- _ => pose proof (field_at _ _ _ _ H E) as Hf; cbn in Hf; eauto
    | H : optional _ _ _ |- _ => specialize (H _ E); eauto
    end.
Qed.

(** ** The Wazuh object *)

Definition first_contribution (d : pydict) : option pyval :=
  match dget (u "top_shap") d with Some (PList (first :: _)) => Some first | _ => None end.

(** The field [k] of the flat object of the alert [d]. *)
Definition wazuh_field (d : pydict) (k : pystr) : option pyval :=
  if bool_decide (k = u "shap_top_feature")
  then Some (match first_contribution d with Some c => contribution c (u "feature") | None => PStr (u "none") end)
  else if bool_decide (k = u "shap_top_value")
  then Some (match first_contribution d with Some c => contribution c (u "value") | None => PFloat float_zero end)
  else if bool_decide (k = u "top_shap") then None
  else match dget k d with Some PNone => None | o => o end.

Lemma dget_present k d :
  NoDup (keys d) ->
  dget k (List.filter (fun kv => negb (is_none kv.2)) d) = match dget k d with Some PNone => None | o => o end.
Proof.
  induction d as [|[k' v'] d IH]; cbn; [done|]. intros [Hni Hnd]%NoDup_cons.
  specialize (IH Hnd). destruct (is_none v') eqn:En; cbn.
  - apply is_none_true in En as ->. rewrite IH. case_bool_decide; subst; [|done].
    by rewrite (proj2 (dget_None k' d) Hni).
  - case_bool_decide; [|done]. by destruct v'.
Qed.

Lemma wazuh_fields_get d k : NoDup (keys d) -> dget k (wazuh_fields d) = wazuh_field d k.
Proof.
  intros Hnd. pose proof (dfilter_nodup (fun key => negb (bool_decide (key = u "top_shap"))) d Hnd) as Hnd'.
  pose proof (dget_present k _ Hnd') as Hp. rewrite dget_dfilter in Hp.
  unfold wazuh_fields, wazuh_field, first_contribution, item.
  destruct (dget (u "top_shap") d) as [v|]; cbn [default from_option id]; [destruct v as [| | | | |[|c l]| |]|];
    rewrite !dget_dset, Hp; repeat (case_bool_decide; subst; try done).
Qed.

Lemma contribution_scalars c :
  shap_contribution c -> scalar (contribution c (u "feature")) /\ scalar (contribution c (u "value")).
Proof.
  intros (e & -> & _ & Hf & Hv & _). unfold contribution, to_dict. cbn. rewrite str_keys_to_dict.
  pose proof (field_present _ _ _ Hf). pose proof (field_present _ _ _ Hv).
  apply item_field in Hf, Hv; [|done..]. auto.
Qed.

(** [to_wazuh] turns every alert of the schema into a flat object: each value
    is a number or a text (no [None], no array, no object), the fields of the
    alert other than [top_shap] are kept with their values unless [None], and
    the first contribution, or [("none", 0.0)], gives the two SHAP fields. *)
Theorem wazuh_flat d :
  alert_spec d -> NoDup (keys d) ->
  exists w, to_wazuh (to_dict d) = Ok w /\
    (forall k, dget k w = wazuh_field d k) /\
    (forall k v, dget k w = Some v -> scalar v).
Proof.
  intros Hs Hnd. exists (wazuh_fields d). unfold to_wazuh.
  rewrite (proj2 (validate_alert_Ok _ _) (conj eq_refl Hs)). split; [done|].
  split; [intros k; by apply wazuh_fields_get|]. intros k v. rewrite wazuh_fields_get by done.
  assert (Hfirst : forall c, first_contribution d = Some c -> shap_contribution c).
  { unfold first_contribution. destruct (as_shap d Hs) as (? & -> & l & -> & Hl).
    destruct l as [|c l]; [done|]. intros ? [= <-]. by apply Forall_cons in Hl as [? _]. }
  unfold wazuh_field. repeat case_bool_decide; [destruct (first_contribution d) as [c|] eqn:Ec..|done|].
  1,3: specialize (Hfirst c eq_refl); apply contribution_scalars in Hfirst as [??]; by intros [= <-].
  1,2: by intros [= <-].
  intros Hv. assert (Hn : dget k d = Some v /\ v <> PNone) by (destruct (dget k d) as [[]|]; naive_solver).
  destruct Hn as [Hn Hv0]. exact (alert_scalar d k v Hs Hn H1 Hv0).
Qed.

(** ** The OCSF finding *)

Definition severity_name (severity_id : Z) : pystr :=
  if severity_id =? 1 then u "Informational" else if severity_id =? 2 then u "Low"
  else if severity_id =? 3 then u "Medium" else if severity_id =? 4 then u "High" else u "Critical".

Lemma by_level_cases {A} (f : spec_float) (a b c : A) :
  by_level (confidence_level f) a b c = a \/ by_level (confidence_level f) a b c = b \/
  by_level (confidence_level f) a b c = c.
Proof. unfold by_level. repeat case_bool_decide; auto. Qed.

Ltac severity_case := split_and!; [lia|lia|done|split; intros; by destruct_and?|split; intros; by destruct_and?].

Lemma severity_facts d f :
  alert_level d = confidence_level f -> alert_class d ∈ _CLASSES ->
  let '(id, name) := _severity d in
  1 <= id <= 5 /\ name = severity_name id /\ (id = 1 <-> alert_class d = u "normal") /\
  (id = 5 <-> alert_class d = u "intrusion" /\ pacs_missing d = true).
Proof.
  intros Hl Hc. unfold _severity. rewrite Hl.
  unfold _CLASSES in Hc. rewrite !elem_of_cons, elem_of_nil in Hc.
  destruct_or! Hc; try done; rewrite Hc.
  - change (bool_decide (u "intrusion" = u "normal")) with false.
    change (bool_decide (u "intrusion" = u "sensor_tamper")) with false. cbv match.
    destruct (pacs_missing d); [by severity_case|].
    destruct (by_level_cases f (2, u "Low") (3, u "Medium") (4, u "High")) as [-> | [-> | ->] ];
      by severity_case.
  - rewrite bool_decide_eq_true_2 by done. by severity_case.
  - change (bool_decide (u "sensor_tamper" = u "normal")) with false.
    rewrite bool_decide_eq_true_2 by done. cbv match. by severity_case.
Qed.

Lemma class_of_alert d : alert_spec d -> dget (u "class") d = Some (PStr (alert_class d)) /\ alert_class d ∈ _CLASSES.
Proof.
  intros Hs. destruct (as_class d Hs) as (v & E & s & -> & Hin). unfold alert_class, str_item. by rewrite E.
Qed.

(** C35: every alert of the schema becomes a finding: its time is that of the
    alert; the severity is informational exactly for the normal class, where
    [is_alert] is false, and critical exactly for an intrusion the access
    control system did not see; the score is a percentage in the band of the
    confidence level; and the whole alert is kept under [unmapped.vestrix]. *)
Theorem ocsf_finding d :
  alert_spec d ->
  exists e id t f, to_ocsf (to_dict d) = Ok e /\ confidence_number (item d (u "confidence")) f /\
    alert_time (item d (u "ts_utc")) = Ok t /\ dget (u "time") e = Some (PInt t) /\
    dget (u "severity_id") e = Some (PInt id) /\ 1 <= id <= 5 /\
    dget (u "severity") e = Some (PStr (severity_name id)) /\
    dget (u "is_alert") e = Some (PBool (negb (id =? 1))) /\
    (id = 1 <-> dget (u "class") d = Some (PStr (u "normal"))) /\
    (id = 5 <-> dget (u "class") d = Some (PStr (u "intrusion")) /\
                dget (u "pacs_event_status") d = Some (PStr (u "missing"))) /\
    dget (u "confidence_score") e = Some (PInt (confidence_score f)) /\
    (let '(lo, hi) := level_band (confidence_level f) in lo <= confidence_score f <= hi) /\
    dget (u "unmapped") e = Some (to_dict [(u "vestrix", to_dict d)]).
Proof.
  intros Hs. destruct (as_confidence d Hs) as (f & level & Hcf & Hlv & ->%confidence_band_level). pose proof (class_of_alert d Hs) as [Hc Hin].
  assert (Hcn : confidence_number (item d (u "confidence")) f)
    by (apply item_field in Hcf; [done|by eapply field_present]).
  pose proof (as_time d Hs) as Ht. apply item_field in Ht; [|by eapply field_present].
  apply alert_time_Ok in Ht as [t Ht].
  assert (Hlevel : alert_level d = confidence_level f) by (unfold alert_level, str_item; by rewrite Hlv).
  pose proof (severity_facts d f Hlevel Hin) as Hsev. destruct (_severity d) as [id name] eqn:Esev.
  destruct Hsev as (Hid & -> & H1 & H5). exists (ocsf_event d), id, t, f.
  unfold to_ocsf. rewrite (proj2 (validate_alert_Ok _ _) (conj eq_refl Hs)). split; [done|].
  destruct (confidence_bounds _ _ Hcn) as [Hfin Hb]. pose proof (score_band f Hfin Hb) as Hband.
  unfold ocsf_event, confidence_of, time_of. rewrite Esev, Ht, (proj2 (alert_confidence_Ok _ _) Hcn).
  assert (Ha : bool_decide (alert_class d = u "normal") = (id =? 1))
    by (apply eq_bool_prop_intro; by rewrite bool_decide_spec, Is_true_true, Z.eqb_eq, H1).
  rewrite Ha, Hc. assert (Hst : forall s s', Some (PStr s) = Some (PStr s') <-> s = s') by naive_solver.
  rewrite !Hst, H1, H5. unfold pacs_missing. rewrite is_str_true. split_and!; try done; lia.
Qed.

(** ** An alert *)

Definition sample_contribution : pydict := Eval vm_compute in
  [ (u "feature", PStr (u "subcarrier_12")); (u "value", PFloat (dec_to_float false 4 (-1))); (u "rank", PInt 1) ].

Definition sample_alert : pydict := Eval vm_compute in
  [ (u "schema_version", PStr (u "1.0")); (u "source", PStr (u "vestrix"));
    (u "event_id", PStr (u "e-1")); (u "ts_utc", PStr (u "2026-07-13T12:00:00.250Z"));
    (u "node_id", PStr (u "node-01")); (u "site_id", PStr (u "site")); (u "zone_id", PStr (u "zone"));
    (u "class", PStr (u "intrusion")); (u "confidence", PFloat (dec_to_float false 93 (-2)));
    (u "confidence_level", PStr (u "high")); (u "model_id", PStr (u "model-v1"));
    (u "top_shap", PList [to_dict sample_contribution]);
    (u "pacs_event_status", PStr (u "missing")); (u "pacs_reader_id", PStr (u "r-1"));
    (u "pacs_event_id", PNone); (u "seq", PInt 7) ].

Lemma sample_alert_valid : validate_alert (to_dict sample_alert) = Ok sample_alert.
Proof. vm_compute. reflexivity. Qed.

Lemma sample_alert_spec : alert_spec sample_alert.
Proof. by apply (proj1 (validate_alert_Ok _ _) sample_alert_valid). Qed.

Lemma sample_alert_keys : NoDup (keys sample_alert).
Proof. vm_compute. apply (bool_decide_unpack _). vm_compute. exact I. Qed.

Lemma wazuh_flat_witness :
  exists w, to_wazuh (to_dict sample_alert) = Ok w /\ dget (u "pacs_event_id") w = None /\
    dget (u "shap_top_feature") w = Some (PStr (u "subcarrier_12")).
Proof.
  destruct (wazuh_flat sample_alert sample_alert_spec sample_alert_keys) as (w & Hw & Hf & _).
  exists w. rewrite !Hf. split; [exact Hw|]. split; vm_compute; reflexivity.
Defined.

Lemma ocsf_finding_witness :
  exists e, to_ocsf (to_dict sample_alert) = Ok e /\ dget (u "severity_id") e = Some (PInt 5).
Proof.
  destruct (ocsf_finding sample_alert sample_alert_spec) as (e & id & t & f & He & _ & _ & _ & Hid & _ & _ & _ & _ & H5 & _).
  exists e. split; [exact He|]. assert (id = 5) as <- by (apply H5; split; vm_compute; reflexivity). exact Hid.
Defined.

(** ** What the schema would refuse *)

(** A normal alert with a badge event: the schema has [not_applicable] there. *)
Example normal_matched_accepted :
  let d := dset (u "class") (PStr (u "normal")) (dset (u "pacs_event_status") (PStr (u "matched"))
    (dset (u "pacs_event_id") (PStr (u "b-1")) sample_alert)) in
  validate_alert (to_dict d) = Ok d.
Proof. vm_compute. reflexivity. Qed.

(** A time whose seventh fraction digit is an Arabic-Indic zero (U+0660). *)
Example foreign_fraction_accepted :
  let d := dset (u "ts_utc") (PStr (u "2026-07-13T12:00:00.250000" ++ [1632] ++ u "Z")) sample_alert in
  validate_alert (to_dict d) = Ok d.
Proof. vm_compute. reflexivity. Qed.
