(* ===== verification/OcsfCommand.v ===== *)
(** [soc-integration/ocsf/mapper.py], [main]: one alert file in, one line of
    JSON out. *)

From S2P Require Import Prelude.
From S2P Require Import PyText.
From S2P Require Import Binary64.
From S2P Require Import FloatOps.
From S2P Require Import PyValue.
From S2P Require Import JsonDumps.
From S2P Require Import JsonLoads.
From S2P Require Import JsonLoadsFacts.
From S2P Require Import JsonAscii.
From S2P Require Import Timestamp.
From S2P Require Import Calendar.
From S2P Require Import RecordFormat.
From S2P Require Import EventSpec.
From S2P Require Import RecordFacts.
From S2P Require Import CanonicalBytes.
From S2P Require Import ChainStore.
From S2P Require Import OcsfMapper.
From S2P Require Import OcsfOutput.
From S2P Require Import OcsfFacts.
From S2P Require Import OcsfTheorems.

(** ** [main] *)

(** What [main] does: it prints, or the parser refuses the format (exit code
    2), or an exception escapes. *)
Inductive mapper_result :=
| Printed (stdout : pystr)
| UsageError
| MapperRaised.

(** The newlines of a file opened as text. *)
Fixpoint universal_newlines (s : pystr) : pystr :=
  match s with
  | [] => []
  | c :: s' =>
      if c =? 13 then 10 :: match s' with 10 :: s'' => universal_newlines s'' | _ => universal_newlines s' end
      else c :: universal_newlines s'
  end.

(** [Path.read_text(encoding="utf-8")]; [None]: the file cannot be read. *)
Definition read_text (content : option bytes) : option pystr :=
  b ← content; s ← utf8_decode false b; Some (universal_newlines s).

Definition format_choices : list pystr := [u "wazuh"; u "ocsf"].

Definition mapper_of (format : pystr) : pyval -> ares pydict :=
  if bool_decide (format = u "wazuh") then to_wazuh else to_ocsf.

Definition mapper_main (format : pystr) (content : option bytes) : mapper_result :=
  if negb (mem format format_choices) then UsageError
  else match read_text content with
       | None => MapperRaised
       | Some text =>
           match loads_str text with
           | Err _ => MapperRaised
           | Ok source =>
               match mapper_of format source with
               | Err _ => MapperRaised
               | Ok output =>
                   match dumps_ascii true (to_dict output) with
                   | Err _ => MapperRaised
                   | Ok line => Printed (line ++ [LF])
                   end
               end
           end
       end.

(** ** What is mapped can be written *)

Lemma universal_newlines_ok s : str_ok s -> str_ok (universal_newlines s).
Proof.
  assert (H : forall n s, (length s <= n)%nat -> str_ok s -> str_ok (universal_newlines s)).
  { induction n as [|n IH]; intros [|c t] Hn Hs; cbn in Hn; try lia; cbn [universal_newlines]; [constructor..|].
    inversion_clear Hs as [|? ? Hc Ht]. destruct (c =? 13); [|constructor; [done|apply IH; [lia|done]]].
    constructor; [done|]. destruct t as [|d t']; [apply IH; [cbn; lia|done]|].
    assert (str_ok (universal_newlines t')) by (inversion_clear Ht; apply IH; [cbn in Hn; lia|done]).
    assert (str_ok (universal_newlines (d :: t'))) by (apply IH; [cbn in *; lia|done]).
    repeat case_match; done. }
  intros Hs. by eapply H.
Qed.

#[local] Notation ok v := (writable str_okb v = true).

Lemma small_int_ok z : - 2 ^ 64 < z < 2 ^ 64 -> ok (PInt z).
Proof. intros Hz%dumps_int_small. cbn. unfold dumps_int in Hz. by destruct (Nat.leb _ _). Qed.

Lemma item_ok_of d k : ok (to_dict d) -> ok (item d k).
Proof.
  intros [_ Hf]%writable_members. unfold item. destruct (dget k d) as [v|] eqn:E; [|done].
  apply dget_Some_elem in E. rewrite Forall_forall in Hf. by apply (Hf (k, v)).
Qed.

Lemma str_item_ok d k : ok (to_dict d) -> str_okb (str_item d k) = true.
Proof.
  intros [_ Hf]%writable_members. unfold str_item. destruct (dget k d) as [v|] eqn:E; [|done].
  apply dget_Some_elem in E. rewrite Forall_forall in Hf. destruct (Hf _ E) as [_ Hv]. by destruct v.
Qed.

(** An object with given distinct keys whose values can be written. *)
Lemma object_ok (d : pydict) :
  bool_decide (NoDup (keys d)) = true -> forallb str_okb (keys d) = true -> Forall (fun kv => ok kv.2) d -> ok (to_dict d).
Proof.
  intros Hnd%bool_decide_eq_true Hk Hv. apply writable_members. split; [done|]. rewrite forallb_forall in Hk.
  rewrite Forall_forall in Hv |- *. intros kv Hkv. split; [|auto]. apply Hk. unfold keys. apply in_map. by apply list_elem_of_In.
Qed.

Ltac object := apply object_ok; [vm_compute; reflexivity|vm_compute; reflexivity|
  repeat (apply Forall_cons; split; [cbn [snd]|]); [..|constructor]].

Lemma month_bound leap m : 1 <= m <= 12 -> 0 <= days_before_month leap m <= 335.
Proof.
  intros Hm. assert (m = 1 \/ m = 2 \/ m = 3 \/ m = 4 \/ m = 5 \/ m = 6 \/ m = 7 \/ m = 8 \/ m = 9 \/ m = 10 \/ m = 11 \/ m = 12)
    as H by lia. destruct_or! H; subst m; destruct leap; vm_compute; split; discriminate.
Qed.

Lemma alert_time_small v t : alert_time v = Ok t -> - 2 ^ 64 < t < 2 ^ 64.
Proof.
  unfold alert_time, _to_epoch_millis. destruct v as [| | | |s| | |]; try done.
  destruct (match_timestamp _ s) as [m|]; [|done]. destruct (fromisoformat_utc m) as [p|] eqn:Ep; [|done]. intros [= <-].
  unfold fromisoformat_utc in Ep.
  apply bind_Some in Ep as (y & _ & Ep). apply bind_Some in Ep as (mo & _ & Ep). apply bind_Some in Ep as (d & _ & Ep).
  apply bind_Some in Ep as (h & _ & Ep). apply bind_Some in Ep as (mi & _ & Ep). apply bind_Some in Ep as (s' & _ & Ep).
  apply bind_Some in Ep as (us & Hus & Ep). destruct (date_ok y mo d && time_ok h mi s') eqn:Ed; [|done]. injection Ep as <-.
  cbn [dt_year dt_month dt_day dt_hour dt_minute dt_second dt_micro]. unfold date_ok, time_ok in Ed. zbool.
  assert (Hd : days_in_month y mo <= 31) by (unfold days_in_month; repeat case_match; lia).
  pose proof (month_bound (is_leap y) mo ltac:(lia)) as Hmo.
  assert (Hmicro : 0 <= us < 10 ^ 6).
  { unfold parse_micro in Hus. destruct (ts_frac m) as [ds|]; [|injection Hus as <-; done].
    apply bind_Some in Hus as (v & Hv & [= <-]). unfold ascii_number in Hv. destruct (forallb is_digit (take 6 ds)) eqn:Eg; [|done].
    injection Hv as <-. assert (Hg : Forall is_dig (map (fun c => c - 48) (take 6 ds))).
    { apply Forall_map, Forall_forall. intros c Hc%list_elem_of_In. rewrite forallb_forall in Eg. specialize (Eg c Hc).
      unfold is_digit, is_dig in *. cbn. zbool. lia. }
    pose proof (of_digits_nonneg _ Hg) as H0. pose proof (of_digits_bound _ Hg) as H1. rewrite length_map in H1.
    unfold dec_value. set (v := of_digits _) in *. set (k := length (take 6 ds)) in *.
    assert (Hk : (k <= 6)%nat) by (unfold k; rewrite length_take; lia).
    assert (Hp : 10 ^ 6 = 10 ^ Z.of_nat k * 10 ^ (6 - Z.of_nat k)) by (rewrite <- Z.pow_add_r by lia; f_equal; lia).
    assert (0 < 10 ^ (6 - Z.of_nat k)) by (apply Z.pow_pos_nonneg; lia). rewrite Hp. nia. }
  unfold ymd2ord, epoch_ordinal, days_before_year in *. set (b := days_before_month (is_leap y) mo) in *. clearbody b.
  change (ymd2ord 1970 1 1) with 719163. change (10 ^ 6) with 1000000 in Hmicro. change (2 ^ 64) with 18446744073709551616.
  Z.to_euclidean_division_equations. lia.
Qed.

(** A [str] in one of a few texts that can be written. *)
Lemma by_level_ok l a b c : str_okb a = true -> str_okb b = true -> str_okb c = true -> str_okb (by_level l a b c) = true.
Proof. unfold by_level. by repeat case_bool_decide. Qed.

Lemma title_ok d : ok (to_dict d) -> str_okb (_title d) = true.
Proof.
  intros Hd. pose proof (str_item_ok d (u "site_id") Hd) as H1. pose proof (str_item_ok d (u "zone_id") Hd) as H2.
  unfold _title. repeat (case_match); unfold str_okb in *; rewrite ?forallb_app, H1, H2; reflexivity.
Qed.

Lemma severity_ok d : 1 <= (_severity d).1 <= 5 /\ str_okb (_severity d).2 = true.
Proof. unfold _severity, by_level. repeat case_match; split; cbn; done || lia. Qed.

Lemma ocsf_ok d : alert_spec d -> ok (to_dict d) -> ok (to_dict (ocsf_event d)).
Proof.
  intros Hs Hd. pose proof (severity_ok d) as [Hsev Hsn]. pose proof (title_ok d Hd) as Ht.
  pose proof (fun k => item_ok_of d k Hd) as Hitem. pose proof (fun k => str_item_ok d k Hd) as Hstr.
  assert (Htime : ok (PInt (time_of d))).
  { unfold time_of. destruct (alert_time _) as [t|] eqn:E; [|done]. by apply small_int_ok, (alert_time_small _ _ E). }
  assert (Hscore : ok (PInt (confidence_score (confidence_of d)))).
  { destruct (as_confidence d Hs) as (f & level & Hcf & _).
    assert (Hcn : confidence_number (item d (u "confidence")) f) by (apply item_field in Hcf; [done|by eapply field_present]).
    unfold confidence_of. rewrite (proj2 (alert_confidence_Ok _ _) Hcn).
    destruct (confidence_bounds _ _ Hcn) as [Hfin Hb]. pose proof (score_band f Hfin Hb) as Hband.
    apply small_int_ok. destruct (level_band _) as [lo hi] eqn:E. unfold level_band, by_level in E. repeat case_bool_decide; simplify_eq; lia. }
  unfold ocsf_event. destruct (_severity d) as [id name]. cbn [fst snd] in Hsev, Hsn. object; try done.
  - apply small_int_ok. lia.
  - unfold by_level. by repeat case_bool_decide.
  - apply by_level_ok; done.
  - object; try apply Hitem; try done.
  - object; try apply Hitem; try done.
    + unfold writable, str_okb in *. rewrite !forallb_app. cbn [forallb].
      rewrite (Hstr (u "site_id")), (Hstr (u "zone_id")). unfold alert_class. rewrite (Hstr (u "class")). reflexivity.
    + object; try apply Hitem; done.
  - object; try apply Hitem; done.
  - object. exact Hd.
Qed.

Lemma wazuh_ok d : ok (to_dict d) -> ok (to_dict (wazuh_fields d)).
Proof.
  intros Hd. pose proof Hd as [Hnd Hf]%writable_members.
  assert (Hdset : forall k v (e : pydict), str_okb k = true -> ok v -> NoDup (keys e) /\ Forall (fun kv => str_okb kv.1 = true /\ ok kv.2) e ->
    NoDup (keys (dset k v e)) /\ Forall (fun kv => str_okb kv.1 = true /\ ok kv.2) (dset k v e)).
  { intros k v e Hk Hv He. by apply dset_acc_ok. }
  assert (Hc : forall c k, ok c -> ok (contribution c k)).
  { intros c k Hc. unfold contribution. destruct c as [| | | | | |e|]; try done. destruct (str_keys e) as [se|] eqn:E; [|done].
    apply str_keys_Some in E as ->. by apply item_ok_of. }
  set (flat := List.filter (fun kv => negb (is_none kv.2)) (dfilter (fun key => negb (bool_decide (key = u "top_shap"))) d)).
  assert (Hflat : NoDup (keys flat) /\ Forall (fun kv => str_okb kv.1 = true /\ ok kv.2) flat).
  { assert (Hsub : forall (p : pystr * pyval -> bool) (e : pydict), NoDup (keys e) /\ Forall (fun kv => str_okb kv.1 = true /\ ok kv.2) e ->
      NoDup (keys (List.filter p e)) /\ Forall (fun kv => str_okb kv.1 = true /\ ok kv.2) (List.filter p e)).
    { intros p e [H1 H2]. split; [by apply filter_nodup|].
      rewrite Forall_forall in H2 |- *. intros kv [Hin _]%elem_of_lfilter. auto. }
    apply Hsub. unfold dfilter. by apply Hsub. }
  apply writable_members. unfold wazuh_fields. fold flat. pose proof (item_ok_of d (u "top_shap") Hd) as Hs.
  destruct (item d (u "top_shap")) as [| | | | |[|c l]| |]; repeat apply Hdset; try done; apply Hc;
    cbn in Hs; by apply andb_true_iff in Hs as [? _].
Qed.

Lemma mapper_ok format source output :
  ok source -> mapper_of format source = Ok output -> ok (to_dict output).
Proof.
  intros Hs. unfold mapper_of, to_wazuh, to_ocsf. case_bool_decide; intros (d & Hd & [= <-])%bind_Ok;
    apply validate_alert_Ok in Hd as [-> Ha]; [by apply wazuh_ok|by apply ocsf_ok].
Qed.

(** What the option [format] asks of a source: the result of [to_wazuh] or of
    [to_ocsf]. *)
Definition maps_to (format : pystr) (source : pyval) (r : ares pydict) : Prop :=
  (format = u "wazuh" /\ to_wazuh source = r) \/ (format = u "ocsf" /\ to_ocsf source = r).

Lemma mapper_of_chosen format source : mem format format_choices = true -> maps_to format source (mapper_of format source).
Proof.
  intros [->|[->|[]%not_elem_of_nil]%elem_of_cons]%bool_decide_eq_true%elem_of_cons; [by left|by right].
Qed.

Lemma format_refused format : mem format format_choices = false <-> format <> u "wazuh" /\ format <> u "ocsf".
Proof. unfold mem, format_choices. rewrite bool_decide_eq_false, !not_elem_of_cons. pose proof (not_elem_of_nil format). tauto. Qed.

(** The command line of the mapper.  For every file of octets and every
    format: it prints exactly for a format it offers and a file that reads as
    UTF-8, loads as JSON and is an alert the mapper accepts, so writing the output
    never fails; what it prints is one line of graphic ASCII, which reads back
    as the mapped object, unless a text of it holds an unpaired surrogate. *)
Theorem mapper_main_exact format content :
  (forall b, content = Some b -> bytes_ok b) ->
  match mapper_main format content with
  | Printed stdout =>
      exists text source output line, read_text content = Some text /\
        loads_str text = Ok source /\ maps_to format source (Ok output) /\ stdout = line ++ [LF] /\
        Forall graphic line /\
        (writable scalar_text (to_dict output) = true -> loads_str line = Ok (to_dict (norm_pydict output)))
  | UsageError => format <> u "wazuh" /\ format <> u "ocsf"
  | MapperRaised =>
      (format = u "wazuh" \/ format = u "ocsf") /\
      (read_text content = None \/ exists text, read_text content = Some text /\
         ((exists e, loads_str text = Err e) \/ exists source e, loads_str text = Ok source /\ maps_to format source (Err e)))
  end.
Proof.
  intros Hb. unfold mapper_main. destruct (mem format format_choices) eqn:Ef; cbn [negb]; [|by apply format_refused].
  pose proof (fun source => mapper_of_chosen format source Ef) as Hm.
  assert (Hf : format = u "wazuh" \/ format = u "ocsf") by (destruct (Hm PNone); tauto).
  destruct (read_text content) as [text|] eqn:Et; [|by split; [|left]].
  assert (Htext : str_ok text).
  { unfold read_text in Et. apply bind_Some in Et as (b & -> & (s & Hs & [= <-])%bind_Some).
    apply universal_newlines_ok. eapply utf8_decode_ok; [by apply Hb|exact Hs]. }
  destruct (loads_str text) as [source|e] eqn:El; [|split; [done|right; exists text; split; [done|left; by exists e]]].
  specialize (Hm source). destruct (mapper_of format source) as [output|e] eqn:Em; [|split; [done|right; exists text; split; [done|right; by exists source, e]]].
  pose proof (mapper_ok format source output (loads_str_writable _ _ Htext El) Em) as Hw.
  destruct (dumps_ascii_loads _ Hw) as (line & Hd & Hg & Hl). rewrite Hd.
  exists text, source, output, line. split_and!; try done. intros Hlo. by rewrite (Hl Hlo), norm_to_dict.
Qed.

(** The sample alert, as a file. *)
Definition sample_alert_file : bytes := Eval vm_compute in
  match dumps_ascii true (to_dict sample_alert) with Ok t => t ++ [LF] | Err _ => [] end.

Lemma mapper_main_exact_witness :
  exists line, mapper_main (u "wazuh") (Some sample_alert_file) = Printed (line ++ [LF]) /\ LF ∉ line.
Proof.
  pose proof (mapper_main_exact (u "wazuh") (Some sample_alert_file)) as H.
  assert (Hb : forall b, Some sample_alert_file = Some b -> bytes_ok b).
  { intros b [= <-]. apply Forall_forall. intros c Hc%list_elem_of_In.
    assert (Ha : forallb is_byte sample_alert_file = true) by (vm_compute; reflexivity). rewrite forallb_forall in Ha. auto. }
  specialize (H Hb). assert (Hp : exists out, mapper_main (u "wazuh") (Some sample_alert_file) = Printed out)
    by (eexists; vm_compute; reflexivity).
  destruct Hp as [out Hp]. rewrite Hp in H. destruct H as (text & source & output & line & _ & _ & _ & -> & Hg & _).
  exists line. split; [exact Hp|]. exact (graphic_line _ Hg).
Defined.
