(* ===== verification/CollectorConfig.v ===== *)
(** [collector/vestrix_collector/config.py]: the configuration of the collector,
    from the value the YAML library gives for the file. *)

From S2P Require Import Prelude.
From S2P Require Import PyText.
From S2P Require Import Binary64.
From S2P Require Import FloatOps.
From S2P Require Import PyValue.
From S2P Require Import RecordFormat.

(** ** Data *)

Inductive config_error :=
| NotLoaded
| NotMapping (name : pystr)
| UnknownKeys (name : pystr) (fields : list pystr)
| MissingKeys (name : pystr) (fields : list pystr)
| BadHost
| BadPort
| BadPath (name : pystr)
| NotPositiveNumber (name : pystr)
| NotPositiveInteger (name : pystr).

(** What escapes [ConfigError]: the decoding of the file (a [UnicodeDecodeError]),
    the resolution of a path, and [float] of an integer that is too large. *)
Inductive config_exn :=
| ConfigError (e : config_error)
| ConfigDecodeError
| ConfigPathError
| ConfigOverflow.

Notation cres := (res config_exn).
Definition config_require (b : bool) (e : config_error) : cres unit := ensure b (ConfigError e).

(** [yaml.safe_load(config_path.read_text(encoding="utf-8"))]: the value, an
    [OSError] or [YAMLError], or a [UnicodeDecodeError]. *)
Inductive yaml_load :=
| YamlValue (v : pyval)
| YamlFailed
| YamlUndecodable.

Record TLSConfig := { ca_cert : pystr; crl_path : pystr; server_cert : pystr; server_key : pystr }.

Record ServerConfig := {
  host : pystr;
  port : Z;
  handshake_timeout_seconds : spec_float;
  read_timeout_seconds : spec_float;
  max_payload_bytes : Z
}.

Record CollectorConfig := { tls : TLSConfig; allowlist_path : pystr; server_config : ServerConfig }.

(** ** Field checks *)

Definition _mapping (value : pyval) (name : pystr) : cres pydict :=
  match value with
  | PDict d => match str_keys d with Some d => Ok d | None => Err (ConfigError (NotMapping name)) end
  | _ => Err (ConfigError (NotMapping name))
  end.

(** The two checks of a set of keys: [required] and [optional] names. *)
Definition check_keys (data : pydict) (required optional : list pystr) (name : pystr) : cres unit :=
  let unknown := set_diff (set_diff (keys data) required) optional in
  let missing := set_diff required (keys data) in
  _ ← config_require (bool_decide (unknown = [])) (UnknownKeys name (sorted_names unknown));
  config_require (bool_decide (missing = [])) (MissingKeys name (sorted_names missing)).

Definition _exact_keys (data : pydict) (expected : list pystr) (name : pystr) : cres unit :=
  check_keys data expected [] name.

(** [path.is_absolute()] of a POSIX path. *)
Definition is_absolute (s : pystr) : bool := match s with c :: _ => c =? 47 | [] => false end.

Definition positive_int (v : pyval) : option Z :=
  match v with PInt z => if 0 <? z then Some z else None | _ => None end.

(** [value <= 0] is false of a NaN, and [float] raises on a huge integer. *)
Definition _positive_float (value : pyval) (name : pystr) : cres spec_float :=
  match value with
  | PInt z =>
      _ ← config_require (0 <? z) (NotPositiveNumber name);
      match float_of_int z with Some f => Ok f | None => Err ConfigOverflow end
  | PFloat f => _ ← config_require (negb (float_le f float_zero)) (NotPositiveNumber name); Ok f
  | _ => Err (ConfigError (NotPositiveNumber name))
  end.

Definition _positive_int (value : pyval) (name : pystr) : cres Z :=
  match positive_int value with Some z => Ok z | None => Err (ConfigError (NotPositiveInteger name)) end.

Definition is_port (v : pyval) : bool := match v with PInt z => (1 <=? z) && (z <=? 65535) | _ => false end.

(** ** Loading *)

Definition root_keys : list pystr := [u "tls"; u "allowlist_path"; u "server"].
Definition tls_keys : list pystr := [u "ca_cert"; u "crl_path"; u "server_cert"; u "server_key"].
Definition required_server_keys : list pystr := [u "host"; u "port"].
Definition optional_server_keys : list pystr :=
  [u "handshake_timeout_seconds"; u "read_timeout_seconds"; u "max_payload_bytes"].

(** [10.0] *)
Definition default_timeout : spec_float := Eval vm_compute in dec_to_float false 10 0.

Section load.

(** [(base_dir / path).resolve()]: the file system decides, and may raise.  An
    absolute text stands for its path; [pathlib] would also drop repeated slashes
    and single dots in it. *)
Context (resolve : pystr -> option pystr).

Definition _resolve_path (value : pyval) (name : pystr) : cres pystr :=
  match value with
  | PStr s =>
      _ ← config_require (has_text s) (BadPath name);
      if is_absolute s then Ok s
      else match resolve s with Some p => Ok p | None => Err ConfigPathError end
  | _ => Err (ConfigError (BadPath name))
  end.

Definition load_server (server : pydict) : cres ServerConfig :=
  handshake ← _positive_float (default (PFloat default_timeout) (dget (u "handshake_timeout_seconds") server))
                (u "server.handshake_timeout_seconds");
  read ← _positive_float (default (PFloat default_timeout) (dget (u "read_timeout_seconds") server))
           (u "server.read_timeout_seconds");
  max ← _positive_int (default (PInt 65536) (dget (u "max_payload_bytes") server)) (u "server.max_payload_bytes");
  Ok {| host := match item server (u "host") with PStr s => s | _ => [] end;
        port := match item server (u "port") with PInt z => z | _ => 0 end;
        handshake_timeout_seconds := handshake; read_timeout_seconds := read; max_payload_bytes := max |}.

Definition load_tls (tls : pydict) : cres TLSConfig :=
  ca ← _resolve_path (item tls (u "ca_cert")) (u "tls.ca_cert");
  crl ← _resolve_path (item tls (u "crl_path")) (u "tls.crl_path");
  cert ← _resolve_path (item tls (u "server_cert")) (u "tls.server_cert");
  key ← _resolve_path (item tls (u "server_key")) (u "tls.server_key");
  Ok {| ca_cert := ca; crl_path := crl; server_cert := cert; server_key := key |}.

Definition load_raw (raw : pyval) : cres CollectorConfig :=
  root ← _mapping raw (u "config");
  _ ← _exact_keys root root_keys (u "config");
  tls ← _mapping (item root (u "tls")) (u "tls");
  _ ← _exact_keys tls tls_keys (u "tls");
  server ← _mapping (item root (u "server")) (u "server");
  _ ← check_keys server required_server_keys optional_server_keys (u "server");
  _ ← config_require (match item server (u "host") with PStr s => has_text s | _ => false end) BadHost;
  _ ← config_require (is_port (item server (u "port"))) BadPort;
  tls ← load_tls tls;
  allowlist ← _resolve_path (item root (u "allowlist_path")) (u "allowlist_path");
  server ← load_server server;
  Ok {| tls := tls; allowlist_path := allowlist; server_config := server |}.

Definition load_config (raw : yaml_load) : cres CollectorConfig :=
  match raw with
  | YamlValue v => load_raw v
  | YamlFailed => Err (ConfigError NotLoaded)
  | YamlUndecodable => Err ConfigDecodeError
  end.

End load.
