(* ===== verification/ConfigTheorems.v ===== *)
(** The configurations [load_config] returns. *)

From S2P Require Import Prelude.
From S2P Require Import PyText.
From S2P Require Import Binary64.
From S2P Require Import FloatOps.
From S2P Require Import PyValue.
From S2P Require Import RecordFormat.
From S2P Require Import EventSpec.
From S2P Require Import RecordFacts.
From S2P Require Import CollectorConfig.

(** ** The specification *)

(** The keys of [d] are the required ones, with some of the optional ones. *)
Definition keys_within (required opt : list pystr) (d : pydict) : Prop :=
  (forall k, k ∈ required -> k ∈ keys d) /\ (forall k, k ∈ keys d -> k ∈ required \/ k ∈ opt).

Definition timeout_value (v : pyval) (f : spec_float) : Prop :=
  (exists z, v = PInt z /\ 0 < z /\ float_of_int z = Some f) \/ (v = PFloat f /\ float_le f float_zero = false).

Section spec.
Context (resolve : pystr -> option pystr).

(** The field [k] is a path text: [p] is the text when absolute, else what the
    file system resolves it to. *)
Definition path_value (k : pystr) (d : pydict) (p : pystr) : Prop :=
  field (fun v => exists s, v = PStr s /\ has_text s = true /\
                            (if is_absolute s then p = s else resolve s = Some p)) k d.

Record tls_spec (d : pydict) (c : TLSConfig) : Prop := TlsSpec {
  ts_keys : keys_within tls_keys [] d;
  ts_ca : path_value (u "ca_cert") d (ca_cert c);
  ts_crl : path_value (u "crl_path") d (crl_path c);
  ts_cert : path_value (u "server_cert") d (server_cert c);
  ts_key : path_value (u "server_key") d (server_key c)
}.

Record server_spec (d : pydict) (c : ServerConfig) : Prop := ServerSpec {
  ss_keys : keys_within required_server_keys optional_server_keys d;
  ss_host : dget (u "host") d = Some (PStr (host c)) /\ has_text (host c) = true;
  ss_port : dget (u "port") d = Some (PInt (port c)) /\ 1 <= port c <= 65535;
  ss_handshake : timeout_value (default (PFloat default_timeout) (dget (u "handshake_timeout_seconds") d))
                   (handshake_timeout_seconds c);
  ss_read : timeout_value (default (PFloat default_timeout) (dget (u "read_timeout_seconds") d))
              (read_timeout_seconds c);
  ss_max : default (PInt 65536) (dget (u "max_payload_bytes") d) = PInt (max_payload_bytes c) /\ 0 < max_payload_bytes c
}.

Record config_spec (d : pydict) (c : CollectorConfig) : Prop := ConfigSpec {
  cs_keys : keys_within root_keys [] d;
  cs_tls : exists t, dget (u "tls") d = Some (to_dict t) /\ tls_spec t (tls c);
  cs_allowlist : path_value (u "allowlist_path") d (allowlist_path c);
  cs_server : exists s, dget (u "server") d = Some (to_dict s) /\ server_spec s (server_config c)
}.

(** ** The checks *)

Lemma config_require_Ok b e x : config_require b e = Ok x <-> b = true.
Proof. apply ensure_Ok. Qed.

Lemma mapping_Ok v name d : _mapping v name = Ok d <-> v = to_dict d.
Proof.
  unfold _mapping. split.
  - destruct v as [| | | | | |l|]; try done. destruct (str_keys l) as [e|] eqn:E; [|done].
    intros [= ->]. by apply str_keys_Some in E as ->.
  - intros ->. cbn. by rewrite str_keys_to_dict.
Qed.

Lemma check_keys_Ok d required opt name : check_keys d required opt name = Ok tt <-> keys_within required opt d.
Proof.
  unfold check_keys, keys_within. rewrite then_Ok, !config_require_Ok, !bool_decide_eq_true, !set_diff_nil.
  unfold set_diff. split.
  - intros [Hu Hm]. split; [done|]. intros k Hk. destruct (mem k required) eqn:E; [left; by apply mem_spec|right].
    apply Hu, elem_of_lfilter. by rewrite E.
  - intros [Hm Hu]. split; [|done]. intros k [Hk Hn]%elem_of_lfilter. apply negb_true_iff, mem_false in Hn.
    by destruct (Hu k Hk).
Qed.

Lemma resolve_path_Ok v name p :
  _resolve_path resolve v name = Ok p <->
  exists s, v = PStr s /\ has_text s = true /\ (if is_absolute s then p = s else resolve s = Some p).
Proof.
  unfold _resolve_path. destruct v as [| | | |s| | |]; try (split; [done|by intros (? & [=] & _)]).
  rewrite then_Ok, config_require_Ok. split.
  - intros [Ht H]. exists s. split_and!; try done. destruct (is_absolute s); [congruence|].
    destruct (resolve s); congruence.
  - intros (? & [= <-] & Ht & H). split; [done|]. destruct (is_absolute s); [congruence|by rewrite H].
Qed.

Lemma positive_float_Ok v name f : _positive_float v name = Ok f <-> timeout_value v f.
Proof.
  unfold _positive_float, timeout_value. destruct v as [| |z|g| | | |]; try (split; [done|naive_solver]);
    rewrite then_Ok, config_require_Ok.
  - rewrite Z.ltb_lt. destruct (float_of_int z) as [g|] eqn:E; split; try naive_solver.
  - rewrite negb_true_iff. split; [naive_solver|]. intros [(? & [=] & _)|[[= ->] H]]. done.
Qed.

Lemma positive_int_Ok v name z : _positive_int v name = Ok z <-> v = PInt z /\ 0 < z.
Proof.
  unfold _positive_int, positive_int. destruct v as [| |z'| | | | |]; try (split; [done|naive_solver]).
  destruct (Z.ltb_spec 0 z'); split; try done; [naive_solver| |]; intros [[= ->] ?]; [done|lia].
Qed.

Lemma path_item k d p name :
  k ∈ keys d -> _resolve_path resolve (item d k) name = Ok p <-> path_value k d p.
Proof. intros Hk. unfold path_value. by rewrite resolve_path_Ok, item_field. Qed.

Lemma load_tls_Ok d c : keys_within tls_keys [] d -> load_tls resolve d = Ok c <-> tls_spec d c.
Proof.
  intros Hk. destruct Hk as [Hreq Hkn]. unfold load_tls. repeat setoid_rewrite bind_Ok.
  setoid_rewrite path_item; [|apply Hreq; in_fields..]. split.
  - intros (ca & H1 & crl & H2 & ce & H3 & ke & H4 & [= <-]). by constructor.
  - destruct c. intros [_ H1 H2 H3 H4]. eauto 10.
Qed.

Lemma dget_item k d v : k ∈ keys d -> item d k = v <-> dget k d = Some v.
Proof.
  intros Hk. unfold item. destruct (dget k d) as [w|] eqn:E; [|by apply dget_None in E]. cbn. naive_solver.
Qed.

Lemma load_server_Ok d c :
  keys_within required_server_keys optional_server_keys d ->
  match item d (u "host") with PStr s => has_text s | _ => false end = true -> is_port (item d (u "port")) = true ->
  load_server d = Ok c <-> server_spec d c.
Proof.
  intros Hk Hh Hp. destruct Hk as [Hreq Hkn]. unfold load_server.
  assert (Hhk : u "host" ∈ keys d) by (apply Hreq; in_fields).
  assert (Hpk : u "port" ∈ keys d) by (apply Hreq; in_fields).
  destruct (item d (u "host")) as [| | | |h| | |] eqn:Eh; try done.
  destruct (item d (u "port")) as [| |n| | | | |] eqn:Ep; try done.
  apply dget_item in Eh, Ep; [|done..]. repeat setoid_rewrite bind_Ok. setoid_rewrite positive_float_Ok.
  setoid_rewrite positive_int_Ok. cbn in Hp. zbool. split.
  - intros (hs & H1 & rd & H2 & mx & H3 & [= <-]). by constructor.
  - destruct c as [h' n' hs rd mx]. intros [_ [H1 _] [H2 _] H3 H4 H5]. cbn in *.
    rewrite Eh in H1. rewrite Ep in H2. injection H1 as ->. injection H2 as ->. eauto 10.
Qed.

Lemma load_raw_Ok v c : load_raw resolve v = Ok c <-> exists d, v = to_dict d /\ config_spec d c.
Proof.
  unfold load_raw. rewrite bind_Ok. setoid_rewrite mapping_Ok. f_equiv. intros d.
  split; intros [Hv H]; (split; [exact Hv|]); clear Hv.
  - apply then_Ok in H as [Hk H]. apply check_keys_Ok in Hk. pose proof Hk as [Hreq _].
    apply bind_Ok in H as (t & Ht & H). apply mapping_Ok, dget_item in Ht; [|apply Hreq; in_fields].
    apply then_Ok in H as [Htk H]. apply check_keys_Ok in Htk.
    apply bind_Ok in H as (s & Hs & H). apply mapping_Ok, dget_item in Hs; [|apply Hreq; in_fields].
    rewrite !then_Ok, !config_require_Ok in H. destruct H as (Hsk & Hh & Hp & H). apply check_keys_Ok in Hsk.
    apply bind_Ok in H as (tc & H1 & H). apply load_tls_Ok in H1; [|done].
    apply bind_Ok in H as (al & H2 & H). apply path_item in H2; [|apply Hreq; in_fields].
    apply bind_Ok in H as (sc & H3 & [= <-]). apply load_server_Ok in H3; [|done..]. by constructor; eauto.
  - destruct H as [Hk (t & Ht & Hts) Hal (s & Hs & Hss)]. pose proof Hk as [Hreq _].
    rewrite then_Ok. split; [by apply check_keys_Ok|].
    apply dget_item in Ht, Hs; [|apply Hreq; in_fields..].
    rewrite Ht, (proj2 (mapping_Ok (to_dict t) _ t) eq_refl), Ok_bind, then_Ok. split; [by apply check_keys_Ok, Hts|].
    rewrite Hs, (proj2 (mapping_Ok (to_dict s) _ s) eq_refl), Ok_bind, !then_Ok, !config_require_Ok.
    pose proof (ss_keys _ _ Hss) as Hsk. destruct (ss_host _ _ Hss) as [Hh Hht]. destruct (ss_port _ _ Hss) as [Hp Hpr].
    apply dget_item in Hh, Hp; [|apply Hsk; in_fields..].
    assert (Hhb : match item s (u "host") with PStr x => has_text x | _ => false end = true) by (by rewrite Hh).
    assert (Hpb : is_port (item s (u "port")) = true) by (rewrite Hp; cbn; zbool; lia).
    split; [by apply check_keys_Ok|]. split; [done|]. split; [done|].
    rewrite (proj2 (load_tls_Ok t (tls c) (ts_keys _ _ Hts)) Hts), Ok_bind.
    assert (Hak : u "allowlist_path" ∈ keys d) by (apply Hreq; in_fields).
    rewrite (proj2 (path_item _ d (allowlist_path c) (u "allowlist_path") Hak) Hal), Ok_bind.
    rewrite (proj2 (load_server_Ok s (server_config c) Hsk Hhb Hpb) Hss), Ok_bind. by destruct c.
Qed.

End spec.

(** C38: [load_config] returns a configuration for exactly the files whose YAML
    value fits it: the keys of each mapping are the known ones, the port is in
    1..65535, the payload limit is positive, no timeout is at most zero (a
    missing one is 10 seconds, a missing limit 65536), and each path is the
    text of the file when absolute and else what the file system makes of it. *)
Theorem load_config_exact (resolve : pystr -> option pystr) raw c :
  load_config resolve raw = Ok c <-> exists d, raw = YamlValue (to_dict d) /\ config_spec resolve d c.
Proof.
  unfold load_config. destruct raw as [v| |]; [|split; [done|by intros (? & [=] & _)]..].
  rewrite load_raw_Ok. split; [|naive_solver]. intros (d & -> & H). by exists d.
Qed.

(** A configuration file, and one whose port is out of range. *)
Definition sample_config (n : Z) : pyval := to_dict
  [ (u "tls", to_dict [ (u "ca_cert", PStr (u "/pki/ca.pem")); (u "crl_path", PStr (u "crl.pem"));
                        (u "server_cert", PStr (u "server.pem")); (u "server_key", PStr (u "server.key")) ]);
    (u "allowlist_path", PStr (u "nodes.yaml"));
    (u "server", to_dict [ (u "host", PStr (u "0.0.0.0")); (u "port", PInt n);
                           (u "read_timeout_seconds", PInt 5) ]) ].

Definition sample_resolve (s : pystr) : option pystr := Some (u "/etc/collector/" ++ s).

Example sample_config_loads :
  match load_config sample_resolve (YamlValue (sample_config 8443)) with
  | Ok c => (ca_cert (tls c), crl_path (tls c), port (server_config c), max_payload_bytes (server_config c))
            = (u "/pki/ca.pem", u "/etc/collector/crl.pem", 8443, 65536)
  | Err _ => False
  end.
Proof. vm_compute. reflexivity. Qed.

Example sample_config_refused :
  load_config sample_resolve (YamlValue (sample_config 65536)) = Err (ConfigError BadPort).
Proof. vm_compute. reflexivity. Qed.

(** A timeout that is no number passes [_positive_float]. *)
Example nan_timeout_accepted name : _positive_float (PFloat S754_nan) name = Ok S754_nan.
Proof. reflexivity. Qed.
