(* ===== verification/CollectorMain.v ===== *)
(** [collector/vestrix_collector/__main__.py]: the process around the server.

    [_run] runs on one event loop: the signal handler, the resumptions of the
    reload task and the shutdown are steps of it, between which the threads of
    the handlers and of the load go on.  The files of the security state change
    at any time: [disk] gives what each version of them holds. *)

From stdpp Require Import relations.
From S2P Require Import Prelude.
From S2P Require Import PyText.
From S2P Require Import PyValue.
From S2P Require Import ChainStore.
From S2P Require Import CollectorTls.
From S2P Require Import CollectorServer.
From S2P Require Import CollectorSteps.
From S2P Require Import CollectorLog.
From S2P Require Import CollectorConfig.

(** The task of [reload_security_state]: created; with the allow-list read, and
    of which version; with the TLS context built too; after an exception of
    either, with its type name; and done. *)
Inductive reload_task :=
| ReloadStarted
| ListLoaded (list_file : allowlist_file) (list_version : nat)
| StateLoaded (list_version context_version : nat)
| ReloadFailed (type_name : pystr)
| ReloadDone.

(** Waiting for the event; in [finally], before [server.close()]; inside it;
    and after [_run] has returned. *)
Inductive process_phase := Running | Draining | ClosingServer | Exited.

(** [pr_version]: the version of the files now; [pr_history]: the versions of
    the allow-list and of the context of each state in force, newest first;
    [pr_log]: the lifecycle records, newest first. *)
Record process := Process {
  pr_phase : process_phase;
  pr_reload : option reload_task;
  pr_server : system;
  pr_version : nat;
  pr_history : list (nat * nat);
  pr_log : list log_record
}.

(** [--config], or its default. *)
Definition _parse_args (argument : option pystr) : pystr := default (u "config/collector.yaml") argument.

Inductive address_family := AF_INET | AF_INET6.

(** [AF_INET6 if ":" in host else AF_INET] *)
Definition listener_family (host : pystr) : address_family := if existsb (Z.eqb 58) host then AF_INET6 else AF_INET.

Section process.
Context {T : TlsLibrary} (disk : nat -> allowlist_file * tls_files) (clock : nat -> Z)
  (signal_installed : bool) (limit : nat).

(** [reload_task is not None and not reload_task.done()]. *)
Definition reload_running (p : process) : bool :=
  match pr_reload p with None | Some ReloadDone => false | Some _ => true end.

Definition set_reload (r : reload_task) (p : process) : process :=
  Process (pr_phase p) (Some r) (pr_server p) (pr_version p) (pr_history p) (pr_log p).

Definition set_process (phase : process_phase) (server : system) (p : process) : process :=
  Process phase (pr_reload p) server (pr_version p) (pr_history p) (pr_log p).

Definition log_line (levelname message : pystr) (fields : pydict) (p : process) : process :=
  Process (pr_phase p) (pr_reload p) (pr_server p) (pr_version p) (pr_history p)
    (lifecycle_record (clock (length (pr_log p))) levelname message fields :: pr_log p).

(** The record [start] ends with. *)
Definition log_started (config : CollectorConfig) (bound : Z) (p : process) : process :=
  log_line (u "INFO") (u "collector listening")
    [(u "host", PStr (host (server_config config))); (u "port", PInt bound); (u "state", PStr (u "started"))] p.

(** [load_config], the constructor of the server and its [start]: [None] when
    one of them raises.  [bind] is what the address family, the host and the
    port give: the port that the listener is bound to, or an [OSError]. *)
Definition process_start {E} (config : res E CollectorConfig) (bind : address_family -> pystr -> Z -> option Z)
  (version : nat) (store : file) : option process :=
  match config, _load_security_state (disk version).1 (disk version).2 with
  | Ok config, Ok sec =>
      let server := server_config config in
      match bind (listener_family (host server)) (host server) (port server), start (collector_start sec store) with
      | Some bound, Some system => Some (log_started config bound (Process Running None system version [(version, version)] []))
      | _, _ => None
      end
  | _, _ => None
  end.

(** [main]: [read] is [load_config] of a path; [None] is an exception that ends
    the process.  A process that is [Exited] ended [asyncio.run] with the
    [KeyboardInterrupt] that cancelled [_run], and [main] returns. *)
Definition main {E} (read : pystr -> res E CollectorConfig) (argument : option pystr)
  (bind : address_family -> pystr -> Z -> option Z) (version : nat) (store : file) : option process :=
  process_start (read (_parse_args argument)) bind version store.

Definition main_returned (p : process) : bool := match pr_phase p with Exited => true | _ => false end.

(** The signal handler. *)
Definition request_reload (p : process) : process :=
  if reload_running p then p else set_reload ReloadStarted p.

(** [_load_security_state] in its thread: first the allow-list, *)
Definition load_list (p : process) : option process :=
  match pr_reload p with
  | Some ReloadStarted =>
      let list_file := (disk (pr_version p)).1 in
      Some (set_reload match load_enrolled_nodes list_file with
                       | Ok _ => ListLoaded list_file (pr_version p)
                       | Err e => ReloadFailed (allowlist_error_name e)
                       end p)
  | _ => None
  end.

(** then the TLS context. *)
Definition load_context (p : process) : option process :=
  match pr_reload p with
  | Some (ListLoaded list_file version) =>
      Some match reload_load list_file (disk (pr_version p)).2 (pr_server p) with
           | Ok server => set_reload (StateLoaded version (pr_version p)) (set_process (pr_phase p) server p)
           | Err type_name => set_reload (ReloadFailed type_name) p
           end
  | _ => None
  end.

(** The task resumes: the state is replaced and that is logged, or the
    exception is logged and the state stays. *)
Definition finish_reload (p : process) : option process :=
  match pr_reload p with
  | Some (StateLoaded list_version context_version) =>
      server ← reload_security_state 0 (pr_server p);
      Some (log_line (u "INFO") (u "collector security state reloaded")
        [(u "state", PStr (u "security_state_reloaded"));
         (u "enrolled_node_count", PInt (Z.of_nat (length (se_enrolled (sy_security server)))))]
        (Process (pr_phase p) (Some ReloadDone) server (pr_version p)
           ((list_version, context_version) :: pr_history p) (pr_log p)))
  | Some (ReloadFailed type_name) =>
      Some (log_line (u "ERROR") (u "collector security-state reload failed")
        [(u "state", PStr (u "security_state_reload_failed")); (u "error_type", PStr type_name)]
        (set_reload ReloadDone p))
  | _ => None
  end.

(** The [finally] block: [server.close()] once the reload is done, *)
Definition shut_down (p : process) : option process :=
  match pr_phase p with
  | Draining => 
      if reload_running p then None
      else server ← close (pr_server p); Some (set_process ClosingServer server p)
  | _ => None
  end.

(** and the end of it, when every handler has returned. *)
Definition exit_process (p : process) : option process :=
  match pr_phase p with
  | ClosingServer =>
      server ← close_gathered (pr_server p);
      Some (log_line (u "INFO") (u "collector stopped") [(u "state", PStr (u "stopped"))]
              (set_process Exited server p))
  | _ => None
  end.

Inductive process_step : process -> process -> Prop :=
| process_signal p : signal_installed = true -> pr_phase p = Running -> process_step p (request_reload p)
| process_files p :
    process_step p (Process (pr_phase p) (pr_reload p) (pr_server p) (S (pr_version p)) (pr_history p) (pr_log p))
| process_load_list p p' : load_list p = Some p' -> process_step p p'
| process_load_context p p' : load_context p = Some p' -> process_step p p'
| process_finish p p' : finish_reload p = Some p' -> process_step p p'
| process_interrupt p : pr_phase p = Running -> process_step p (set_process Draining (pr_server p) p)
| process_shut_down p p' : shut_down p = Some p' -> process_step p p'
| process_exit p p' : exit_process p = Some p' -> process_step p p'
| process_accept_failed p s :
    accept_failed (pr_server p) = Some s -> process_step p (set_process (pr_phase p) s p)
(* the accept loop and the handlers *)
| process_server p s : handler_step limit (pr_server p) s -> process_step p (set_process (pr_phase p) s p).

Definition process_reachable (p0 p : process) : Prop := rtc process_step p0 p.

End process.
