(* ===== verification/MainTheorems.v ===== *)
(** The process of the collector: reloads one at a time, from files that may
    change under them, and an orderly end. *)

From stdpp Require Import relations.
From S2P Require Import Prelude.
From S2P Require Import PyText.
From S2P Require Import Binary64.
From S2P Require Import PyValue.
From S2P Require Import ChainStore.
From S2P Require Import CollectorTls.
From S2P Require Import CollectorServer.
From S2P Require Import CollectorSteps.
From S2P Require Import CollectorTheorems.
From S2P Require Import CollectorLog.
From S2P Require Import CollectorConfig.
From S2P Require Import CollectorMain.

Section process.
Context {T : TlsLibrary} (disk : nat -> allowlist_file * tls_files) (clock : nat -> Z)
  (signal_installed : bool) (limit : nat).

#[local] Notation step := (process_step disk clock signal_installed limit).

(** What a pair of versions loads as. *)
Definition loads_as (h : nat * nat) (sec : security) : Prop :=
  _load_security_state (disk h.1).1 (disk h.2).2 = Ok sec.

(** Versions that are not older, of both files. *)
Definition not_older (a b : nat * nat) : Prop := (b.1 <= a.1 /\ b.2 <= a.2)%nat.

(** The reload in progress holds versions between [floor] and the present. *)
Definition task_ok (floor : nat) (p : process) : Prop :=
  match pr_reload p with
  | Some (ListLoaded list_file v) => list_file = (disk v).1 /\ (floor <= v <= pr_version p)%nat /\ sy_loaded (pr_server p) = []
  | Some (StateLoaded v1 v2) =>
      (floor <= v1 /\ v1 <= v2 <= pr_version p)%nat /\ exists sec, sy_loaded (pr_server p) = [sec] /\ loads_as (v1, v2) sec
  | _ => sy_loaded (pr_server p) = []
  end.

Record process_inv (sec0 : security) (store : file) (p : process) : Prop := ProcessInv {
  pv_reachable : collector_reachable limit sec0 store (pr_server p);
  pv_current : exists h rest, pr_history p = h :: rest /\ loads_as h (sy_security (pr_server p)) /\
    (h.1 <= h.2 <= pr_version p)%nat /\ Forall (not_older h) rest /\ task_ok h.2 p;
  pv_phase : match pr_phase p with
             | Running | Draining => sy_lifecycle (pr_server p) = Listening \/ sy_lifecycle (pr_server p) = Deaf
             | ClosingServer => reload_running p = false /\ sy_lifecycle (pr_server p) = Closing
             | Exited => reload_running p = false /\ sy_lifecycle (pr_server p) = Stopped
             end
}.

Lemma task_ok_idle floor p : reload_running p = false -> task_ok floor p -> sy_loaded (pr_server p) = [].
Proof. unfold task_ok, reload_running. by destruct (pr_reload p) as [[]|]. Qed.

Lemma reachable_step sec0 store s s' :
  collector_reachable limit sec0 store s -> collector_step limit s s' -> collector_reachable limit sec0 store s'.
Proof. intros Hr Hs. eapply rtc_r; eassumption. Qed.

Lemma load_list_inv sec0 store p p' :
  process_inv sec0 store p -> load_list disk p = Some p' -> process_inv sec0 store p'.
Proof.
  intros [Hr (h & rest & Hh & Hl & [Hv1 Hv2] & Hf & Ht) Hph]. unfold load_list, task_ok in *.
  destruct (pr_reload p) as [[]|] eqn:E; try done. intros [= <-].
  constructor; [done| |].
  - exists h, rest. split_and!; try done; try (cbn; lia). unfold task_ok. cbn.
    destruct (load_enrolled_nodes (disk (pr_version p)).1); cbn; [|done]. split; [done|]. split; [lia|done].
  - cbn. unfold reload_running in Hph. rewrite E in Hph. destruct (pr_phase p); [done..| |]; by destruct Hph.
Qed.

Lemma load_context_inv sec0 store p p' :
  process_inv sec0 store p -> load_context disk p = Some p' -> process_inv sec0 store p'.
Proof.
  intros [Hr (h & rest & Hh & Hl & [Hv1 Hv2] & Hf & Ht) Hph]. unfold load_context, task_ok in *.
  destruct (pr_reload p) as [[| raw v| | |]|] eqn:E; try done. destruct Ht as (-> & Hle & Hld). intros [= <-].
  assert (Hrun : (sy_lifecycle (pr_server p) = Listening \/ sy_lifecycle (pr_server p) = Deaf) /\
    (pr_phase p = Running \/ pr_phase p = Draining)).
  { unfold reload_running in Hph. rewrite E in Hph. destruct (pr_phase p); naive_solver. }
  destruct Hrun as [Hlife Hrun]. destruct (reload_load _ _ _) as [s|] eqn:El.
  - pose proof (reachable_step _ _ _ _ Hr (step_load _ _ _ _ _ El)) as Hr'. apply bind_Ok in El as (sec & Es & [= <-]).
    constructor; [done| |].
    + exists h, rest. split_and!; try done; try (cbn; lia). unfold task_ok. cbn. split; [lia|]. exists sec. by rewrite Hld.
    + cbn. destruct Hrun as [->| ->]; done.
  - constructor; [done| |].
    + exists h, rest. split_and!; done.
    + cbn. destruct Hrun as [->| ->]; done.
Qed.

Lemma finish_reload_inv sec0 store p p' :
  process_inv sec0 store p -> finish_reload clock p = Some p' -> process_inv sec0 store p'.
Proof.
  intros [Hr (h & rest & Hh & Hl & [Hv1 Hv2] & Hf & Ht) Hph]. unfold finish_reload, task_ok in *.
  destruct (pr_reload p) as [[| |v1 v2|name|]|] eqn:E; try done.
  - destruct Ht as (Hle & sec & Hld & Hsec). intros (s & Hs & [= <-])%bind_Some.
    pose proof (reachable_step _ _ _ _ Hr (step_reload _ _ _ _ Hs)) as Hr'. unfold reload_security_state in Hs.
    rewrite Hld in Hs. injection Hs as <-. constructor; [done| |].
    + exists (v1, v2), (pr_history p). split_and!; try done; cbn; try lia. rewrite Hh. constructor; [unfold not_older; cbn; lia|].
      eapply Forall_impl; [exact Hf|]. unfold not_older. cbn. intros x ?. lia.
    + cbn. unfold reload_running in Hph. rewrite E in Hph. destruct (pr_phase p); naive_solver.
  - intros [= <-]. constructor; [done| |].
    + exists h, rest. split_and!; done.
    + cbn. unfold reload_running in Hph. rewrite E in Hph. destruct (pr_phase p); naive_solver.
Qed.

Lemma process_step_inv sec0 store p p' : process_inv sec0 store p -> step p p' -> process_inv sec0 store p'.
Proof.
  intros Hi Hs. destruct Hs as [p Hsig Hp|p|p p' H1|p p' H1|p p' H1|p Hp|p p' H1|p p' H1|p s H1|p s (H1 & H2 & H3 & H4 & H5)].
  - unfold request_reload. destruct (reload_running p) eqn:Er; [done|].
    destruct Hi as [Hr (h & rest & Hh & Hl & [Hv1 Hv2] & Hf & Ht) Hph]. constructor; [done| |].
    + exists h, rest. split_and!; try done; try (cbn; lia). unfold task_ok at 1. cbn. by eapply task_ok_idle.
    + cbn. by rewrite Hp in *.
  - destruct Hi as [Hr (h & rest & Hh & Hl & [Hv1 Hv2] & Hf & Ht) Hph]. constructor; [done| |done].
    exists h, rest. split_and!; try done; cbn; try lia. unfold task_ok in *. cbn in *.
    destruct (pr_reload p) as [[| raw v|v1 v2| |]|]; try done; destruct_and!; split_and!; try done; lia.
  - by eapply load_list_inv.
  - by eapply load_context_inv.
  - by eapply finish_reload_inv.
  - destruct Hi as [Hr Hc Hph]. constructor; [done|done|]. cbn. by rewrite Hp in Hph.
  - unfold shut_down in H1. destruct (pr_phase p) eqn:Ep; try done. destruct (reload_running p) eqn:Er; [done|].
    apply bind_Some in H1 as (s & Hs & [= <-]). destruct Hi as [Hr (h & rest & Hh & Hl & [Hv1 Hv2] & Hf & Ht) Hph]. 
    pose proof (reachable_step _ _ _ _ Hr (step_close _ _ _ Hs)) as Hr'. unfold close in Hs.
    assert (s = set_lifecycle Closing (pr_server p)) as -> by (destruct (sy_lifecycle (pr_server p)); congruence).
    constructor; [done| |done]. exists h, rest. split_and!; done.
  - unfold exit_process in H1. destruct (pr_phase p) eqn:Ep; try done.
    apply bind_Some in H1 as (s & Hs & [= <-]). destruct Hi as [Hr (h & rest & Hh & Hl & [Hv1 Hv2] & Hf & Ht) Hph].
    pose proof (reachable_step _ _ _ _ Hr (step_gathered _ _ _ Hs)) as Hr'. unfold close_gathered in Hs.
    destruct (sy_lifecycle (pr_server p)); try done. destruct (forallb _ _); [|done]. injection Hs as <-.
    rewrite Ep in Hph. constructor; [done| |by destruct Hph]. exists h, rest. split_and!; done.
  - destruct Hi as [Hr (h & rest & Hh & Hl & [Hv1 Hv2] & Hf & Ht) Hph].
    pose proof (reachable_step _ _ _ _ Hr (step_accept_failed _ _ _ H1)) as Hr'. unfold accept_failed in H1.
    destruct (sy_lifecycle (pr_server p)) eqn:El; try done. injection H1 as <-. constructor; [done| |].
    + exists h, rest. split_and!; done.
    + cbn. destruct (pr_phase p); [by right..| |]; by destruct Hph.
  - destruct Hi as [Hr (h & rest & Hh & Hl & [Hv1 Hv2] & Hf & Ht) Hph].
    pose proof (reachable_step _ _ _ _ Hr H1) as Hr'. constructor; [done| |].
    + exists h, rest. cbn. rewrite H5. split_and!; try done; try (cbn; lia). unfold task_ok in *. cbn. by rewrite H3.
    + cbn. by rewrite H2.
Qed.

Lemma process_start_inv {E} (config : res E CollectorConfig) bind version store p sec :
  _load_security_state (disk version).1 (disk version).2 = Ok sec ->
  process_start disk clock config bind version store = Some p -> process_inv sec store p.
Proof.
  intros Hsec. unfold process_start. rewrite Hsec. destruct config as [config|]; [|done].
  cbv zeta. destruct (bind _ _ _) as [bound|]; [|done].
  intros [= <-]. constructor; [|exists (version, version), []; split_and!; done|by left].
  cbn. eapply rtc_once. by apply step_start.
Qed.

Lemma process_reachable_inv sec0 store p0 p :
  process_inv sec0 store p0 -> process_reachable disk clock signal_installed limit p0 p -> process_inv sec0 store p.
Proof. intros Hi Hr. eapply (rtc_invariant step (process_inv sec0 store)); [|exact Hr|exact Hi]. apply process_step_inv. Qed.

(** ** Progress *)

Definition same_process (p p' : process) : Prop :=
  pr_phase p' = pr_phase p /\ sy_lifecycle (pr_server p') = sy_lifecycle (pr_server p) /\
  sy_threads (pr_server p') = sy_threads (pr_server p) /\ pr_version p' = pr_version p.

(** A reload in progress takes its next step, towards its end. *)
Definition reload_rank (p : process) : nat :=
  match pr_reload p with
  | Some ReloadStarted => 3 | Some (ListLoaded _ _) => 2 | Some (StateLoaded _ _) | Some (ReloadFailed _) => 1 | _ => 0
  end.

Lemma reload_moves floor p : task_ok floor p -> reload_running p = true ->
  exists p', step p p' /\ (reload_rank p' < reload_rank p)%nat /\ same_process p p'.
Proof.
  unfold task_ok, reload_running, reload_rank. destruct (pr_reload p) as [[|raw v|v1 v2|name|]|] eqn:E; try done; intros Ht _.
  - eexists. split; [apply process_load_list; unfold load_list; by rewrite E|]. cbn.
    destruct (load_enrolled_nodes (disk (pr_version p)).1); by (split; [lia|]).
  - eexists. split; [apply process_load_context; unfold load_context; by rewrite E|]. unfold reload_load.
    destruct (_load_security_state _ _); cbn; by (split; [lia|]).
  - destruct Ht as (_ & sec & Hld & _). eexists. split.
    + apply process_finish. unfold finish_reload. rewrite E. unfold reload_security_state. by rewrite Hld.
    + cbn. by (split; [lia|]).
  - eexists. split; [apply process_finish; unfold finish_reload; by rewrite E|]. cbn. by (split; [lia|]).
Qed.

Lemma reload_finishes sec0 store p : process_inv sec0 store p ->
  exists p', rtc step p p' /\ reload_running p' = false /\ same_process p p'.
Proof.
  remember (reload_rank p) as n eqn:En. revert p En. induction (lt_wf n) as [n _ IH]. intros p -> Hi.
  destruct (reload_running p) eqn:Er; [|by exists p].
  pose proof (pv_current _ _ _ Hi) as (h & rest & _ & _ & _ & _ & Ht).
  destruct (reload_moves _ _ Ht Er) as (p1 & Hs & Hrank & H1 & H2 & H3 & H4).
  destruct (IH _ Hrank p1 eq_refl) as (p' & Hr & Hd & Hp' & Hl' & Ht' & Hv'); [by eapply process_step_inv|].
  exists p'. split; [by eapply rtc_l|]. split; [done|]. split_and!; congruence.
Qed.

Lemma handlers_lift p s : rtc (handler_step limit) (pr_server p) s -> rtc step p (set_process (pr_phase p) s p).
Proof.
  intros H. remember (pr_server p) as s0 eqn:E. revert p E. induction H as [s|s s1 s2 Hs _ IH]; intros p ->.
  - destruct p. apply rtc_refl.
  - eapply rtc_l; [by apply process_server|]. exact (IH (set_process (pr_phase p) s1 p) eq_refl).
Qed.

(** ** What a signal brings about *)

(** Since version [v] and the log [old]: the state in force is not older, or a
    failure was logged. *)
Definition outcome (v : nat) (old : list log_record) (p : process) : Prop :=
  (exists h rest, pr_history p = h :: rest /\ (v <= h.1)%nat /\ (v <= h.2)%nat) \/
  (exists new r, pr_log p = new ++ old /\ r ∈ new /\ lr_levelname r = u "ERROR").

Definition served (v : nat) (old : list log_record) (p : process) : Prop :=
  (v <= pr_version p)%nat /\ (exists new, pr_log p = new ++ old) /\
  (outcome v old p \/
   match pr_reload p with
   | Some ReloadStarted | Some (ReloadFailed _) => True
   | Some (ListLoaded _ v1) => (v <= v1)%nat
   | Some (StateLoaded v1 v2) => (v <= v1 <= v2)%nat
   | _ => False
   end).

Lemma outcome_log v old p levelname message fields :
  outcome v old p -> outcome v old (log_line clock levelname message fields p).
Proof. intros [H|(new & r & Hl & Hr & He)]; [by left|right]. cbn. rewrite Hl. eexists (_ :: new), r. split; [done|]. split; [by right|done]. Qed.

Lemma served_step sec0 store v old p p' : process_inv sec0 store p -> served v old p -> step p p' -> served v old p'.
Proof.
  intros Hi (Hv & [new Hn] & Hs) Hstep. pose proof (pv_current _ _ _ Hi) as (h & rest & Hh & _ & [Hv1 Hv2] & _ & Ht).
  unfold served. destruct Hstep as [p Hsig Hp|p|p p' H1|p p' H1|p p' H1|p Hp|p p' H1|p p' H1|p s H1|p s H1].
  - unfold request_reload. destruct (reload_running p); (split; [done|]; split; [by exists new|]); [done|by right].
  - split; [cbn; lia|]. split; [by exists new|]. destruct Hs; [by left|by right].
  - unfold load_list in H1. destruct (pr_reload p) as [[]|] eqn:E; try done. injection H1 as <-.
    split; [done|]. split; [by exists new|]. right. cbn. by destruct (load_enrolled_nodes (disk (pr_version p)).1).
  - unfold load_context in H1. unfold task_ok in Ht. destruct (pr_reload p) as [[|raw v1| | |]|] eqn:E; try done. injection H1 as <-.
    destruct Ht as (_ & [_ Hle] & _).
    destruct (reload_load _ _ _); (split; [done|]; split; [by exists new|]); (destruct Hs as [?|?]; [by left|right]); [cbn; lia|done].
  - unfold finish_reload in H1. unfold task_ok in Ht. destruct (pr_reload p) as [[| |v1 v2|name|]|] eqn:E; try done.
    + apply bind_Some in H1 as (s & _ & [= <-]). split; [done|]. split; [cbn; rewrite Hn; by eexists (_ :: new)|]. left.
      destruct Hs as [[(h' & rest' & Hh' & Hle)|(new' & r & Hl & Hr & He)]|Hs].
      * left. exists (v1, v2), (pr_history p). rewrite Hh in Hh'. injection Hh' as <- <-. split; [done|]. destruct Ht as [Ht _]. cbn. lia.
      * right. cbn. rewrite Hl. eexists (_ :: new'), r. split; [done|]. split; [by right|done].
      * left. exists (v1, v2), (pr_history p). split; [done|]. cbn. lia.
    + injection H1 as <-. cbn. rewrite Hn. split; [done|]. split; [by eexists (_ :: new)|]. left. right.
      eexists (_ :: new), _. split; [cbn; by rewrite Hn|]. split; [by left|done].
  - split; [done|]. split; [by exists new|done].
  - unfold shut_down in H1. destruct (pr_phase p); try done. destruct (reload_running p); [done|].
    apply bind_Some in H1 as (s & _ & [= <-]). split; [done|]. split; [by exists new|done].
  - unfold exit_process in H1. destruct (pr_phase p); try done. apply bind_Some in H1 as (s & _ & [= <-]).
    split; [done|]. split; [cbn; rewrite Hn; by eexists (_ :: new)|]. destruct Hs as [Hs|Hs]; [left|by right].
    by apply (outcome_log v old (set_process Exited s p)).
  - split; [done|]. split; [by exists new|done].
  - split; [done|]. split; [by exists new|done].
Qed.
End process.

(** ** The process *)

Section theorems.
Context {T : TlsLibrary} (disk : nat -> allowlist_file * tls_files) (clock : nat -> Z)
  (signal_installed : bool) (limit : nat).

#[local] Notation reachable := (process_reachable disk clock signal_installed limit).

(** A process that is reached from a start has the invariant. *)
Lemma started_inv {E} (config : res E CollectorConfig) bind version store p0 p :
  process_start disk clock config bind version store = Some p0 -> reachable p0 p ->
  exists sec0, loads_as disk (version, version) sec0 /\ process_inv disk limit sec0 store p.
Proof.
  intros Hs Hr. destruct (_load_security_state (disk version).1 (disk version).2) as [sec0|] eqn:E0.
  - exists sec0. split; [done|]. eapply process_reachable_inv; [|exact Hr]. by eapply process_start_inv.
  - unfold process_start in Hs. rewrite E0 in Hs. by destruct config.
Qed.

(** C14: the process drives the server through its own steps only, so everything
    proved of the server holds in it; at most one loaded state waits for its
    turn; the state in force was loaded from files of two versions of which the
    context is not the older one, the earlier states came from versions that
    were not newer, so a reload never puts an old state back; and a process that
    has ended has no reload and no handler left. *)
Theorem reloads_in_order {E} (config : res E CollectorConfig) bind version store p0 p
  (Hstart : process_start disk clock config bind version store = Some p0) (Hp : reachable p0 p) :
  exists sec0, loads_as disk (version, version) sec0 /\ collector_reachable limit sec0 store (pr_server p) /\
    (exists h rest, pr_history p = h :: rest /\ loads_as disk h (sy_security (pr_server p)) /\
       (h.1 <= h.2 <= pr_version p)%nat /\ Forall (not_older h) rest) /\
    (length (sy_loaded (pr_server p)) <= 1)%nat /\
    (pr_phase p = Exited -> reload_running p = false /\ Forall (fun t => is_done t = true) (sy_threads (pr_server p))).
Proof.
  destruct (started_inv config bind version store p0 p Hstart Hp) as (sec0 & H0 & [Hr (h & rest & Hh & Hl & Hv & Hf & Ht) Hph]).
  exists sec0. split; [done|]. split; [done|]. split; [by exists h, rest|]. split.
  - unfold task_ok in Ht. destruct (pr_reload p) as [[|raw v|v1 v2| |]|]; try (rewrite Ht; cbn; lia).
    + destruct Ht as (_ & _ & ->). cbn. lia.
    + destruct Ht as (_ & sec & -> & _). cbn. lia.
  - intros Ex. rewrite Ex in Hph. destruct Hph as [H1 H2]. split; [done|].
    apply collector_reachable_inv in Hr as [_ _ _ _ _ Hst]. by apply Hst.
Qed.

(** C15: a reload request that finds no reload running is served: the reload can
    always go on to its end, and whenever no reload is running any more, the
    state in force comes from files at least as new as those at the request, or
    an error has been logged since. *)
Theorem reload_request_served {E} (config : res E CollectorConfig) bind version store p0 p
  (Hstart : process_start disk clock config bind version store = Some p0) (Hp : reachable p0 p)
  (Hidle : reload_running p = false) (Hrun : pr_phase p = Running) (Hsig : signal_installed = true) :
  process_step disk clock signal_installed limit p (request_reload p) /\
  (exists p2, reachable (request_reload p) p2 /\ reload_running p2 = false /\ pr_phase p2 = Running) /\
  forall p2, reachable (request_reload p) p2 -> reload_running p2 = false ->
    (exists h rest, pr_history p2 = h :: rest /\ loads_as disk h (sy_security (pr_server p2)) /\
       (pr_version p <= h.1)%nat /\ (pr_version p <= h.2)%nat) \/
    (exists new r, pr_log p2 = new ++ pr_log p /\ r ∈ new /\ lr_levelname r = u "ERROR").
Proof.
  destruct (started_inv config bind version store p0 p Hstart Hp) as (sec0 & _ & Hi).
  assert (Hs1 : process_step disk clock signal_installed limit p (request_reload p)) by by apply process_signal.
  assert (Hi1 : process_inv disk limit sec0 store (request_reload p)) by by eapply process_step_inv.
  split; [done|]. split.
  - destruct (reload_finishes disk clock signal_installed limit _ _ _ Hi1) as (p2 & Hr & Hd & Hph & _).
    exists p2. split; [done|]. split; [done|]. rewrite Hph. unfold request_reload. by rewrite Hidle.
  - intros p2 Hr Hd.
    assert (Hserved : process_inv disk limit sec0 store p2 /\ served (pr_version p) (pr_log p) p2).
    { eapply (rtc_invariant (process_step disk clock signal_installed limit)
        (fun q => process_inv disk limit sec0 store q /\ served (pr_version p) (pr_log p) q)); [|exact Hr|].
      - intros a b [Ha Hb] Hab. split; [by eapply process_step_inv|by eapply served_step].
      - split; [done|]. unfold request_reload. rewrite Hidle. split; [done|]. split; [by exists []|by right]. }
    destruct Hserved as [Hi2 (_ & _ & [Ho|Ho])].
    + destruct Ho as [(h & rest & Hh & Hle)|Ho]; [left|by right].
      pose proof (pv_current _ _ _ _ _ Hi2) as (h' & rest' & Hh' & Hl & _). rewrite Hh in Hh'. injection Hh' as <- <-.
      exists h, rest. tauto.
    + unfold reload_running in Hd. by destruct (pr_reload p2) as [[]|].
Qed.

(** C16: shutting down ends: from every reachable state that has not been
    interrupted, the interrupt, the rest of a running reload, [close], the
    handlers and the end of the process can follow, with every accepted
    connection handled. *)
Theorem shutdown_completes {E} (config : res E CollectorConfig) bind version store p0 p
  (Hstart : process_start disk clock config bind version store = Some p0) (Hp : reachable p0 p)
  (Hrun : pr_phase p = Running) :
  exists p', reachable p p' /\ pr_phase p' = Exited /\ reload_running p' = false /\
    length (sy_threads (pr_server p')) = length (sy_threads (pr_server p)) /\
    Forall (fun t => is_done t = true) (sy_threads (pr_server p')).
Proof.
  destruct (started_inv config bind version store p0 p Hstart Hp) as (sec0 & _ & Hi).
  set (p1 := set_process Draining (pr_server p) p).
  assert (Hs1 : process_step disk clock signal_installed limit p p1) by by apply process_interrupt.
  assert (Hi1 : process_inv disk limit sec0 store p1) by by eapply process_step_inv.
  destruct (reload_finishes disk clock signal_installed limit _ _ _ Hi1) as (p2 & Hr2 & Hd2 & Hph2 & Hl2 & Ht2 & _).
  assert (Hlife : sy_lifecycle (pr_server p2) = Listening \/ sy_lifecycle (pr_server p2) = Deaf)
    by (rewrite Hl2; exact (pv_phase _ _ _ _ _ Hi1)).
  set (p3 := set_process ClosingServer (set_lifecycle Closing (pr_server p2)) p2).
  assert (Hs3 : process_step disk clock signal_installed limit p2 p3).
  { apply process_shut_down. unfold shut_down. rewrite Hph2, Hd2. unfold close. by destruct Hlife as [-> | ->]. }
  destruct (handlers_drain limit (pr_server p3)) as (s & Hr4 & Hn4 & Hf4).
  pose proof (handlers_lift disk clock signal_installed limit p3 s Hr4) as Hl4.
  apply handler_steps in Hr4 as (_ & Hlife4 & _).
  set (p4 := set_process ClosingServer s p3) in *.
  assert (Hs5 : exists p5, exit_process clock p4 = Some p5 /\ pr_phase p5 = Exited /\ reload_running p5 = false /\
    sy_threads (pr_server p5) = sy_threads s).
  { unfold exit_process, close_gathered. cbn. rewrite Hlife4, Hf4. eexists. split; [done|]. done. }
  destruct Hs5 as (p5 & Hs5 & Hph5 & Hd5 & Ht5). exists p5. split_and!; [|done|done| |].
  - unfold process_reachable. eapply rtc_l; [exact Hs1|]. etrans; [exact Hr2|]. eapply rtc_l; [exact Hs3|].
    eapply rtc_r; [exact Hl4|]. by apply process_exit.
  - rewrite Ht5, Hn4. cbn. by rewrite Ht2.
  - rewrite Ht5. apply Forall_forall. intros t Ht%list_elem_of_In. rewrite forallb_forall in Hf4. auto.
Qed.
End theorems.

(** ** Concrete processes *)

#[local] Existing Instance sample_tls.

(** An allow-list of one node; each version of the files has a revocation list
    of its own. *)
Definition sample_disk (version : nat) : allowlist_file * tls_files :=
  (AllowlistYaml (to_dict [(u "nodes", PList [PStr (u "node-01")])]),
   TlsFiles (Ok (u "ca")) (Ok [Z.of_nat version]) (Ok (u "certificate")) (Ok (u "key"))).
Definition sample_config : res unit CollectorConfig :=
  Ok {| tls := {| ca_cert := []; crl_path := []; server_cert := []; server_key := [] |}; allowlist_path := [];
        server_config := {| host := u "127.0.0.1"; port := 8443; handshake_timeout_seconds := S754_zero false;
                            read_timeout_seconds := S754_zero false; max_payload_bytes := 65536 |} |}.
Definition sample_start : option process := process_start sample_disk (fun _ => 0) sample_config (fun _ _ port => Some port) 0 None.
Definition sample_process : process := Eval vm_compute in default (Process Exited None (collector_start sample_security None) 0 [] []) sample_start.

#[local] Notation sample_step := (process_step sample_disk (fun _ => 0) true 65536).
#[local] Notation sample_reachable := (process_reachable sample_disk (fun _ => 0) true 65536).

(** One turn of the files. *)
Definition next_version (p : process) : process :=
  Process (pr_phase p) (pr_reload p) (pr_server p) (S (pr_version p)) (pr_history p) (pr_log p).

Lemma reloads_in_order_witness :
  exists p, sample_reachable sample_process p /\ (length (sy_loaded (pr_server p)) <= 1)%nat.
Proof.
  assert (Hs : process_start sample_disk (fun _ => 0) sample_config (fun _ _ port => Some port) 0 None = Some sample_process)
    by (vm_compute; reflexivity).
  assert (Hr : sample_reachable sample_process (request_reload (next_version sample_process))).
  { eapply rtc_l; [apply process_files|]. eapply rtc_l; [by apply process_signal|]. apply rtc_refl. }
  destruct (reloads_in_order sample_disk (fun _ => 0) true 65536 sample_config (fun _ _ port => Some port) 0 None _ _ Hs Hr)
    as (sec0 & _ & _ & _ & Hl & _). eexists. split; [exact Hr|exact Hl].
Defined.

Lemma reload_request_served_witness :
  exists p2, sample_reachable (request_reload (next_version sample_process)) p2 /\ reload_running p2 = false.
Proof.
  assert (Hs : process_start sample_disk (fun _ => 0) sample_config (fun _ _ port => Some port) 0 None = Some sample_process)
    by (vm_compute; reflexivity).
  assert (Hr : sample_reachable sample_process (next_version sample_process)).
  { eapply rtc_l; [apply process_files|]. apply rtc_refl. }
  destruct (reload_request_served sample_disk (fun _ => 0) true 65536 sample_config (fun _ _ port => Some port) 0 None _ _ Hs Hr
    eq_refl eq_refl eq_refl) as (_ & (p2 & H1 & H2 & _) & _). exists p2. split; [exact H1|exact H2].
Defined.

Lemma shutdown_completes_witness : exists p', sample_reachable sample_process p' /\ pr_phase p' = Exited.
Proof.
  assert (Hs : process_start sample_disk (fun _ => 0) sample_config (fun _ _ port => Some port) 0 None = Some sample_process)
    by (vm_compute; reflexivity).
  destruct (shutdown_completes sample_disk (fun _ => 0) true 65536 sample_config (fun _ _ port => Some port) 0 None _ _ Hs
    ltac:(apply rtc_refl) eq_refl) as (p' & H1 & H2 & _). exists p'. split; [exact H1|exact H2].
Defined.

(** A signal that comes while a reload runs is dropped, and the files it
    announces may stay unread: a run in which the files change and the signal
    comes after they were read, and which rests with no reload running, the old
    state in force and the new one on the disk. *)
Theorem signal_during_reload_lost :
  exists p1 p2, sample_reachable sample_process p1 /\ pr_phase p1 = Running /\ pr_version p1 = 1%nat /\
    request_reload p1 = p1 /\ sample_reachable p1 p2 /\ reload_running p2 = false /\ pr_version p2 = 1%nat /\
    ctx_locations (se_context (sy_security (pr_server p2))) = [u "ca"; [0]] /\
    exists sec, _load_security_state (sample_disk 1).1 (sample_disk 1).2 = Ok sec /\
      ctx_locations (se_context sec) = [u "ca"; [1]].
Proof.
  assert (H : exists a b c, load_list sample_disk (request_reload sample_process) = Some a /\
    load_context sample_disk a = Some b /\ finish_reload (fun _ => 0) (next_version b) = Some c /\
    pr_phase b = Running /\ request_reload (next_version b) = next_version b /\ pr_version b = 0%nat /\
    reload_running c = false /\ pr_version c = 1%nat /\ ctx_locations (se_context (sy_security (pr_server c))) = [u "ca"; [0]]).
  { eexists _, _, _. split; [vm_compute; reflexivity|]. split; [vm_compute; reflexivity|]. split; [vm_compute; reflexivity|].
    split_and!; vm_compute; reflexivity. }
  destruct H as (a & b & c & Ha & Hb & Hc & H1 & H2 & H3 & H4 & H5 & H6).
  exists (next_version b), c. split_and!; try done.
  - eapply rtc_l; [by apply process_signal|]. eapply rtc_l; [by apply process_load_list|].
    eapply rtc_l; [by apply process_load_context|]. eapply rtc_l; [apply process_files|]. apply rtc_refl.
  - cbn. by rewrite H3.
  - eapply rtc_l; [by apply process_finish|]. apply rtc_refl.
  - eexists. split; vm_compute; reflexivity.
Qed.
