(* ===== verification/RevocationTheorems.v ===== *)
(** Revocation: what a reload of the allow-list and of the revocation list means
    for the connections that come after it, and what ends the accepting of
    connections. *)

From stdpp Require Import relations.
From S2P Require Import Prelude.
From S2P Require Import PyText.
From S2P Require Import PyValue.
From S2P Require Import ChainStore.
From S2P Require Import CollectorTls.
From S2P Require Import CollectorServer.
From S2P Require Import CollectorSteps.
From S2P Require Import CollectorTheorems.
From S2P Require Import CollectorConfig.
From S2P Require Import CollectorMain.
From S2P Require Import MainTheorems.

Section revocation.
Context {T : TlsLibrary} (disk : nat -> allowlist_file * tls_files) (clock : nat -> Z)
  (signal_installed : bool) (limit : nat).

#[local] Notation step := (process_step disk clock signal_installed limit).
#[local] Notation reachable := (process_reachable disk clock signal_installed limit).

(** ** Handlers that came after a version of the files *)

(** [sec] was loaded from versions of the files from [floor] on. *)
Definition recent (floor : nat * nat) (sec : security) : Prop :=
  exists h, loads_as disk h sec /\ not_older h floor.

(** A recent state admitted the peer: it is on its allow-list, and the handshake
    succeeded with its context. *)
Definition admitted (floor : nat * nat) (t : thread) : Prop :=
  exists sec node subject, recent floor sec /\ node ∈ se_enrolled sec /\
    cn_handshake (th_connection t) (se_context sec) = inr subject /\ _certificate_common_names subject = [node].

Definition refusal (effects : list effect) : Prop :=
  exists reason fields, effects = _reject_tls_socket reason fields \/ effects = [Decision (u "reject") reason fields].

Definition fresh (floor : nat * nat) (t : thread) : Prop :=
  match th_phase t with
  | Accepted => True
  | Handshaking sec => recent floor sec
  | Authenticated _ _ _ | Reserved _ _ _ => admitted floor t
  | Done effects => refusal effects \/ admitted floor t
  end.

(** Every handler from the [n]-th on is fresh. *)
Definition fresh_from (floor : nat * nat) (n : nat) (ts : list thread) : Prop :=
  (n <= length ts)%nat /\ forall i t, ts !! i = Some t -> (n <= i)%nat -> fresh floor t.

Lemma fresh_update floor n ts i t t' :
  fresh_from floor n ts -> ts !! i = Some t -> ((n <= i)%nat -> fresh floor t -> fresh floor t') ->
  fresh_from floor n (<[i := t']> ts).
Proof.
  intros [Hn Hf] Hi Ht. split; [by rewrite length_insert|]. intros j x Hj Hnj.
  destruct (decide (i = j)) as [<-|Hne].
  - rewrite list_lookup_insert_eq in Hj by (by eapply lookup_lt_Some). injection Hj as <-. eauto.
  - rewrite list_lookup_insert_ne in Hj by done. eauto.
Qed.

Lemma screened_fresh floor sec t :
  recent floor sec -> fresh floor (set_phase t (screened limit sec t)).
Proof.
  intros Hsec. unfold fresh, screened. cbn. destruct (cn_handshake _ _) as [name|subject] eqn:Ec.
  { left. eexists _, _. by right. }
  destruct (screen _ _ _ _ _) as [reason fields|name|node event] eqn:Es.
  - left. eexists _, _. by left.
  - left. eexists _, _. by right.
  - apply screen_ok in Es as (Hcn & Hen & _). exists sec, node, subject. done.
Qed.

Lemma collector_step_fresh floor n s s' :
  collector_step limit s s' -> recent floor (sy_security s) -> fresh_from floor n (sy_threads s) ->
  fresh_from floor n (sy_threads s').
Proof.
  intros Hstep Hsec Hf.
  destruct Hstep as [s s' E|raw files s s' E|i s s' E|c peer s s' E|s s' E|s s' E|s s' E|i s s' E
    |s i t sec Hi Ht|s i t sec node event previous seqs Hi Ht Hr
    |s i t sec node event previous seqs Hi Ht Hr|s i t sec node event effects store Hi Ht Hd].
  - unfold start in E. by destruct (sy_lifecycle s); simplify_eq.
  - by apply bind_Ok in E as (sec & _ & [= <-]).
  - unfold reload_security_state in E. by destruct (sy_loaded s !! i); simplify_eq.
  - unfold _accept_loop in E. destruct (sy_lifecycle s); simplify_eq. destruct Hf as [Hn Hf].
    split; [cbn; rewrite length_app; lia|]. intros i t [Hi|[_ Hi]]%lookup_app_Some Hni; [eauto|].
    by apply list_lookup_singleton_Some in Hi as [_ <-].
  - unfold accept_failed in E. by destruct (sy_lifecycle s); simplify_eq.
  - unfold close in E. by destruct (sy_lifecycle s); simplify_eq.
  - unfold close_gathered in E. by destruct (sy_lifecycle s), (forallb is_done (sy_threads s)); simplify_eq.
  - unfold read_security in E. destruct (sy_threads s !! i) as [t|] eqn:Hi; [|done].
    destruct (th_phase t); simplify_eq. by eapply fresh_update.
  - eapply fresh_update; [done..|]. unfold fresh at 1. rewrite Ht. intros _. apply screened_fresh.
  - eapply fresh_update; [done..|]. unfold fresh at 1. rewrite Ht. intros _ _. left. eexists _, _. by left.
  - eapply fresh_update; [done..|]. unfold fresh at 1. rewrite Ht. done.
  - eapply fresh_update; [done..|]. unfold fresh at 1. rewrite Ht. intros _ ?. by right.
Qed.

(** ** The process *)

(** A step of the process is one of the server, or leaves it as it is; the
    history only grows. *)
Lemma process_step_server p p' : step p p' ->
  (collector_step limit (pr_server p) (pr_server p') \/ pr_server p' = pr_server p) /\
  exists newer, pr_history p' = newer ++ pr_history p.
Proof.
  intros Hs. destruct Hs as [p Hsig Hp|p|p p' H1|p p' H1|p p' H1|p Hp|p p' H1|p p' H1|p s H1|p s [H1 _]].
  - unfold request_reload. destruct (reload_running p); (split; [by right|by exists []]).
  - split; [by right|by exists []].
  - unfold load_list in H1. destruct (pr_reload p) as [[]|]; simplify_eq. split; [by right|by exists []].
  - unfold load_context in H1. destruct (pr_reload p) as [[]|]; simplify_eq.
    destruct (reload_load _ _ _) as [s|] eqn:E; [split; [left; by eapply step_load|by exists []]|split; [by right|by exists []]].
  - unfold finish_reload in H1. destruct (pr_reload p) as [[| |v1 v2|name|]|]; simplify_eq.
    + apply bind_Some in H1 as (s & Hs & [= <-]). split; [left; by eapply step_reload|by exists [(v1, v2)]].
    + split; [by right|by exists []].
  - split; [by right|by exists []].
  - unfold shut_down in H1. destruct (pr_phase p); simplify_eq. destruct (reload_running p); simplify_eq.
    apply bind_Some in H1 as (s & Hs & [= <-]). split; [left; by apply step_close|by exists []].
  - unfold exit_process in H1. destruct (pr_phase p); simplify_eq.
    apply bind_Some in H1 as (s & Hs & [= <-]). split; [left; by apply step_gathered|by exists []].
  - split; [left; by apply step_accept_failed|by exists []].
  - split; [by left|by exists []].
Qed.

(** The state in force is not older than any state of the history. *)
Lemma current_recent sec0 store p newer floor rest :
  process_inv disk limit sec0 store p -> pr_history p = newer ++ floor :: rest -> recent floor (sy_security (pr_server p)).
Proof.
  intros [_ (h & rest' & Hh & Hl & _ & Hf & _) _] E. exists h. split; [done|]. rewrite Hh in E.
  destruct newer as [|h' newer]; simplify_eq/=; [split; lia|].
  rewrite Forall_forall in Hf. apply Hf, elem_of_app. right. by left.
Qed.

Lemma reachable_fresh sec0 store p p' floor rest :
  process_inv disk limit sec0 store p -> pr_history p = floor :: rest -> reachable p p' ->
  fresh_from floor (length (sy_threads (pr_server p))) (sy_threads (pr_server p')).
Proof.
  intros Hi Hh Hr. set (n := length (sy_threads (pr_server p))).
  enough (process_inv disk limit sec0 store p' /\ (exists newer, pr_history p' = newer ++ floor :: rest) /\
    fresh_from floor n (sy_threads (pr_server p'))) by tauto.
  eapply (rtc_invariant step (fun q => process_inv disk limit sec0 store q /\
    (exists newer, pr_history q = newer ++ floor :: rest) /\ fresh_from floor n (sy_threads (pr_server q)))); [|exact Hr|].
  - intros q q' (Hq & [newer Hn] & Hf) Hs. pose proof (process_step_server _ _ Hs) as [Hsv [newer' Hn']].
    split; [by eapply process_step_inv|]. split; [exists (newer' ++ newer); by rewrite Hn', Hn, app_assoc|].
    destruct Hsv as [Hsv| ->]; [|done]. eapply collector_step_fresh; [done| |done]. by eapply current_recent.
  - split; [done|]. split; [by exists []|]. split; [done|]. intros i t Ht%lookup_lt_Some Hni. lia.
Qed.

(** ** Certificates *)

(** A certificate has a subject; [revoked locations x]: the revocation list
    that OpenSSL finds in these files for the issuer of [x] lists it. *)
Context {certificate_file : Type} (subject_of : certificate_file -> certificate)
  (revoked : list bytes -> certificate_file -> Prop).

(** The peer of the connection presents [x].  OpenSSL documents of
    [CERT_REQUIRED] that a handshake then succeeds with the certificate of the
    peer only, and of the leaf check that it fails for a revoked one. *)
Definition presents (x : certificate_file) (c : connection) : Prop :=
  forall context subject, cn_handshake c context = inr subject -> ctx_verify_mode context = CERT_REQUIRED ->
    subject = subject_of x /\ (Z.testbit (ctx_verify_flags context) 2 = true -> ~ revoked (ctx_locations context) x).

(** From these versions of the files on, the allow-list does not hold the name
    of [x], or the revocation list holds [x]. *)
Definition withdrawn (floor : nat * nat) (x : certificate_file) : Prop :=
  (forall v names node, (floor.1 <= v)%nat -> load_enrolled_nodes (disk v).1 = Ok names ->
     _certificate_common_names (subject_of x) = [node] -> node ∉ names) \/
  (forall v ca crl, (floor.2 <= v)%nat -> ca_cert_file (disk v).2 = Ok ca -> crl_file (disk v).2 = Ok crl ->
     revoked [ca; crl] x).

Lemma withdrawn_refused floor x t :
  presents x (th_connection t) -> withdrawn floor x -> ~ admitted floor t.
Proof.
  intros Hx Hw (sec & node & subject & (h & Hl & Hv1 & Hv2) & Hen & Hc & Hcn).
  unfold loads_as, _load_security_state in Hl. apply bind_Ok in Hl as (names & Hnames & Hl).
  apply map_err_Ok in Hnames. apply bind_Ok in Hl as (context & Hctx & [= <-]). cbn [se_enrolled se_context] in *.
  destruct (server_context_checks _ _ Hctx) as [Hmode Hflag]. destruct (Hx _ _ Hc Hmode) as [-> Hrev].
  apply build_server_tls_context_Ok in Hctx as (ca & crl & cert & key & Hca & Hcrl & _ & _ & _ & _ & _ & _ & ->).
  destruct Hw as [Hw|Hw]; [by apply (Hw h.1 names node)|by apply Hrev, (Hw h.2)].
Qed.

(** C13: a withdrawn node gets nothing recorded.  Once the state in force was
    loaded from versions of the files that withdraw a certificate, by the
    allow-list or by the revocation list, and as long as the files keep it
    withdrawn, a connection accepted from then on that presents it is refused,
    without a reservation or a hand-off, whatever reloads, other connections and
    the end of the process come in between. *)
Theorem revocation_takes_effect {E} (config : res E CollectorConfig) bind version store p0 p p' floor rest i t x
  (Hstart : process_start disk clock config bind version store = Some p0) (Hp : reachable p0 p)
  (Hfloor : pr_history p = floor :: rest) (Hp' : reachable p p')
  (Hnew : (length (sy_threads (pr_server p)) <= i)%nat) (Ht : sy_threads (pr_server p') !! i = Some t)
  (Hx : presents x (th_connection t)) (Hgone : withdrawn floor x) :
  match th_phase t with
  | Accepted | Handshaking _ => True
  | Authenticated _ _ _ | Reserved _ _ _ => False
  | Done effects => refusal effects
  end.
Proof.
  destruct (started_inv disk clock signal_installed limit config bind version store p0 p Hstart Hp) as (sec0 & _ & Hi).
  destruct (reachable_fresh sec0 store p p' floor rest Hi Hfloor Hp') as [_ Hf]. specialize (Hf i t Ht Hnew).
  pose proof (withdrawn_refused floor x t Hx Hgone) as Hno. unfold fresh in Hf.
  destruct (th_phase t); tauto.
Qed.

(** ** The end of accepting *)

Definition not_accepting (s : system) : Prop :=
  sy_lifecycle s = Deaf \/ sy_lifecycle s = Closing \/ sy_lifecycle s = Stopped.

Lemma handler_step_accepts s s' : handler_step limit s s' -> not_accepting s ->
  not_accepting s' /\ length (sy_threads s') = length (sy_threads s).
Proof.
  intros (Hs & Hl & _) Hn. split; [unfold not_accepting; by rewrite Hl|]. unfold not_accepting in Hn.
  destruct Hs as [s s' E|raw files s s' E|i s s' E|c peer s s' E|s s' E|s s' E|s s' E|i s s' E| | | |];
    try (cbn; by rewrite length_insert).
  - unfold start in E. by destruct (sy_lifecycle s); simplify_eq.
  - by apply bind_Ok in E as (sec & _ & [= <-]).
  - unfold reload_security_state in E. by destruct (sy_loaded s !! i); simplify_eq.
  - unfold _accept_loop in E. destruct (sy_lifecycle s); naive_solver.
  - unfold accept_failed in E. by destruct (sy_lifecycle s); simplify_eq.
  - unfold close in E. by destruct (sy_lifecycle s); simplify_eq.
  - unfold close_gathered in E. by destruct (sy_lifecycle s), (forallb is_done (sy_threads s)); simplify_eq.
  - unfold read_security in E. destruct (sy_threads s !! i) as [t|]; [|done]. destruct (th_phase t); simplify_eq.
    cbn. by rewrite length_insert.
Qed.

Lemma process_step_accepts p p' : step p p' -> not_accepting (pr_server p) ->
  not_accepting (pr_server p') /\ length (sy_threads (pr_server p')) = length (sy_threads (pr_server p)).
Proof.
  intros Hs Hn. destruct Hs as [p Hsig Hp|p|p p' H1|p p' H1|p p' H1|p Hp|p p' H1|p p' H1|p s H1|p s H1]; try done.
  - unfold request_reload. by destruct (reload_running p).
  - unfold load_list in H1. by destruct (pr_reload p) as [[]|]; simplify_eq.
  - unfold load_context in H1. destruct (pr_reload p) as [[]|]; simplify_eq.
    destruct (reload_load _ _ _) as [s|] eqn:E; [|done]. by apply bind_Ok in E as (sec & _ & [= <-]).
  - unfold finish_reload in H1. destruct (pr_reload p) as [[| |v1 v2|name|]|]; simplify_eq; [|done].
    apply bind_Some in H1 as (s & Hs & [= <-]). unfold reload_security_state in Hs.
    by destruct (sy_loaded _ !! _); simplify_eq.
  - unfold shut_down in H1. destruct (pr_phase p); simplify_eq. destruct (reload_running p); simplify_eq.
    apply bind_Some in H1 as (s & Hs & [= <-]). unfold close in Hs.
    destruct (sy_lifecycle (pr_server p)); simplify_eq; (split; [by right; left|done]).
  - unfold exit_process in H1. destruct (pr_phase p); simplify_eq. apply bind_Some in H1 as (s & Hs & [= <-]).
    unfold close_gathered in Hs. destruct (sy_lifecycle (pr_server p)), (forallb is_done (sy_threads (pr_server p))); simplify_eq.
    split; [by right; right|done].
  - unfold accept_failed in H1. destruct (sy_lifecycle (pr_server p)); simplify_eq. split; [by left|done].
  - by apply handler_step_accepts.
Qed.

(** An accept call that fails is the end of accepting: the process stays up,
    and whatever follows, no connection is handled that had not been accepted
    before. *)
Theorem accept_failure_is_final p p' :
  sy_lifecycle (pr_server p) = Deaf -> reachable p p' ->
  length (sy_threads (pr_server p')) = length (sy_threads (pr_server p)).
Proof.
  intros Hl Hr. set (n := length (sy_threads (pr_server p))).
  enough (not_accepting (pr_server p') /\ length (sy_threads (pr_server p')) = n) by tauto.
  eapply (rtc_invariant step (fun q => not_accepting (pr_server q) /\ length (sy_threads (pr_server q)) = n)); [|exact Hr|].
  - intros q q' [Hq Hn] [H1 H2]%process_step_accepts; [|done]. split; [done|congruence].
  - split; [by left|done].
Qed.
End revocation.

(** ** A concrete revocation *)

#[local] Existing Instance sample_tls.
#[local] Notation sample_reachable := (process_reachable sample_disk (fun _ => 0) true 65536).

(** A certificate that every revocation list of [sample_disk] but the first
    holds, and a peer that presents it. *)
Definition sample_subject (x : unit) : certificate := [[(u "commonName", PStr (u "node-01"))]].
Definition sample_revoked (locations : list bytes) (x : unit) : Prop := locations <> [u "ca"; [0]].
Definition revoked_connection : connection :=
  Connection
    (fun context => if bool_decide (ctx_locations context = [u "ca"; [0]]) then inr (sample_subject tt)
                    else inl (u "SSLCertVerificationError"))
    (cn_script sample_connection) (cn_env sample_connection) (cn_type_name sample_connection).

(** The process after the signal that follows the revocation, *)
Definition reloaded_process : option process :=
  p ← load_list sample_disk (request_reload (next_version sample_process));
  p ← load_context sample_disk p;
  finish_reload (fun _ => 0) p.

Lemma revocation_takes_effect_witness :
  exists p p' t effects, sample_reachable sample_process p /\ pr_history p = [(1, 1); (0, 0)]%nat /\
    sample_reachable p p' /\ sy_threads (pr_server p') !! 0%nat = Some t /\ th_connection t = revoked_connection /\
    th_phase t = Done effects /\ refusal effects.
Proof.
  assert (Hs : process_start sample_disk (fun _ => 0) sample_config (fun _ _ port => Some port) 0 None = Some sample_process)
    by (vm_compute; reflexivity).
  destruct reloaded_process as [p|] eqn:Ep; [|vm_compute in Ep; discriminate].
  assert (Hp : sample_reachable sample_process p).
  { unfold reloaded_process in Ep. apply bind_Some in Ep as (p1 & H1 & (p2 & H2 & H3)%bind_Some).
    eapply rtc_l; [apply process_files|]. eapply rtc_l; [by apply process_signal|].
    eapply rtc_l; [by apply process_load_list|]. eapply rtc_l; [by apply process_load_context|].
    eapply rtc_l; [by apply process_finish|]. apply rtc_refl. }
  assert (Hc : pr_history p = [(1, 1); (0, 0)]%nat /\ sy_lifecycle (pr_server p) = Listening /\ sy_threads (pr_server p) = [] /\
    bool_decide (ctx_locations (se_context (sy_security (pr_server p))) = [u "ca"; [0]]) = false).
  { vm_compute in Ep. injection Ep as <-. repeat split; vm_compute; reflexivity. }
  destruct Hc as (Hh & Hl & Hts & Hloc). set (sec := sy_security (pr_server p)) in *.
  set (t0 := Thread revoked_connection [] Accepted). set (t1 := set_phase t0 (Handshaking sec)).
  set (s1 := set_threads [t0] (pr_server p)). set (s2 := set_thread 0 t0 (Handshaking sec) s1).
  set (effects := failed_socket (u "tls_handshake_failed") [] (u "SSLCertVerificationError")).
  set (s3 := set_thread 0 t1 (Done effects) s2).
  assert (Hsc : screened 65536 sec t1 = Done effects).
  { unfold screened. cbn [t1 t0 th_connection set_phase revoked_connection cn_handshake]. by rewrite Hloc. }
  assert (Hp' : sample_reachable p (set_process (pr_phase p) s3 p)).
  { eapply (rtc_l _ _ (set_process (pr_phase p) s1 p)).
    { apply process_server. split; [|done]. apply (step_accept _ revoked_connection []). unfold _accept_loop. by rewrite Hl, Hts. }
    eapply (rtc_l _ _ (set_process (pr_phase p) s2 p)).
    { apply (process_server _ _ _ _ (set_process (pr_phase p) s1 p) s2). split; [|done]. by apply (step_read _ 0). }
    eapply (rtc_l _ _ (set_process (pr_phase p) s3 p)); [|apply rtc_refl].
    apply (process_server _ _ _ _ (set_process (pr_phase p) s2 p) s3). split; [|done].
    unfold s3. rewrite <- Hsc. by apply step_screen. }
  exists p, (set_process (pr_phase p) s3 p), (set_phase t1 (Done effects)), effects.
  split; [exact Hp|]. split; [exact Hh|]. split; [exact Hp'|]. split; [reflexivity|]. split; [reflexivity|]. split; [reflexivity|].
  refine (revocation_takes_effect sample_disk (fun _ => 0) true 65536 sample_subject sample_revoked sample_config (fun _ _ port => Some port) 0
    None _ p (set_process (pr_phase p) s3 p) (1, 1)%nat [(0, 0)%nat] 0 (set_phase t1 (Done effects)) tt Hs Hp Hh Hp' _ eq_refl _ _).
  - rewrite Hts. cbn. lia.
  - intros context subject Hc _. change (cn_handshake (th_connection _) context)
      with (cn_handshake revoked_connection context) in Hc. unfold revoked_connection, cn_handshake in Hc.
    destruct (bool_decide_reflect (ctx_locations context = [u "ca"; [0]])) as [E|E]; [|discriminate Hc].
    injection Hc as <-. split; [reflexivity|]. intros _ Hr. exact (Hr E).
  - right. intros v ca crl Hv Hca Hcrl. cbn [sample_disk snd fst ca_cert_file crl_file] in Hca, Hcrl, Hv.
    injection Hca as <-. injection Hcrl as <-. intros E. assert (Z.of_nat v = 0) by congruence. lia.
Defined.
