(* ===== verification/EndToEnd.v ===== *)
(** From the socket to the verifier: what all the connections of a collector
    leave on the chain. *)

From stdpp Require Import relations gmap.
From S2P Require Import Prelude.
From S2P Require Import PyText.
From S2P Require Import PyValue.
From S2P Require Import JsonDumps.
From S2P Require Import CanonicalBytes.
From S2P Require Import RecordFormat.
From S2P Require Import EventSpec.
From S2P Require Import ChainStore.
From S2P Require Import ChainSpec.
From S2P Require Import ChainLogger.
From S2P Require Import ChainCheck.
From S2P Require Import LoggerFacts.
From S2P Require Import CheckFacts.
From S2P Require Import Samples.
From S2P Require Import CollectorModels.
From S2P Require Import CollectorTls.
From S2P Require Import CollectorServer.
From S2P Require Import CollectorFacts.
From S2P Require Import CollectorSteps.
From S2P Require Import CollectorTheorems.

(** ** Accepted events *)

Definition tells_accepted (e : effect) : bool :=
  match e with Response status _ => bool_decide (status = u "accepted") | _ => false end.

(** The events that were handed off by a handler that told its peer so. *)
Definition accepted_events (t : thread) : list pydict :=
  match th_phase t with
  | Done effects =>
      if existsb tells_accepted effects
      then omap (fun e => match e with Handoff event => Some event | _ => None end) effects
      else []
  | _ => []
  end.

(** The node and the sequence number of an event. *)
Definition event_key (event : pydict) : pystr * Z := (str_item event (u "node_id"), seq_of event).

(** A connection whose signer the key belongs to and whose write is not cut
    short. *)
Definition sound_connection (verify : bytes -> bytes -> bool) (c : connection) : Prop :=
  (forall sign, he_key (cn_env c) = Some sign -> good_signer verify sign) /\ no_torn_write (he_append (cn_env c)) = true.

(** A hand-off grows a verified chain by its event, if it returns. *)
Lemma handoff_step verify env event store r store' v entries :
  payload_spec event -> (forall sign, he_key env = Some sign -> good_signer verify sign) ->
  no_torn_write (he_append env) = true -> Z.of_nat (length entries) < 2 ^ 63 ->
  chain_store v store entries -> Forall (signature_ok verify) entries ->
  forensics_log_event env event store = (r, store') ->
  exists v' new, chain_store v' store' (entries ++ new) /\ Forall (signature_ok verify) (entries ++ new) /\
    map event_part (map fst new) = if is_ok r then [norm_pydict (ingestion_fields event)] else [].
Proof.
  intros Hp Hsign Htorn Hn Hc Hf H.
  assert (Hsame : store' = store -> is_ok r = false -> exists v' new, chain_store v' store' (entries ++ new) /\
    Forall (signature_ok verify) (entries ++ new) /\
    map event_part (map fst new) = if is_ok r then [norm_pydict (ingestion_fields event)] else []).
  { intros -> ->. exists v, []. by rewrite app_nil_r. }
  pose proof H as H'. unfold forensics_log_event in H. destruct (he_key_path env); [|injection H as <- <-; by apply Hsame].
  destruct (he_key env) as [sign|] eqn:Ek; [|injection H as <- <-; by apply Hsame]. cbn [negb] in H.
  specialize (Hsign sign eq_refl). destruct (log_event _ _ _ _) as [result st] eqn:El. injection H as Hr ->.
  destruct (log_event_step sign verify _ _ _ v entries _ _
    ltac:(intros ev <-%to_dict_inj; by apply ingestion_event_wf_of) Htorn Hsign Hn Hc Hf El) as (v' & new & Hc' & Hf' & Hm).
  exists v', new. split; [done|]. split; [done|]. destruct result as [record|e]; subst r; [|by rewrite Hm]. cbn [is_ok map_err].
  destruct (handoff_grows env event store store' Hp) as (es & rr & signed & H1 & H2 & H3); [| |exact H'|].
  - intros sign' Es data sg Hd. rewrite Ek in Es. injection Es as <-. by apply (Hsign data sg).
  - intros es (v0 & Hes)%read_chain_Ok. by destruct (chain_store_fun _ _ _ _ _ Hes Hc) as [-> _].
  - apply read_chain_Ok in H1 as (v1 & H1). destruct (chain_store_fun _ _ _ _ _ H1 Hc) as [-> _].
    apply read_chain_Ok in H2 as (v2 & H2). destruct (chain_store_fun _ _ _ _ _ H2 Hc') as [E%app_inv_head _].
    subst new. cbn [map fst]. by rewrite H3.
Qed.

(** ** The invariant *)

Section collector.
Context {T : TlsLibrary}.

(** The event was validated, and its node was on a published allow-list. *)
Definition event_admitted (published : list security) (event : pydict) : Prop :=
  payload_spec event /\ exists sec, sec ∈ published /\ str_item event (u "node_id") ∈ se_enrolled sec.

(** The chain holds, after [entries], one record for each accepted event, in the
    order of the hand-offs. *)
Definition recorded (verify : bytes -> bytes -> bool) (entries : list (pydict * bytes)) (s : system) : Prop :=
  exists v new events,
    chain_store v (sy_chain s) (entries ++ new) /\ Forall (signature_ok verify) (entries ++ new) /\
    map event_part (map fst new) = map (fun event => norm_pydict (ingestion_fields event)) events /\
    events ≡ₚ flat_map accepted_events (sy_threads s) /\ Forall (event_admitted (sy_published s)) events /\
    map event_key events `sublist_of` reverse (sy_handed s).

Lemma recorded_same verify entries s s' :
  sy_chain s' = sy_chain s -> sy_handed s' = sy_handed s -> sy_published s ⊆ sy_published s' ->
  flat_map accepted_events (sy_threads s') ≡ₚ flat_map accepted_events (sy_threads s) ->
  recorded verify entries s -> recorded verify entries s'.
Proof.
  intros Hc Hh Hp Ht (v & new & events & H1 & H2 & H3 & H4 & H5 & H6). exists v, new, events.
  rewrite Hc, Hh. split_and!; try done; [by rewrite Ht|]. eapply Forall_impl; [exact H5|].
  intros event (H & sec & Hsec & Hn). split; [done|]. exists sec. split; [by apply Hp|done].
Qed.

(** A handler moves on and accepts nothing. *)
Lemma accepted_update ts i t t' :
  ts !! i = Some t -> accepted_events t = [] -> accepted_events t' = [] ->
  flat_map accepted_events (<[i := t']> ts) ≡ₚ flat_map accepted_events ts.
Proof.
  intros Hi H H'. destruct (flat_map_update accepted_events ts i t t' Hi) as (rest & -> & ->). by rewrite H, H'.
Qed.

Lemma accepted_open t : is_done t = false -> accepted_events t = [].
Proof. unfold is_done, accepted_events. by destruct (th_phase t). Qed.

Lemma screened_accepts limit sec t : accepted_events (set_phase t (screened limit sec t)) = [].
Proof.
  unfold screened. destruct (cn_handshake _ _); [done|]. by destruct (screen _ _ _ _ _).
Qed.

Lemma deliver_accepts t node event env type_name store effects store' :
  deliver (th_peer t) node event env type_name store = (effects, store') ->
  exists r, forensics_log_event env event store = (r, store') /\
    accepted_events (set_phase t (Done effects)) = if is_ok r then [event] else [].
Proof.
  unfold deliver. destruct (forensics_log_event _ _ _) as [r st]. intros [= <- <-]. exists r. split; [done|].
  by destruct r.
Qed.

Lemma collector_step_recorded verify limit entries s s' :
  collector_inv s -> collector_step limit s s' ->
  Forall (fun t => sound_connection verify (th_connection t)) (sy_threads s) ->
  Z.of_nat (length entries + length (sy_handed s)) < 2 ^ 63 ->
  recorded verify entries s -> recorded verify entries s'.
Proof.
  intros Hinv Hstep Hsound Hn Hrec.
  destruct Hstep as [s s' E|raw files s s' E|i s s' E|c peer s s' E|s s' E|s s' E|s s' E|i s s' E
    |s i t sec Hi Ht|s i t sec node event previous seqs Hi Ht Hr
    |s i t sec node event previous seqs Hi Ht Hr|s i t sec node event effects store Hi Ht Hd];
    try (assert (Hopen : accepted_events t = []) by (apply accepted_open; unfold is_done; by rewrite Ht)).
  - unfold start in E. by destruct (sy_lifecycle s); simplify_eq.
  - by apply bind_Ok in E as (sec & _ & [= <-]).
  - unfold reload_security_state in E. destruct (sy_loaded s !! i) as [sec|]; simplify_eq.
    eapply (recorded_same _ _ s); [done|done| |done|done]. cbn. by apply list_subseteq_cons.
  - unfold _accept_loop in E. destruct (sy_lifecycle s); simplify_eq. eapply (recorded_same _ _ s); [done|done|by intros ?| |done].
    cbn. by rewrite flat_map_app, app_nil_r.
  - unfold accept_failed in E. by destruct (sy_lifecycle s); simplify_eq.
  - unfold close in E. by destruct (sy_lifecycle s); simplify_eq.
  - unfold close_gathered in E. by destruct (sy_lifecycle s), (forallb is_done (sy_threads s)); simplify_eq.
  - unfold read_security in E. destruct (sy_threads s !! i) as [t|] eqn:Hi; [|done].
    destruct (th_phase t) eqn:Ht; simplify_eq. eapply (recorded_same _ _ s); [done|done|by intros ?| |done]. eapply accepted_update; [done| |done].
    apply accepted_open. unfold is_done. by rewrite Ht.
  - eapply (recorded_same _ _ s); [done|done|by intros ?| |done]. eapply accepted_update; [done|done|apply screened_accepts].
  - eapply (recorded_same _ _ s); [done|done|by intros ?| |done]. by eapply accepted_update.
  - eapply (recorded_same _ _ s); [done|done|by intros ?| |done]. by eapply accepted_update.
  - pose proof (proj1 (Forall_lookup _ _) (ci_phases _ Hinv) i t Hi) as Hok. unfold phase_ok in Hok. rewrite Ht in Hok.
    destruct Hok as (Hpub & Hen & Hp & Hnode & _). destruct (proj1 (Forall_lookup _ _) Hsound i t Hi) as [Hsign Htorn].
    destruct Hrec as (v & new & events & H1 & H2 & H3 & H4 & H5 & H6).
    apply deliver_accepts in Hd as (r & Hlog & Hacc).
    assert (Hlen : length new = length events) by (apply (f_equal length) in H3; by rewrite !length_map in H3).
    pose proof (sublist_length _ _ H6) as Hle. rewrite length_map, length_reverse in Hle.
    destruct (handoff_step verify _ _ _ _ _ v (entries ++ new) Hp Hsign Htorn ltac:(rewrite length_app; lia) H1 H2 Hlog)
      as (v' & new' & H1' & H2' & H3'). rewrite <- app_assoc in H1', H2'.
    destruct (flat_map_update accepted_events _ i t (set_phase t (Done effects)) Hi) as (rest & Hr & Hr').
    rewrite Hopen in Hr. cbn [app] in Hr.
    exists v', (new ++ new'), (events ++ if is_ok r then [event] else []). cbn [sy_chain sy_threads sy_handed].
    split; [done|]. split; [done|]. split; [rewrite !map_app, H3, H3'; by destruct (is_ok r)|].
    split; [rewrite Hr', Hacc, H4, Hr; apply Permutation_app_comm|].
    split; [apply Forall_app_2; [done|]; destruct (is_ok r); constructor; [|constructor]; split; [done|]; exists sec; by rewrite Hnode|].
    rewrite reverse_cons, map_app. apply sublist_app; [done|].
    destruct (is_ok r); [|apply sublist_nil_l]. cbn. unfold event_key. by rewrite Hnode.
Qed.

Lemma collector_step_grows limit s s' : collector_step limit s s' ->
  (exists more, map th_connection (sy_threads s') = map th_connection (sy_threads s) ++ more) /\
  (length (sy_handed s) <= length (sy_handed s'))%nat.
Proof.
  assert (Hset : forall ts i t p, ts !! i = Some t ->
    exists more, map th_connection (<[i := set_phase t p]> ts) = map th_connection ts ++ more).
  { intros ts i t p Hi. exists []. rewrite app_nil_r. rewrite list_fmap_insert. apply list_insert_id.
    by rewrite list_lookup_fmap, Hi. }
  intros Hstep.
  destruct Hstep as [s s' E|raw files s s' E|i s s' E|c peer s s' E|s s' E|s s' E|s s' E|i s s' E
    |s i t sec Hi Ht|s i t sec node event previous seqs Hi Ht Hr
    |s i t sec node event previous seqs Hi Ht Hr|s i t sec node event effects store Hi Ht Hd];
    try (split; [by apply Hset|cbn; lia]).
  - unfold start in E. destruct (sy_lifecycle s); simplify_eq; (split; [by exists []; rewrite app_nil_r|done]).
  - apply bind_Ok in E as (sec & _ & [= <-]). split; [by exists []; rewrite app_nil_r|done].
  - unfold reload_security_state in E. destruct (sy_loaded s !! i); simplify_eq. split; [by exists []; rewrite app_nil_r|done].
  - unfold _accept_loop in E. destruct (sy_lifecycle s); simplify_eq. split; [exists [c]; cbn; by rewrite map_app|done].
  - unfold accept_failed in E. destruct (sy_lifecycle s); simplify_eq. split; [by exists []; rewrite app_nil_r|done].
  - unfold close in E. destruct (sy_lifecycle s); simplify_eq; (split; [by exists []; rewrite app_nil_r|done]).
  - unfold close_gathered in E. destruct (sy_lifecycle s), (forallb is_done (sy_threads s)); simplify_eq.
    split; [by exists []; rewrite app_nil_r|done].
  - unfold read_security in E. destruct (sy_threads s !! i) as [t|] eqn:Hi; [|done].
    destruct (th_phase t); simplify_eq. split; [by apply Hset|done].
Qed.

Lemma collector_reachable_recorded verify limit sec store v entries s :
  chain_store v store entries -> Forall (signature_ok verify) entries ->
  collector_reachable limit sec store s ->
  Forall (sound_connection verify) (map th_connection (sy_threads s)) ->
  Z.of_nat (length entries + length (sy_handed s)) < 2 ^ 63 -> recorded verify entries s.
Proof.
  intros Hc Hf Hr.
  enough (collector_inv s /\ (Forall (sound_connection verify) (map th_connection (sy_threads s)) ->
    Z.of_nat (length entries + length (sy_handed s)) < 2 ^ 63 -> recorded verify entries s)) by tauto.
  eapply (rtc_invariant (collector_step limit) (fun s => collector_inv s /\
    (Forall (sound_connection verify) (map th_connection (sy_threads s)) ->
     Z.of_nat (length entries + length (sy_handed s)) < 2 ^ 63 -> recorded verify entries s))); [|exact Hr|].
  - intros a b [Ha Hrec] Hab. split; [by eapply collector_step_inv|]. intros Hs Hn.
    destruct (collector_step_grows _ _ _ Hab) as [[more Hm] Hle]. rewrite Hm in Hs. apply Forall_app in Hs as [Hs _].
    eapply collector_step_recorded; [done|done| |lia|apply Hrec; [done|lia]].
    exact (proj1 (Forall_fmap _ _ _) Hs).
  - split; [apply collector_start_inv|]. intros _ _. exists v, [], []. rewrite app_nil_r. split_and!; try done.
Qed.

(** C4: the whole way of an event.  However connections, reloads, start and
    close interleave, when the signer belongs to the key and no write is cut
    short, the chain of the collector verifies; after what it held at the start
    it has exactly one record for each event whose peer was told [accepted], in
    the order of the hand-offs, and none for any other; each such event was
    validated, came from a node on an allow-list that was in force, and no two
    have the same node and sequence number. *)
Theorem accepted_events_verify verify limit sec store v entries s
  (Hstore : chain_store v store entries) (Hsigned : Forall (signature_ok verify) entries)
  (Hreach : collector_reachable limit sec store s)
  (Hsound : Forall (sound_connection verify) (map th_connection (sy_threads s)))
  (Hbound : Z.of_nat (length entries + length (sy_handed s)) < 2 ^ 63) :
  exists new events,
    read_chain (sy_chain s) = Ok (entries ++ new) /\
    (forall content, sy_chain s = Some content ->
       verify_chain verify true true (Some content)
       = Ok {| records_verified := Z.of_nat (length entries + length events); tip_hash := last_hash (entries ++ new) |}) /\
    map event_part (map fst new) = map (fun event => norm_pydict (ingestion_fields event)) events /\
    events ≡ₚ flat_map accepted_events (sy_threads s) /\
    Forall (event_admitted (sy_published s)) events /\
    NoDup (map event_key events) /\ map event_key events `sublist_of` reverse (sy_handed s).
Proof.
  destruct (collector_reachable_recorded _ _ _ _ _ _ _ Hstore Hsigned Hreach Hsound Hbound)
    as (v' & new & events & H1 & H2 & H3 & H4 & H5 & H6). exists new, events.
  split; [apply read_chain_Ok; by exists v'|]. split.
  { intros content E. apply verify_chain_Ok. split; [done|]. split; [done|]. exists content, v', (entries ++ new).
    rewrite <- E. split_and!; try done. apply (f_equal length) in H3. rewrite !length_map in H3. by rewrite length_app, H3. }
  split_and!; try done. eapply sublist_NoDup; [|exact H6]. rewrite reverse_Permutation.
  apply collector_reachable_inv in Hreach. by apply handed_nodup.
Qed.
End collector.

#[local] Existing Instance sample_tls.

Lemma accepted_events_verify_witness :
  exists s new, collector_reachable 65536 sample_security None s /\ read_chain (sy_chain s) = Ok new /\
    length new = 1%nat /\ flat_map accepted_events (sy_threads s) = [sample_payload].
Proof.
  destruct (deliver [] (u "node-01") sample_payload (cn_env sample_connection) (cn_type_name sample_connection) None)
    as [effects st] eqn:Ed.
  pose proof (sample_handled_reachable effects st Ed) as Hr. set (s := sample_handled effects st) in *.
  assert (Ha : accepted_events (Thread sample_connection [] (Done effects)) = [sample_payload]).
  { destruct (deliver_accepts (Thread sample_connection [] Accepted) _ _ _ _ _ _ _ Ed) as (r & Hlog & Hacc).
    unfold set_phase in Hacc. cbn [th_connection th_peer] in Hacc. rewrite Hacc.
    pose proof sample_handoff as Hh.
    change (cn_env sample_connection) with (HandoffEnv true (Some toy_sign) good_environment) in Hlog.
    rewrite Hlog in Hh. cbn [fst] in Hh. subst r. reflexivity. }
  destruct (accepted_events_verify toy_verify 65536 sample_security None 1 [] s eq_refl (List.Forall_nil _) Hr)
    as (new & events & Hread & _ & Hm & Hp & _).
  - constructor; [|constructor]. split; [|reflexivity]. intros sign [= <-] data sg [= <-].
    split; [by repeat constructor|]. intros _. by apply bool_decide_eq_true.
  - reflexivity.
  - exists s, new. split; [exact Hr|]. split; [exact Hread|]. split; [|cbn [s sample_handled sy_threads flat_map]; by rewrite Ha].
    apply (f_equal length) in Hm. rewrite !length_map in Hm. rewrite Hm. apply Permutation_length in Hp. rewrite Hp.
    cbn [s sample_handled sy_threads flat_map]. by rewrite Ha.
Defined.
