(* ===== verification/AnchoredEvents.v ===== *)
(** From the socket to the proof: the events that a collector accepted, and the
    proofs of the worker for the tip of its chain. *)

From stdpp Require Import relations gmap.
From S2P Require Import Prelude.
From S2P Require Import PyText.
From S2P Require Import PyValue.
From S2P Require Import JsonDumps.
From S2P Require Import RecordFormat.
From S2P Require Import EventSpec.
From S2P Require Import CanonicalBytes.
From S2P Require Import RecordLaws.
From S2P Require Import Sha256.
From S2P Require Import ChainStore.
From S2P Require Import ChainSpec.
From S2P Require Import ChainLogger.
From S2P Require Import LoggerFacts.
From S2P Require Import CheckFacts.
From S2P Require Import Samples.
From S2P Require Import Anchor.
From S2P Require Import AnchorStore.
From S2P Require Import Calendar.
From S2P Require Import AnchorWorker.
From S2P Require Import RunFacts.
From S2P Require Import AnchorFacts.
From S2P Require Import WorkerSharing.
From S2P Require Import WorkerSharingFacts.
From S2P Require Import WorkerRace.
From S2P Require Import WorkerSharingTheorems.
From S2P Require Import AnchoredHistory.
From S2P Require Import CollectorModels.
From S2P Require Import CollectorTls.
From S2P Require Import CollectorServer.
From S2P Require Import CollectorFacts.
From S2P Require Import CollectorSteps.
From S2P Require Import CollectorTheorems.
From S2P Require Import EndToEnd.




Section anchored.
Context {T : TlsLibrary} `{OpenTimestamps}.

End anchored.

#[local] Existing Instance sample_tls.


