(* ===== verification/Keys.v ===== *)
(** [forensics/keys.py]: the signing keys and their files.

    The [cryptography] package is not part of the repository: [KeyLibrary] is
    the interface to it.  Files are a finite map from resolved path texts to a
    mode and octets; what the operating system does during a call, and what
    other processes do meanwhile, are parameters. *)

From stdpp Require Import gmap.
From S2P Require Import Prelude.
From S2P Require Import PyText.

(** ** Data *)

Record key_file := KeyFile { file_mode : Z; file_bytes : bytes }.

Notation key_files := (@gmap (list Z) (@list_eq_dec Z Z.eq_dec) (@list_countable Z Z.eq_dec Z_countable) key_file)
  (only parsing).

(** What a call raises: the [ValueError] of an empty password, a
    [FileExistsError], another [OSError], what the encoder or the loader of the
    library raises, and the [TypeError] of a key of another kind. *)
Inductive key_exn :=
| EmptyPassword
| KeyFileExists
| KeyOSError
| KeyEncodeError
| KeyLoadError
| NotEd25519.

Inductive loaded_key (K : Type) := Ed25519Key (k : K) | OtherKey.
Arguments Ed25519Key {K} k.
Arguments OtherKey {K}.

(** [private_pem key password salt] is the PKCS#8 text under the random [salt];
    the encoder may refuse a password, the loaders refuse a text. *)
Class KeyLibrary := {
  private_key : Type;
  public_key : Type;
  public_of : private_key -> public_key;
  private_pem : private_key -> option bytes -> bytes -> option bytes;
  public_pem : public_key -> bytes;
  load_pem_private_key : bytes -> option bytes -> option (loaded_key private_key);
  load_pem_public_key : bytes -> option (loaded_key public_key)
}.

(** The documented behaviour: each loader reads what its encoder wrote, under
    the same password. *)
Class KeyLaws (L : KeyLibrary) : Prop := {
  load_private_pem : forall k password salt pem,
    private_pem k password salt = Some pem -> load_pem_private_key pem password = Some (Ed25519Key k);
  load_public_pem : forall k, load_pem_public_key (public_pem k) = Some (Ed25519Key k)
}.

(** ** One file *)

(** The step at which an [OSError] comes: the directory, the creation, or after
    [written] octets, [fsync] included. *)
Inductive save_fault :=
| NoFault
| MkdirFault
| OpenFault
| WriteFault (written : nat).

(** A file that must not exist is created and written. *)
Definition create_exclusive (fault : save_fault) (mode : Z) (target : pystr) (data : bytes) (fs : key_files)
  : key_files * res key_exn unit :=
  if bool_decide (is_Some (fs !! target)) then (fs, Err KeyFileExists)
  else match fault with
  | WriteFault n => (<[target := KeyFile mode (take n data)]> fs, Err KeyOSError)
  | NoFault => (<[target := KeyFile mode data]> fs, Ok tt)
  | _ => (fs, Err KeyOSError)
  end.

(** The mode a file gets: what the call asks for, less the [umask]. *)
Definition masked (umask mode : Z) : Z := Z.land mode (Z.lnot umask).

Section keys.
Context `{L : KeyLibrary} (umask : Z).

(** [os.open(path, flags, 0o600)] *)
Definition _write_secret_exclusive (fault : save_fault) (path : pystr) (data : bytes) (fs : key_files)
  : key_files * res key_exn unit :=
  create_exclusive fault (masked umask 384) path data fs.

Definition save_private_key (fault : save_fault) (salt : bytes) (key : private_key) (target : pystr)
  (password : option bytes) (fs : key_files) : key_files * res key_exn unit :=
  match fault, password with
  | MkdirFault, _ => (fs, Err KeyOSError)
  | _, Some [] => (fs, Err EmptyPassword)
  | _, _ =>
      match private_pem key password salt with
      | None => (fs, Err KeyEncodeError)
      | Some encoded => _write_secret_exclusive fault target encoded fs
      end
  end.

(** [target.open("xb")] asks for the mode 0o666. *)
Definition save_public_key (fault : save_fault) (key : public_key) (target : pystr) (fs : key_files)
  : key_files * res key_exn unit :=
  match fault with
  | MkdirFault => (fs, Err KeyOSError)
  | _ => create_exclusive fault (masked umask 438) target (public_pem key) fs
  end.

Definition read_key_file (path : pystr) (fs : key_files) : res key_exn bytes :=
  match fs !! path with Some f => Ok (file_bytes f) | None => Err KeyOSError end.

Definition loaded {K} (o : option (loaded_key K)) : res key_exn K :=
  match o with Some (Ed25519Key k) => Ok k | Some OtherKey => Err NotEd25519 | None => Err KeyLoadError end.

Definition load_private_key (path : pystr) (password : option bytes) (fs : key_files) : res key_exn private_key :=
  pem ← read_key_file path fs; loaded (load_pem_private_key pem password).

Definition load_public_key (path : pystr) (fs : key_files) : res key_exn public_key :=
  pem ← read_key_file path fs; loaded (load_pem_public_key pem).

(** ** A pair of files *)

(** What the system does during one call: the faults of the three steps, and
    what other processes do to the files before each of the two writes. *)
Record keypair_run := KeypairRun {
  private_fault : save_fault;
  public_fault : save_fault;
  unlink_fails : bool;
  before_private : key_files -> key_files;
  before_public : key_files -> key_files
}.

Definition generate_and_save_keypair (run : keypair_run) (salt : bytes) (key : private_key)
  (private_target public_target : pystr) (password : option bytes) (fs : key_files)
  : key_files * res key_exn (pystr * pystr) :=
  if bool_decide (is_Some (fs !! private_target)) || bool_decide (is_Some (fs !! public_target))
  then (fs, Err KeyFileExists)
  else
    match save_private_key (private_fault run) salt key private_target password (before_private run fs) with
    | (fs, Err e) => (fs, Err e)
    | (fs, Ok _) =>
        match save_public_key (public_fault run) (public_of key) public_target (before_public run fs) with
        | (fs, Ok _) => (fs, Ok (private_target, public_target))
        | (fs, Err e) => if unlink_fails run then (fs, Err KeyOSError) else (delete private_target fs, Err e)
        end
    end.

End keys.
