(* ===== verification/KeysTheorems.v ===== *)
(** The files [generate_and_save_keypair] leaves behind. *)

From stdpp Require Import gmap.
From S2P Require Import Prelude.
From S2P Require Import PyText.
From S2P Require Import Keys.

(** What one save did: nothing, an incomplete file, or the file. *)
Inductive saved (t : pystr) (f : key_file) (fs : key_files) : save_fault -> key_files -> res key_exn unit -> Prop :=
| SavedNothing fault e : saved t f fs fault fs (Err e)
| SavedPart n : fs !! t = None ->
    saved t f fs (WriteFault n) (<[t := KeyFile (file_mode f) (take n (file_bytes f))]> fs) (Err KeyOSError)
| SavedAll : fs !! t = None -> saved t f fs NoFault (<[t := f]> fs) (Ok tt).

Lemma create_saved fault mode t data (fs fs' : key_files) r :
  create_exclusive fault mode t data fs = (fs', r) -> saved t (KeyFile mode data) fs fault fs' r.
Proof.
  unfold create_exclusive. case_bool_decide as H; [intros [= <- <-]; constructor|].
  apply eq_None_not_Some in H.
  destruct fault; intros [= <- <-]; [by apply SavedAll|constructor..|by apply (SavedPart t (KeyFile mode data))].
Qed.

Lemma saved_grows t f (fs fs' : key_files) fault r : saved t f fs fault fs' r -> fs ⊆ fs'.
Proof. intros []; [done|by apply insert_subseteq..]. Qed.

(** Only [WriteFault] leaves a part. *)
Lemma saved_clean t f (fs fs' : key_files) fault e :
  saved t f fs fault fs' (Err e) -> (forall n, fault <> WriteFault n) -> fs' = fs.
Proof. inversion 1; [done|]. intros H'. by destruct (H' n). Qed.

Section pair.
Context `{L : KeyLibrary} (umask : Z).

Lemma save_private_saved fault salt k t pw (fs fs' : key_files) r :
  save_private_key umask fault salt k t pw fs = (fs', r) ->
  (fs' = fs /\ exists e, r = Err e) \/
  exists pem, private_pem k pw salt = Some pem /\ pw <> Some [] /\
    saved t (KeyFile (masked umask 384) pem) fs fault fs' r.
Proof.
  unfold save_private_key, _write_secret_exclusive.
  assert (Hrun : match private_pem k pw salt with
                 | Some encoded => create_exclusive fault (masked umask 384) t encoded fs
                 | None => (fs, Err KeyEncodeError)
                 end = (fs', r) -> pw <> Some [] ->
    (fs' = fs /\ exists e, r = Err e) \/
    exists pem, private_pem k pw salt = Some pem /\ pw <> Some [] /\
      saved t (KeyFile (masked umask 384) pem) fs fault fs' r).
  { destruct (private_pem k pw salt) as [pem|]; [|intros [= <- <-]; eauto].
    intros H%create_saved Hpw. right. eauto. }
  destruct fault, pw as [[|]|]; try (intros [= <- <-]; by eauto); intros H; apply Hrun in H; done.
Qed.

Lemma save_public_saved fault k t (fs fs' : key_files) r :
  save_public_key umask fault k t fs = (fs', r) ->
  saved t (KeyFile (masked umask 438) (public_pem k)) fs fault fs' r.
Proof. destruct fault; [apply create_saved|intros [= <- <-]; constructor|apply create_saved..]. Qed.

(** Other processes only add files. *)
Definition only_adds (f : key_files -> key_files) : Prop := forall fs, fs ⊆ f fs.

(** No write stops half way, and the removal of the private key works. *)
Definition whole_writes (run : keypair_run) : Prop :=
  (forall n, private_fault run <> WriteFault n) /\ (forall n, public_fault run <> WriteFault n) /\ unlink_fails run = false.

Lemma group_bits (m : Z) : Z.land (masked umask 384) 63 = 0.
Proof.
  unfold masked. rewrite (Z.land_comm 384), <- Z.land_assoc. change (Z.land 384 63) with 0. by rewrite Z.land_0_r.
Qed.

Lemma pair_outcome `{!KeyLaws L} run salt k priv pub pw (fs fs' : key_files) r :
  only_adds (before_private run) -> only_adds (before_public run) ->
  generate_and_save_keypair umask run salt k priv pub pw fs = (fs', r) ->
  fs ⊆ fs' /\
  (forall paths, r = Ok paths ->
     paths = (priv, pub) /\ load_private_key priv pw fs' = Ok k /\ load_public_key pub fs' = Ok (public_of k) /\
     fs !! priv = None /\ fs !! pub = None /\ exists f, fs' !! priv = Some f /\ Z.land (file_mode f) 63 = 0) /\
  (forall e, r = Err e -> whole_writes run -> before_private run = id -> before_public run = id -> fs' = fs).
Proof.
  intros Hadd1 Hadd2. unfold generate_and_save_keypair.
  destruct (bool_decide (is_Some (fs !! priv))) eqn:Ep; cbn [orb]; [intros [= <- <-]; by repeat split|].
  destruct (bool_decide (is_Some (fs !! pub))) eqn:Eq; [intros [= <- <-]; by repeat split|].
  apply bool_decide_eq_false, eq_None_not_Some in Ep, Eq.
  destruct (save_private_key _ _ _ _ _ _ _) as [fs1 r1] eqn:E1. specialize (Hadd1 fs).
  pose proof (save_private_saved _ _ _ _ _ _ _ _ E1) as H1.
  assert (Hg1 : fs ⊆ fs1).
  { etrans; [exact Hadd1|]. destruct H1 as [[-> _]|(pem & _ & _ & H1)]; [done|by eapply saved_grows]. }
  destruct r1 as [[]|e1].
  2:{ intros [= <- <-]. split; [done|]. split; [done|]. intros _ _ (Hw & _ & _) Hi1 _. rewrite Hi1 in H1.
      destruct H1 as [[-> _]|(pem & _ & _ & H1)]; [done|]. by apply saved_clean in H1. }
  destruct H1 as [[_ [? [=]]]|(pem & Hpem & Hpw & H1)].
  inversion H1 as [| |Hnone Hfault]; subst fs1. specialize (Hadd2 (<[priv:=KeyFile (masked umask 384) pem]> (before_private run fs))).
  set (mine := KeyFile (masked umask 384) pem) in *. set (fs2 := before_public run _) in *.
  assert (Hmine : fs2 !! priv = Some mine) by (eapply lookup_weaken; [|exact Hadd2]; by simplify_map_eq).
  assert (Hg2 : fs ⊆ fs2) by (by etrans).
  destruct (save_public_key _ _ _ _ _) as [fs3 r3] eqn:E3.
  pose proof (save_public_saved _ _ _ _ _ _ E3) as H3. pose proof (saved_grows _ _ _ _ _ _ H3) as Hg3.
  destruct r3 as [[]|e3].
  - intros [= <- <-]. split; [by etrans|]. split; [|done]. intros paths [= <-]. split; [done|].
    assert (Hpriv : fs3 !! priv = Some mine) by (by eapply lookup_weaken).
    inversion H3 as [| |Hpub Hpf]; subst fs3. unfold load_private_key, load_public_key, read_key_file.
    rewrite Hpriv, lookup_insert_eq. cbn. rewrite load_public_pem, (load_private_pem _ _ _ _ Hpem). split_and!; try done.
    exists mine. split; [done|]. by apply group_bits.
  - assert (Hdel : fs ⊆ delete priv fs3).
    { apply map_subseteq_spec. intros p x Hx. rewrite lookup_delete_ne by congruence.
      eapply lookup_weaken; [exact Hx|by etrans]. }
    destruct (unlink_fails run) eqn:Eu; intros [= <- <-];
      (split; [first [exact Hdel|exact (transitivity Hg2 Hg3)]|]); (split; [done|]).
    + intros _ _ (_ & _ & ?). congruence.
    + intros _ _ (_ & Hw & _) Hi1 Hi2. apply saved_clean in H3; [|done]. subst fs3. unfold fs2. rewrite Hi2, Hi1.
      cbn. rewrite Hi1 in Hnone. by apply delete_insert_id.
Qed.

(** Without faults and with two free paths, the pair is saved. *)
Definition undisturbed (run : keypair_run) : Prop :=
  private_fault run = NoFault /\ public_fault run = NoFault /\ before_private run = id /\ before_public run = id.

Lemma keypair_saved run salt (k : private_key) priv pub pw (fs : key_files) :
  undisturbed run -> pw <> Some [] -> is_Some (private_pem k pw salt) -> priv <> pub ->
  fs !! priv = None -> fs !! pub = None ->
  (generate_and_save_keypair umask run salt k priv pub pw fs).2 = Ok (priv, pub).
Proof.
  intros (F1 & F2 & I1 & I2) Hpw [pem Hpem] Hne Hp Hq. unfold generate_and_save_keypair. rewrite Hp, Hq, F1, F2, I1, I2.
  rewrite !bool_decide_eq_false_2 by (by intros []). cbn [orb].
  unfold save_private_key, save_public_key, _write_secret_exclusive, create_exclusive, id. rewrite Hpem, Hp.
  rewrite bool_decide_eq_false_2 by (by intros []).
  destruct pw as [[|]|]; [done|..]; rewrite lookup_insert_ne by done; rewrite Hq;
    rewrite bool_decide_eq_false_2 by (by intros []); done.
Qed.

End pair.

(** A library of keys as numbers, to show that the laws can hold. *)
#[export] Instance toy_keys : KeyLibrary := {|
  private_key := Z;
  public_key := Z;
  public_of := fun k => k + 1;
  private_pem := fun k password salt => Some (k :: default [] password);
  public_pem := fun k => [k];
  load_pem_private_key := fun pem password =>
    match pem with k :: rest => if bool_decide (rest = default [] password) then Some (Ed25519Key k) else None | [] => None end;
  load_pem_public_key := fun pem => match pem with [k] => Some (Ed25519Key k) | _ => None end
|}.

#[export] Instance toy_key_laws : KeyLaws toy_keys.
Proof.
  split; [|done]. intros k password salt pem [= <-]. cbn. by rewrite bool_decide_eq_true_2.
Qed.

(** C37: whatever fails and whatever other processes add meanwhile,
    [generate_and_save_keypair] never changes or removes a file it did not
    make; when it returns, both files were absent before, the two loaders give
    back the key (under the same password) and its public key, and no one but
    the owner may read the private one; and when it raises, it leaves no file
    behind, unless a write stopped half way or the removal failed.  With two
    different free paths, an accepted password and no disturbance it returns. *)
Theorem keypair_saved_whole (L : KeyLibrary) (laws : KeyLaws L) umask run salt (k : private_key) priv pub pw
  (fs fs' : key_files) r :
  only_adds (before_private run) -> only_adds (before_public run) ->
  generate_and_save_keypair umask run salt k priv pub pw fs = (fs', r) ->
  fs ⊆ fs' /\
  (forall paths, r = Ok paths ->
     paths = (priv, pub) /\ load_private_key priv pw fs' = Ok k /\ load_public_key pub fs' = Ok (public_of k) /\
     fs !! priv = None /\ fs !! pub = None /\ exists f, fs' !! priv = Some f /\ Z.land (file_mode f) 63 = 0) /\
  (forall e, r = Err e -> whole_writes run -> before_private run = id -> before_public run = id -> fs' = fs) /\
  (undisturbed run -> pw <> Some [] -> is_Some (private_pem k pw salt) -> priv <> pub ->
   fs !! priv = None -> fs !! pub = None -> r = Ok (priv, pub)).
Proof.
  intros H1 H2 E. pose proof (keypair_saved (L:=L) umask run salt k priv pub pw fs) as Hok. rewrite E in Hok.
  destruct (pair_outcome (L:=L) umask run salt k priv pub pw fs fs' r H1 H2 E) as (? & ? & ?). auto.
Qed.

(** The two targets are one file: the private key is written, and removed. *)
Definition quiet_run : keypair_run := KeypairRun NoFault NoFault false id id.
Definition same_path : pystr := u "/keys/node".

Lemma keypair_saved_whole_witness :
  exists fs', generate_and_save_keypair (L:=toy_keys) 18 quiet_run [] 5 same_path same_path None ∅ = (fs', Err KeyFileExists) /\ fs' = ∅.
Proof.
  destruct (generate_and_save_keypair (L:=toy_keys) 18 quiet_run [] 5 same_path same_path None ∅) as [fs' r] eqn:E.
  assert (Hadd : only_adds id) by (intros fs; reflexivity).
  destruct (keypair_saved_whole toy_keys toy_key_laws 18 quiet_run [] 5 same_path same_path None ∅ fs' r Hadd Hadd E)
    as (_ & _ & Herr & _).
  assert (Hr : r = Err KeyFileExists) by (vm_compute in E; congruence).
  exists fs'. split; [by rewrite Hr|]. apply (Herr _ Hr); [|done..]. by repeat split.
Defined.

(** A write of the private key that stops leaves a part of it, and the next
    call refuses to run. *)
Example partial_key_blocks_retry :
  let '(fs, first) := generate_and_save_keypair (L:=toy_keys) 18 (KeypairRun (WriteFault 1) NoFault false id id) [] 5
                        (u "a") (u "b") (Some [7]) ∅ in
  first = Err KeyOSError /\ fs !! u "a" = Some (KeyFile 384 [5]) /\
  generate_and_save_keypair (L:=toy_keys) 18 quiet_run [] 5 (u "a") (u "b") (Some [7]) fs = (fs, Err KeyFileExists).
Proof. vm_compute. by repeat split. Qed.
